(* ===== verification/_CoqProject ===== *)
-Q . S2P
Prelude.v
GoStd.v
GoTime.v
Api.v
Sync.v
SyncSerial.v
LockOrder.v
DeepCopy.v
DeepCopyFacts.v
Runtime.v
Cache.v
TestEnv.v
CacheFacts.v
CacheStore.v
CacheDelete.v
CacheWorkers.v
CacheSystem.v
CacheLocks.v
CacheSerial.v
CacheClients.v
EventSource.v
Controller.v
Mux.v
MuxFacts.v
MuxRestart.v
Management.v
ClusterController.v
RestartLock.v
MachineController.v
MachineFacts.v
MachineClients.v
EtcdServer.v
CacheIsolation.v
ApiServer.v
ApiFacts.v
PortForward.v
PortForwardFacts.v
Proxy.v
ProxyFacts.v
EndToEnd.v
Startup.v
