(* ===== verification/Prelude.v ===== *)
(** * Verification of the Cluster API provider "goofy"

    The program is a Cluster API infrastructure provider that fakes its machines: it
    keeps the cloud in memory and serves, for each workload cluster, a fake API server
    and a fake etcd.  This development models its core, function by function, and
    proves what each part promises.

    ** The program and the files

    - The in-memory cloud (internal/cloud/runtime/cache): a cache with one tracker per
      resource group, optimistic locking, ownership, cascading deletion with
      finalizers, a garbage collector and a syncer.
      [Cache.v]: the struct [cache] and the functions of cache.go, client.go, hooks.go,
      informer.go, sync.go and gc.go, under their names ([List_], [Patch_] avoid clashes).
      [CacheFacts.v]: well-formed trackers and lemmas on the helpers.
      [CacheStore.v]: Create, Update, Get and List; [store_spec] is the abstract
      specification of store, [store_refines] the refinement.
      [CacheDelete.v]: Delete; [CacheWorkers.v]: garbage collector and syncer;
      [CacheSystem.v]: the cache as a transition system and its invariant.
    - The controller runtime of the cloud (internal/cloud/runtime/...).
      [EventSource.v]: packages event, predicate, handler, source; [informer_event_handler]
      is the instance of the interface [InformEventHandler] between cache and sources.
      [Controller.v]: packages controller, manager, builder and resourcegroup;
      controllers live in a heap that the manager and the builder share.
    - The multiplexer of workload clusters (internal/server: mux.go, listener.go,
      certs.go).  [Mux.v]: the operations; [MuxFacts.v]: the invariant, the loop of the hot
      restart, and the mux as a transition system ([mux_step]: the calls, and hot restarts
      from clusters that agree with the mux); [MuxRestart.v]: what a hot restart restores,
      and what it does otherwise.
    - The reconcilers (internal/controllers).  [Management.v]: the world they share and
      the management cluster; [ClusterController.v] and [MachineController.v]: the two
      Reconcile methods with all their parts; [MachineFacts.v]: properties of the latter, and what
      all reconciliations keep of the mux ([reconciles]);
      [MachineClients.v]: the calls of the cloud by many reconciliations of worker machines
      at once.
    - The servers of a workload cluster (internal/server: api, etcd, proxy).
      [ApiServer.v]: the routes and handlers of the fake API server; [CacheIsolation.v]:
      what a call can change of other resource groups; [ApiFacts.v]: the properties.
      [EtcdServer.v]: the fake etcd.  [PortForward.v]: the port forwarding of a
      connection, its goroutines as atomic steps ([act]) on an explicit heap of stream
      pairs; [PortForwardFacts.v]: the steps as a labelled relation ([next]), the
      invariants, and the abstract specification [matcher_step] with its refinement.
      [Proxy.v], [ProxyFacts.v]: the client side, the dialer of port-forwarded
      connections, composed with the server side.
      [EndToEnd.v] composes the controllers, the mux, the cache and the API server.
    - The start (main.go, controllers/alias.go, SetupWithManager of the reconcilers and
      webhooks).  [Startup.v]: the flags, the schemes and main, up to the start of the
      manager of controller-runtime.
    - The API types (api/v1alpha1, internal/cloud/api/v1alpha1).  [DeepCopy.v]: the types,
      their webhooks and their generated deep copies on an explicit heap;
      [DeepCopyFacts.v]: a copy reads like the original and shares nothing with it.
    - Concurrency.  [Sync.v]: goroutines and sync.RWMutex, the theory of lock orders;
      [SyncSerial.v]: clients of atomic operations as the abstract specification of
      goroutines with locks, and the simulation; [LockOrder.v]: the lock
      operations of every function of the cloud, the mux and the reconcilers that
      takes a lock; [CacheLocks.v]: the operations on a resource group as programs with
      locks on the state of [Cache.v]; [CacheSerial.v]: many of them at once;
      [CacheClients.v]: goroutines that call several in turn, Patch among them;
      [RestartLock.v]: the hot restart by many goroutines at once.
    - Foundations.  [Prelude.v] (this file): the effect [Go] of Go code, automation;
      [GoStd.v]: 64-bit ints, strconv, strings, net.JoinHostPort; [GoTime.v]: the
      calendar, time.Format and time.Parse for RFC 3339; [Api.v]: objects and API
      errors; [Runtime.v]: the class [Env] of what the cache uses of the Kubernetes
      libraries, with its laws [EnvLaws]; [TestEnv.v]: a concrete environment.

    ** How the code is read

    A function that changes state is a program of the monad [Go W]: it returns, panics
    or, where it recurses with fuel, needs more of it.  Errors are results.  A method
    that mutates its argument returns the argument as it leaves it.  A pointer whose
    aliases matter is a key of a map or an index of a heap.  A nil map or slice is
    [None].  An [int] is a Z that operations wrap to 64 bits.  An operation of the
    cache or of the mux runs as one atomic step, as its locks enforce, and interleavings
    are sequences of such steps ([goroutines_refine_clients] shows it for the operations
    on a resource group); only Patch is two, Get and store, and a change between
    them shows as a conflict of resource versions ([patches_compose]).  Objects are values, since the
    code copies them deeply when they go in or out.  Third-party code is a parameter: the classes [Env]
    (scheme, JSON patches, clock, order of map iteration, work queues as the list of
    calls they get), [Net] (certificates, sockets), [Restful] (the router and the
    response writer of go-restful, with the laws [ApiLaws]), [MatchLabels] (the selector
    of controller-runtime) and [Management] (the clients and helpers of Cluster API).  Calls whose outcome is not a function of the arguments
    are numbered, and the theorems hold for every outcome.

    ** What the theorems show

    - Data integrity of the cache: what is created is read back; no update is lost; an
      error changes nothing; an update changes exactly what it says, once; ownership
      records are exact; lists are complete; every reachable cache is well-formed and
      no operation panics, but a Patch of a nil object.
    - Deletion: it cascades, respects finalizers, terminates when ownership has no cycle
      and succeeds on forests; the garbage collector finishes it.  A cycle makes it
      diverge, and a stale record of a child makes it fail for ever.
    - Liveness of controllers: each change is enqueued once per interested controller;
      the syncer queues exactly the objects that are due; a worker retries as the
      result asks; the builder and the manager set up what was asked for.
    - Serving: workload clusters have distinct addresses within the port range, found by
      the resolver; the right certificate is made and selected; a hot restart
      restores all addresses, and what goes wrong when ports collide or it fails half-way.
      The states of a mux include those after hot restarts from clusters with ports of
      their own in the range; HotRestart does not check that itself.
    - Concurrency: the locks are taken in an order, so that goroutines always finish
      (Shutdown, which holds the lock of the mux while it waits for requests that need
      it, only when its context ends), except for the sync round, which can block the whole cloud for ever; goroutines
      that call the operations on a resource group refine clients for which each is one
      atomic step, and return when the operations do, so that one of many concurrent updates
      wins, concurrent patches that leave the version alone compose and the worker
      machines of a cluster can be provisioned at once; concurrent hot restarts happen one
      after the other.
    - The start: the manager is started after everything was set up, or not at all, and
      once it is, what is reconciled is served.  Only the goroutine of the debug server can
      end the program otherwise: it panics when net.Listen fails.
    - Deep copies share nothing with their originals.
    - Reconciliation: a cluster gets its resource group and endpoint once and keeps them
      over a restart; a machine gets its VM, node, pods, etcd member and API server,
      again and again without change; failures of the etcd member are not repaired by
      any number of reconciliations.  Provisioning a control plane machine panics only on
      a CA key that is not an RSA key.
    - End to end: the endpoint of a reconciled cluster starts to listen with its first
      control plane machine, and then the API server answers there with the nodes of the
      machines of the cluster and the pods of that one.
    - The API server: an object created over HTTP is read back, a deleted one is gone, a
      request changes only the resource group its host resolves to, and what discovery
      announces is what the handlers understand.  Which errors lose their status code.
      The debug server lists each cluster with an address that resolves to it.
    - The etcd server: MemberList is the list of etcd pods, Status the latest leader, and
      both serve what the machine controller writes.
    - Port forwarding: no goroutine panics in any interleaving; each operation is
      forwarded once, when both its streams have come; prompt runs make progress; the
      goroutines refine the matching of streams into tunnels.  A dial does not leak its
      connection, and a dialed connection is given to the forwarder with the port of the
      proxy; the forwarder of the API server ignores the port and dials the host of the
      request.

    ** Bounds and fuel

    Only [doTryDeleteLocked] (with its copy with locks) has fuel, the depth of its recursion: the number of owners
    plus one is enough when ownership has no cycle ([delete_terminates]); with a cycle
    through the object the code itself does not terminate.  Every other loop is
    structural.  Resource versions and port numbers are wrapped 64-bit ints, and the
    theorems cover the wrap-around.

    ** Not modelled

    The goroutines and channels with which the cloud runtime waits for its workers
    (whether they come up is an input); the bytes on HTTP, TLS, gRPC and SPDY
    connections, among them the dial and the copy of bytes behind doPortForward (their
    outcomes are inputs); the serving loop of the debug server and the registration of the
    gRPC services; a REST client for tests (GetClient of listener.go); the parsing of the command line and
    logging.  [LockOrder.v] takes what a locked section does to the data as a
    parameter, and calls of libraries within it as returning, among them the wait of
    Shutdown, which its context bounds. *)

From stdpp Require Import prelude gmap strings list fin_maps sorting.
From Stdlib Require Import ZArith Lia.


(** ** The effect of a Go function

    A Go function that mutates the state [W] either returns, panics (nil
    dereference, assignment into a nil map, close of a closed channel, failed
    type assertion) or, for the recursive functions that are written with fuel,
    needs more recursion depth than the fuel given. *)
Inductive res (W A : Type) : Type :=
| Done (a : A) (w : W)
| Panicked (msg : string)
| OutOfFuel.
Arguments Done {W A} a w.
Arguments Panicked {W A} msg.
Arguments OutOfFuel {W A}.

Definition Go (W A : Type) : Type := W → res W A.

#[export] Instance go_ret {W} : MRet (Go W) := λ A a w, Done a w.
#[export] Instance go_bind {W} : MBind (Go W) := λ A B k m w,
  match m w with
  | Done a w' => k a w'
  | Panicked msg => Panicked msg
  | OutOfFuel => OutOfFuel
  end.

Definition go_get {W} : Go W W := λ w, Done w w.
Definition go_put {W} (w : W) : Go W () := λ _, Done () w.
Definition go_modify {W} (f : W → W) : Go W () := λ w, Done () (f w).
Definition go_panic {W A} (msg : string) : Go W A := λ _, Panicked msg.
Definition go_out_of_fuel {W A} : Go W A := λ _, OutOfFuel.

(** A [for] loop over a slice whose body can return early from the function
    with an error [E]: [None] means that the loop ran to its end. *)
Fixpoint go_for {W A S E} (body : A → S → Go W (S * option E)) (l : list A) (s : S)
  : Go W (S * option E) :=
  match l with
  | [] => mret (s, None)
  | a :: l =>
      r ← body a s;
      match r with
      | (s, Some e) => mret (s, Some e)
      | (s, None) => go_for body l s
      end
  end.

Section go_lemmas.
Context {W A B : Type}.

Lemma go_bind_ret (a : A) (k : A → Go W B) w : (mret a ≫= k) w = k a w.
Proof. reflexivity. Qed.

Lemma go_bind_eq (m : Go W A) (k : A → Go W B) w :
  (m ≫= k) w = match m w with
               | Done a w' => k a w' | Panicked msg => Panicked msg | OutOfFuel => OutOfFuel
               end.
Proof. reflexivity. Qed.

Lemma go_bind_Done_inv (m : Go W A) (k : A → Go W B) w b w' :
  (m ≫= k) w = Done b w' → ∃ a w1, m w = Done a w1 ∧ k a w1 = Done b w'.
Proof.
  unfold mbind, go_bind. destruct (m w) as [a w1| |] eqn:E; intros H; [|done..].
  by exists a, w1.
Qed.
End go_lemmas.

(** ** Go maps and slices that can be nil

    [reflect.DeepEqual] tells a nil map from an empty one, and so does the
    assignment [m[k] = v], which panics on a nil map; every read treats nil as
    empty. *)
Abbreviation gomap V := (option (gmap string V)).
Abbreviation goslice A := (option (list A)).

Definition gomap_elems {V} (m : gomap V) : gmap string V := default ∅ m.
Definition goslice_elems {A} (s : goslice A) : list A := default [] s.

(** ** Shared automation *)
Create HintDb goofy.

(** Case analysis on the scrutinee of the innermost match of the goal. *)
Ltac case_goal :=
  match goal with
  | |- context [match ?x with _ => _ end] =>
      lazymatch x with context [match _ with _ => _ end] => fail | _ => destruct x eqn:? end
  end.

Ltac case_hyp H :=
  match type of H with
  | context [match ?x with _ => _ end] =>
      lazymatch x with context [match _ with _ => _ end] => fail | _ => destruct x eqn:? end
  end.

(** Run a monadic program in a hypothesis: unfold the monad and split on
    whatever blocks it, dropping the branches that contradict the outcome. *)
Ltac go_unfold_in H :=
  unfold mbind, mret, go_bind, go_ret, go_get, go_put, go_modify, go_panic,
    go_out_of_fuel in H; cbn in H.
Ltac go_run H :=
  go_unfold_in H; repeat (case_hyp H; try discriminate H; go_unfold_in H); simplify_eq.
Ltac go_unfold :=
  unfold mbind, mret, go_bind, go_ret, go_get, go_put, go_modify, go_panic,
    go_out_of_fuel; cbn.

(** One step of a program in the goal. *)
Ltac go_step := rewrite go_bind_eq; cbn [go_get go_put go_modify mret go_ret]; cbn beta iota.

(** Decide a closed proposition by evaluation in the virtual machine; a finite map
    is compared there and never read back. *)
Lemma decide_by_evaluation (P : Prop) `{Decision P} : bool_decide P = true → P.
Proof. apply bool_decide_eq_true_1. Qed.
Ltac vm_decide := refine (decide_by_evaluation _ _); vm_compute; reflexivity.

(** ** Lemmas on lists and maps *)
Lemma existsb_elem_of {A} (f : A → bool) (l : list A) :
  existsb f l = true ↔ ∃ x, x ∈ l ∧ f x = true.
Proof.
  rewrite existsb_exists. split; intros (x & Hx & Hf); exists x;
    [rewrite list_elem_of_In|rewrite <- list_elem_of_In]; done.
Qed.

Lemma existsb_false_elem_of {A} (f : A → bool) (l : list A) :
  existsb f l = false ↔ ∀ x, x ∈ l → f x = false.
Proof.
  rewrite <- not_true_iff_false, existsb_elem_of. split.
  - intros H x Hx. apply not_true_iff_false. intros ?. apply H; eauto.
  - intros H (x & Hx & Hf). rewrite (H x Hx) in Hf. done.
Qed.

Lemma list_insert_last {A} (l : list A) (x y : A) : <[length l := y]> (l ++ [x]) = l ++ [y].
Proof. rewrite insert_app_r_alt by lia. by rewrite Nat.sub_diag. Qed.

Lemma omap_ext_elem {A B} (f g : A → option B) (l : list A) :
  (∀ x, x ∈ l → f x = g x) → omap f l = omap g l.
Proof.
  intros Hfg. induction l as [|x l IH]; [done|]. cbn. rewrite (Hfg x) by apply list_elem_of_here.
  rewrite IH; [done|]. intros y Hy. by apply Hfg, list_elem_of_further.
Qed.

