(* ===== verification/GoStd.v ===== *)
(** * The parts of Go's standard library the program computes with

    [strconv] (Itoa, Atoi on a 64-bit [int]), [strings] (HasPrefix, TrimPrefix,
    TrimSuffix, ToLower, Join), [net.JoinHostPort], and the conversion
    [uint64(int)].  The round trips the components rely on are proved here. *)

From Stdlib Require Import Decimal DecimalString DecimalZ.
From stdpp Require Import prelude strings.
From Stdlib Require Import Ascii String ZArith Lia.
From S2P Require Import Prelude.
Local Open Scope Z_scope.

(** ** Machine integers *)
Definition int_min : Z := - 2 ^ 63.
Definition int_max : Z := 2 ^ 63 - 1.
Definition is_int (n : Z) : Prop := int_min ≤ n ≤ int_max.

(** Wrap-around of a two's complement 64-bit [int], and the conversion of an
    [int] to [uint64]. *)
Definition wrap_int (n : Z) : Z := (n + 2 ^ 63) mod 2 ^ 64 - 2 ^ 63.
Definition to_uint64 (n : Z) : Z := n mod 2 ^ 64.

(** ** strconv *)
Definition Itoa (n : Z) : string := NilZero.string_of_int (Z.to_int n).

Inductive NumError := ErrSyntax | ErrRange.

Definition parse_digits (s : string) : option Z := Z.of_uint <$> NilZero.uint_of_string s.

Definition Atoi (s : string) : Z * option NumError :=
  let signed (neg : bool) (digits : string) :=
    match parse_digits digits with
    | None => (0, Some ErrSyntax)
    | Some v =>
        if neg then
          if 2 ^ 63 <? v then (int_min, Some ErrRange) else (- v, None)
        else
          if 2 ^ 63 <=? v then (int_max, Some ErrRange) else (v, None)
    end in
  match s with
  | String "-"%char s' => signed true s'
  | String "+"%char s' => signed false s'
  | _ => signed false s
  end.

(** ** strings *)
Fixpoint strip_prefix (p s : string) : option string :=
  match p, s with
  | EmptyString, _ => Some s
  | String c p, String d s => if decide (c = d) then strip_prefix p s else None
  | _, _ => None
  end.

Definition HasPrefix (s p : string) : bool := bool_decide (is_Some (strip_prefix p s)).
Definition TrimPrefix (s p : string) : string := default s (strip_prefix p s).

Fixpoint strip_suffix (s suf : string) : option string :=
  if decide (s = suf) then Some ""%string
  else match s with
       | EmptyString => None
       | String c s => String c <$> strip_suffix s suf
       end.

Definition TrimSuffix (s suf : string) : string := default s (strip_suffix s suf).

Definition lower_ascii (c : Ascii.ascii) : Ascii.ascii :=
  let n := Ascii.nat_of_ascii c in
  if (65 <=? n)%nat && (n <=? 90)%nat then Ascii.ascii_of_nat (n + 32) else c.

Fixpoint ToLower (s : string) : string :=
  match s with
  | EmptyString => EmptyString
  | String c s => String (lower_ascii c) (ToLower s)
  end.

Fixpoint Join (elems : list string) (sep : string) : string :=
  match elems with
  | [] => ""%string
  | [s] => s
  | s :: elems => (s +:+ sep +:+ Join elems sep)%string
  end.

Fixpoint contains_byte (c : Ascii.ascii) (s : string) : bool :=
  match s with
  | EmptyString => false
  | String d s => bool_decide (c = d) || contains_byte c s
  end.

(** ** net *)
Definition JoinHostPort (host port : string) : string :=
  if contains_byte ":"%char host then ("[" +:+ host +:+ "]:" +:+ port)%string
  else (host +:+ ":" +:+ port)%string.

(** ** Round trips *)
Lemma wrap_int_id n : is_int n → wrap_int n = n.
Proof. unfold is_int, wrap_int, int_min, int_max. intros. rewrite Z.mod_small; lia. Qed.

Lemma wrap_int_add a b : wrap_int (wrap_int a + b) = wrap_int (a + b).
Proof. unfold wrap_int. Z.to_euclidean_division_equations. lia. Qed.

(** Incrementing an [int] never gives it back, even when it overflows. *)
Lemma wrap_int_succ_ne n : wrap_int (n + 1) ≠ n.
Proof. unfold wrap_int. Z.to_euclidean_division_equations. lia. Qed.

Lemma wrap_int_is_int n : is_int (wrap_int n).
Proof.
  unfold is_int, wrap_int, int_min, int_max.
  pose proof (Z.mod_pos_bound (n + 2 ^ 63) (2 ^ 64)). lia.
Qed.

Lemma to_uint64_id n : 0 ≤ n < 2 ^ 64 → to_uint64 n = n.
Proof. intros. by apply Z.mod_small. Qed.

Lemma nat_to_uint_not_nil p : Pos.to_uint p ≠ Decimal.Nil.
Proof. intros H. by apply DecimalPos.Unsigned.to_uint_nonnil in H. Qed.

Lemma parse_digits_uint (u : Decimal.uint) :
  u ≠ Decimal.Nil → parse_digits (NilZero.string_of_uint u) = Some (Z.of_uint u).
Proof. intros Hu. unfold parse_digits. by rewrite NilZero.usu. Qed.

(** A rendered digit string starts with a digit, so with no sign. *)
Lemma Atoi_unsigned (u : Decimal.uint) :
  u ≠ Decimal.Nil →
  Atoi (NilZero.string_of_uint u) =
    (if 2 ^ 63 <=? Z.of_uint u then (int_max, Some ErrRange) else (Z.of_uint u, None)).
Proof.
  intros Hu.
  transitivity (match parse_digits (NilZero.string_of_uint u) with
    | None => (0, Some ErrSyntax)
    | Some v => if 2 ^ 63 <=? v then (int_max, Some ErrRange) else (v, None) end).
  - destruct u; [done|reflexivity..].
  - by rewrite parse_digits_uint.
Qed.

(** Atoi reads back what Itoa (or the verb %d) prints, on every [int]. *)
Lemma Atoi_Itoa n : is_int n → Atoi (Itoa n) = (n, None).
Proof.
  unfold is_int, int_min, int_max, Itoa. intros Hn.
  pose proof (DecimalZ.of_to n) as Hof.
  destruct n as [|p|p]; [reflexivity|..]; cbn [Z.to_int] in *.
  - cbn [NilZero.string_of_int]. rewrite Atoi_unsigned by apply nat_to_uint_not_nil.
    change (Z.of_int (Decimal.Pos (Pos.to_uint p))) with (Z.of_uint (Pos.to_uint p)) in Hof.
    rewrite Hof. destruct (Z.leb_spec (2 ^ 63) (Z.pos p)); [lia|done].
  - cbn [NilZero.string_of_int Atoi].
    change (Z.of_int (Decimal.Neg (Pos.to_uint p))) with (- Z.of_uint (Pos.to_uint p)) in Hof.
    rewrite parse_digits_uint by apply nat_to_uint_not_nil.
    assert (Z.of_uint (Pos.to_uint p) = Z.pos p) as -> by lia.
    destruct (Z.ltb_spec (2 ^ 63) (Z.pos p)); [lia|done].
Qed.

(** What Atoi returns is always an [int], on the error paths too. *)
Lemma Atoi_is_int s : is_int (Atoi s).1.
Proof.
  assert (Hsigned : ∀ neg d, is_int (match parse_digits d with
    | None => (0, Some ErrSyntax)
    | Some v => if (neg : bool) then if 2 ^ 63 <? v then (int_min, Some ErrRange) else (- v, None)
                else if 2 ^ 63 <=? v then (int_max, Some ErrRange) else (v, None) end).1).
  { intros neg d. unfold is_int, int_min, int_max.
    destruct (parse_digits d) as [v|] eqn:Hv; [|cbn; lia].
    assert (0 ≤ v).
    { unfold parse_digits in Hv. apply fmap_Some in Hv as (u & _ & ->).
      unfold Z.of_uint. lia. }
    destruct neg; [destruct (Z.ltb_spec (2 ^ 63) v)|destruct (Z.leb_spec (2 ^ 63) v)];
      cbn; lia. }
  unfold Atoi. destruct s as [|c s]; [apply (Hsigned false)|].
  destruct c as [[] [] [] [] [] [] [] []]; try apply (Hsigned false); apply (Hsigned true).
Qed.

Lemma Itoa_inj n m : Itoa n = Itoa m → n = m.
Proof.
  unfold Itoa. intros H.
  assert (Hwf : ∀ z, NilZero.int_of_string (NilZero.string_of_int (Z.to_int z)) = Some (Z.to_int z)).
  { intros [|p|p]; [reflexivity|..]; apply NilZero.isi; cbn; intros [=];
      by eapply nat_to_uint_not_nil. }
  pose proof (Hwf n) as Hn. rewrite H, Hwf in Hn. injection Hn as Hn.
  by rewrite <- (DecimalZ.of_to n), <- (DecimalZ.of_to m), Hn.
Qed.

Lemma string_cons_app c (s t : string) : String c s +:+ t = String c (s +:+ t).
Proof. reflexivity. Qed.

Lemma string_nil_app (t : string) : "" +:+ t = t.
Proof. reflexivity. Qed.

Lemma strip_prefix_app p s : strip_prefix p (p +:+ s) = Some s.
Proof.
  induction p as [|c p IH]; [done|]. rewrite string_cons_app. cbn -[decide].
  by rewrite decide_True.
Qed.

Lemma TrimPrefix_app p s : TrimPrefix (p +:+ s) p = s.
Proof. unfold TrimPrefix. by rewrite strip_prefix_app. Qed.

Lemma strip_prefix_Some p s t : strip_prefix p s = Some t ↔ s = (p +:+ t).
Proof.
  split; [|intros ->; apply strip_prefix_app].
  revert s. induction p as [|c p IH]; intros s H; [by injection H|].
  destruct s as [|d s]; [done|]. cbn -[decide] in H. case_decide; [|done]. subst.
  rewrite string_cons_app. f_equal. by apply IH.
Qed.

Lemma string_app_assoc (a b c : string) : (a +:+ b) +:+ c = a +:+ (b +:+ c).
Proof. induction a as [|x a IH]; [done|]. rewrite !string_cons_app. by f_equal. Qed.

Lemma string_app_inv_l (a b c : string) : a +:+ b = a +:+ c → b = c.
Proof. induction a as [|x a IH]; [done|]. rewrite !string_cons_app. intros [=]. by apply IH. Qed.

Lemma string_length_app (a b : string) :
  String.length (a +:+ b) = (String.length a + String.length b)%nat.
Proof. induction a as [|x a IH]; [done|]. rewrite string_cons_app. cbn. by rewrite IH. Qed.

Lemma strip_suffix_app s suf : strip_suffix (s +:+ suf) suf = Some s.
Proof.
  induction s as [|c s IH].
  - rewrite string_nil_app. destruct suf; cbn -[decide]; by rewrite decide_True.
  - rewrite string_cons_app. cbn -[decide]. rewrite decide_False; [by rewrite IH|].
    intros H. apply (f_equal String.length) in H. cbn in H.
    rewrite string_length_app in H. lia.
Qed.

Lemma TrimSuffix_app s suf : TrimSuffix (s +:+ suf) suf = s.
Proof. unfold TrimSuffix. by rewrite strip_suffix_app. Qed.

(** Two ports of one host never share an address. *)
Lemma JoinHostPort_inj host p p' : JoinHostPort host p = JoinHostPort host p' → p = p'.
Proof.
  unfold JoinHostPort. destruct (contains_byte ":"%char host); intros H.
  - by apply (string_app_inv_l "["), string_app_inv_l, (string_app_inv_l "]:") in H.
  - by apply string_app_inv_l, (string_app_inv_l ":") in H.
Qed.

Create Rewrite HintDb goofy_str.
#[export] Hint Rewrite TrimPrefix_app TrimSuffix_app : goofy_str.
#[export] Hint Resolve wrap_int_is_int Atoi_is_int : goofy.
