(* ===== verification/GoTime.v ===== *)
(** * Time: Format and Parse with the layout time.RFC3339

    A [time.Time] is its number of nanoseconds since Go's zero time,
    January 1, year 1, 00:00:00 UTC, so that [IsZero] is [t = 0].  [Format] and
    [Parse] follow the layout "2006-01-02T15:04:05Z07:00", the only one the
    program uses; the calendar is computed the way package time computes it
    (400-, 100-, 4- and 1-year cycles, then a table of days before each month).
    The result the cache and the etcd server rely on is [Parse_Format]. *)

From stdpp Require Import prelude strings.
From Stdlib Require Import Ascii String ZArith Lia.
From S2P Require Import Prelude GoStd.
Local Open Scope Z_scope.

(** lia on divisions and remainders by constants. *)
Local Ltac Zify.zify_post_hook ::= Z.to_euclidean_division_equations.

Definition Time := Z.
Definition Duration := Z.

Definition Nanosecond : Duration := 1.
Definition Second : Duration := 1000000000.
Definition Minute : Duration := 60 * Second.

Definition IsZero (t : Time) : bool := t =? 0.
Definition After (t u : Time) : bool := u <? t.
Definition TimeAdd (t : Time) (d : Duration) : Time := t + d.

(** ** The calendar *)
Definition isLeap (year : Z) : bool :=
  (year mod 4 =? 0) && (negb (year mod 100 =? 0) || (year mod 400 =? 0)).

Definition daysBefore : list Z := [0; 31; 59; 90; 120; 151; 181; 212; 243; 273; 304; 334; 365].
Definition days_before (m : Z) : Z := nth (Z.to_nat m) daysBefore 0.

Definition daysIn (m year : Z) : Z :=
  if (m =? 2) && isLeap year then 29 else days_before m - days_before (m - 1).

(** The year and the day of the year (from 0) of a day counted from January 1,
    year 1. *)
Definition year_yday (d : Z) : Z * Z :=
  let n400 := d / 146097 in let d := d - 146097 * n400 in
  let n100 := d / 36524 in let n100 := n100 - n100 / 4 in
  let d := d - 36524 * n100 in
  let n4 := d / 1461 in let d := d - 1461 * n4 in
  let n1 := d / 365 in let n1 := n1 - n1 / 4 in
  let d := d - 365 * n1 in
  (1 + 400 * n400 + 100 * n100 + 4 * n4 + n1, d).

(** Month and day of the month (from 1) of a day of the year. *)
Definition month_day (leap : bool) (yday : Z) : Z * Z :=
  let of_common (day : Z) :=
    let month := day / 31 in
    if days_before (month + 1) <=? day
    then (month + 2, day - days_before (month + 1) + 1)
    else (month + 1, day - days_before month + 1) in
  if leap then
    if 31 + 29 - 1 <? yday then of_common (yday - 1)
    else if yday =? 31 + 29 - 1 then (2, 29) else of_common yday
  else of_common yday.

(** The day counted from January 1, year 1. *)
Definition yday_of (leap : bool) (month day : Z) : Z :=
  days_before (month - 1) + (if leap && (3 <=? month) then 1 else 0) + (day - 1).

Definition day_of_year (year : Z) : Z :=
  let y := year - 1 in
  let n400 := y / 400 in let y := y - 400 * n400 in
  let n100 := y / 100 in let y := y - 100 * n100 in
  let n4 := y / 4 in let n1 := y - 4 * n4 in
  146097 * n400 + 36524 * n100 + 1461 * n4 + 365 * n1.

(** ** Format *)
Definition digit (n : Z) : ascii := ascii_of_nat (Z.to_nat (48 + n mod 10)).
Definition pad2 (n : Z) (s : string) : string := String (digit (n / 10)) (String (digit n) s).
Definition pad4 (n : Z) (s : string) : string := pad2 (n / 100) (pad2 (n mod 100) s).

Definition format_zone (off : Z) : string :=
  if off =? 0 then "Z"%string
  else String (if off <? 0 then "-"%char else "+"%char)
         (pad2 (Z.abs off / 60) (String ":"%char (pad2 (Z.abs off mod 60) ""))).

Definition format_fields (year month day sod off : Z) : string :=
  pad4 year (String "-" (pad2 month (String "-" (pad2 day (String "T"
    (pad2 (sod / 3600) (String ":" (pad2 (sod mod 3600 / 60) (String ":"
      (pad2 (sod mod 60) (format_zone off))))))))))).

(** [Format t off]: the time zone is [off] minutes east of UTC; [time.UTC] is
    [off = 0], printed as "Z".  Years are those with four digits. *)
Definition Format (t : Time) (off : Z) : string :=
  let secs := t / Second + 60 * off in
  let '(year, yday) := year_yday (secs / 86400) in
  let '(month, day) := month_day (isLeap year) yday in
  format_fields year month day (secs mod 86400) off.

(** ** Parse *)
Definition get_digit (c : ascii) : option Z :=
  let n := Z.of_nat (nat_of_ascii c) in
  if (48 <=? n) && (n <=? 57) then Some (n - 48) else None.

(** Two digits in the range [lo, hi], and the rest of the input. *)
Definition get2 (lo hi : Z) (s : string) : option (Z * string) :=
  match s with
  | String a (String b s) =>
      x ← get_digit a; y ← get_digit b;
      let n := 10 * x + y in
      if (lo <=? n) && (n <=? hi) then Some (n, s) else None
  | _ => None
  end.

(** The hour: a single digit is accepted when no second one follows. *)
Definition get_hour (s : string) : option (Z * string) :=
  match s with
  | String a (String b _) =>
      match get_digit b with
      | Some _ => get2 0 23 s
      | None => match s with String _ s' => x ← get_digit a; Some (x, s') | _ => None end
      end
  | _ => None
  end.

Definition expect (c : ascii) (s : string) : option string :=
  match s with
  | String d s => if Ascii.eqb c d then Some s else None
  | EmptyString => None
  end.

(** Up to nine digits of a fraction of a second, in nanoseconds. *)
Fixpoint get_fraction (unit : Z) (acc : Z) (s : string) : Z * string :=
  match s with
  | String c s' =>
      match get_digit c with
      | Some x => get_fraction (unit / 10) (acc + unit * x) s'
      | None => (acc, s)
      end
  | EmptyString => (acc, s)
  end.

(** A fraction of a second, which the layout does not have but Parse accepts. *)
Definition get_nsec (s : string) : Z * string :=
  match s with
  | String sep (String c s') =>
      if (Ascii.eqb sep "." || Ascii.eqb sep ",") && bool_decide (is_Some (get_digit c))
      then get_fraction (Second / 10) 0 (String c s')
      else (0, s)
  | _ => (0, s)
  end.

Definition get_zone (s : string) : option Z :=
  match s with
  | String "Z"%char EmptyString => Some 0
  | String sign s =>
      if Ascii.eqb sign "+" || Ascii.eqb sign "-" then
        '(h, s) ← get2 0 24 s; s ← expect ":" s; '(m, s) ← get2 0 60 s;
        match s with
        | EmptyString => Some (if Ascii.eqb sign "-" then - (60 * h + m) else 60 * h + m)
        | _ => None
        end
      else None
  | EmptyString => None
  end.

(** [Parse]: [None] when Go returns an error. *)
Definition Parse (s : string) : option Time :=
  '(yh, s) ← get2 0 99 s; '(yl, s) ← get2 0 99 s; s ← expect "-" s;
  '(month, s) ← get2 1 12 s; s ← expect "-" s;
  let year := 100 * yh + yl in
  '(day, s) ← get2 1 (daysIn month year) s; s ← expect "T" s;
  '(hour, s) ← get_hour s; s ← expect ":" s;
  '(min, s) ← get2 0 59 s; s ← expect ":" s;
  '(sec, s) ← get2 0 59 s;
  let '(nsec, s) := get_nsec s in
  off ← get_zone s;
  let days := day_of_year year + yday_of (isLeap year) month day in
  Some ((86400 * days + 3600 * hour + 60 * min + sec - 60 * off) * Second + nsec).

(** ** Format and Parse are inverse, up to the second *)
Lemma get_digit_digit n : get_digit (digit n) = Some (n mod 10).
Proof.
  unfold digit. pose proof (Z.mod_pos_bound n 10) as Hn.
  assert (Hcase : ∀ k, 0 ≤ k < 10 → get_digit (ascii_of_nat (Z.to_nat (48 + k))) = Some k).
  { intros k Hk. assert (k = 0 ∨ k = 1 ∨ k = 2 ∨ k = 3 ∨ k = 4 ∨ k = 5 ∨ k = 6 ∨ k = 7
      ∨ k = 8 ∨ k = 9) as Hor by lia.
    by repeat destruct Hor as [->|Hor]; [reflexivity..|subst]. }
  apply Hcase; lia.
Qed.

Lemma get2_pad2 lo hi n s :
  0 ≤ n ≤ 99 → lo ≤ n ≤ hi → get2 lo hi (pad2 n s) = Some (n, s).
Proof.
  intros Hn Hr. unfold pad2, get2. rewrite !get_digit_digit. cbn.
  replace (10 * (n / 10 mod 10) + n mod 10) with n by lia.
  by rewrite (proj2 (Z.leb_le lo n)), (proj2 (Z.leb_le n hi)) by lia.
Qed.

Lemma get_hour_pad2 n s : 0 ≤ n ≤ 23 → get_hour (pad2 n s) = Some (n, s).
Proof.
  intros Hn. rewrite <- (get2_pad2 0 23) by lia.
  unfold pad2, get_hour. by rewrite get_digit_digit.
Qed.

Lemma expect_cons c s : expect c (String c s) = Some s.
Proof. unfold expect. by rewrite Ascii.eqb_refl. Qed.

(** Day of the year and month table, checked over all days of a year. *)
Definition month_day_ok (leap : bool) (yday : Z) : bool :=
  let '(m, d) := month_day leap yday in
  let dim := if (m =? 2) && leap then 29 else days_before m - days_before (m - 1) in
  (1 <=? m) && (m <=? 12) && (1 <=? d) && (d <=? dim) && (d <=? 31)
  && (yday_of leap m d =? yday).

Definition days_upto (n : nat) : list Z := Z.of_nat <$> seq 0 n.

Lemma month_day_all_ok :
  forallb (month_day_ok false) (days_upto 365) && forallb (month_day_ok true) (days_upto 366) = true.
Proof. vm_compute. reflexivity. Qed.

Lemma elem_of_days_upto n yday : 0 ≤ yday < Z.of_nat n → yday ∈ days_upto n.
Proof.
  intros Hr. apply list_elem_of_fmap. exists (Z.to_nat yday). split; [lia|].
  apply elem_of_seq. lia.
Qed.

Lemma month_day_spec (leap : bool) yday m d :
  0 ≤ yday ≤ (if leap then 365 else 364) → month_day leap yday = (m, d) →
  1 ≤ m ≤ 12 ∧ 1 ≤ d ≤ 31 ∧
  d ≤ (if (m =? 2) && leap then 29 else days_before m - days_before (m - 1)) ∧
  yday_of leap m d = yday.
Proof.
  intros Hr Hmd. destruct (andb_prop _ _ month_day_all_ok) as [Hc Hl].
  assert (Hok : month_day_ok leap yday = true).
  { rewrite forallb_forall in Hc, Hl.
    destruct leap; [apply Hl|apply Hc]; apply list_elem_of_In, elem_of_days_upto; lia. }
  unfold month_day_ok in Hok. rewrite Hmd in Hok.
  rewrite !andb_true_iff, !Z.leb_le, Z.eqb_eq in Hok.
  destruct Hok as [[[[[] ] ] ] ]. auto.
Qed.

(** Going to the calendar and back is the identity. *)
Lemma year_yday_spec d :
  0 ≤ d → let '(year, yday) := year_yday d in
  1 ≤ year ∧ 0 ≤ yday ≤ (if isLeap year then 365 else 364) ∧ day_of_year year + yday = d.
Proof.
  intros Hd. unfold year_yday. cbv zeta.
  set (n400 := d / 146097). set (d1 := d - 146097 * n400).
  assert (0 ≤ n400 ∧ 0 ≤ d1 < 146097) as [? ?] by (subst d1 n400; lia).
  set (n100 := d1 / 36524 - d1 / 36524 / 4). set (d2 := d1 - 36524 * n100).
  assert (0 ≤ n100 ≤ 3 ∧ 0 ≤ d2 ≤ 36524 ∧ (d2 = 36524 → n100 = 3)) as (? & ? & ?)
    by (subst d2 n100; lia).
  set (n4 := d2 / 1461). set (d3 := d2 - 1461 * n4).
  assert (0 ≤ n4 ≤ 24 ∧ 0 ≤ d3 < 1461 ∧ (n4 = 24 → d3 = 1460 → n100 = 3)) as (? & ? & ?)
    by (subst d3 n4; lia).
  set (n1 := d3 / 365 - d3 / 365 / 4). set (d4 := d3 - 365 * n1).
  assert (0 ≤ n1 ≤ 3 ∧ 0 ≤ d4 ≤ 365 ∧ (d4 = 365 → n1 = 3 ∧ d3 = 1460)) as (? & ? & ?)
    by (subst d4 n1; lia).
  set (year := 1 + 400 * n400 + 100 * n100 + 4 * n4 + n1).
  assert (Hleap : d4 = 365 → isLeap year = true).
  { intros H365. unfold isLeap. apply andb_true_iff. split; [apply Z.eqb_eq; lia|].
    apply orb_true_iff. destruct (decide (n4 = 24)) as [->|].
    - right. apply Z.eqb_eq. lia.
    - left. apply negb_true_iff, Z.eqb_neq. lia. }
  split; [lia|split].
  - split; [lia|]. destruct (isLeap year) eqn:E; [lia|].
    destruct (decide (d4 = 365)) as [H365|]; [|lia]. specialize (Hleap H365). congruence.
  - unfold day_of_year. cbv zeta.
    assert ((year - 1) / 400 = n400) as -> by lia.
    assert ((year - 1 - 400 * n400) / 100 = n100) as -> by lia.
    assert ((year - 1 - 400 * n400 - 100 * n100) / 4 = n4) as -> by lia.
    lia.
Qed.

(** Simplification that leaves arithmetic alone. *)
Ltac arith_cbn :=
  cbn -[Z.add Z.mul Z.sub Z.div Z.modulo Z.opp Z.abs day_of_year yday_of Second isLeap].

Lemma get_zone_format_zone off : -1440 < off < 1440 → get_zone (format_zone off) = Some off.
Proof.
  intros Ho. unfold format_zone. destruct (Z.eqb_spec off 0) as [->|Hoff]; [done|].
  unfold get_zone.
  destruct (Z.ltb_spec off 0); cbn [Ascii.eqb Bool.eqb orb];
    (rewrite get2_pad2 by lia; cbn [mbind option_bind];
     rewrite expect_cons; cbn [mbind option_bind];
     rewrite get2_pad2 by lia; arith_cbn; apply f_equal; lia).
Qed.

Lemma get_nsec_format_zone off : get_nsec (format_zone off) = (0, format_zone off).
Proof.
  unfold format_zone. destruct (off =? 0); [done|]. unfold get_nsec, pad2.
  by destruct (off <? 0).
Qed.

Lemma Parse_format_fields year month day sod off :
  0 ≤ year ≤ 9999 → 1 ≤ month ≤ 12 → 1 ≤ day ≤ daysIn month year → day ≤ 99 →
  0 ≤ sod < 86400 → - 1440 < off < 1440 →
  Parse (format_fields year month day sod off) =
  Some ((86400 * (day_of_year year + yday_of (isLeap year) month day) + sod - 60 * off) * Second).
Proof.
  intros Hy Hm Hd Hd9 Hs Ho. unfold Parse, format_fields, pad4.
  rewrite get2_pad2 by lia. cbn [mbind option_bind].
  rewrite get2_pad2 by lia. cbn [mbind option_bind].
  replace (100 * (year / 100) + year mod 100) with year by lia.
  do 2 (rewrite expect_cons; cbn [mbind option_bind]; rewrite get2_pad2 by lia; cbn [mbind option_bind]).
  rewrite expect_cons; cbn [mbind option_bind]. rewrite get_hour_pad2 by lia. cbn [mbind option_bind].
  do 2 (rewrite expect_cons; cbn [mbind option_bind]; rewrite get2_pad2 by lia; cbn [mbind option_bind]).
  rewrite get_nsec_format_zone, get_zone_format_zone by done.
  assert (Hsod : 3600 * (sod / 3600) + 60 * (sod mod 3600 / 60) + sod mod 60 = sod) by lia.
  arith_cbn. apply f_equal. unfold Second. lia.
Qed.

(** Up to the second, [Parse] reads back what [Format] prints, in any time zone
    less than a day from UTC and as long as the year there has four digits. *)
Lemma Parse_Format t off :
  0 ≤ t / Second + 60 * off < 315537897600 → -1440 < off < 1440 →
  Parse (Format t off) = Some (t / Second * Second).
Proof.
  intros Ht Hoff. unfold Format. cbv zeta.
  set (secs := t / Second + 60 * off) in *.
  pose proof (year_yday_spec (secs / 86400)) as Hy.
  destruct (year_yday (secs / 86400)) as [year yday].
  destruct Hy as (Hy1 & Hyd & Hdays); [lia|].
  destruct (month_day (isLeap year) yday) as [month day] eqn:Hmd.
  apply month_day_spec in Hmd as (Hm & Hd & Hdin & Hyo); [|done].
  assert (year ≤ 9999).
  { unfold day_of_year in Hdays. cbv zeta in Hdays. lia. }
  assert (day ≤ daysIn month year).
  { unfold daysIn. destruct ((month =? 2) && isLeap year); lia. }
  rewrite Parse_format_fields; [|lia..].
  f_equal. rewrite Hyo, Hdays. subst secs. lia.
Qed.
