(* ===== verification/Api.v ===== *)
(** * The object model: API objects, their keys, and API errors

    The Go interface [client.Object] as a value: type meta, the metadata fields
    the program reads or writes, and the typed content ([Body]) of the kinds the
    program itself creates.  [reflect.DeepEqual] on objects is equality here,
    which tells nil maps and slices from empty ones. *)

From stdpp Require Import prelude gmap strings list.
From Stdlib Require Import ZArith.
From S2P Require Import Prelude GoStd GoTime.

(** ** Keys *)
Record GroupVersionKind := GVK { gvk_Group : string; gvk_Version : string; gvk_Kind : string }.

#[export] Instance GroupVersionKind_eq_dec : EqDecision GroupVersionKind.
Proof. solve_decision. Defined.
#[export] Instance GroupVersionKind_countable : Countable GroupVersionKind.
Proof.
  refine (inj_countable' (λ g, (gvk_Group g, gvk_Version g, gvk_Kind g))
    (λ '(g, v, k), GVK g v k) _); by intros [].
Defined.

Record NamespacedName := NN { nn_Namespace : string; nn_Name : string }.

#[export] Instance NamespacedName_eq_dec : EqDecision NamespacedName.
Proof. solve_decision. Defined.
#[export] Instance NamespacedName_countable : Countable NamespacedName.
Proof.
  refine (inj_countable' (λ n, (nn_Namespace n, nn_Name n)) (λ '(a, b), NN a b) _);
    by intros [].
Defined.

(** types.NamespacedName.String: the separator is types.Separator, "/". *)
Definition NamespacedName_String (n : NamespacedName) : string :=
  nn_Namespace n +:+ "/" +:+ nn_Name n.

(** An object within a resource group: [ownReference] of cache.go. *)
Record ownReference := OwnRef { ref_gvk : GroupVersionKind; ref_key : NamespacedName }.

#[export] Instance ownReference_eq_dec : EqDecision ownReference.
Proof. solve_decision. Defined.
#[export] Instance ownReference_countable : Countable ownReference.
Proof.
  refine (inj_countable' (λ r, (ref_gvk r, ref_key r)) (λ '(a, b), OwnRef a b) _);
    by intros [].
Defined.

(** ** Objects *)
Record OwnerReference := mkOwnerReference {
  or_APIVersion : string;
  or_Kind : string;
  or_Name : string;
  or_UID : string;
  or_Controller : option bool;
  or_BlockOwnerDeletion : option bool }.

#[export] Instance OwnerReference_eq_dec : EqDecision OwnerReference.
Proof. solve_decision. Defined.

Record ObjectMeta := mkObjectMeta {
  om_Name : string;
  om_Namespace : string;
  om_Labels : gomap string;
  om_Annotations : gomap string;
  om_OwnerReferences : goslice OwnerReference;
  om_Finalizers : goslice string;
  om_ResourceVersion : string;
  om_CreationTimestamp : Time;
  om_DeletionTimestamp : option Time;
  (** the metadata no code of the program reads (UID, generation, ...) *)
  om_rest : string }.

#[export] Instance Time_eq_dec : EqDecision Time := Z.eq_dec.
#[export] Instance ObjectMeta_eq_dec : EqDecision ObjectMeta.
Proof. solve_decision. Defined.

Record PolicyRule := mkPolicyRule {
  pr_Verbs : list string; pr_APIGroups : list string; pr_Resources : list string }.
Record RoleRef := mkRoleRef { rr_APIGroup : string; rr_Kind : string; rr_Name : string }.
Record Subject := mkSubject { sub_Kind : string; sub_Name : string }.
Record Condition := mkCondition { cond_Type : string; cond_Status : string }.

#[export] Instance PolicyRule_eq_dec : EqDecision PolicyRule.
Proof. solve_decision. Defined.
#[export] Instance RoleRef_eq_dec : EqDecision RoleRef.
Proof. solve_decision. Defined.
#[export] Instance Subject_eq_dec : EqDecision Subject.
Proof. solve_decision. Defined.
#[export] Instance Condition_eq_dec : EqDecision Condition.
Proof. solve_decision. Defined.

(** The content of an object: the Go types the controllers fill in, and any
    other typed or unstructured content. *)
Inductive Body :=
| CloudMachine
| Node (providerID : string) (conditions : list Condition)
| Pod (phase : string) (conditions : list Condition)
| ClusterRole (rules : list PolicyRule)
| ClusterRoleBinding (roleRef : RoleRef) (subjects : list Subject)
| ConfigMap
| Unstructured (content : string)
| OtherType (goType : string) (content : string).

#[export] Instance Body_eq_dec : EqDecision Body.
Proof. solve_decision. Defined.

Record Object := mkObject {
  obj_gvk : GroupVersionKind; obj_meta : ObjectMeta; obj_body : Body }.

#[export] Instance Object_eq_dec : EqDecision Object.
Proof. solve_decision. Defined.

Definition DeepEqual (a b : Object) : bool := bool_decide (a = b).

(** ** Accessors of client.Object *)
Definition GetName (o : Object) : string := om_Name (obj_meta o).
Definition GetNamespace (o : Object) : string := om_Namespace (obj_meta o).
Definition GetLabels (o : Object) : gomap string := om_Labels (obj_meta o).
Definition GetAnnotations (o : Object) : gomap string := om_Annotations (obj_meta o).
Definition GetOwnerReferences (o : Object) : list OwnerReference :=
  goslice_elems (om_OwnerReferences (obj_meta o)).
Definition GetFinalizers (o : Object) : list string := goslice_elems (om_Finalizers (obj_meta o)).
Definition GetResourceVersion (o : Object) : string := om_ResourceVersion (obj_meta o).
Definition GetCreationTimestamp (o : Object) : Time := om_CreationTimestamp (obj_meta o).
Definition GetDeletionTimestamp (o : Object) : option Time := om_DeletionTimestamp (obj_meta o).

(** IsZero of a pointer to metav1.Time, true of a nil pointer too. *)
Definition TimePtr_IsZero (t : option Time) : bool :=
  match t with None => true | Some t => IsZero t end.

Definition SetGroupVersionKind (g : GroupVersionKind) (o : Object) : Object :=
  mkObject g (obj_meta o) (obj_body o).
Definition set_meta (f : ObjectMeta → ObjectMeta) (o : Object) : Object :=
  mkObject (obj_gvk o) (f (obj_meta o)) (obj_body o).

Definition SetName (n : string) : Object → Object := set_meta (λ m,
  mkObjectMeta n (om_Namespace m) (om_Labels m) (om_Annotations m) (om_OwnerReferences m)
    (om_Finalizers m) (om_ResourceVersion m) (om_CreationTimestamp m) (om_DeletionTimestamp m)
    (om_rest m)).
Definition SetNamespace (ns : string) : Object → Object := set_meta (λ m,
  mkObjectMeta (om_Name m) ns (om_Labels m) (om_Annotations m) (om_OwnerReferences m)
    (om_Finalizers m) (om_ResourceVersion m) (om_CreationTimestamp m) (om_DeletionTimestamp m)
    (om_rest m)).
Definition SetLabels (l : gomap string) : Object → Object := set_meta (λ m,
  mkObjectMeta (om_Name m) (om_Namespace m) l (om_Annotations m) (om_OwnerReferences m)
    (om_Finalizers m) (om_ResourceVersion m) (om_CreationTimestamp m) (om_DeletionTimestamp m)
    (om_rest m)).
Definition SetAnnotations (a : gomap string) : Object → Object := set_meta (λ m,
  mkObjectMeta (om_Name m) (om_Namespace m) (om_Labels m) a (om_OwnerReferences m)
    (om_Finalizers m) (om_ResourceVersion m) (om_CreationTimestamp m) (om_DeletionTimestamp m)
    (om_rest m)).
Definition SetOwnerReferences (r : goslice OwnerReference) : Object → Object := set_meta (λ m,
  mkObjectMeta (om_Name m) (om_Namespace m) (om_Labels m) (om_Annotations m) r
    (om_Finalizers m) (om_ResourceVersion m) (om_CreationTimestamp m) (om_DeletionTimestamp m)
    (om_rest m)).
Definition SetFinalizers (f : goslice string) : Object → Object := set_meta (λ m,
  mkObjectMeta (om_Name m) (om_Namespace m) (om_Labels m) (om_Annotations m)
    (om_OwnerReferences m) f (om_ResourceVersion m) (om_CreationTimestamp m)
    (om_DeletionTimestamp m) (om_rest m)).
Definition SetResourceVersion (v : string) : Object → Object := set_meta (λ m,
  mkObjectMeta (om_Name m) (om_Namespace m) (om_Labels m) (om_Annotations m)
    (om_OwnerReferences m) (om_Finalizers m) v (om_CreationTimestamp m)
    (om_DeletionTimestamp m) (om_rest m)).
Definition SetCreationTimestamp (t : Time) : Object → Object := set_meta (λ m,
  mkObjectMeta (om_Name m) (om_Namespace m) (om_Labels m) (om_Annotations m)
    (om_OwnerReferences m) (om_Finalizers m) (om_ResourceVersion m) t
    (om_DeletionTimestamp m) (om_rest m)).
Definition SetDeletionTimestamp (t : option Time) : Object → Object := set_meta (λ m,
  mkObjectMeta (om_Name m) (om_Namespace m) (om_Labels m) (om_Annotations m)
    (om_OwnerReferences m) (om_Finalizers m) (om_ResourceVersion m) (om_CreationTimestamp m)
    t (om_rest m)).

(** client.ObjectKeyFromObject, and a reference to the object itself. *)
Definition ObjectKeyFromObject (o : Object) : NamespacedName := NN (GetNamespace o) (GetName o).
Definition self_ref (o : Object) : ownReference := OwnRef (obj_gvk o) (ObjectKeyFromObject o).

(** [metav1.ObjectMeta{}] with a name and a namespace. *)
Definition named_meta (namespace name : string) : ObjectMeta :=
  mkObjectMeta name namespace None None None None "" 0%Z None "".

(** ** API errors: the constructors of apierrors the program calls *)
Record GroupResource := mkGroupResource { gr_Group : string; gr_Resource : string }.

(** The message of a bad request, before it is rendered. *)
Inductive BadRequestReason :=
| ResourceGroupEmpty
| KeyNameEmpty
| ObjectNil
| ListNil
| ObjectNameEmpty
| ResourceGroupMissing (resourceGroup : string)
| InvalidAPIVersion (apiVersion : string)
| OwnerGVKNotTracked (owner : ownReference)
| OwnerMissing (owner : ownReference)
| PatchTypeUnsupported (patchType : string)
| WrappedMessage (msg : string).

Inductive APIError :=
| BadRequest (reason : BadRequestReason)
| NotFound (resource : GroupResource) (name : string)
| AlreadyExists (resource : GroupResource) (name : string)
| Conflict (resource : GroupResource) (name : string)
| InternalError (msg : string).

#[export] Instance GroupResource_eq_dec : EqDecision GroupResource.
Proof. solve_decision. Defined.
#[export] Instance BadRequestReason_eq_dec : EqDecision BadRequestReason.
Proof. solve_decision. Defined.
#[export] Instance APIError_eq_dec : EqDecision APIError.
Proof. solve_decision. Defined.

Definition IsNotFound (e : APIError) : bool := match e with NotFound _ _ => true | _ => false end.
Definition IsAlreadyExists (e : APIError) : bool :=
  match e with AlreadyExists _ _ => true | _ => false end.
Definition IsBadRequest (e : APIError) : bool :=
  match e with BadRequest _ => true | _ => false end.
Definition IsConflict (e : APIError) : bool := match e with Conflict _ _ => true | _ => false end.

(** ** Lemmas *)
Lemma DeepEqual_true a b : DeepEqual a b = true ↔ a = b.
Proof. unfold DeepEqual. by rewrite bool_decide_eq_true. Qed.

Lemma DeepEqual_false a b : DeepEqual a b = false ↔ a ≠ b.
Proof. unfold DeepEqual. by rewrite bool_decide_eq_false. Qed.

Lemma DeepEqual_refl a : DeepEqual a a = true.
Proof. by apply DeepEqual_true. Qed.

Lemma self_ref_SetAnnotations a o : self_ref (SetAnnotations a o) = self_ref o.
Proof. done. Qed.
Lemma self_ref_SetResourceVersion v o : self_ref (SetResourceVersion v o) = self_ref o.
Proof. done. Qed.
Lemma self_ref_SetDeletionTimestamp t o : self_ref (SetDeletionTimestamp t o) = self_ref o.
Proof. done. Qed.
