(* ===== verification/Sync.v ===== *)
(** * Goroutines and sync.RWMutex

    Goroutines as programs that lock, unlock and change shared data, with the semantics
    of Go's RWMutex: a writer that waits keeps new readers out.  The theory is generic:
    [ordered] programs, which take their locks in the order of a rank, never deadlock
    ([orderly_progress]), and every run ends ([steps_wf]).  [SyncSerial.v] adds when locked
    sections are atomic steps; [LockOrder.v] has the programs of the code. *)

From stdpp Require Import prelude list relations.
From Stdlib Require Import Lia.
From S2P Require Import Prelude.

Lemma keys_unique {K V} (l : list (K * V)) k a b : NoDup l.*1 → (k, a) ∈ l → (k, b) ∈ l → a = b.
Proof.
  intros Hnd (i & Hi)%list_elem_of_lookup (j & Hj)%list_elem_of_lookup.
  assert (l.*1 !! i = Some k ∧ l.*1 !! j = Some k) as [Hi' Hj'] by (by rewrite !list_lookup_fmap, Hi, Hj).
  pose proof (NoDup_lookup _ _ _ _ Hnd Hi' Hj') as ->. congruence.
Qed.

(** ** Programs

    A program that returns an [A].  [Do f k] changes the data by [f] and goes on with
    what it read before. *)
Inductive prog (L D A : Type) : Type :=
| Ret (a : A)
| RLock (l : L) (p : prog L D A)
| RUnlock (l : L) (p : prog L D A)
| Lock (l : L) (p : prog L D A)
| Unlock (l : L) (p : prog L D A)
| Do (f : D → D) (k : D → prog L D A).
Arguments Ret {L D A} a.
Arguments RLock {L D A} l p.
Arguments RUnlock {L D A} l p.
Arguments Lock {L D A} l p.
Arguments Unlock {L D A} l p.
Arguments Do {L D A} f k.

#[export] Instance prog_ret {L D} : MRet (prog L D) := λ A, Ret.
#[export] Instance prog_bind {L D} : MBind (prog L D) := λ A B k,
  fix bind p :=
    match p with
    | Ret a => k a
    | RLock l p => RLock l (bind p)
    | RUnlock l p => RUnlock l (bind p)
    | Lock l p => Lock l (bind p)
    | Unlock l p => Unlock l (bind p)
    | Do f q => Do f (λ d, bind (q d))
    end.

Definition reads {L D A} (f : D → A) : prog L D A := Do id (λ d, Ret (f d)).
Definition does {L D} (f : D → D) : prog L D () := Do f (λ _, Ret ()).

(** l.Lock(); defer l.Unlock(), and the same for readers. *)
Definition locked {L D A} (l : L) (body : prog L D A) : prog L D A :=
  Lock l (a ← body; Unlock l (Ret a)).
Definition rlocked {L D A} (l : L) (body : prog L D A) : prog L D A :=
  RLock l (a ← body; RUnlock l (Ret a)).

(** A loop over a list. *)
Fixpoint inSequence {L D A} (body : A → prog L D ()) (l : list A) : prog L D () :=
  match l with
  | [] => mret ()
  | x :: l => _ ← body x; inSequence body l
  end.

(** ** Goroutines *)
Inductive Mode := Reading | Writing.
#[export] Instance Mode_eq_dec : EqDecision Mode.
Proof. solve_decision. Defined.

Section machine.
Context {L D A : Type} `{EqDecision L}.

(** The locks a goroutine holds; whether its call of Lock has announced itself and
    waits for the readers to leave; and what it still does. *)
Record goroutine := mkG { g_held : list (L * Mode); g_waits : bool; g_prog : prog L D A }.
Implicit Types (g o : goroutine) (gs : list goroutine) (d : D).

Definition go (p : prog L D A) : goroutine := mkG [] false p.

Definition holds (l : L) g : bool :=
  bool_decide ((l, Reading) ∈ g_held g) || bool_decide ((l, Writing) ∈ g_held g).
Definition writes (l : L) g : bool := bool_decide ((l, Writing) ∈ g_held g).
(** A writer that waits for the readers. *)
Definition announces (l : L) g : bool :=
  g_waits g && match g_prog g with Lock l' _ => bool_decide (l' = l) | _ => false end.

Fixpoint remove_one (x : L * Mode) (held : list (L * Mode)) : list (L * Mode) :=
  match held with
  | [] => []
  | y :: held => if decide (x = y) then held else y :: remove_one x held
  end.

(** The next step of a goroutine among all, if it is not blocked.  Lock first waits for
    the other writers and announces itself, then it waits for the readers; a reader waits
    for writers that announced themselves.  Unlocking what is not locked is a fatal
    error. *)
Definition gnext gs d g : option (D * goroutine) :=
  let held := g_held g in
  match g_prog g with
  | Ret _ => None
  | RLock l p =>
      if existsb (λ o, writes l o || announces l o) gs then None
      else Some (d, mkG ((l, Reading) :: held) false p)
  | Lock l p =>
      if g_waits g then
        if existsb (holds l) gs then None
        else Some (d, mkG ((l, Writing) :: held) false p)
      else
        if existsb (λ o, writes l o || announces l o) gs then None
        else Some (d, mkG held true (Lock l p))
  | RUnlock l p =>
      if decide ((l, Reading) ∈ held) then Some (d, mkG (remove_one (l, Reading) held) false p) else None
  | Unlock l p =>
      if decide ((l, Writing) ∈ held) then Some (d, mkG (remove_one (l, Writing) held) false p) else None
  | Do f k => Some (f d, mkG held false (k d))
  end.

(** What a step is, by the instruction. *)
Lemma gnext_cases gs d g d' g' : gnext gs d g = Some (d', g') →
  let held := g_held g in
  match g_prog g with
  | Ret _ => False
  | RLock l p => existsb (λ o, writes l o || announces l o) gs = false ∧
      d' = d ∧ g' = mkG ((l, Reading) :: held) false p
  | Lock l p => d' = d ∧
      ((g_waits g = true ∧ existsb (holds l) gs = false ∧ g' = mkG ((l, Writing) :: held) false p) ∨
       (g_waits g = false ∧ existsb (λ o, writes l o || announces l o) gs = false ∧
        g' = mkG held true (Lock l p)))
  | RUnlock l p => (l, Reading) ∈ held ∧ d' = d ∧ g' = mkG (remove_one (l, Reading) held) false p
  | Unlock l p => (l, Writing) ∈ held ∧ d' = d ∧ g' = mkG (remove_one (l, Writing) held) false p
  | Do f k => d' = f d ∧ g' = mkG held false (k d)
  end.
Proof.
  unfold gnext. destruct (g_prog g); [discriminate|..];
    repeat (case_match; try discriminate); intros [= <- <-]; cbn; auto 10.
Qed.

(** One step of the i-th goroutine, and a schedule. *)
Definition state : Type := D * list goroutine.
Definition gstep (i : nat) (s : state) : option state :=
  g ← s.2 !! i;
  r ← gnext s.2 s.1 g;
  Some (r.1, <[i := r.2]> s.2).
Fixpoint run (schedule : list nat) (s : state) : option state :=
  match schedule with
  | [] => Some s
  | i :: schedule => s' ← gstep i s; run schedule s'
  end.
Definition start (d : D) (ps : list (prog L D A)) : state := (d, go <$> ps).
Definition steps (s s' : state) : Prop := ∃ i, gstep i s = Some s'.
Definition reachable (d : D) (ps : list (prog L D A)) (s : state) : Prop := rtc steps (start d ps) s.

Definition returned g : Prop := ∃ a, g_prog g = Ret a ∧ g_held g = [].
Definition finished (s : state) : Prop := Forall returned s.2.

Lemma gstep_Some i s s' :
  gstep i s = Some s' → ∃ g d' g', s.2 !! i = Some g ∧ gnext s.2 s.1 g = Some (d', g') ∧
    s' = (d', <[i := g']> s.2).
Proof.
  unfold gstep. destruct (s.2 !! i) as [g|] eqn:Hg; [|done]. cbn.
  destruct (gnext _ _ g) as [[d' g']|] eqn:Hn; [|done]. intros [= <-]. by exists g, d', g'.
Qed.
Lemma gstep_eq i d gs g d' g' :
  gs !! i = Some g → gnext gs d g = Some (d', g') → gstep i (d, gs) = Some (d', <[i := g']> gs).
Proof. intros Hg Hn. unfold gstep. cbn. rewrite Hg. cbn. by rewrite Hn. Qed.

Lemma run_go i sched d gs g d' g' s' :
  gs !! i = Some g → gnext gs d g = Some (d', g') → run sched (d', <[i := g']> gs) = Some s' →
  run (i :: sched) (d, gs) = Some s'.
Proof. intros Hg Hn Hrun. cbn [run]. by rewrite (gstep_eq _ _ _ _ _ _ Hg Hn). Qed.
Lemma idle_writes l ps : existsb (λ o, writes l o || announces l o) (go <$> ps) = false.
Proof. by induction ps. Qed.
Lemma idle_holds l ps : existsb (holds l) (go <$> ps) = false.
Proof. by induction ps. Qed.

Lemma run_app sched1 sched2 s : run (sched1 ++ sched2) s = s' ← run sched1 s; run sched2 s'.
Proof.
  revert s. induction sched1 as [|i sched1 IH]; intros s; [done|]. cbn.
  destruct (gstep i s) as [s'|]; [|done]. cbn. by rewrite IH.
Qed.
Lemma run_steps sched s s' : run sched s = Some s' → rtc steps s s'.
Proof.
  revert s. induction sched as [|i sched IH]; intros s; [by intros [= <-]|]. cbn.
  destruct (gstep i s) as [s1|] eqn:Hs; [|done]. cbn. intros Hrun.
  eapply rtc_l; [by exists i|by apply IH].
Qed.
Lemma steps_run s s' : rtc steps s s' → ∃ sched, run sched s = Some s'.
Proof.
  induction 1 as [s|s s1 s' [i Hi] _ [sched IH]]; [by exists []|]. exists (i :: sched). cbn. by rewrite Hi.
Qed.

Lemma remove_one_in x y held : x ∈ remove_one y held → x ∈ held.
Proof.
  induction held as [|z held IH]; [done|]. cbn. case_decide; [by right|].
  intros [->|Hx]%elem_of_cons; [left|right; auto].
Qed.

Lemma holds_true l g : holds l g = true ↔ ∃ m, (l, m) ∈ g_held g.
Proof.
  unfold holds. rewrite orb_true_iff, !bool_decide_eq_true. split; [naive_solver|].
  intros [[] ?]; auto.
Qed.
Lemma writes_true l g : writes l g = true ↔ (l, Writing) ∈ g_held g.
Proof. apply bool_decide_eq_true. Qed.
Lemma announces_true l g : announces l g = true ↔ g_waits g = true ∧ ∃ p, g_prog g = Lock l p.
Proof.
  unfold announces. rewrite andb_true_iff. split; intros [Hw H]; (split; [done|]).
  - destruct (g_prog g); try done. apply bool_decide_eq_true in H as ->. by eexists.
  - destruct H as [p ->]. by rewrite bool_decide_true.
Qed.
Lemma reachable_length d ps s : reachable d ps s → length s.2 = length ps.
Proof.
  unfold reachable. intros Hreach. assert (length (start d ps).2 = length ps) as Hlen by apply length_fmap.
  rewrite <- Hlen. clear Hlen. induction Hreach as [s|s1 s2 s3 [i Hi] _ IH]; [done|]. rewrite IH.
  apply gstep_Some in Hi as (g & d' & g' & _ & _ & ->). apply length_insert.
Qed.

(** A scheduler for concrete runs: each goroutine in turn. *)
Fixpoint round_robin (n i : nat) (s : state) : state :=
  match n with
  | O => s
  | S n => round_robin n (S i) (default s (gstep (i mod length s.2) s))
  end.
Lemma round_robin_steps n i s : rtc steps s (round_robin n i s).
Proof.
  revert i s. induction n as [|n IH]; intros i s; [done|]. cbn.
  destruct (gstep _ s) as [s'|] eqn:Hs; cbn; [|apply IH]. eapply rtc_l; [by eexists|apply IH].
Qed.
Definition all_returned (s : state) : bool :=
  forallb (λ g, match g_prog g, g_held g with Ret _, [] => true | _, _ => false end) s.2.
Lemma all_returned_finished s : all_returned s = true → finished s.
Proof.
  unfold all_returned, finished. rewrite forallb_forall, Forall_forall. intros Hs g Hg%list_elem_of_In.
  specialize (Hs g Hg). destruct (g_prog g) as [a| | | | |] eqn:Ha, (g_held g) eqn:Hh; try discriminate Hs. by exists a.
Qed.

(** ** Every run ends *)
(** The second goroutine can be the first one a step later. *)
Definition after (g' g : goroutine) : Prop := ∃ gs d d', gnext gs d g = Some (d', g').

Lemma after_wf : well_founded after.
Proof.
  intros [held w p]. revert held w. induction p as [a|l p IH|l p IH|l p IH|l p IH|f k IH]; intros held w;
    constructor; intros g' (gs & d & d' & Hn%gnext_cases); cbn in Hn.
  - contradiction.
  - destruct Hn as (_ & _ & ->). apply IH.
  - destruct Hn as (_ & _ & ->). apply IH.
  - destruct Hn as (_ & [(_ & _ & ->)|(_ & _ & ->)]); [apply IH|].
    constructor. intros g'' (? & ? & ? & [_ [(_ & _ & ->)|[[=] _]]]%gnext_cases). apply IH.
  - destruct Hn as (_ & _ & ->). apply IH.
  - destruct Hn as (_ & ->). apply IH.
Qed.

Definition one_after (gs' gs : list goroutine) : Prop :=
  ∃ i g g', gs !! i = Some g ∧ gs' = <[i := g']> gs ∧ after g' g.
Lemma one_after_wf : well_founded one_after.
Proof.
  intros gs. induction gs as [|g gs IH].
  { constructor. intros gs' (i & g & g' & Hg & _). by rewrite lookup_nil in Hg. }
  revert gs IH. induction (after_wf g) as [g _ IHg]. intros gs Hgs. induction Hgs as [gs Hgs IHgs].
  constructor. intros gs' ([|i] & o & g' & Hg & -> & Ha); cbn in Hg.
  - injection Hg as ->. apply IHg; [done|by constructor].
  - apply IHgs. by exists i, o, g'.
Qed.

Lemma gstep_one_after i s s' : gstep i s = Some s' → one_after s'.2 s.2.
Proof. intros (g & d' & g' & Hg & Hn & ->)%gstep_Some. exists i, g, g'. split_and!; [done..|by exists s.2, s.1, d']. Qed.
Lemma steps_wf : well_founded (flip steps).
Proof.
  intros [d gs]. revert d. induction (one_after_wf gs) as [gs _ IH]. intros d. constructor.
  intros [d' gs'] [i Hi%gstep_one_after]. by apply IH.
Qed.

(** From this state all goroutines return, whatever the schedule: one can go on until they have,
    no run is infinite, and every run can be completed. *)
Definition completes (s : state) : Prop :=
  (finished s ∨ ∃ i s', gstep i s = Some s') ∧ Acc (flip steps) s ∧ ∃ s', rtc steps s s' ∧ finished s'.

(** ** Ordered programs

    A program is ordered when it takes its locks in increasing rank, unlocks all it
    locks, and only reads the locks that are read-only, [ro]; these are exempt from the
    order, since nobody ever waits for them.  The locks of [twice] it may lock again while
    it holds them, and then it waits for ever: that stands for a goroutine that
    ends before it unlocks. *)
Section ordered.
Context (rank : L → nat) (ro : L → bool) (twice : L → bool).

Definition above (l : L) (held : list (L * Mode)) : bool :=
  forallb (λ x, ro x.1 || (rank x.1 <? rank l)) held.
(** The program takes its locks in order and [Q] holds of its result and of the locks it
    then holds. *)
Fixpoint orders (held : list (L * Mode)) (p : prog L D A) (Q : A → list (L * Mode) → Prop) : Prop :=
  match p with
  | Ret a => Q a held
  | RLock l p => ro l || above l held = true ∧ orders ((l, Reading) :: held) p Q
  | RUnlock l p => (l, Reading) ∈ held ∧ orders (remove_one (l, Reading) held) p Q
  | Lock l p => (twice l = true ∧ (l, Writing) ∈ held) ∨
      (ro l = false ∧ above l held = true ∧ orders ((l, Writing) :: held) p Q)
  | Unlock l p => (l, Writing) ∈ held ∧ orders (remove_one (l, Writing) held) p Q
  | Do f k => ∀ d, orders held (k d) Q
  end.
Definition ordered (held : list (L * Mode)) (p : prog L D A) : Prop := orders held p (λ _ held, held = []).

(** A goroutine that follows the order. *)
Record orderly g : Prop := {
  ord_prog : ordered (g_held g) (g_prog g);
  ord_writes : ∀ l, (l, Writing) ∈ g_held g → ro l = false;
  ord_waits : g_waits g = true → ∃ l p, g_prog g = Lock l p;
}.
Definition all_orderly (s : state) : Prop := Forall orderly s.2.

(** A goroutine that waits for a lock it holds. *)
Definition lost g : Prop := ∃ l p, g_prog g = Lock l p ∧ twice l = true ∧ (l, Writing) ∈ g_held g.
Lemma lost_stuck gs d g : g ∈ gs → lost g → gnext gs d g = None.
Proof.
  intros Hin (l & p & Hp & _ & Hw). unfold gnext. rewrite Hp. destruct (g_waits g).
  - destruct (existsb (holds l) gs) eqn:Hex; [done|]. rewrite existsb_false_elem_of in Hex. specialize (Hex g Hin).
    assert (holds l g = true) by (apply holds_true; by eexists). congruence.
  - destruct (existsb _ gs) eqn:Hex; [done|]. rewrite existsb_false_elem_of in Hex. specialize (Hex g Hin).
    apply orb_false_iff in Hex as [Hex _]. assert (writes l g = true) by (by apply writes_true). congruence.
Qed.
Lemma gnext_orderly gs d g d' g' : g ∈ gs → orderly g → gnext gs d g = Some (d', g') → orderly g'.
Proof.
  intros Hin [Hp Hw Hl] Hn. assert (¬ lost g) as Hlost by (intros Hlost; by rewrite (lost_stuck gs d g Hin Hlost) in Hn).
  apply gnext_cases in Hn. destruct g as [held w p]. cbn in Hn, Hw. unfold ordered in Hp.
  destruct p; cbn in Hn, Hp.
  - contradiction.
  - destruct Hn as (_ & _ & ->). split; [apply Hp| |done].
    intros l' [[=]|?]%elem_of_cons; auto.
  - destruct Hn as (_ & _ & ->). split; [apply Hp| |done]. intros l' ?%remove_one_in; auto.
  - destruct Hp as [[Ht Hh]|Hp]; [destruct Hlost; by exists l, p|].
    destruct Hn as (_ & [(_ & _ & ->)|(_ & _ & ->)]); (split; [by apply Hp || by right| |by eauto || done]).
    + intros l' [[= ->]|?]%elem_of_cons; [apply Hp|auto].
    + done.
  - destruct Hn as (_ & _ & ->). split; [apply Hp| |done]. intros l' ?%remove_one_in; auto.
  - destruct Hn as (_ & ->). split; [apply Hp|done|done].
Qed.
Lemma gstep_all_orderly i s s' : all_orderly s → gstep i s = Some s' → all_orderly s'.
Proof.
  intros Hs (g & d' & g' & Hg & Hn & ->)%gstep_Some. apply Forall_insert; [done|].
  eapply gnext_orderly; [by eapply list_elem_of_lookup_2|by eapply (Forall_lookup_1 _ _ _ _ Hs)|done].
Qed.
Lemma start_all_orderly d ps : Forall (ordered []) ps → all_orderly (start d ps).
Proof.
  intros Hps. apply Forall_fmap. eapply Forall_impl; [exact Hps|]. intros p Hp. split; [done| |done].
  intros l Hl. by apply not_elem_of_nil in Hl.
Qed.
Lemma reachable_all_orderly d ps s :
  Forall (ordered []) ps → reachable d ps s → all_orderly s.
Proof.
  intros Hps Hs. unfold reachable in Hs. pose proof (start_all_orderly d ps Hps) as H0.
  induction Hs as [|s1 s2 s3 [i Hi] _ IH]; [done|]. by eapply IH, gstep_all_orderly.
Qed.

(** *** A goroutine that waits, waits for one that wants a higher lock *)
Definition wants (l : L) g : Prop := ∃ p, g_prog g = RLock l p ∨ g_prog g = Lock l p.

Lemma orderly_wants l g : orderly g → ¬ lost g → wants l g → ro l = false →
  ∀ l' m, (l', m) ∈ g_held g → ro l' = false → (rank l' < rank l)%nat.
Proof.
  intros [Hp _ _] Hlost [p Hwant] Hro l' m Hin Hro'. unfold ordered in Hp.
  assert (above l (g_held g) = true) as Ha.
  { destruct Hwant as [Hwant|Hwant]; rewrite Hwant in Hp; cbn in Hp; [rewrite Hro in Hp; apply Hp|].
    destruct Hp as [[? ?]|Hp]; [destruct Hlost; by exists l, p|apply Hp]. }
  unfold above in Ha. rewrite forallb_forall in Ha. specialize (Ha (l', m)).
  rewrite <- list_elem_of_In in Ha. specialize (Ha Hin). cbn in Ha. rewrite Hro' in Ha.
  by apply Nat.ltb_lt in Ha.
Qed.

Definition unfinished g : Prop := ∀ a, g_prog g ≠ Ret a.

(** Who writes or announces a lock that is not read-only. *)
Lemma orderly_writes_ro l o : orderly o → writes l o || announces l o = true → ro l = false.
Proof.
  intros [Hp Hw _] [H|H]%orb_true_iff; [by apply Hw, writes_true|].
  apply announces_true in H as (_ & p & Hl). unfold ordered in Hp. rewrite Hl in Hp.
  destruct Hp as [[_ Hin]|Hp]; [by apply Hw|apply Hp].
Qed.
Lemma orderly_stuck gs d g :
  Forall orderly gs → g ∈ gs → gnext gs d g = None → unfinished g →
  ∃ l, wants l g ∧ ro l = false ∧ ∃ o, o ∈ gs ∧ (holds l o = true ∨ announces l o = true).
Proof.
  intros Hgs Hg Hn Hne. rewrite Forall_forall in Hgs. destruct (Hgs g Hg) as [Hp Hws _].
  assert (∀ l, existsb (λ o, writes l o || announces l o) gs = true →
    ro l = false ∧ ∃ o, o ∈ gs ∧ (holds l o = true ∨ announces l o = true)) as Hblock.
  { intros l (o & Ho & Ho')%existsb_elem_of. split; [by eapply orderly_writes_ro; [apply Hgs|]|].
    exists o. split; [done|]. apply orb_true_iff in Ho' as [H%writes_true|]; [left|by right].
    apply holds_true. by eexists. }
  unfold gnext in Hn. unfold wants. unfold ordered in Hp.
  destruct (g_prog g) as [a|l p|l p|l p|l p|f k] eqn:Eg; cbn in Hp; try discriminate.
  - by destruct (Hne a).
  - exists l. case_match eqn:E; [|discriminate]. split; [eauto|]. by apply Hblock.
  - rewrite decide_True in Hn by apply Hp. discriminate.
  - exists l. split; [eauto|]. destruct (g_waits g); case_match eqn:E; try discriminate; [|by apply Hblock].
    split; [destruct Hp as [[_ ?]|Hp]; [by apply Hws|apply Hp]|]. apply existsb_elem_of in E as (o & ? & ?). eauto.
  - rewrite decide_True in Hn by apply Hp. discriminate.
Qed.
Lemma orderly_chain gs d g :
  Forall orderly gs → (∀ o, o ∈ gs → gnext gs d o = None ∧ ¬ lost o) → g ∈ gs → unfinished g →
  ∃ l o l', wants l g ∧ o ∈ gs ∧ unfinished o ∧ wants l' o ∧ (rank l < rank l')%nat.
Proof.
  intros Hgs Hstuck Hg Hne.
  assert (∃ l, wants l g ∧ ro l = false ∧ ∃ o, o ∈ gs ∧ holds l o = true) as (l & Hl & Hro & o & Ho & Hh).
  { destruct (orderly_stuck gs d g) as (l & Hl & Hro & o & Ho & [Hh|Ha]); [done..|by apply Hstuck|done|by exists l; eauto|].
    apply announces_true in Ha as (Hw & p & Hp). exists l. split_and!; [done..|].
    destruct (Hstuck o Ho) as [Hso _]. unfold gnext in Hso. rewrite Hp, Hw in Hso.
    case_match eqn:E; [|done]. apply existsb_elem_of in E. naive_solver. }
  apply holds_true in Hh as [m Hh]. exists l, o.
  assert (orderly o) as Hord by (rewrite Forall_forall in Hgs; auto).
  assert (unfinished o) as Hneo.
  { intros a HRet. destruct Hord as [Hp _ _]. rewrite HRet in Hp. cbn in Hp.
    rewrite Hp in Hh. by apply not_elem_of_nil in Hh. }
  destruct (orderly_stuck gs d o) as (l' & Hl' & Hro' & _); [done..|by apply Hstuck|done|]. exists l'. split_and!; try done.
  eapply orderly_wants; [done|by apply Hstuck|done..].
Qed.

Lemma orderly_finished_or gs : Forall orderly gs → Forall returned gs ∨ ∃ g, g ∈ gs ∧ unfinished g.
Proof.
  induction 1 as [|g gs [Hp _ _] _ IH]; [by left|].
  destruct (g_prog g) eqn:Eg; try (right; exists g; split; [by left|intros ?; by rewrite Eg]).
  destruct IH as [IH|(o & Ho & ?)]; [left; constructor; [by eexists|done]|].
  right. exists o. split; [by right|done].
Qed.
Lemma orderly_chain_rank gs d :
  Forall orderly gs → (∀ o, o ∈ gs → gnext gs d o = None ∧ ¬ lost o) → ∀ g, g ∈ gs → unfinished g →
  ∀ n, ∃ o l, o ∈ gs ∧ unfinished o ∧ wants l o ∧ (n ≤ rank l)%nat.
Proof.
  intros Hgs Hstuck g Hg Hne. induction n as [|n (o & l & Ho & Hneo & Hl & Hn)].
  - destruct (orderly_chain gs d g) as (l & _ & _ & Hl & _); [done..|]. exists g, l. split_and!; [done..|lia].
  - destruct (orderly_chain gs d o) as (l1 & o' & l' & Hl1 & Ho' & Hneo' & Hl' & Hlt); [done..|].
    exists o', l'. split_and!; [done..|].
    assert (l1 = l) as ->.
    { destruct Hl as [p Hp], Hl1 as [p1 Hp1]. destruct Hp as [Hp|Hp], Hp1 as [Hp1|Hp1]; congruence. }
    lia.
Qed.

(** Goroutines that follow the order are never all blocked, unless one waits for
    itself. *)
Definition none_lost (s : state) : Prop := ∀ g, g ∈ s.2 → ¬ lost g.
Lemma once_none_lost s : (∀ l, twice l = false) → none_lost s.
Proof. intros Honce g _ (l & _ & _ & Ht & _). by rewrite Honce in Ht. Qed.
Lemma orderly_progress s : all_orderly s → none_lost s → ¬ finished s → ∃ i s', gstep i s = Some s'.
Proof.
  destruct s as [d gs]. unfold all_orderly, none_lost, finished. cbn. intros Hgs Hlost Hnf.
  destruct (decide (Exists (λ g, is_Some (gnext gs d g)) gs)) as [Hex|Hno].
  { apply Exists_exists in Hex as (g & [i Hi]%list_elem_of_lookup & [[d' g'] Hn]).
    exists i, (d', <[i := g']> gs). by eapply gstep_eq. }
  exfalso. assert (∀ o, o ∈ gs → gnext gs d o = None ∧ ¬ lost o) as Hstuck.
  { intros o Ho. split; [|by apply Hlost]. destruct (gnext gs d o) eqn:E; [|done]. exfalso. apply Hno, Exists_exists. eauto. }
  destruct (orderly_finished_or gs Hgs) as [?|(g & Hg & Hne)]; [done|].
  set (rank_of o := match g_prog o with RLock l _ | Lock l _ => rank l | _ => 0%nat end).
  destruct (orderly_chain_rank gs d Hgs Hstuck g Hg Hne (S (max_list (rank_of <$> gs))))
    as (o & l & Ho & _ & [p Hl] & Hn).
  assert (rank l ≤ max_list (rank_of <$> gs))%nat; [|lia].
  assert (rank l = rank_of o) as -> by (unfold rank_of; destruct Hl as [-> | ->]; done).
  by apply max_list_elem_of_le, list_elem_of_fmap_2.
Qed.
Lemma orderly_goes_on s : all_orderly s → none_lost s → finished s ∨ ∃ i s', gstep i s = Some s'.
Proof.
  intros Hs Hlost. destruct (orderly_finished_or _ Hs) as [?|(g & Hg & Hne)]; [by left|right].
  apply orderly_progress; [done..|]. intros Hfin. unfold finished in Hfin.
  rewrite Forall_forall in Hfin. destruct (Hfin g Hg) as (a & Ha & _). by destruct (Hne a).
Qed.
Lemma orderly_completes s :
  all_orderly s → (∀ s', rtc steps s s' → none_lost s') → ∃ s', rtc steps s s' ∧ finished s'.
Proof.
  induction (steps_wf s) as [s _ IH]. intros Hs Hlost.
  destruct (orderly_goes_on s Hs) as [Hfin|(i & s1 & Hi)]; [by apply Hlost|by exists s|].
  destruct (IH s1) as (s' & Hrtc & Hfin); [by exists i|by eapply gstep_all_orderly| |].
  { intros s' Hs'. apply Hlost. eapply rtc_l; [by exists i|done]. }
  exists s'. split; [|done]. eapply rtc_l; [by exists i|done].
Qed.
End ordered.

(** ** Locks exclude *)
Lemma readers_keep_writers_out gs l :
  existsb (λ o, writes l o || announces l o) gs = false → ∀ o, o ∈ gs → (l, Writing) ∉ g_held o.
Proof.
  intros H o Ho Hw. rewrite existsb_false_elem_of in H. specialize (H o Ho).
  apply orb_false_iff in H as [H _]. apply writes_true in Hw. congruence.
Qed.
Lemma writers_keep_all_out gs l m :
  existsb (holds l) gs = false → ∀ o, o ∈ gs → (l, m) ∉ g_held o.
Proof.
  intros H o Ho Hm. rewrite existsb_false_elem_of in H. specialize (H o Ho).
  assert (holds l o = true) by (apply holds_true; by exists m). congruence.
Qed.
Lemma gnext_held gs d g d' g' l m :
  gnext gs d g = Some (d', g') → (l, m) ∈ g_held g' →
  (l, m) ∈ g_held g ∨ ∀ o, o ∈ gs → (l, Writing) ∉ g_held o ∧ (m = Writing → ∀ m', (l, m') ∉ g_held o).
Proof.
  intros Hn%gnext_cases Hin. destruct (g_prog g); cbn in Hn.
  - contradiction.
  - destruct Hn as (Hex & _ & ->). apply elem_of_cons in Hin as [[= -> ->]|]; [right|by left].
    intros o Ho. split; [by eapply readers_keep_writers_out|done].
  - destruct Hn as (_ & _ & ->). left. by eapply remove_one_in.
  - destruct Hn as (_ & [(_ & Hex & ->)|(_ & _ & ->)]); [|by left].
    apply elem_of_cons in Hin as [[= -> ->]|]; [right|by left].
    intros o Ho. split; [|intros _ m']; by eapply writers_keep_all_out.
  - destruct Hn as (_ & _ & ->). left. by eapply remove_one_in.
  - destruct Hn as (_ & ->). by left.
Qed.

(** Who writes under a lock is alone under it. *)
Definition exclusive (s : state) : Prop := ∀ i j g o l m,
  s.2 !! i = Some g → s.2 !! j = Some o → i ≠ j → (l, Writing) ∈ g_held g → (l, m) ∉ g_held o.

Lemma gstep_exclusive i s s' : exclusive s → gstep i s = Some s' → exclusive s'.
Proof.
  intros Hs (g & d' & g' & Hg & Hn & ->)%gstep_Some j k g1 g2 l m. cbn [snd].
  intros Hj%list_lookup_insert_Some Hk%list_lookup_insert_Some Hne Hw Hm.
  destruct Hj as [(<- & <- & _)|[Hij Hj]], Hk as [(<- & <- & _)|[Hik Hk]]; [done| | |].
  - pose proof (list_elem_of_lookup_2 _ _ _ Hk) as Hin.
    destruct (gnext_held _ _ _ _ _ _ _ Hn Hw) as [Hold|Hnew]; [by eapply (Hs i k)|].
    destruct (Hnew g2 Hin) as [_ Hno]. by eapply Hno.
  - pose proof (list_elem_of_lookup_2 _ _ _ Hj) as Hin.
    destruct (gnext_held _ _ _ _ _ _ _ Hn Hm) as [Hold|Hnew]; [by eapply (Hs j i)|].
    by destruct (Hnew g1 Hin) as [Hno _].
  - by eapply (Hs j k).
Qed.
Lemma reachable_exclusive d ps s : reachable d ps s → exclusive s.
Proof.
  unfold reachable. intros Hs. assert (exclusive (start d ps)) as H0.
  { intros i j g o l m Hi _ _ Hw. cbn in Hi. rewrite list_lookup_fmap in Hi.
    destruct (ps !! i); [|done]. injection Hi as <-. by apply not_elem_of_nil in Hw. }
  induction Hs as [|s1 s2 s3 [i Hi] _ IH]; [done|]. by eapply IH, gstep_exclusive.
Qed.

(** ** Goroutines that block each other never move again *)
Definition blocks (o g : goroutine) : bool :=
  match g_prog g with
  | RLock l _ => writes l o || announces l o
  | Lock l _ => if g_waits g then holds l o else writes l o || announces l o
  | _ => false
  end.
Definition knot gs (ks : list nat) : Prop :=
  Forall (λ i, ∃ j g o, j ∈ ks ∧ gs !! i = Some g ∧ gs !! j = Some o ∧ blocks o g = true) ks.

Lemma blocks_stuck gs d o g : o ∈ gs → blocks o g = true → gnext gs d g = None.
Proof.
  unfold blocks, gnext. intros Ho Hb.
  assert (∀ f, f o = true → existsb f gs = true) as Hex by (intros; apply existsb_elem_of; eauto).
  destruct (g_prog g) as [a|l p|l p|l p|l p|f k]; try discriminate.
  - by rewrite (Hex (λ o, writes l o || announces l o) Hb).
  - destruct (g_waits g); [by rewrite (Hex (holds l) Hb)|].
    by rewrite (Hex (λ o, writes l o || announces l o) Hb).
Qed.
Lemma knot_step gs d ks i s' :
  knot gs ks → gstep i (d, gs) = Some s' → i ∉ ks ∧ ∀ j, j ∈ ks → s'.2 !! j = gs !! j.
Proof.
  intros Hk (g & d' & g' & Hg & Hn & ->)%gstep_Some. cbn [fst snd] in *.
  assert (i ∉ ks) as Hi.
  { intros Hi. unfold knot in Hk. rewrite Forall_forall in Hk.
    destruct (Hk i Hi) as (j & g1 & o & Hj & Hg1 & Ho & Hb). simplify_eq.
    erewrite blocks_stuck in Hn; [done| |exact Hb]. by eapply list_elem_of_lookup_2. }
  split; [done|]. intros j Hj. apply list_lookup_insert_ne. by intros ->.
Qed.
Lemma knot_for_ever ks sched s s' :
  knot s.2 ks → run sched s = Some s' → ∀ i, i ∈ ks → i ∉ sched ∧ s'.2 !! i = s.2 !! i.
Proof.
  revert s. induction sched as [|k sched IH]; intros [d gs] Hk; cbn.
  - intros [= <-] i Hi. split; [apply not_elem_of_nil|done].
  - destruct (gstep k (d, gs)) as [s1|] eqn:Hs; [|done]. cbn. intros Hrun i Hi.
    destruct (knot_step _ _ _ _ _ Hk Hs) as [Hki Hsame].
    destruct (IH s1) with i as [Hni Heq]; [|done..|].
    { unfold knot in *. rewrite Forall_forall in *. intros x Hx. destruct (Hk x Hx) as (j & g & o & Hj & ?).
      exists j, g, o. by rewrite !Hsame. }
    split; [|by rewrite Heq, Hsame]. apply not_elem_of_cons. split; [by intros ->|done].
Qed.
Lemma knot_unfinished ks (s s' : state) i : knot s.2 ks → i ∈ ks → s'.2 !! i = s.2 !! i → ¬ finished s'.
Proof.
  unfold knot, finished. rewrite !Forall_forall. intros Hk Hi Heq Hfin.
  destruct (Hk i Hi) as (_ & g & o & _ & Hg & _ & Hb). rewrite Hg in Heq.
  destruct (Hfin g) as (a & Ha & _); [by eapply list_elem_of_lookup_2|]. unfold blocks in Hb. by rewrite Ha in Hb.
Qed.
End machine.

(** No lock is taken twice. *)
Definition once {L} (_ : L) : bool := false.

(** ** Programs that give back all their locks, in order *)
Section neutral.
Context {L D : Type} `{EqDecision L} (rank : L → nat) (ro : L → bool) (twice : L → bool).

Definition neutral {A} (held : list (L * Mode)) (p : prog L D A) : Prop :=
  orders rank ro twice held p (λ _ held', held' = held).

Lemma orders_mono {A} held (p : prog L D A) (Q Q' : A → list (L * Mode) → Prop) :
  (∀ a h, Q a h → Q' a h) → orders rank ro twice held p Q → orders rank ro twice held p Q'.
Proof. intros HQ. revert held. induction p; intros held; cbn; [auto|..]; naive_solver. Qed.
Lemma orders_bind {A B} held (p : prog L D A) (k : A → prog L D B) Q :
  orders rank ro twice held p (λ a h, orders rank ro twice h (k a) Q) → orders rank ro twice held (p ≫= k) Q.
Proof. revert held. induction p; intros held; cbn; [done|..]; naive_solver. Qed.

Lemma neutral_ret {A} held (a : A) : neutral held (mret a).
Proof. done. Qed.
Lemma neutral_does held f : neutral held (does f).
Proof. done. Qed.
Lemma neutral_reads {A} held (f : D → A) : neutral held (reads f).
Proof. done. Qed.
Lemma neutral_bind {A B} held (p : prog L D A) (k : A → prog L D B) :
  neutral held p → (∀ a, neutral held (k a)) → neutral held (p ≫= k).
Proof. intros Hp Hk. apply orders_bind. eapply orders_mono; [|exact Hp]. intros a h ->. apply Hk. Qed.
Lemma neutral_rlocked {A} held l (body : prog L D A) :
  ro l || above rank ro l held = true → neutral ((l, Reading) :: held) body → neutral held (rlocked l body).
Proof.
  intros Hl Hb. split; [done|]. apply orders_bind. eapply orders_mono; [|exact Hb]. intros a h ->. cbn.
  split; [left|by rewrite decide_True].
Qed.
Lemma neutral_locked {A} held l (body : prog L D A) :
  ro l = false → above rank ro l held = true → neutral ((l, Writing) :: held) body →
  neutral held (locked l body).
Proof.
  intros Hro Hl Hb. right. split_and!; [done..|]. apply orders_bind. eapply orders_mono; [|exact Hb]. intros a h ->. cbn.
  split; [left|by rewrite decide_True].
Qed.
Lemma neutral_inSequence {A} held (body : A → prog L D ()) xs :
  (∀ x, x ∈ xs → neutral held (body x)) → neutral held (inSequence body xs).
Proof.
  induction xs as [|x xs IH]; intros Hb; [done|]. cbn. apply neutral_bind; [apply Hb; left|].
  intros _. apply IH. intros y Hy. apply Hb. by right.
Qed.
End neutral.
#[export] Hint Resolve neutral_ret neutral_does neutral_reads neutral_bind neutral_rlocked neutral_locked
  neutral_inSequence : goofy.
