(* ===== verification/SyncSerial.v ===== *)
(** * Refinement: programs with locks as atomic steps

    A client asks for operations on shared data, one at a time, and goes on with the
    answers.  Goroutines that follow their clients, and touch the data only under one lock,
    refine the system in which each operation is one atomic step
    ([reachable_refines], [finished_refines]), and return when all operations do
    ([all_answered_finish]); goroutines that ask once are one after the other
    ([runs_serialize]).  [follows] says what a program must do in its
    sections; it is used for the hot restart (RestartLock.v) and for the
    operations on a resource group (CacheLocks.v). *)

From stdpp Require Import prelude list relations.
From Stdlib Require Import Lia.
From S2P Require Import Prelude Sync.

(** ** Clients *)
Inductive client (Q R A : Type) : Type :=
| Return (a : A)
| Ask (q : Q) (k : R → client Q R A).
Arguments Return {Q R A} a.
Arguments Ask {Q R A} q k.

#[export] Instance client_ret {Q R} : MRet (client Q R) := λ A, Return.
#[export] Instance client_bind {Q R} : MBind (client Q R) := λ A B kc,
  fix bind c :=
    match c with
    | Return a => kc a
    | Ask q k => Ask q (λ r, bind (k r))
    end.
Definition ask {Q R} (q : Q) : client Q R R := Ask q Return.

(** Where a goroutine is: between its sections; in a section in which it only reads, with
    data [d]; or in one with data [d0] when it came and [d] now. *)
Inductive phase (D : Type) := Between | Reads (d : D) | Writes (d0 d : D).
Arguments Between {D}.
Arguments Reads {D} d.
Arguments Writes {D} d0 d.

Section clients.
Context {D Q R : Type} (at_once : Q → D → R → D → Prop).

(** Requests of one client are answered, alone. *)
Inductive answered {A} : D * client Q R A → D * client Q R A → Prop :=
| answered_intro d q k r d' : at_once q d r d' → answered (d, Ask q k) (d', k r).
Abbreviation answers := (rtc answered).

Lemma answers_once {A} d q (k : R → client Q R A) r d' : at_once q d r d' → answers (d, Ask q k) (d', k r).
Proof. intros Hq. by apply rtc_once. Qed.
Lemma answers_bind {A B} (kc : A → client Q R B) d c d' c' :
  answers (d, c) (d', c') → answers (d, c ≫= kc) (d', c' ≫= kc).
Proof.
  intros Hrun. change (rtc answered ((d, c).1, (d, c).2 ≫= kc) ((d', c').1, (d', c').2 ≫= kc)).
  revert Hrun. generalize (d, c) (d', c'). clear d c d' c'. intros s s' Hrun.
  induction Hrun as [s|s s1 s2 [d1 q k r d2 Hq] _ IH]; [done|].
  eapply rtc_l; [|exact IH]. exact (answered_intro d1 q (λ r, k r ≫= kc) r d2 Hq).
Qed.

(** The system of all clients: one of them is answered. *)
Definition asked {A} (s s' : D * list (client Q R A)) : Prop :=
  ∃ i c d' c', s.2 !! i = Some c ∧ answered (s.1, c) (d', c') ∧ s' = (d', <[i := c']> s.2).
(** A client that comes to a request that has no answer: the operation panics, or never
    returns. *)
Definition stuck {A} (d : D) (c : client Q R A) : Prop :=
  ∃ d1 q k, answers (d, c) (d1, Ask q k) ∧ ∀ r d', ¬ at_once q d1 r d'.
Lemma stuck_bind {A B} (kc : A → client Q R B) d c : stuck d c → stuck d (c ≫= kc).
Proof. intros (d1 & q & k & Ha & Hq). exists d1, q, (λ r, k r ≫= kc). split; [by apply (answers_bind kc d c d1 (Ask q k))|done]. Qed.

Lemma answers_asked {A} i s s' (cs : list (client Q R A)) :
  cs !! i = Some s.2 → answers s s' → rtc asked (s.1, cs) (s'.1, <[i := s'.2]> cs).
Proof.
  intros Hi Hrun. revert cs Hi. induction Hrun as [s|s s1 s2 H1 _ IH]; intros cs Hi; [by rewrite list_insert_id|].
  eapply rtc_l; [exists i, s.2, s1.1, s1.2; split_and!; [done|by destruct s, s1|done]|]. cbn [fst snd].
  rewrite <- (list_insert_insert_eq cs i s2.2 s1.2). apply IH.
  apply list_lookup_insert_eq. by eapply lookup_lt_Some.
Qed.
Lemma asked_length {A} (s s' : D * list (client Q R A)) : rtc asked s s' → length s'.2 = length s.2.
Proof.
  induction 1 as [s|s s1 s2 (i & c & d' & c' & _ & _ & ->) _ IH]; [done|]. rewrite IH. apply length_insert.
Qed.

(** *** When every request has an answer *)
Definition all_answered {A} (a0 : D * list (client Q R A)) : Prop := ∀ d ks i q k,
  rtc asked a0 (d, ks) → ks !! i = Some (Ask q k) → ∃ r d', at_once q d r d'.
(** A client that asks only such requests. *)
Fixpoint asks_only {A} (P : Q → Prop) (c : client Q R A) : Prop :=
  match c with
  | Return _ => True
  | Ask q k => P q ∧ ∀ r, asks_only P (k r)
  end.
(** Requests that have answers and keep an invariant. *)
Lemma all_answered_by {A} (P : Q → Prop) (I : D → Prop) d (ks : list (client Q R A)) :
  (∀ q d, P q → I d → (∃ r d', at_once q d r d') ∧ ∀ r d', at_once q d r d' → I d') →
  I d → Forall (asks_only P) ks → all_answered (d, ks).
Proof.
  intros Hstep HI Hks d1 ks1 i q k Hrun Hi.
  assert (I d1 ∧ Forall (asks_only P) ks1) as [HI1 Hks1].
  { change (I (d1, ks1).1 ∧ Forall (asks_only P) (d1, ks1).2). pattern (d1, ks1).
    eapply rtc_ind_r; [| |exact Hrun]; [by split|].
    intros s s' _ (j & c & d' & c' & Hc & Ha & ->) [HIs Hkss]. inversion Ha as [? q' k' r ? Hq]; subst.
    pose proof (Forall_lookup_1 _ _ _ _ Hkss Hc) as [HPq Hkr]. split; [by eapply (Hstep q')|].
    cbn. by apply Forall_insert. }
  pose proof (Forall_lookup_1 _ _ _ _ Hks1 Hi) as [HPq _]. by apply Hstep.
Qed.

(** ** Following a client

    [I] holds of the data outside of sections that write, and [J] always, so that
    outside of sections a program may read what [J] fixes.  A section must do what the
    requests answered in it do at once, no matter how many; what does not depend on
    the data may also be answered later.  Who locks [l] twice waits for ever, and
    that may only happen where a request has no answer. *)
Section follows.
Context {L : Type} `{EqDecision L} (l : L) (I J : D → Prop).

Fixpoint follows {A} (c : client Q R A) (ph : phase D) (p : prog L D A) : Prop :=
  match p with
  | Ret a => ph = Between ∧ ∀ d, I d → answers (d, c) (d, Return a)
  | RLock l' p =>
      if decide (l' = l) then
        match ph with
        | Between => ∀ d, I d → follows c (Reads d) p
        | _ => False
        end
      else follows c ph p
  | Lock l' p =>
      if decide (l' = l) then
        match ph with
        | Between => ∀ d, I d → follows c (Writes d d) p
        | Writes d0 _ => stuck d0 c
        | Reads _ => False
        end
      else follows c ph p
  | RUnlock l' p =>
      if decide (l' = l) then ∃ d c', ph = Reads d ∧ answers (d, c) (d, c') ∧ follows c' Between p
      else follows c ph p
  | Unlock l' p =>
      if decide (l' = l) then ∃ d0 d c', ph = Writes d0 d ∧ answers (d0, c) (d, c') ∧ I d ∧ follows c' Between p
      else follows c ph p
  | Do f k =>
      match ph with
      | Between => ∀ d, J d → f d = d ∧ follows c Between (k d)
      | Reads d => f d = d ∧ follows c ph (k d)
      | Writes d0 d => J (f d) ∧ follows c (Writes d0 (f d)) (k d)
      end
  end.

(** Requests that could have been answered where the goroutine is. *)
Definition answerable {A} (ph : phase D) (c c' : client Q R A) : Prop :=
  match ph with
  | Between => ∀ d, I d → answers (d, c) (d, c')
  | Reads d => answers (d, c) (d, c')
  | Writes d0 _ => answers (d0, c) (d0, c')
  end.
Lemma follows_later {A} (c c' : client Q R A) ph p : answerable ph c c' → follows c' ph p → follows c ph p.
Proof.
  revert c c' ph. induction p as [a|l' p IH|l' p IH|l' p IH|l' p IH|f k IH]; intros c c' ph Hc; cbn.
  - intros [-> Ha]. split; [done|]. intros d Hd. etrans; [by apply Hc|by apply Ha].
  - case_decide; [|by eapply IH]. destruct ph as [|d|d0 d]; [|done..]. intros Hp d Hd. eapply IH; [|by apply Hp]. by apply Hc.
  - case_decide; [|by eapply IH]. intros (d & c2 & -> & Hr & Hp). exists d, c2. split; [done|]. split; [by etrans|done].
  - case_decide; [|by eapply IH]. destruct ph as [|d|d0 d]; [|done|].
    + intros Hp d Hd. eapply IH; [|by apply Hp]. by apply Hc.
    + intros (d1 & q & k & Ha & Hq). exists d1, q, k. split; [by etrans|done].
  - case_decide; [|by eapply IH]. intros (d0 & d & c2 & -> & Hr & Hp). exists d0, d, c2. split; [done|]. split; [by etrans|done].
  - destruct ph as [|d|d0 d].
    + intros Hk d Hd. destruct (Hk d Hd) as [Hf Hp]. split; [done|]. by eapply IH.
    + intros [Hf Hp]. split; [done|]. by eapply IH.
    + intros [Hf Hp]. split; [done|]. by eapply IH.
Qed.

Lemma follows_bind {A B} (c : client Q R A) (kc : A → client Q R B) p (k : A → prog L D B) ph :
  follows c ph p → (∀ a, follows (kc a) Between (k a)) → follows (c ≫= kc) ph (p ≫= k).
Proof.
  intros Hp Hk. revert c ph Hp. induction p as [a|l' p IH|l' p IH|l' p IH|l' p IH|f kp IH]; intros c ph; cbn.
  - intros [-> Ha]. eapply follows_later; [|apply Hk]. intros d Hd. apply (answers_bind kc _ _ _ (Return a)). auto.
  - case_decide; [|apply IH]. destruct ph; [|done..]. intros Hp d Hd. by apply IH, Hp.
  - case_decide; [|apply IH]. intros (d & c' & -> & Hr & Hp). exists d, (c' ≫= kc).
    split_and!; [done|by apply answers_bind|by apply IH].
  - case_decide; [|apply IH]. destruct ph; [|done|apply stuck_bind]. intros Hp d Hd. by apply IH, Hp.
  - case_decide; [|apply IH]. intros (d0 & d & c' & -> & Hr & Hd & Hp). exists d0, d, (c' ≫= kc).
    split_and!; [done|by apply answers_bind|done|by apply IH].
  - destruct ph as [|d|d0 d].
    + intros Hp d Hd. destruct (Hp d Hd) as [Hf Hp']. split; [done|by apply IH].
    + intros [Hf Hp]. split; [done|by apply IH].
    + intros [Hf Hp]. split; [done|by apply IH].
Qed.

Lemma follows_assoc {A B C} (c : client Q R A) ph (p : prog L D B) (k1 : B → prog L D C) (k2 : C → prog L D A) :
  follows c ph ((p ≫= k1) ≫= k2) ↔ follows c ph (p ≫= λ b, k1 b ≫= k2).
Proof.
  revert c ph. induction p as [b|l' p IH|l' p IH|l' p IH|l' p IH|f k IH]; intros c ph; [done|..]; unfold mbind in *; cbn in *.
  - case_decide; [|apply IH]. destruct ph; [|done..]. by setoid_rewrite IH.
  - case_decide; [|apply IH]. by setoid_rewrite IH.
  - case_decide; [|apply IH]. destruct ph; [|done..]. by setoid_rewrite IH.
  - case_decide; [|apply IH]. by setoid_rewrite IH.
  - destruct ph; by setoid_rewrite IH.
Qed.

(** A request whose answer does not depend on the data, and a program that asks once. *)
Lemma follows_answer q r :
  (∀ d, I d → at_once q d r d) → follows (ask q) Between (Ret r).
Proof. intros Hq. split; [done|]. intros d Hd. by apply answers_once, Hq. Qed.
End follows.

(** ** The simulation *)
Section simulation.
Context {L A : Type} `{EqDecision L} (l : L).
Context (I J : D → Prop) (HIJ : ∀ d, I d → J d).
Implicit Types (g o : goroutine (L := L) (D := D) (A := A)).
Abbreviation obeys := (follows l I J).

Definition of_lock (held : list (L * Mode)) : list (L * Mode) := filter (λ x, x.1 = l) held.
Lemma of_lock_cons x held : of_lock (x :: held) = if decide (x.1 = l) then x :: of_lock held else of_lock held.
Proof. done. Qed.
Lemma of_lock_remove_ne x held : x.1 ≠ l → of_lock (remove_one x held) = of_lock held.
Proof.
  intros Hx. induction held as [|y held IH]; [done|]. cbn [remove_one]. case_decide as Hxy.
  - subst y. rewrite of_lock_cons. by rewrite decide_False.
  - by rewrite !of_lock_cons, IH.
Qed.
Lemma of_lock_remove x held : of_lock held = [x] → of_lock (remove_one x held) = [].
Proof.
  induction held as [|y held IH]; [done|]. cbn [remove_one]. rewrite of_lock_cons.
  destruct (decide (x = y)) as [<-|Hxy], (decide (_.1 = l)) as [Hl|Hl].
  - intros H. by injection H.
  - intros Hof. exfalso. assert (x ∈ of_lock held) as [? _]%list_elem_of_filter by (rewrite Hof; left). done.
  - congruence.
  - intros Hof. rewrite of_lock_cons, decide_False by done. auto.
Qed.
Lemma of_lock_in m held : of_lock held = [(l, m)] → (l, m) ∈ held.
Proof. intros H. assert ((l, m) ∈ of_lock held) as [_ ?]%list_elem_of_filter by (rewrite H; left). done. Qed.
Lemma of_lock_nil m held : of_lock held = [] → (l, m) ∉ held.
Proof. intros H Hin. assert ((l, m) ∈ of_lock held) as H' by (by apply list_elem_of_filter). rewrite H in H'. by apply not_elem_of_nil in H'. Qed.


(** The state of a goroutine whose client is [k], when the data are [c] for the clients and
    [d] in memory. *)
Definition at_phase (c d : D) (k : client Q R A) g (ph : phase D) : Prop :=
  obeys k ph (g_prog g) ∧
  match ph with
  | Between => of_lock (g_held g) = []
  | Reads d' => of_lock (g_held g) = [(l, Reading)] ∧ d' = d
  | Writes d0 d' => of_lock (g_held g) = [(l, Writing)] ∧ d0 = c ∧ d' = d
  end.

(** The simulation: the clients have run from [a0] to [c] and [ks], each goroutine follows
    its client, and [c] is in memory unless some goroutine writes. *)
Record simulates (a0 : D * list (client Q R A)) (s : state (L := L) (D := D) (A := A)) (c : D) (ks : list (client Q R A)) : Prop := {
  sim_run : rtc asked a0 (c, ks);
  sim_phase : ∀ i g, s.2 !! i = Some g → ∃ k ph, ks !! i = Some k ∧ at_phase c s.1 k g ph;
  sim_I : I c;
  sim_J : J s.1;
  sim_data : c = s.1 ∨ ∃ i g, s.2 !! i = Some g ∧ (l, Writing) ∈ g_held g;
}.

(** Other goroutines, when the data change. *)
Lemma at_phase_other c d c' d' k g ph :
  at_phase c d k g ph → (∀ m, (l, m) ∈ g_held g → d' = d) → ((l, Writing) ∈ g_held g → c' = c) →
  at_phase c' d' k g ph.
Proof.
  intros [Hf Hph] Hd Hc. split; [done|]. destruct ph as [|d1|d0 d1].
  - done.
  - destruct Hph as (Hof & ->). by rewrite (Hd _ (of_lock_in _ _ Hof)).
  - destruct Hph as (Hof & -> & ->). by rewrite (Hd _ (of_lock_in _ _ Hof)), (Hc (of_lock_in _ _ Hof)).
Qed.

Section step.
Context (i : nat) (a0 : D * list (client Q R A)) (s : state (L := L) (D := D) (A := A)) (c : D) (ks : list (client Q R A)).
Context (g : goroutine (L := L) (D := D) (A := A)) (k : client Q R A).
Context (Hsim : simulates a0 s c ks) (Hexc : exclusive s) (Hg : s.2 !! i = Some g) (Hk : ks !! i = Some k).

Lemma sim_clean : (∀ j o, s.2 !! j = Some o → (l, Writing) ∉ g_held o) → c = s.1.
Proof. intros Hno. destruct (sim_data _ _ _ _ Hsim) as [?|(j & o & Hj & Hw)]; [done|]. by destruct (Hno j o Hj). Qed.

(** The goroutine goes to another phase. *)
Lemma sim_moves g' ph :
  at_phase c s.1 k g' ph → (c = s.1 ∨ of_lock (g_held g') = of_lock (g_held g)) →
  simulates a0 (s.1, <[i := g']> s.2) c ks.
Proof.
  intros Hat Hdata. destruct Hsim as [Hrun Hph HI HJ Hd]. split; cbn [fst snd]; [done| |done|done|].
  - intros j o [(<- & <- & _)|[Hij Hj]]%list_lookup_insert_Some; [by exists k, ph|auto].
  - destruct Hdata as [?|Hof]; [by left|]. destruct Hd as [?|(j & o & Hj & Hw)]; [by left|right].
    destruct (decide (i = j)) as [<-|Hij]; [|exists j, o; by rewrite list_lookup_insert_ne].
    exists i, g'. rewrite Hg in Hj. injection Hj as <-. split; [apply list_lookup_insert_eq; by eapply lookup_lt_Some|].
    assert ((l, Writing) ∈ of_lock (g_held g')) as [_ ?]%list_elem_of_filter
      by (rewrite Hof; by apply list_elem_of_filter). done.
Qed.
(** It changes the data in its section. *)
Lemma sim_changes g' d d1 :
  (l, Writing) ∈ g_held g → (l, Writing) ∈ g_held g' → at_phase c d k g' (Writes c d) → J d →
  d1 = d → simulates a0 (d1, <[i := g']> s.2) c ks.
Proof.
  intros Hw Hw' Hat HJd ->. destruct Hsim as [Hrun Hph HI HJ Hd]. split; cbn [fst snd]; [done| |done|done|].
  - intros j o [(<- & <- & _)|[Hij Hj]]%list_lookup_insert_Some; [by exists k, (Writes c d)|].
    destruct (Hph j o Hj) as (kj & ph & Hkj & Hold). exists kj, ph. split; [done|].
    eapply at_phase_other; [exact Hold| |done].
    intros m Hm. by destruct (Hexc i j g o l m Hg Hj Hij Hw).
  - right. exists i, g'. split; [|done]. apply list_lookup_insert_eq. by eapply lookup_lt_Some.
Qed.
(** It ends its section, and its client has the answers. *)
Lemma sim_commits g' k' :
  rtc answered (c, k) (s.1, k') → I s.1 → of_lock (g_held g') = [] → obeys k' Between (g_prog g') →
  (∀ j o, i ≠ j → s.2 !! j = Some o → (l, Writing) ∉ g_held o) →
  simulates a0 (s.1, <[i := g']> s.2) s.1 (<[i := k']> ks).
Proof.
  intros Ha HIs Hof Hfol Hno. destruct Hsim as [Hrun Hph HI HJ Hd]. split; cbn [fst snd]; [| |done|by apply HIJ|by left].
  - etrans; [exact Hrun|]. by apply (answers_asked i (c, k) (s.1, k')).
  - intros j o [(<- & <- & _)|[Hij Hj]]%list_lookup_insert_Some.
    + exists k', Between. split; [|done]. apply list_lookup_insert_eq. by eapply lookup_lt_Some.
    + destruct (Hph j o Hj) as (kj & ph & Hkj & Hold). exists kj, ph. split; [by rewrite list_lookup_insert_ne|].
      eapply at_phase_other; [exact Hold|done|]. intros Hw. by destruct (Hno j o Hij Hj).
Qed.
(** An instruction on another lock. *)
Lemma sim_elsewhere g' ph :
  at_phase c s.1 k g ph → obeys k ph (g_prog g') → of_lock (g_held g') = of_lock (g_held g) →
  simulates a0 (s.1, <[i := g']> s.2) c ks.
Proof.
  intros [_ Hph] Hf Hof. apply (sim_moves g' ph); [|by right]. split; [done|].
  destruct ph; by rewrite Hof.
Qed.

Lemma sim_in_section m :
  of_lock (g_held g) = [(l, m)] → ∀ j o, i ≠ j → s.2 !! j = Some o → (l, Writing) ∉ g_held o.
Proof. intros Hof j o Hij Hj Hw. by apply (Hexc j i o g l m Hj Hg (not_eq_sym Hij) Hw), of_lock_in. Qed.
Lemma sim_alone : of_lock (g_held g) = [(l, Reading)] → c = s.1.
Proof.
  intros Hof. apply sim_clean. intros j o Hj Hw. destruct (decide (i = j)) as [<-|Hij];
    [|by eapply sim_in_section].
  rewrite Hg in Hj. injection Hj as <-.
  assert ((l, Writing) ∈ of_lock (g_held g)) as Hw' by (by apply list_elem_of_filter).
  rewrite Hof in Hw'. by apply list_elem_of_singleton in Hw'.
Qed.

(** The instructions. *)
Abbreviation simulated s' := (∃ c' ks', simulates a0 s' c' ks').
Context (ph : phase D) (Hat : at_phase c s.1 k g ph).

Lemma sim_RLock l' p : g_prog g = RLock l' p →
  existsb (λ o, writes l' o || announces l' o) s.2 = false →
  simulated (s.1, <[i := mkG ((l', Reading) :: g_held g) false p]> s.2).
Proof.
  intros Hp Hex. pose proof Hat as [Hf Hph]. rewrite Hp in Hf. cbn [follows] in Hf. exists c, ks. case_decide as Hl; [subst l'|].
  - assert (c = s.1) as Hc by (apply sim_clean; intros j o Hj;
      by eapply readers_keep_writers_out; [|eapply list_elem_of_lookup_2]).
    destruct ph as [|d|d1 d]; [|done|].
    + apply (sim_moves _ (Reads s.1)); [|by left].
      split; [apply Hf; rewrite <- Hc; by apply Hsim|]. split; [|done].
      cbn [g_held]. by rewrite of_lock_cons, decide_True, Hph.
    + destruct Hph as (Hof & _). exfalso. eapply readers_keep_writers_out; [exact Hex| |by eapply of_lock_in].
      by eapply list_elem_of_lookup_2.
  - apply (sim_elsewhere _ ph); [done|exact Hf|]. cbn [g_held]. by rewrite of_lock_cons, decide_False.
Qed.
Lemma sim_Lock l' p : g_prog g = Lock l' p → existsb (holds l') s.2 = false →
  simulated (s.1, <[i := mkG ((l', Writing) :: g_held g) false p]> s.2).
Proof.
  intros Hp Hex. pose proof Hat as [Hf Hph]. rewrite Hp in Hf. cbn [follows] in Hf. exists c, ks. case_decide as Hl; [subst l'|].
  - assert (c = s.1) as Hc by (apply sim_clean; intros j o Hj;
      by eapply writers_keep_all_out; [|eapply list_elem_of_lookup_2]).
    assert (∀ m, (l, m) ∉ g_held g) as Hnone
      by (intros m; eapply writers_keep_all_out; [exact Hex|by eapply list_elem_of_lookup_2]).
    destruct ph as [|d|d1 d].
    + apply (sim_moves _ (Writes s.1 s.1)); [|by left].
      split; [apply Hf; rewrite <- Hc; by apply Hsim|]. split; [|done].
      cbn [g_held]. by rewrite of_lock_cons, decide_True, Hph.
    + destruct Hph as (Hof & _). by destruct (Hnone Reading (of_lock_in _ _ Hof)).
    + destruct Hph as (Hof & _). by destruct (Hnone Writing (of_lock_in _ _ Hof)).
  - apply (sim_elsewhere _ ph); [done|exact Hf|]. cbn [g_held]. by rewrite of_lock_cons, decide_False.
Qed.
Lemma sim_announces l' p : g_prog g = Lock l' p →
  simulated (s.1, <[i := mkG (g_held g) true (Lock l' p)]> s.2).
Proof.
  intros Hp. exists c, ks. apply (sim_elsewhere _ ph); [done| |done]. cbn [g_prog]. rewrite <- Hp. apply Hat.
Qed.
Lemma sim_RUnlock l' p : g_prog g = RUnlock l' p →
  simulated (s.1, <[i := mkG (remove_one (l', Reading) (g_held g)) false p]> s.2).
Proof.
  intros Hp. pose proof Hat as [Hf Hph]. rewrite Hp in Hf. cbn [follows] in Hf. case_decide as Hl; [subst l'|].
  2: { exists c, ks. apply (sim_elsewhere _ ph); [done|exact Hf|]. by apply of_lock_remove_ne. }
  destruct Hf as (d & k' & -> & Hr & Hf). destruct Hph as (Hof & ->).
  pose proof (sim_alone Hof) as Hc. exists s.1, (<[i := k']> ks).
  apply sim_commits; [by rewrite Hc at 1|rewrite <- Hc; by apply Hsim|by apply of_lock_remove|done|].
  by eapply sim_in_section.
Qed.
Lemma sim_Unlock l' p : g_prog g = Unlock l' p →
  simulated (s.1, <[i := mkG (remove_one (l', Writing) (g_held g)) false p]> s.2).
Proof.
  intros Hp. pose proof Hat as [Hf Hph]. rewrite Hp in Hf. cbn [follows] in Hf. case_decide as Hl; [subst l'|].
  2: { exists c, ks. apply (sim_elsewhere _ ph); [done|exact Hf|]. by apply of_lock_remove_ne. }
  destruct Hf as (d1 & d & k' & -> & Ha & HIs & Hf). destruct Hph as (Hof & -> & ->).
  exists s.1, (<[i := k']> ks). apply sim_commits; [done..|by apply of_lock_remove|done|].
  by eapply sim_in_section.
Qed.
Lemma sim_Do f q : g_prog g = Do f q →
  simulated (f s.1, <[i := mkG (g_held g) false (q s.1)]> s.2).
Proof.
  intros Hp. pose proof Hat as [Hf Hph]. rewrite Hp in Hf. exists c, ks. destruct ph as [|d|d1 d]; cbn [follows] in Hf.
  - destruct (Hf s.1) as [Hd Hf']; [by apply Hsim|]. rewrite Hd. by apply (sim_elsewhere _ Between).
  - destruct Hph as (Hof & ->). destruct Hf as [Hd Hf]. rewrite Hd. by apply (sim_elsewhere _ (Reads s.1)).
  - destruct Hph as (Hof & -> & ->). destruct Hf as [HJ Hf]. pose proof (of_lock_in _ _ Hof) as Hw.
    by eapply sim_changes.
Qed.
End step.

Lemma gstep_simulates i a0 s s' c ks :
  exclusive s → simulates a0 s c ks → gstep i s = Some s' → ∃ c' ks', simulates a0 s' c' ks'.
Proof.
  intros Hexc Hsim (g & d' & g' & Hg & Hn%gnext_cases & ->)%gstep_Some.
  destruct (sim_phase _ _ _ _ Hsim i g Hg) as (k & ph & Hk & Hat).
  destruct (g_prog g) as [a|l' p|l' p|l' p|l' p|f q] eqn:Hp.
  - contradiction.
  - destruct Hn as (? & -> & ->). by eapply sim_RLock.
  - destruct Hn as (_ & -> & ->). by eapply sim_RUnlock.
  - destruct Hn as (-> & [(_ & ? & ->)|(_ & _ & ->)]); [by eapply sim_Lock|by eapply sim_announces].
  - destruct Hn as (_ & -> & ->). by eapply sim_Unlock.
  - destruct Hn as (-> & ->). by eapply sim_Do.
Qed.

(** Goroutines that follow their clients. *)
Definition all_follow (ks : list (client Q R A)) (ps : list (prog L D A)) : Prop :=
  Forall2 (λ k p, obeys k Between p) ks ps.
Lemma start_simulates d ks ps : I d → all_follow ks ps → simulates (d, ks) (start d ps) d ks.
Proof.
  intros HI Hall. split; cbn; [done| |done|by apply HIJ|by left].
  intros i g Hi. rewrite list_lookup_fmap in Hi. destruct (ps !! i) as [p|] eqn:Hp; [|done]. injection Hi as <-.
  destruct (Forall2_lookup_r _ _ _ _ _ Hall Hp) as (k & Hk & Hf). exists k, Between. split; [done|]. by split.
Qed.

(** Every state of the goroutines corresponds to a state of the clients. *)
Lemma reachable_refines d ks ps s :
  I d → all_follow ks ps → reachable d ps s → ∃ c ks', simulates (d, ks) s c ks'.
Proof.
  intros HI Hall Hreach. pose proof (start_simulates d ks ps HI Hall) as Hsim.
  assert (∃ c ks', simulates (d, ks) (start d ps) c ks') as Hex by (by exists d, ks). clear Hsim.
  pose proof (reachable_exclusive d ps (start d ps) (rtc_refl _ _)) as He.
  unfold reachable in Hreach. induction Hreach as [s|s1 s2 s3 [i Hi] _ IH]; [done|].
  destruct Hex as (c & ks' & Hsim). apply IH; [by eapply gstep_simulates|by eapply gstep_exclusive].
Qed.

(** A goroutine that has returned lets its client return. *)
Lemma returned_closes a0 s c ks n :
  simulates a0 s c ks → finished s → c = s.1 → ∃ ks', simulates a0 s c ks' ∧
    ∀ i g a, (i < n)%nat → s.2 !! i = Some g → g_prog g = Ret a → ks' !! i = Some (Return a).
Proof.
  intros Hsim Hfin Hc. unfold finished in Hfin. rewrite Forall_forall in Hfin.
  induction n as [|n (ks1 & Hsim1 & Hall)]; [exists ks; split; [done|lia]|].
  destruct (s.2 !! n) as [g|] eqn:Hg.
  2: { exists ks1. split; [done|]. intros i o a Hi Ho. apply (Hall i o a); [|done]. assert (i ≠ n) by congruence. lia. }
  destruct (Hfin g) as (a & Ha & Hheld); [by eapply list_elem_of_lookup_2|].
  destruct (sim_phase _ _ _ _ Hsim1 n g Hg) as (k & ph & Hk & Hf & _). rewrite Ha in Hf. destruct Hf as [-> Hf].
  assert (Hsim1' := Hsim1). destruct Hsim1' as [_ _ HI _ _]. exists (<[n := Return a]> ks1). split.
  - destruct s as [d gs]. cbn in *. subst c. rewrite <- (list_insert_id gs n g) by done.
    eapply (sim_commits n a0 (d, gs) d ks1 k Hsim1 Hk g (Return a)); cbn; [by apply Hf|done|by rewrite Hheld| |].
    + rewrite Ha. split; [done|]. intros d' _. reflexivity.
    + intros j o _ Hj Hw. destruct (Hfin o) as (b & _ & Hheld'); [by eapply list_elem_of_lookup_2|].
      rewrite Hheld' in Hw. by apply not_elem_of_nil in Hw.
  - intros i o b Hi Ho Hb. destruct (decide (i = n)) as [->|Hin].
    + rewrite Hg in Ho. injection Ho as <-. rewrite Ha in Hb. injection Hb as <-.
      apply list_lookup_insert_eq. by eapply lookup_lt_Some.
    + rewrite list_lookup_insert_ne by done. apply (Hall i o b); [lia|done..].
Qed.

(** When all goroutines have returned, the clients have led to the same data and the same
    results. *)
Lemma finished_refines d ks ps s :
  I d → all_follow ks ps → reachable d ps s → finished s →
  I s.1 ∧ ∃ ks', rtc asked (d, ks) (s.1, ks') ∧ length ks' = length s.2 ∧
    ∀ i g, s.2 !! i = Some g → ∃ a, g_prog g = Ret a ∧ ks' !! i = Some (Return a).
Proof.
  intros HI Hall Hreach Hfin. destruct (reachable_refines d ks ps s HI Hall Hreach) as (c & ks1 & Hsim).
  assert (c = s.1) as Hc.
  { destruct (sim_data _ _ _ _ Hsim) as [?|(i & g & Hg & Hw)]; [done|].
    unfold finished in Hfin. rewrite Forall_forall in Hfin. destruct (Hfin g) as (a & _ & Hheld);
      [by eapply list_elem_of_lookup_2|]. rewrite Hheld in Hw. by apply not_elem_of_nil in Hw. }
  destruct (returned_closes _ _ _ _ (length s.2) Hsim Hfin Hc) as (ks2 & [Hrun Hph HIc _ _] & Hret).
  subst c. split; [done|]. exists ks2. split_and!; [done| |].
  - pose proof (asked_length _ _ Hrun) as Hlen. cbn in Hlen. rewrite Hlen, (Forall2_length _ _ _ Hall).
    symmetry. by eapply reachable_length.
  - intros i g Hg. unfold finished in Hfin. rewrite Forall_forall in Hfin.
    destruct (Hfin g) as (a & Ha & _); [by eapply list_elem_of_lookup_2|]. exists a. split; [done|].
    eapply Hret; [by eapply lookup_lt_Some|done..].
Qed.
(** *** When every request has an answer, all goroutines return *)
Lemma simulates_none_lost a0 s c ks :
  all_answered a0 → simulates a0 s c ks → none_lost (λ l', bool_decide (l' = l)) s.
Proof.
  intros Hall Hsim g [i Hi]%list_elem_of_lookup (l' & p & Hp & ->%bool_decide_eq_true & Hw).
  destruct (sim_phase _ _ _ _ Hsim i g Hi) as (k & ph & Hk & Hf & Hph). rewrite Hp in Hf. cbn [follows] in Hf.
  rewrite decide_True in Hf by done. destruct ph as [|d|d0 d]; [|done|].
  - by apply (of_lock_nil Writing) in Hph.
  - destruct Hph as (_ & -> & _). destruct Hf as (d1 & q & k1 & Ha & Hq).
    destruct (Hall d1 (<[i := Ask q k1]> ks) i q k1) as (r & d2 & Hr); [| |by apply (Hq r d2)].
    + etrans; [by apply Hsim|]. by apply (answers_asked i (c, k) (d1, Ask q k1)).
    + apply list_lookup_insert_eq. by eapply lookup_lt_Some.
Qed.

(** Clients whose requests all have answers: the goroutines all return. *)
Lemma all_answered_finish rank ro d ks ps s :
  I d → all_follow ks ps → all_answered (d, ks) →
  Forall (ordered rank ro (λ l', bool_decide (l' = l)) []) ps → reachable d ps s →
  completes s.
Proof.
  intros HI Hfol Hans Hord Hs.
  assert (∀ s', rtc steps s s' → none_lost (λ l', bool_decide (l' = l)) s') as Hlost.
  { intros s' Hs'. destruct (reachable_refines d ks ps s') as (c & ks' & Hsim); [done..|by unfold reachable in *; etrans|].
    by eapply simulates_none_lost. }
  pose proof (reachable_all_orderly _ _ _ _ _ _ Hord Hs) as Hall. split_and!.
  - eapply orderly_goes_on; [exact Hall|by apply Hlost].
  - apply steps_wf.
  - eapply orderly_completes; [exact Hall|exact Hlost].
Qed.
End simulation.

(** ** Clients that ask once *)
Fixpoint replays (qs : list Q) (d : D) (log : list (nat * R)) (d' : D) : Prop :=
  match log with
  | [] => d = d'
  | (i, r) :: log => ∃ q d1, qs !! i = Some q ∧ at_once q d r d1 ∧ replays qs d1 log d'
  end.
Lemma replays_snoc qs d log d1 i q r d' :
  replays qs d log d1 → qs !! i = Some q → at_once q d1 r d' → replays qs d (log ++ [(i, r)]) d'.
Proof.
  intros Hlog Hi Hq. revert d Hlog. induction log as [|[j b] log IH]; intros d; cbn; [by intros ->; exists q, d'|].
  intros (q2 & d2 & Hj & Hq2 & Hlog). exists q2, d2. auto.
Qed.
Lemma asked_once_log qs d s :
  rtc asked (d, ask <$> qs) s → ∃ log, replays qs d log s.1 ∧ NoDup log.*1 ∧ length s.2 = length qs ∧
    ∀ i q, qs !! i = Some q →
      (∃ r, (i, r) ∈ log ∧ s.2 !! i = Some (Return r)) ∨ (i ∉ log.*1 ∧ s.2 !! i = Some (ask q)).
Proof.
  intros Hrun. pattern s. eapply rtc_ind_r; [| |exact Hrun]; clear s Hrun.
  - exists []. split_and!; [done|constructor|apply length_fmap|]. intros i q Hi. right. split; [apply not_elem_of_nil|].
    cbn. by rewrite list_lookup_fmap, Hi.
  - intros s s' _ (i & c & d' & c' & Hc & Ha & ->) (log & Hlog & Hnd & Hlen & Hall). cbn [fst snd].
    assert (i < length qs)%nat as [q Hi]%lookup_lt_is_Some by (rewrite <- Hlen; by eapply lookup_lt_Some).
    destruct (Hall i q Hi) as [(r & _ & Hr)|[Hni Hr]]; rewrite Hc in Hr; injection Hr as ->; inversion Ha; subst.
    exists (log ++ [(i, r)]). split_and!; [by eapply (replays_snoc _ _ _ s.1)| |by rewrite length_insert|].
    + rewrite fmap_app. apply NoDup_app. split; [done|]. split; [|apply NoDup_singleton].
      by intros j Hj ->%list_elem_of_singleton.
    + intros j q' Hj. destruct (decide (i = j)) as [<-|Hij].
      * left. exists r. split; [apply elem_of_app; right; left|]. apply list_lookup_insert_eq. by eapply lookup_lt_Some.
      * rewrite list_lookup_insert_ne by done. destruct (Hall j q' Hj) as [(r' & Hin & Hr')|[Hnj Hr']].
        -- left. exists r'. split; [apply elem_of_app; by left|done].
        -- right. split; [|done]. rewrite fmap_app. intros [?|Hji%list_elem_of_singleton]%elem_of_app; [done|by cbn in Hji].
Qed.

(** Goroutines that ask once end like the operations, in some order. *)
Lemma runs_serialize {L} `{EqDecision L} (l : L) (I J : D → Prop) d qs ps s :
  (∀ d, I d → J d) → I d → all_follow l I J (ask <$> qs) ps → reachable d ps s → finished s →
  ∃ log, log.*1 ≡ₚ seq 0 (length qs) ∧ replays qs d log s.1 ∧ I s.1 ∧
    ∀ i r, (i, r) ∈ log → ∃ g, s.2 !! i = Some g ∧ g_prog g = Ret r.
Proof.
  intros HIJ HI Hall Hreach Hfin.
  destruct (finished_refines l I J HIJ d _ ps s HI Hall Hreach Hfin) as (HIs & ks' & Hrun & Hlen & Hret).
  destruct (asked_once_log qs d _ Hrun) as (log & Hlog & Hnd & Hlen' & Hcases). cbn in Hlen'.
  assert (∀ i, (i < length qs)%nat → ∃ g r, s.2 !! i = Some g ∧ g_prog g = Ret r ∧ (i, r) ∈ log) as Hin.
  { intros i Hi. rewrite <- Hlen', Hlen in Hi. apply lookup_lt_is_Some in Hi as [g Hg].
    destruct (Hret i g Hg) as (a & Ha & Hk). exists g, a. split_and!; [done..|].
    assert (i < length qs)%nat as [q Hq]%lookup_lt_is_Some by (rewrite <- Hlen'; by eapply lookup_lt_Some).
    destruct (Hcases i q Hq) as [(r & Hr & Hk')|[_ Hk']]; cbn in Hk'; rewrite Hk in Hk'; [|discriminate].
    by injection Hk' as <-. }
  assert (∀ i r, (i, r) ∈ log → (i < length qs)%nat) as Hbound.
  { intros i r Hr. clear -Hr Hlog. revert d Hlog. induction log as [|[j b] log IH]; intros d; [by apply not_elem_of_nil in Hr|].
    intros (q & d1 & Hj & _ & Hlog). apply elem_of_cons in Hr as [[= -> ->]|Hr]; [by eapply lookup_lt_Some|by eapply IH]. }
  exists log. split_and!; [|done..|].
  - apply NoDup_Permutation; [done|apply NoDup_seq|]. intros i. rewrite elem_of_seq. split.
    + intros ([? r] & -> & Hr)%list_elem_of_fmap. apply Hbound in Hr. cbn. lia.
    + intros [_ Hi]. destruct (Hin i Hi) as (g & r & _ & _ & Hr). by apply (list_elem_of_fmap_2 fst) in Hr.
  - intros i r Hr. destruct (Hin i (Hbound i r Hr)) as (g & r' & Hg & Hr' & Hir'). exists g. split; [done|].
    by rewrite (keys_unique _ _ _ _ Hnd Hr Hir').
Qed.
End clients.
