(* ===== verification/LockOrder.v ===== *)
(** * The locks of the program

    For each function that takes a lock, the program of its lock operations, in the
    order of the code; what it does to the data, and what it decides by it, is a
    parameter, so that the theorems hold for all data.  Goroutines are sequences of such
    calls.  They finish as long as no sync round runs beside the calls that write the
    cache's own map; a sync round beside them can block the whole cloud for ever
    ([sync_round_deadlocks]). *)

From stdpp Require Import prelude list relations strings.
From Stdlib Require Import Lia.
From S2P Require Import Prelude Api Sync.

Abbreviation addr := positive.
Inductive LockId :=
| HotRestartLock            (* GoofyClusterReconciler.hotRestartLock *)
| MuxLock                   (* WorkloadClustersMux.lock *)
| ControllerLock (c : nat)  (* controller.lock, a mutex: only Lock is used *)
| TrackerLock (a : addr)     (* resourceGroupTracker.lock *)
| CacheLock                 (* cache.lock *)
| InformerLock (i : addr)    (* informer.lock *)
| StreamPairsLock (h : nat)  (* httpStreamHandler.streamPairsLock, of a connection *)
| StreamPairLock (p : nat).  (* httpStreamPair.lock *)
#[export] Instance LockId_eq_dec : EqDecision LockId.
Proof. solve_decision. Defined.

(** What the locked sections read: trackers and informers are found by pointers, and an
    event [E] is delivered to each handler of an informer. *)
Class Pointers (D E : Type) := {
  tracker_of : string → D → option addr;
  trackers : D → list addr;
  informer_of : GroupVersionKind → D → option addr;
  handlers_of : addr → D → list (E → D → D);
  name_by_host : string → D → option string;
  started_ : nat → D → bool;
  startWatches_ : nat → D → list (option addr);
  hotRestartDone_ : D → bool;
}.

Section locks.
Context {D E : Type} `{Pointers D E}.
Abbreviation program A := (prog LockId D A).

(** ** cache.go, informer.go *)
Definition resourceGroupTracker_locks (rg : string) : program (option addr) :=
  rlocked CacheLock (reads (tracker_of rg)).
Definition AddResourceGroup_locks (change : D → D) : program () := locked CacheLock (does change).
Definition DeleteResourceGroup_locks (change : D → D) : program () := locked CacheLock (does change).
Definition GetInformerForKind_locks (change : D → D) : program () := locked CacheLock (does change).
Definition AddEventHandler_locks (i : addr) (change : D → D) : program () :=
  locked (InformerLock i) (does change).
(** informCreate, informUpdate, informDelete and informSync. *)
Definition inform_locks (gvk : GroupVersionKind) (e : E) : program () :=
  rlocked CacheLock (
    i ← reads (informer_of gvk);
    match i with
    | None => mret ()
    | Some i => rlocked (InformerLock i) (
        handlers ← reads (handlers_of i);
        inSequence (λ h, does (h e)) handlers)
    end).

(** ** client.go

    A stage of a locked section: a change of the data, then perhaps an event. *)
Record stage := mkStage { st_change : D → D; st_event : D → option (GroupVersionKind * E) }.
Definition stage_locks (s : stage) : program () :=
  _ ← does (st_change s);
  ev ← reads (st_event s);
  match ev with
  | None => mret ()
  | Some (gvk, e) => inform_locks gvk e
  end.

Definition Get_locks {A} (rg : string) (missing : A) (read : addr → D → A) : program A :=
  t ← resourceGroupTracker_locks rg;
  match t with
  | None => mret missing
  | Some a => rlocked (TrackerLock a) (reads (read a))
  end.
Definition List_locks (rg : string) (read : addr → D → ()) : program () := Get_locks rg () read.
Definition store_locks (rg : string) (write : addr → stage) : program () :=
  t ← resourceGroupTracker_locks rg;
  match t with
  | None => mret ()
  | Some a => locked (TrackerLock a) (stage_locks (write a))
  end.
(** Get, then store of what the patch made of it, unless there was an error. *)
Definition Patch_locks (rg : string) (read : addr → D → option (addr → stage)) : program () :=
  patched ← Get_locks rg None read;
  match patched with
  | None => mret ()
  | Some write => store_locks rg write
  end.
(** doTryDeleteLocked: the objects one after the other, with their events. *)
Definition tryDelete_locks (rg : string) (plan : addr → D → list stage) : program () :=
  t ← resourceGroupTracker_locks rg;
  match t with
  | None => mret ()
  | Some a => locked (TrackerLock a) (
      stages ← reads (plan a);
      inSequence stage_locks stages)
  end.
Definition Delete_locks (rg : string) (plan : addr → D → list stage) (queue : D → D) : program () :=
  _ ← tryDelete_locks rg plan;
  does queue.

(** ** gc.go, sync.go *)
Definition processGarbageCollectorWorkItem_locks (rg : string) (plan : addr → D → list stage)
    (done queue : D → D) : program () :=
  _ ← does done;
  _ ← tryDelete_locks rg plan;
  does queue.
Definition syncResourceGroupTracker_locks (queue : addr → D → D) (a : addr) : program () :=
  rlocked (TrackerLock a) (does (queue a)).
Definition syncGroup_locks (queue : addr → D → D) : program () :=
  rlocked CacheLock (
    ts ← reads trackers;
    inSequence (syncResourceGroupTracker_locks queue) ts).
Definition processSyncWorkItem_locks (rg : string) (write : addr → stage) (done : D → D) : program () :=
  t ← resourceGroupTracker_locks rg;
  _ ← match t with
      | None => mret ()
      | Some a => locked (TrackerLock a) (stage_locks (write a))
      end;
  does done.

(** ** controller.go: a source is the pointer of its informer *)
Definition source_Start_locks (src : option addr) (change : D → D) : program bool :=
  match src with
  | None => mret false
  | Some i => _ ← AddEventHandler_locks i change; mret true
  end.
Definition Watch_locks (c : nat) (src : option addr) (append start : D → D) : program () :=
  locked (ControllerLock c) (
    started ← reads (started_ c);
    if started : bool then _ ← source_Start_locks src start; mret () else does append).
Fixpoint startWatches_locks (start : D → D) (watches : list (option addr)) : program bool :=
  match watches with
  | [] => mret true
  | src :: watches =>
      ok ← source_Start_locks src start;
      if ok : bool then startWatches_locks start watches else mret false
  end.
Definition controller_Start_locks (c : nat) (queue start workers : D → D) : program () :=
  started ← reads (started_ c);
  if started : bool then mret () else
  locked (ControllerLock c) (
    _ ← does queue;
    watches ← reads (startWatches_ c);
    ok ← startWatches_locks start watches;
    if ok : bool then does workers else mret ()).

(** ** mux.go *)
Definition resourceGroupResolver_locks (host : string) : program (option string) :=
  rlocked MuxLock (reads (name_by_host host)).
(** getCertificate, HasAPIServer, HasEtcdMember and ListListeners. *)
Definition mux_read_locks {A} (read : D → A) : program A := rlocked MuxLock (reads read).
(** InitWorkloadClusterListener, AddAPIServer and AddEtcdMember. *)
Definition mux_write_locks (change : D → D) : program () := locked MuxLock (does change).
Definition HotRestart_locks (empty : bool) (change : D → D) : program () :=
  if empty then mret () else locked MuxLock (does change).
(** Shutdown, given the error of each server; a Shutdown of net/http waits for the
    requests in flight or for the end of the context. *)
Definition Shutdown_locks (debugErr muxErr : D → option string) : program (option string) :=
  locked MuxLock (
    err ← reads debugErr;
    match err with
    | Some err => mret (Some ("failed to shutdown the debug server: " +:+ err))
    | None =>
        err ← reads muxErr;
        match err with
        | Some err => mret (Some ("failed to shutdown the mux server: " +:+ err))
        | None => mret None
        end
    end).

(** ** httpstreams.go: getStreamPair and removeStreamPair, add, and printError *)
Definition streamPairs_locks (h : nat) (change : D → D) : program () := locked (StreamPairsLock h) (does change).
Definition pair_add_locks (p : nat) (change : D → D) : program () := locked (StreamPairLock p) (does change).
Definition printError_locks (p : nat) (print : D → D) : program () := rlocked (StreamPairLock p) (does print).

(** ** goofycluster_controller.go: reconcileHotRestart; [list] is the outcome of the
    client's List: an error, or whether the list is empty. *)
Definition reconcileHotRestart_locks (list : D → option bool) (change done : D → D) : program () :=
  finished ← rlocked HotRestartLock (reads hotRestartDone_);
  if finished : bool then mret () else
  locked HotRestartLock (
    finished ← reads hotRestartDone_;
    if finished : bool then mret () else
    clusters ← reads list;
    match clusters with
    | None => mret ()
    | Some empty => _ ← HotRestart_locks empty change; does done
    end).

(** ** The calls of a goroutine

    A worker of a controller, a request, a worker of the cache and the goroutine that
    sets everything up are sequences of calls; which ones, their data decides. *)
Inductive call :=
| CallAddResourceGroup (change : D → D)
| CallDeleteResourceGroup (change : D → D)
| CallGetInformerForKind (change : D → D)
| CallAddEventHandler (i : addr) (change : D → D)
| CallGet (rg : string) (read : addr → D → ())
| CallList (rg : string) (read : addr → D → ())
| CallStore (rg : string) (write : addr → stage)
| CallPatch (rg : string) (read : addr → D → option (addr → stage))
| CallDelete (rg : string) (plan : addr → D → list stage) (queue : D → D)
| CallGarbageCollect (rg : string) (plan : addr → D → list stage) (done queue : D → D)
| CallSyncGroup (queue : addr → D → D)
| CallProcessSync (rg : string) (write : addr → stage) (done : D → D)
| CallWatch (c : nat) (src : option addr) (append start : D → D)
| CallControllerStart (c : nat) (queue start workers : D → D)
| CallResolve (host : string)
| CallMuxRead (read : D → ())
| CallMuxWrite (change : D → D)
| CallHotRestart (list : D → option bool) (change done : D → D)
| CallShutdown (debugErr muxErr : D → option string)
| CallStreamPairs (h : nat) (change : D → D)
| CallPairAdd (p : nat) (change : D → D)
| CallPrintError (p : nat) (print : D → D).
Definition call_locks (c : call) : program () :=
  match c with
  | CallAddResourceGroup f => AddResourceGroup_locks f
  | CallDeleteResourceGroup f => DeleteResourceGroup_locks f
  | CallGetInformerForKind f => GetInformerForKind_locks f
  | CallAddEventHandler i f => AddEventHandler_locks i f
  | CallGet rg read => Get_locks rg () read
  | CallList rg read => List_locks rg read
  | CallStore rg write => store_locks rg write
  | CallPatch rg read => Patch_locks rg read
  | CallDelete rg plan queue => Delete_locks rg plan queue
  | CallGarbageCollect rg plan done queue => processGarbageCollectorWorkItem_locks rg plan done queue
  | CallSyncGroup queue => syncGroup_locks queue
  | CallProcessSync rg write done => processSyncWorkItem_locks rg write done
  | CallWatch c src append start => Watch_locks c src append start
  | CallControllerStart c queue start workers => controller_Start_locks c queue start workers
  | CallResolve host => _ ← resourceGroupResolver_locks host; mret ()
  | CallMuxRead read => mux_read_locks read
  | CallMuxWrite f => mux_write_locks f
  | CallHotRestart list change done => reconcileHotRestart_locks list change done
  | CallShutdown debugErr muxErr => _ ← Shutdown_locks debugErr muxErr; mret ()
  | CallStreamPairs h f => streamPairs_locks h f
  | CallPairAdd p f => pair_add_locks p f
  | CallPrintError p f => printError_locks p f
  end.
Definition calls_locks (cs : list call) : program () := inSequence call_locks cs.

(** The calls that lock the cache's map for writing. *)
Definition writes_cache (c : call) : bool :=
  match c with CallAddResourceGroup _ | CallDeleteResourceGroup _ | CallGetInformerForKind _ => true | _ => false end.
Definition is_sync_round (c : call) : bool := match c with CallSyncGroup _ => true | _ => false end.
(** No sync rounds, or no writers of the cache's map. *)
Definition compatible (css : list (list call)) : Prop :=
  (∀ cs c, cs ∈ css → c ∈ cs → is_sync_round c = false) ∨
  (∀ cs c, cs ∈ css → c ∈ cs → writes_cache c = false).

(** ** The order of the locks *)
Definition lock_rank (l : LockId) : nat :=
  match l with
  | HotRestartLock => 0 | MuxLock => 1 | ControllerLock _ => 2
  | TrackerLock _ => 3 | CacheLock => 4 | InformerLock _ => 5
  | StreamPairsLock _ => 6 | StreamPairLock _ => 7
  end.
(** Whether the cache's map is only read. *)
Definition lock_ro (frozen : bool) (l : LockId) : bool :=
  match l with CacheLock => frozen | _ => false end.

Section order.
Context (frozen : bool) (twice : LockId → bool).
Abbreviation neutral := (neutral lock_rank (lock_ro frozen) twice).

Lemma inform_neutral held gvk e :
  above lock_rank (lock_ro frozen) CacheLock held = true →
  above lock_rank (lock_ro frozen) (InformerLock 1) held = true →
  neutral held (inform_locks gvk e).
Proof.
  intros Hc Hi. apply neutral_rlocked; [by rewrite Hc, orb_true_r|].
  apply neutral_bind; [done|]. intros [i|]; [|done]. apply neutral_rlocked.
  - cbn. rewrite orb_true_r. exact Hi.
  - apply neutral_bind; [done|]. intros hs. by apply neutral_inSequence.
Qed.
Lemma resourceGroupTracker_neutral rg : neutral [] (resourceGroupTracker_locks rg).
Proof. apply neutral_rlocked; [apply orb_true_r|done]. Qed.
Lemma stage_neutral a w : neutral [(TrackerLock a, Writing)] (stage_locks w).
Proof.
  apply neutral_bind; [done|]. intros _. apply neutral_bind; [done|].
  intros [[gvk e]|]; [|done]. by apply inform_neutral.
Qed.
Lemma Get_neutral {A} rg (missing : A) read : neutral [] (Get_locks rg missing read).
Proof.
  apply neutral_bind; [apply resourceGroupTracker_neutral|]. intros [a|]; [|done]. by apply neutral_rlocked.
Qed.
Lemma List_neutral rg read : neutral [] (List_locks rg read).
Proof. apply Get_neutral. Qed.
Lemma store_neutral rg write : neutral [] (store_locks rg write).
Proof.
  apply neutral_bind; [apply resourceGroupTracker_neutral|]. intros [a|]; [|done].
  apply neutral_locked; [done..|]. apply stage_neutral.
Qed.
Lemma tryDelete_neutral rg plan : neutral [] (tryDelete_locks rg plan).
Proof.
  apply neutral_bind; [apply resourceGroupTracker_neutral|]. intros [a|]; [|done].
  apply neutral_locked; [done..|]. apply neutral_bind; [done|]. intros stages.
  apply neutral_inSequence. intros; apply stage_neutral.
Qed.
Lemma source_Start_neutral c src change :
  neutral [(ControllerLock c, Writing)] (source_Start_locks src change).
Proof. destruct src; [|done]. apply neutral_bind; [by apply neutral_locked|done]. Qed.
Lemma startWatches_neutral c start watches :
  neutral [(ControllerLock c, Writing)] (startWatches_locks start watches).
Proof.
  induction watches as [|src watches IH]; [done|]. cbn. apply neutral_bind; [apply source_Start_neutral|].
  by intros [].
Qed.
Lemma controller_Start_neutral c queue start workers :
  neutral [] (controller_Start_locks c queue start workers).
Proof.
  apply neutral_bind; [done|]. intros []; [done|]. apply neutral_locked; [done..|].
  apply neutral_bind; [done|]. intros _. apply neutral_bind; [done|]. intros ws.
  apply neutral_bind; [apply startWatches_neutral|]. by intros [].
Qed.
Lemma reconcileHotRestart_neutral list change done : neutral [] (reconcileHotRestart_locks list change done).
Proof.
  apply neutral_bind; [by apply neutral_rlocked|]. intros []; [by apply neutral_ret|].
  apply neutral_locked; [auto..|]. apply neutral_bind; [easy|]. intros []; [easy|].
  apply neutral_bind; [easy|]. intros [[]|]; [easy| |easy].
  apply neutral_bind; [by apply neutral_locked|easy].
Qed.

Lemma Shutdown_neutral debugErr muxErr : neutral [] (Shutdown_locks debugErr muxErr).
Proof.
  apply neutral_locked; [done..|]. apply neutral_bind; [done|]. intros []; [done|].
  apply neutral_bind; [done|]. by intros [].
Qed.

Lemma call_neutral c :
  (is_sync_round c = true → frozen = true) → (writes_cache c = true → frozen = false) →
  neutral [] (call_locks c).
Proof.
  intros Hsync Hwrites. destruct c; cbn [call_locks is_sync_round writes_cache] in *;
    auto using Get_neutral, List_neutral, store_neutral, tryDelete_neutral, controller_Start_neutral,
      reconcileHotRestart_neutral;
    try (apply neutral_locked; [done || (cbn; auto)|done|done]).
  - apply neutral_bind; [apply Get_neutral|]. intros [w|]; [apply store_neutral|done].
  - apply neutral_bind; [apply tryDelete_neutral|done].
  - apply neutral_bind; [done|]. intros _. apply neutral_bind; [apply tryDelete_neutral|done].
  - apply neutral_rlocked; [apply orb_true_r|]. apply neutral_bind; [done|]. intros ts.
    apply neutral_inSequence. intros a _. apply neutral_rlocked; [|done].
    rewrite Hsync by done. done.
  - apply neutral_bind; [apply resourceGroupTracker_neutral|]. intros [a|]; cycle 1; [done|].
    apply neutral_bind; [|done]. apply neutral_locked; [done..|apply stage_neutral].
  - apply neutral_locked; [done..|]. apply neutral_bind; [done|]. intros []; [|done].
    apply neutral_bind; [apply source_Start_neutral|done].
  - apply neutral_bind; [by apply neutral_rlocked|done].
  - by apply neutral_rlocked.
  - apply neutral_bind; [apply Shutdown_neutral|done].
  - by apply neutral_rlocked.
Qed.
End order.

Lemma compatible_ordered css :
  compatible css → ∃ frozen, Forall (ordered lock_rank (lock_ro frozen) once []) (calls_locks <$> css).
Proof.
  intros [Hcss|Hcss]; [exists false|exists true]; apply Forall_fmap, Forall_forall; intros cs Hcs;
    apply neutral_inSequence; intros c Hc; apply call_neutral; intros Hk; try done;
    specialize (Hcss cs c Hcs Hc); congruence.
Qed.


(** C13: the sync round can block the cloud for ever.  While syncGroup reads the cache's map
    and waits for the lock of a tracker, an update of an object in it that is to inform its
    handlers waits for the cache's map, and a call that adds a resource group
    queues before it: the three never move again, whatever other goroutines do. *)
Theorem sync_round_deadlocks (d : D) rg a ts (write : addr → stage) gvk e queue add (others : list (list call)) :
  tracker_of rg d = Some a → trackers d = a :: ts →
  st_event (write a) (st_change (write a) d) = Some (gvk, e) →
  ∃ s, reachable d (calls_locks <$> [CallSyncGroup queue] :: [CallStore rg write] :: [CallAddResourceGroup add] :: others) s ∧
    ∀ sched s', run sched s = Some s' →
      ∀ i, i ∈ [0; 1; 2]%nat → i ∉ sched ∧ s'.2 !! i = s.2 !! i ∧ ¬ finished s'.
Proof.
  intros Ha Hts He.
  assert (∃ s, run [0; 0; 1; 1; 1; 1; 1; 1; 1; 2]%nat (start d (calls_locks <$>
    [CallSyncGroup queue] :: [CallStore rg write] :: [CallAddResourceGroup add] :: others)) = Some s ∧ knot s.2 [0; 1; 2]%nat)
    as (s & Hrun & Hknot).
  { unfold start. rewrite !fmap_cons. set (rest := go <$> (calls_locks <$> others)).
    assert (∀ l, existsb (λ o, writes l o || announces l o) rest = false) as Hw by (intros; apply idle_writes).
    assert (∀ l, existsb (holds l) rest = false) as Hh by (intros; apply idle_holds).
    generalize dependent rest. intros rest Hw Hh.
    eexists. split.
    - do 10 (eapply run_go; [reflexivity|cbn; rewrite ?Hw, ?Hh; reflexivity|];
        cbn [insert list_insert]; rewrite ?Ha, ?Hts, ?He).
      reflexivity.
    - unfold knot. rewrite !Forall_cons. split_and!; [exists 1%nat|exists 2%nat|exists 0%nat|done]; do 2 eexists;
        (split_and!; [set_solver|reflexivity|reflexivity|]); [|reflexivity|reflexivity].
      cbn. rewrite orb_true_iff. left. apply writes_true. left. }
  exists s. split; [by eapply run_steps|]. intros sched s' Hrun' i Hi.
  destruct (knot_for_ever _ _ _ _ Hknot Hrun' i Hi) as [Hni Heq]. split_and!; [done..|].
  by eapply knot_unfinished.
Qed.
End locks.

(** ** A small program *)
Section witnesses.
(** The data count the changes; there is one tracker and one informer. *)
#[local] Instance test_pointers : Pointers nat string := {|
  tracker_of _ _ := Some 7%positive; trackers _ := [7; 8]%positive; informer_of _ _ := Some 1%positive;
  handlers_of _ _ := [λ _, S; λ _, S]; name_by_host _ _ := Some "a"; started_ _ _ := false;
  startWatches_ _ _ := [Some 1%positive; Some 2%positive]; hotRestartDone_ _ := false |}.
Definition test_stage : addr → stage (D := nat) (E := string) := λ _, mkStage S (λ _, Some (GVK "" "v1" "Node", "created")).
Definition test_calls : list (list (call (D := nat) (E := string))) :=
  [[CallAddResourceGroup S; CallStore "rg" test_stage];
   [CallControllerStart 0 S S S; CallDelete "rg" (λ a _, [test_stage a; test_stage a]) S];
   [CallHotRestart (λ _, Some false) S S; CallMuxWrite S; CallShutdown (λ _, None) (λ _, Some "deadline"); CallPatch "rg" (λ _ _, Some test_stage)]].


Lemma sync_round_deadlocks_witness :
  ∃ s, reachable 0%nat (calls_locks <$> [[CallSyncGroup (λ _, S)]; [CallStore "rg" test_stage]; [CallAddResourceGroup S]]) s ∧
    ¬ finished s.
Proof.
  destruct (sync_round_deadlocks 0%nat "rg" 7%positive [8]%positive test_stage (GVK "" "v1" "Node") "created" (λ _, S) S [])
    as (s & Hreach & Hstuck); [done..|].
  exists s. split; [exact Hreach|]. apply (Hstuck [] s eq_refl 0%nat). left.
Defined.
End witnesses.
