(* ===== verification/DeepCopy.v ===== *)
(** * The API types, their deep copies and their webhooks

    The types of api/v1alpha1 and internal/cloud/api/v1alpha1, their webhooks, and their
    generated DeepCopyInto, DeepCopy and DeepCopyObject methods (the files
    zz_generated.deepcopy.go), on an explicit heap: a pointer is
    the address of a block, a slice the address of its array.  The method with an out
    parameter gives back what it leaves there.  A copy reads like the original and shares
    no block with it, which is why Cache.v may treat objects as values. *)

From stdpp Require Import prelude gmap strings list fin_maps fin_sets.
From Stdlib Require Import ZArith Lia.
From S2P Require Import Prelude.
Local Open Scope Z_scope.

Abbreviation addr := nat.

(** Types of the libraries, with the values the language gives to new variables;
    [OtherBlock] are the blocks that only they use. *)
Class LibTypes := {
  TypeMeta : Type; zero_TypeMeta : TypeMeta;
  ObjectMeta : Type; zero_ObjectMeta : ObjectMeta;
  ListMeta : Type; zero_ListMeta : ListMeta;
  Condition : Type; zero_Condition : Condition;
  clusterv1_ObjectMeta : Type; zero_clusterv1_ObjectMeta : clusterv1_ObjectMeta;
  OtherBlock : Type;
}.

Section types.
Context {T : LibTypes}.

(** A slice, or a pointer that can be nil. *)
Abbreviation pointer := (option addr).

(** ** api/v1alpha1 *)
Record APIEndpoint := mkAPIEndpoint { ep_Host : string; ep_Port : Z }.
Record GoofyClusterSpec := mkGoofyClusterSpec { gcs_ControlPlaneEndpoint : APIEndpoint }.
Record GoofyClusterStatus := mkGoofyClusterStatus { gct_Ready : bool; gct_Conditions : pointer }.
Record GoofyCluster := mkGoofyCluster {
  gc_TypeMeta : TypeMeta; gc_ObjectMeta : ObjectMeta; gc_Spec : GoofyClusterSpec; gc_Status : GoofyClusterStatus }.
Record GoofyClusterList := mkGoofyClusterList {
  gcl_TypeMeta : TypeMeta; gcl_ListMeta : ListMeta; gcl_Items : pointer }.
Record GoofyMachineSpec := mkGoofyMachineSpec { gms_ProviderID : pointer }.
Record GoofyMachineStatus := mkGoofyMachineStatus { gmt_Ready : bool; gmt_Conditions : pointer }.
Record GoofyMachine := mkGoofyMachine {
  gm_TypeMeta : TypeMeta; gm_ObjectMeta : ObjectMeta; gm_Spec : GoofyMachineSpec; gm_Status : GoofyMachineStatus }.
Record GoofyMachineList := mkGoofyMachineList {
  gml_TypeMeta : TypeMeta; gml_ListMeta : ListMeta; gml_Items : pointer }.
Record GoofyMachineTemplateResource := mkGoofyMachineTemplateResource {
  gmr_ObjectMeta : clusterv1_ObjectMeta; gmr_Spec : GoofyMachineSpec }.
Record GoofyMachineTemplateSpec := mkGoofyMachineTemplateSpec { gmts_Template : GoofyMachineTemplateResource }.
Record GoofyMachineTemplate := mkGoofyMachineTemplate {
  gmte_TypeMeta : TypeMeta; gmte_ObjectMeta : ObjectMeta; gmte_Spec : GoofyMachineTemplateSpec }.
Record GoofyMachineTemplateList := mkGoofyMachineTemplateList {
  gmtl_TypeMeta : TypeMeta; gmtl_ListMeta : ListMeta; gmtl_Items : pointer }.

(** ** internal/cloud/api/v1alpha1 *)
Record CloudMachineSpec := mkCloudMachineSpec {}.
Record CloudMachineStatus := mkCloudMachineStatus {}.
Record CloudMachine := mkCloudMachine {
  cm_TypeMeta : TypeMeta; cm_ObjectMeta : ObjectMeta; cm_Spec : CloudMachineSpec; cm_Status : CloudMachineStatus }.
Record CloudMachineList := mkCloudMachineList {
  cml_TypeMeta : TypeMeta; cml_ListMeta : ListMeta; cml_Items : pointer }.

(** ** The heap

    A block holds the elements of an array; what new allocates has one element. *)
Inductive block :=
| BString (l : list string)
| BCondition (l : list Condition)
| BAPIEndpoint (l : list APIEndpoint)
| BGoofyCluster (l : list GoofyCluster)
| BGoofyClusterList (l : list GoofyClusterList)
| BGoofyClusterSpec (l : list GoofyClusterSpec)
| BGoofyClusterStatus (l : list GoofyClusterStatus)
| BGoofyMachine (l : list GoofyMachine)
| BGoofyMachineList (l : list GoofyMachineList)
| BGoofyMachineSpec (l : list GoofyMachineSpec)
| BGoofyMachineStatus (l : list GoofyMachineStatus)
| BGoofyMachineTemplate (l : list GoofyMachineTemplate)
| BGoofyMachineTemplateList (l : list GoofyMachineTemplateList)
| BGoofyMachineTemplateResource (l : list GoofyMachineTemplateResource)
| BGoofyMachineTemplateSpec (l : list GoofyMachineTemplateSpec)
| BCloudMachine (l : list CloudMachine)
| BCloudMachineList (l : list CloudMachineList)
| BCloudMachineSpec (l : list CloudMachineSpec)
| BCloudMachineStatus (l : list CloudMachineStatus)
| BOther (b : OtherBlock).
End types.
Abbreviation heap := (gmap addr block).

Section memory.
Context {T : LibTypes}.
Abbreviation pointer := (option addr).

(** The types whose values live in blocks. *)
Class Storable (X : Type) := {
  zero : X;
  to_block : list X → block;
  of_block : block → option (list X);
  of_to_block l : of_block (to_block l) = Some l;
}.
#[global] Instance string_storable : Storable string := {|
  zero := ""; to_block := BString;
  of_block b := match b with BString l => Some l | _ => None end; of_to_block _ := eq_refl |}.
#[global] Instance Condition_storable : Storable Condition := {|
  zero := zero_Condition; to_block := BCondition;
  of_block b := match b with BCondition l => Some l | _ => None end; of_to_block _ := eq_refl |}.
#[global] Instance APIEndpoint_storable : Storable APIEndpoint := {|
  zero := mkAPIEndpoint "" 0; to_block := BAPIEndpoint;
  of_block b := match b with BAPIEndpoint l => Some l | _ => None end; of_to_block _ := eq_refl |}.
#[global] Instance GoofyClusterSpec_storable : Storable GoofyClusterSpec := {|
  zero := mkGoofyClusterSpec zero; to_block := BGoofyClusterSpec;
  of_block b := match b with BGoofyClusterSpec l => Some l | _ => None end; of_to_block _ := eq_refl |}.
#[global] Instance GoofyClusterStatus_storable : Storable GoofyClusterStatus := {|
  zero := mkGoofyClusterStatus false None; to_block := BGoofyClusterStatus;
  of_block b := match b with BGoofyClusterStatus l => Some l | _ => None end; of_to_block _ := eq_refl |}.
#[global] Instance GoofyCluster_storable : Storable GoofyCluster := {|
  zero := mkGoofyCluster zero_TypeMeta zero_ObjectMeta zero zero; to_block := BGoofyCluster;
  of_block b := match b with BGoofyCluster l => Some l | _ => None end; of_to_block _ := eq_refl |}.
#[global] Instance GoofyClusterList_storable : Storable GoofyClusterList := {|
  zero := mkGoofyClusterList zero_TypeMeta zero_ListMeta None; to_block := BGoofyClusterList;
  of_block b := match b with BGoofyClusterList l => Some l | _ => None end; of_to_block _ := eq_refl |}.
#[global] Instance GoofyMachineSpec_storable : Storable GoofyMachineSpec := {|
  zero := mkGoofyMachineSpec None; to_block := BGoofyMachineSpec;
  of_block b := match b with BGoofyMachineSpec l => Some l | _ => None end; of_to_block _ := eq_refl |}.
#[global] Instance GoofyMachineStatus_storable : Storable GoofyMachineStatus := {|
  zero := mkGoofyMachineStatus false None; to_block := BGoofyMachineStatus;
  of_block b := match b with BGoofyMachineStatus l => Some l | _ => None end; of_to_block _ := eq_refl |}.
#[global] Instance GoofyMachine_storable : Storable GoofyMachine := {|
  zero := mkGoofyMachine zero_TypeMeta zero_ObjectMeta zero zero; to_block := BGoofyMachine;
  of_block b := match b with BGoofyMachine l => Some l | _ => None end; of_to_block _ := eq_refl |}.
#[global] Instance GoofyMachineList_storable : Storable GoofyMachineList := {|
  zero := mkGoofyMachineList zero_TypeMeta zero_ListMeta None; to_block := BGoofyMachineList;
  of_block b := match b with BGoofyMachineList l => Some l | _ => None end; of_to_block _ := eq_refl |}.
#[global] Instance GoofyMachineTemplateResource_storable : Storable GoofyMachineTemplateResource := {|
  zero := mkGoofyMachineTemplateResource zero_clusterv1_ObjectMeta zero; to_block := BGoofyMachineTemplateResource;
  of_block b := match b with BGoofyMachineTemplateResource l => Some l | _ => None end; of_to_block _ := eq_refl |}.
#[global] Instance GoofyMachineTemplateSpec_storable : Storable GoofyMachineTemplateSpec := {|
  zero := mkGoofyMachineTemplateSpec zero; to_block := BGoofyMachineTemplateSpec;
  of_block b := match b with BGoofyMachineTemplateSpec l => Some l | _ => None end; of_to_block _ := eq_refl |}.
#[global] Instance GoofyMachineTemplate_storable : Storable GoofyMachineTemplate := {|
  zero := mkGoofyMachineTemplate zero_TypeMeta zero_ObjectMeta zero; to_block := BGoofyMachineTemplate;
  of_block b := match b with BGoofyMachineTemplate l => Some l | _ => None end; of_to_block _ := eq_refl |}.
#[global] Instance GoofyMachineTemplateList_storable : Storable GoofyMachineTemplateList := {|
  zero := mkGoofyMachineTemplateList zero_TypeMeta zero_ListMeta None; to_block := BGoofyMachineTemplateList;
  of_block b := match b with BGoofyMachineTemplateList l => Some l | _ => None end; of_to_block _ := eq_refl |}.
#[global] Instance CloudMachineSpec_storable : Storable CloudMachineSpec := {|
  zero := mkCloudMachineSpec; to_block := BCloudMachineSpec;
  of_block b := match b with BCloudMachineSpec l => Some l | _ => None end; of_to_block _ := eq_refl |}.
#[global] Instance CloudMachineStatus_storable : Storable CloudMachineStatus := {|
  zero := mkCloudMachineStatus; to_block := BCloudMachineStatus;
  of_block b := match b with BCloudMachineStatus l => Some l | _ => None end; of_to_block _ := eq_refl |}.
#[global] Instance CloudMachine_storable : Storable CloudMachine := {|
  zero := mkCloudMachine zero_TypeMeta zero_ObjectMeta zero zero; to_block := BCloudMachine;
  of_block b := match b with BCloudMachine l => Some l | _ => None end; of_to_block _ := eq_refl |}.
#[global] Instance CloudMachineList_storable : Storable CloudMachineList := {|
  zero := mkCloudMachineList zero_TypeMeta zero_ListMeta None; to_block := BCloudMachineList;
  of_block b := match b with BCloudMachineList l => Some l | _ => None end; of_to_block _ := eq_refl |}.

(** Reading an element of an array, panicking as Go does; the blocks of the heap are never
    of another type than the pointer says. *)
Definition load {X} `{!Storable X} (p : pointer) (i : nat) : Go heap X := λ h,
  match p with
  | None => Panicked "nil pointer dereference"
  | Some a =>
      match h !! a ≫= of_block with
      | None => Panicked "invalid pointer"
      | Some l => match l !! i with Some x => Done x h | None => Panicked "index out of range" end
      end
  end.
Definition len {X} `{!Storable X} (p : pointer) : Go heap nat := λ h,
  match p with
  | None => Done 0%nat h
  | Some a =>
      match h !! a ≫= of_block (X := X) with
      | None => Panicked "invalid pointer"
      | Some l => Done (length l) h
      end
  end.
(** Assigning an element of an array. *)
Definition assign {X} `{!Storable X} (p : pointer) (i : nat) (x : X) : Go heap () := λ h,
  match p with
  | None => Panicked "nil pointer dereference"
  | Some a =>
      match h !! a ≫= of_block (X := X) with
      | None => Panicked "invalid pointer"
      | Some l =>
          if decide (i < length l)%nat then Done () (<[a := to_block (<[i := x]> l)]> h)
          else Panicked "index out of range"
      end
  end.
(** make([]X, n), and new(X). *)
Definition make (X : Type) `{!Storable X} (n : nat) : Go heap pointer := λ h,
  let a := fresh (dom h) in Done (Some a) (<[a := to_block (replicate n (zero (X := X)))]> h).
Definition new (X : Type) `{!Storable X} : Go heap pointer := make X 1.

(** ** DeepCopyInto

    A type whose values can be copied: DeepCopyInto gives what it leaves in *out. *)
Class Copies (X : Type) := DeepCopyInto : X → Go heap X.

(** What the generated methods do with a slice: out is shallow, so nil stays. *)
Fixpoint copyElements {X} `{!Storable X, !Copies X} (in_ out : pointer) (n i : nat) : Go heap () :=
  match n with
  | O => mret ()
  | S n =>
      x ← load in_ i;
      y ← DeepCopyInto x;
      _ ← assign out i y;
      copyElements in_ out n (S i)
  end.
Definition copySlice (X : Type) `{!Storable X, !Copies X} (in_ : pointer) : Go heap pointer :=
  match in_ with
  | None => mret None
  | Some _ =>
      n ← len (X := X) in_;
      out ← make X n;
      _ ← copyElements (X := X) in_ out n 0;
      mret out
  end.
End memory.

(** The methods of the libraries. *)
Class LibCopies (T : LibTypes) := {
  #[global] ObjectMeta_copies :: Copies ObjectMeta;
  #[global] ListMeta_copies :: Copies ListMeta;
  #[global] Condition_copies :: Copies Condition;
  #[global] clusterv1_ObjectMeta_copies :: Copies clusterv1_ObjectMeta;
}.

Section generated.
Context {T : LibTypes} {C : LibCopies T}.
Abbreviation pointer := (option addr).

#[global] Instance APIEndpoint_DeepCopyInto : Copies APIEndpoint := λ in_, mret in_.
#[global] Instance GoofyClusterSpec_DeepCopyInto : Copies GoofyClusterSpec := λ in_,
  mret (mkGoofyClusterSpec (gcs_ControlPlaneEndpoint in_)).
#[global] Instance GoofyClusterStatus_DeepCopyInto : Copies GoofyClusterStatus := λ in_,
  conditions ← copySlice Condition (gct_Conditions in_);
  mret (mkGoofyClusterStatus (gct_Ready in_) conditions).
#[global] Instance GoofyCluster_DeepCopyInto : Copies GoofyCluster := λ in_,
  meta ← DeepCopyInto (gc_ObjectMeta in_);
  status ← DeepCopyInto (gc_Status in_);
  mret (mkGoofyCluster (gc_TypeMeta in_) meta (gc_Spec in_) status).
#[global] Instance GoofyClusterList_DeepCopyInto : Copies GoofyClusterList := λ in_,
  meta ← DeepCopyInto (gcl_ListMeta in_);
  items ← copySlice GoofyCluster (gcl_Items in_);
  mret (mkGoofyClusterList (gcl_TypeMeta in_) meta items).

#[global] Instance GoofyMachineSpec_DeepCopyInto : Copies GoofyMachineSpec := λ in_,
  match gms_ProviderID in_ with
  | None => mret in_
  | Some _ =>
      out ← new string;
      s ← load (gms_ProviderID in_) 0;
      _ ← assign out 0 (s : string);
      mret (mkGoofyMachineSpec out)
  end.
#[global] Instance GoofyMachineStatus_DeepCopyInto : Copies GoofyMachineStatus := λ in_,
  conditions ← copySlice Condition (gmt_Conditions in_);
  mret (mkGoofyMachineStatus (gmt_Ready in_) conditions).
#[global] Instance GoofyMachine_DeepCopyInto : Copies GoofyMachine := λ in_,
  meta ← DeepCopyInto (gm_ObjectMeta in_);
  spec ← DeepCopyInto (gm_Spec in_);
  status ← DeepCopyInto (gm_Status in_);
  mret (mkGoofyMachine (gm_TypeMeta in_) meta spec status).
#[global] Instance GoofyMachineList_DeepCopyInto : Copies GoofyMachineList := λ in_,
  meta ← DeepCopyInto (gml_ListMeta in_);
  items ← copySlice GoofyMachine (gml_Items in_);
  mret (mkGoofyMachineList (gml_TypeMeta in_) meta items).

#[global] Instance GoofyMachineTemplateResource_DeepCopyInto : Copies GoofyMachineTemplateResource := λ in_,
  meta ← DeepCopyInto (gmr_ObjectMeta in_);
  spec ← DeepCopyInto (gmr_Spec in_);
  mret (mkGoofyMachineTemplateResource meta spec).
#[global] Instance GoofyMachineTemplateSpec_DeepCopyInto : Copies GoofyMachineTemplateSpec := λ in_,
  template ← DeepCopyInto (gmts_Template in_);
  mret (mkGoofyMachineTemplateSpec template).
#[global] Instance GoofyMachineTemplate_DeepCopyInto : Copies GoofyMachineTemplate := λ in_,
  meta ← DeepCopyInto (gmte_ObjectMeta in_);
  spec ← DeepCopyInto (gmte_Spec in_);
  mret (mkGoofyMachineTemplate (gmte_TypeMeta in_) meta spec).
#[global] Instance GoofyMachineTemplateList_DeepCopyInto : Copies GoofyMachineTemplateList := λ in_,
  meta ← DeepCopyInto (gmtl_ListMeta in_);
  items ← copySlice GoofyMachineTemplate (gmtl_Items in_);
  mret (mkGoofyMachineTemplateList (gmtl_TypeMeta in_) meta items).

#[global] Instance CloudMachineSpec_DeepCopyInto : Copies CloudMachineSpec := λ in_, mret in_.
#[global] Instance CloudMachineStatus_DeepCopyInto : Copies CloudMachineStatus := λ in_, mret in_.
#[global] Instance CloudMachine_DeepCopyInto : Copies CloudMachine := λ in_,
  meta ← DeepCopyInto (cm_ObjectMeta in_);
  mret (mkCloudMachine (cm_TypeMeta in_) meta (cm_Spec in_) (cm_Status in_)).
#[global] Instance CloudMachineList_DeepCopyInto : Copies CloudMachineList := λ in_,
  meta ← DeepCopyInto (cml_ListMeta in_);
  items ← copySlice CloudMachine (cml_Items in_);
  mret (mkCloudMachineList (cml_TypeMeta in_) meta items).

(** ** DeepCopy and DeepCopyObject, the same for each type *)
Definition DeepCopy (X : Type) `{!Storable X, !Copies X} (in_ : pointer) : Go heap pointer :=
  match in_ with
  | None => mret None
  | Some _ =>
      out ← new X;
      x ← load (X := X) in_ 0;
      y ← DeepCopyInto x;
      _ ← assign out 0 y;
      mret out
  end.
(** A nil pointer becomes a nil object of the interface runtime.Object. *)
Definition DeepCopyObject (deepCopy : pointer → Go heap pointer) (in_ : pointer) : Go heap pointer :=
  c ← deepCopy in_;
  match c with
  | Some c => mret (Some c)
  | None => mret None
  end.

Definition APIEndpoint_DeepCopy : pointer → Go heap pointer := DeepCopy APIEndpoint.
Definition GoofyCluster_DeepCopy : pointer → Go heap pointer := DeepCopy GoofyCluster.
Definition GoofyClusterList_DeepCopy : pointer → Go heap pointer := DeepCopy GoofyClusterList.
Definition GoofyClusterSpec_DeepCopy : pointer → Go heap pointer := DeepCopy GoofyClusterSpec.
Definition GoofyClusterStatus_DeepCopy : pointer → Go heap pointer := DeepCopy GoofyClusterStatus.
Definition GoofyMachine_DeepCopy : pointer → Go heap pointer := DeepCopy GoofyMachine.
Definition GoofyMachineList_DeepCopy : pointer → Go heap pointer := DeepCopy GoofyMachineList.
Definition GoofyMachineSpec_DeepCopy : pointer → Go heap pointer := DeepCopy GoofyMachineSpec.
Definition GoofyMachineStatus_DeepCopy : pointer → Go heap pointer := DeepCopy GoofyMachineStatus.
Definition GoofyMachineTemplate_DeepCopy : pointer → Go heap pointer := DeepCopy GoofyMachineTemplate.
Definition GoofyMachineTemplateList_DeepCopy : pointer → Go heap pointer := DeepCopy GoofyMachineTemplateList.
Definition GoofyMachineTemplateResource_DeepCopy : pointer → Go heap pointer := DeepCopy GoofyMachineTemplateResource.
Definition GoofyMachineTemplateSpec_DeepCopy : pointer → Go heap pointer := DeepCopy GoofyMachineTemplateSpec.
Definition CloudMachine_DeepCopy : pointer → Go heap pointer := DeepCopy CloudMachine.
Definition CloudMachineList_DeepCopy : pointer → Go heap pointer := DeepCopy CloudMachineList.
Definition CloudMachineSpec_DeepCopy : pointer → Go heap pointer := DeepCopy CloudMachineSpec.
Definition CloudMachineStatus_DeepCopy : pointer → Go heap pointer := DeepCopy CloudMachineStatus.
Definition GoofyCluster_DeepCopyObject : pointer → Go heap pointer := DeepCopyObject GoofyCluster_DeepCopy.
Definition GoofyClusterList_DeepCopyObject : pointer → Go heap pointer := DeepCopyObject GoofyClusterList_DeepCopy.
Definition GoofyMachine_DeepCopyObject : pointer → Go heap pointer := DeepCopyObject GoofyMachine_DeepCopy.
Definition GoofyMachineList_DeepCopyObject : pointer → Go heap pointer := DeepCopyObject GoofyMachineList_DeepCopy.
Definition GoofyMachineTemplate_DeepCopyObject : pointer → Go heap pointer := DeepCopyObject GoofyMachineTemplate_DeepCopy.
Definition GoofyMachineTemplateList_DeepCopyObject : pointer → Go heap pointer := DeepCopyObject GoofyMachineTemplateList_DeepCopy.
Definition CloudMachine_DeepCopyObject : pointer → Go heap pointer := DeepCopyObject CloudMachine_DeepCopy.
Definition CloudMachineList_DeepCopyObject : pointer → Go heap pointer := DeepCopyObject CloudMachineList_DeepCopy.

(** GetConditions gives the object's own slice, SetConditions keeps the caller's. *)
Definition GoofyCluster_GetConditions (c : GoofyCluster) : pointer := gct_Conditions (gc_Status c).
Definition GoofyCluster_SetConditions (conditions : pointer) (c : GoofyCluster) : GoofyCluster :=
  mkGoofyCluster (gc_TypeMeta c) (gc_ObjectMeta c) (gc_Spec c)
    (mkGoofyClusterStatus (gct_Ready (gc_Status c)) conditions).
Definition GoofyMachine_GetConditions (c : GoofyMachine) : pointer := gmt_Conditions (gm_Status c).
Definition GoofyMachine_SetConditions (conditions : pointer) (c : GoofyMachine) : GoofyMachine :=
  mkGoofyMachine (gm_TypeMeta c) (gm_ObjectMeta c) (gm_Spec c)
    (mkGoofyMachineStatus (gmt_Ready (gm_Status c)) conditions).

(** ** The webhooks: Default leaves the object as it is, and the three validations have
    neither warnings nor errors. *)
Abbreviation verdict := (goslice string * option string)%type.
Definition GoofyCluster_Default (c : GoofyCluster) : GoofyCluster := c.
Definition GoofyCluster_ValidateCreate (c : GoofyCluster) : verdict := (None, None).
Definition GoofyCluster_ValidateUpdate (c old : GoofyCluster) : verdict := (None, None).
Definition GoofyCluster_ValidateDelete (c : GoofyCluster) : verdict := (None, None).
Definition GoofyMachine_Default (c : GoofyMachine) : GoofyMachine := c.
Definition GoofyMachine_ValidateCreate (c : GoofyMachine) : verdict := (None, None).
Definition GoofyMachine_ValidateUpdate (c old : GoofyMachine) : verdict := (None, None).
Definition GoofyMachine_ValidateDelete (c : GoofyMachine) : verdict := (None, None).
Definition GoofyMachineTemplate_Default (c : GoofyMachineTemplate) : GoofyMachineTemplate := c.
Definition GoofyMachineTemplate_ValidateCreate (c : GoofyMachineTemplate) : verdict := (None, None).
Definition GoofyMachineTemplate_ValidateUpdate (c old : GoofyMachineTemplate) : verdict := (None, None).
Definition GoofyMachineTemplate_ValidateDelete (c : GoofyMachineTemplate) : verdict := (None, None).
End generated.
