(* ===== verification/DeepCopyFacts.v ===== *)
(** * Deep copies are deep: properties of DeepCopy.v

    What a value reads as, the blocks it is made of ([Readable]), and what it means to
    copy it ([DeepLaws]): the copy reads the same and is made of new blocks only.
    The laws are assumed of the types of the libraries and proved of every
    generated method, from the fields up. *)

From stdpp Require Import prelude gmap strings list fin_maps fin_sets.
From Stdlib Require Import ZArith Lia.
From S2P Require Import Prelude DeepCopy.
Local Open Scope Z_scope.

Section readable.
Context {T : LibTypes}.
Implicit Types (h : heap) (a : addr) (p q : option addr).

(** What a value reads as, all its blocks included, and which blocks these are. *)
Class Readable (X : Type) := {
  Value : Type;
  read : heap → X → option Value;
  touches : heap → X → gset addr;
}.
Arguments Value X {_}.

(** The two heaps have the same blocks at these addresses. *)
Definition same_at (s : gset addr) h h' : Prop := ∀ a, a ∈ s → h' !! a = h !! a.

(** A copy [y], made in [h], of what reads [v]. *)
Record copied {X} `{Readable X} h (v : Value X) (y : X) h' : Prop := {
  cp_keeps : h ⊆ h';
  cp_reads : read h' y = Some v;
  cp_fresh : touches h' y ## dom h;
}.
Class DeepLaws (X : Type) `{Readable X, !Copies X} := {
  read_frame h h' (x : X) v : read h x = Some v → same_at (touches h x) h h' →
    read h' x = Some v ∧ touches h' x = touches h x;
  read_dom h (x : X) v : read h x = Some v → touches h x ⊆ dom h;
  copies h (x : X) v : read h x = Some v → ∃ y h', DeepCopyInto x h = Done y h' ∧ copied h v y h';
}.

(** A value without pointers. *)
Definition flat (X : Type) : Readable X := {| Value := X; read _ x := Some x; touches _ _ := ∅ |}.
#[global] Instance APIEndpoint_readable : Readable APIEndpoint := flat _.
#[global] Instance CloudMachineSpec_readable : Readable CloudMachineSpec := flat _.
#[global] Instance CloudMachineStatus_readable : Readable CloudMachineStatus := flat _.
#[global] Instance string_readable : Readable string := flat _.

(** Pointers to a value and slices. *)
Section pointers.
Context (X : Type) `{!Storable X, !Readable X}.

Definition elements h p : option (list X) := a ← p; h !! a ≫= of_block.
Definition readSlice h p : option (option (list (Value X))) :=
  match p with
  | None => Some None
  | Some _ => l ← elements h p; vs ← mapM (read h) l; Some (Some vs)
  end.
Definition touchesList h (l : list X) : gset addr := ⋃ (touches h <$> l).
Definition touchesSlice h p : gset addr :=
  match p with
  | None => ∅
  | Some a => {[a]} ∪ touchesList h (default [] (elements h p))
  end.
Definition readPointer h p : option (option (Value X)) :=
  match p with
  | None => Some None
  | Some _ => l ← elements h p; x ← l !! 0%nat; v ← read h x; Some (Some v)
  end.
Definition touchesPointer h p : gset addr :=
  match p with
  | None => ∅
  | Some a => {[a]} ∪ from_option (touches h) ∅ (elements h p ≫= (.!! 0%nat))
  end.
End pointers.
End readable.
Arguments Value {T} X {_}.

Section laws.
Context {T : LibTypes}.
Implicit Types (h : heap) (a : addr) (p q : option addr).

(** ** Heaps that grow *)
Lemma subseteq_same_at (s : gset addr) h h' : s ⊆ dom h → h ⊆ h' → same_at s h h'.
Proof.
  intros Hs Hsub a Ha%Hs. apply elem_of_dom in Ha as [b Hb]. rewrite Hb. by eapply lookup_weaken.
Qed.
Lemma same_at_mono (s s' : gset addr) h h' : s ⊆ s' → same_at s' h h' → same_at s h h'.
Proof. intros Hs Hsame a Ha. auto. Qed.
Lemma dom_mono h h' : h ⊆ h' → dom h ⊆ dom h'.
Proof. apply subseteq_dom. Qed.

Section one_type.
Context {X : Type} `{!Storable X, !Readable X, !Copies X, !DeepLaws X}.
Implicit Types (x y : X) (l : list X).

Lemma read_later h h' x v : read h x = Some v → h ⊆ h' → read h' x = Some v ∧ touches h' x = touches h x.
Proof. intros Hr Hsub. apply read_frame; [done|]. apply subseteq_same_at; [by eapply read_dom|done]. Qed.
(** A copy stays one as the heap grows. *)
Lemma copied_later h h1 h2 v y : copied h v y h1 → h1 ⊆ h2 → copied h v y h2.
Proof.
  intros [Hk Hr Hf] Hsub. destruct (read_later _ _ _ _ Hr Hsub) as [Hr' Ht]. split; [by etrans|done|by rewrite Ht].
Qed.
Lemma copied_earlier h0 h h' v y : h0 ⊆ h → copied h v y h' → copied h0 v y h'.
Proof. intros Hsub [Hk Hr Hf]. split; [by etrans|done|]. apply dom_mono in Hsub. set_solver. Qed.

(** ** Lists *)
Lemma touchesList_cons h x l : touchesList X h (x :: l) = touches h x ∪ touchesList X h l.
Proof. done. Qed.
Lemma touchesList_app h l1 l2 : touchesList X h (l1 ++ l2) = touchesList X h l1 ∪ touchesList X h l2.
Proof. unfold touchesList. by rewrite fmap_app, union_list_app_L. Qed.
Lemma readList_frame h h' l vs : mapM (read h) l = Some vs → same_at (touchesList X h l) h h' →
  mapM (read h') l = Some vs ∧ touchesList X h' l = touchesList X h l.
Proof.
  revert vs. induction l as [|x l IH]; intros vs Hr Hsame; [done|].
  cbn in Hr. apply bind_Some in Hr as (v & Hv & (vs' & Hvs & [= <-])%bind_Some).
  rewrite touchesList_cons in Hsame.
  destruct (read_frame h h' x v Hv) as [Hr Ht]; [eapply same_at_mono; [|exact Hsame]; set_solver|].
  destruct (IH vs' Hvs) as [Hrs Hts]; [eapply same_at_mono; [|exact Hsame]; set_solver|].
  split; [cbn; by rewrite Hr, Hrs|]. by rewrite !touchesList_cons, Ht, Hts.
Qed.
Lemma readList_dom h l vs : mapM (read h) l = Some vs → touchesList X h l ⊆ dom h.
Proof.
  revert vs. induction l as [|x l IH]; intros vs Hr; [apply empty_subseteq|]. cbn in Hr.
  apply bind_Some in Hr as (v & Hv & (vs' & Hvs & _)%bind_Some). rewrite touchesList_cons.
  apply read_dom in Hv. specialize (IH vs' Hvs). set_solver.
Qed.

(** ** Blocks *)
Lemma elements_to_block h a l : h !! a = Some (to_block l) → elements X h (Some a) = Some l.
Proof. intros Ha. unfold elements. cbn. rewrite Ha. cbn. apply of_to_block. Qed.
Lemma elements_same h h' a : h' !! a = h !! a → elements X h' (Some a) = elements X h (Some a).
Proof. intros Ha. unfold elements. cbn. by rewrite Ha. Qed.
Lemma elements_dom h a l : elements X h (Some a) = Some l → a ∈ dom h.
Proof. unfold elements. cbn. intros (b & Hb & _)%bind_Some. by apply elem_of_dom. Qed.
Lemma load_eq h a i l x : elements X h (Some a) = Some l → l !! i = Some x → load (Some a) i h = Done x h.
Proof. unfold elements, load. cbn. intros -> Hx. by rewrite Hx. Qed.
Lemma assign_eq h a i l x : elements X h (Some a) = Some l → (i < length l)%nat →
  assign (Some a) i x h = Done () (<[a := to_block (<[i := x]> l)]> h).
Proof. unfold elements, assign. cbn. intros -> Hi. by rewrite decide_True. Qed.
Lemma make_eq h n : make X n h = Done (Some (fresh (dom h))) (<[fresh (dom h) := to_block (replicate n zero)]> h).
Proof. done. Qed.
Lemma fresh_subseteq h a (b : block) : a ∉ dom h → h ⊆ <[a := b]> h.
Proof. intros Ha. apply insert_subseteq. by apply not_elem_of_dom. Qed.

(** ** Slices *)
Lemma readSlice_Some h a v : readSlice X h (Some a) = Some v →
  ∃ l vs, v = Some vs ∧ elements X h (Some a) = Some l ∧ mapM (read h) l = Some vs ∧
    touchesSlice X h (Some a) = {[a]} ∪ touchesList X h l.
Proof.
  unfold readSlice. intros (l & Hl & (vs & Hvs & [= <-])%bind_Some)%bind_Some. exists l, vs.
  split_and!; [done..|]. unfold touchesSlice. by rewrite Hl.
Qed.
Lemma readSlice_of h a l vs : elements X h (Some a) = Some l → mapM (read h) l = Some vs →
  readSlice X h (Some a) = Some (Some vs) ∧ touchesSlice X h (Some a) = {[a]} ∪ touchesList X h l.
Proof. intros Hl Hvs. unfold readSlice, touchesSlice. rewrite Hl. cbn. by rewrite Hvs. Qed.
Lemma readSlice_frame h h' p v : readSlice X h p = Some v → same_at (touchesSlice X h p) h h' →
  readSlice X h' p = Some v ∧ touchesSlice X h' p = touchesSlice X h p.
Proof.
  destruct p as [a|]; [|done]. intros (l & vs & -> & Hl & Hvs & ->)%readSlice_Some Hsame.
  destruct (readList_frame h h' l vs Hvs) as [Hvs' Ht]; [eapply same_at_mono; [|exact Hsame]; set_solver|].
  destruct (readSlice_of h' a l vs) as [-> ->]; [|done|by rewrite Ht].
  rewrite (elements_same h h'); [done|]. apply Hsame. set_solver.
Qed.
Lemma readSlice_dom h p v : readSlice X h p = Some v → touchesSlice X h p ⊆ dom h.
Proof.
  destruct p as [a|]; [|intros _; apply empty_subseteq]. intros (l & vs & -> & Hl & Hvs & ->)%readSlice_Some.
  apply readList_dom in Hvs. apply elements_dom in Hl. set_solver.
Qed.

(** The loop: the first elements are copied to the block [b], which is new. *)
Record copying (h : heap) (a b : addr) l vs h1 (i : nat) : Prop := {
  co_keeps : h ⊆ h1;
  co_in : elements X h (Some a) = Some l;
  co_new : b ∉ dom h;
  co_out : ∃ ys zs, elements X h1 (Some b) = Some (ys ++ zs) ∧ length ys = i ∧ length (ys ++ zs) = length l ∧
    mapM (read h1) ys = Some (take i vs) ∧ touchesList X h1 ys ## {[b]} ∪ dom h;
}.
Lemma mapM_app {A B} (f : A → option B) us1 us2 ws1 ws2 :
  mapM f us1 = Some ws1 → mapM f us2 = Some ws2 → mapM f (us1 ++ us2) = Some (ws1 ++ ws2).
Proof. rewrite !mapM_Some. apply Forall2_app. Qed.

Lemma copying_step h a b l vs h1 i x : copying h a b l vs h1 i → mapM (read h) l = Some vs → l !! i = Some x →
  ∃ y h2 h3, DeepCopyInto x h1 = Done y h2 ∧ assign (Some b) i y h2 = Done () h3 ∧ copying h a b l vs h3 (S i).
Proof.
  intros [Hk Hin Hb (ys & zs & Hout & Hlen & Hlens & Hys & Ht)] Hvs Hx.
  pose proof (proj1 (mapM_Some _ _ _) Hvs) as Hall. destruct (Forall2_lookup_l _ _ _ _ _ Hall Hx) as (v & Hv & Hread).
  destruct (read_later _ _ _ _ Hread Hk) as [Hread1 _].
  destruct (copies h1 x v Hread1) as (y & h2 & Hcopy & [Hk2 Hy Hfy]).
  assert (elements X h2 (Some b) = Some (ys ++ zs)) as Hout2.
  { rewrite (elements_same h1 h2); [done|]. pose proof (elements_dom _ _ _ Hout) as [blk Hblk]%elem_of_dom.
    rewrite Hblk. by eapply lookup_weaken. }
  assert (i < length (ys ++ zs))%nat as Hi by (rewrite Hlens; by eapply lookup_lt_Some).
  exists y, h2. eexists. split; [done|]. split; [by apply assign_eq|].
  assert (b ∈ dom h1) as Hb1 by (by eapply elements_dom).
  destruct zs as [|z zs]; [rewrite app_nil_r in Hi; lia|].
  assert (<[i:=y]> (ys ++ z :: zs) = (ys ++ [y]) ++ zs) as Hins
    by (rewrite insert_app_r_alt, Hlen, Nat.sub_diag by lia; by rewrite <- app_assoc).
  rewrite Hins. set (h3 := <[b := _]> h2).
  assert (∀ s, b ∉ s → same_at s h2 h3) as Hsame.
  { intros s Hs c Hc. unfold h3. rewrite lookup_insert_ne; [done|]. by intros ->. }
  destruct (readList_frame h1 h2 ys _ Hys) as [Hys2 Ht2].
  { apply subseteq_same_at; [by eapply readList_dom|done]. }
  destruct (readList_frame h2 h3 ys _ Hys2) as [Hys3 Ht3]; [apply Hsame; rewrite Ht2; set_solver|].
  destruct (read_frame h2 h3 y v Hy) as [Hy3 Hty3]; [apply Hsame; set_solver|].
  split; [|done|done|].
  - apply insert_subseteq_r; [by apply not_elem_of_dom|by etrans].
  - exists (ys ++ [y]), zs. split_and!.
    + apply elements_to_block. unfold h3. by rewrite lookup_insert_eq.
    + rewrite length_app. cbn. lia.
    + rewrite <- Hlens, !length_app. cbn. lia.
    + erewrite take_S_r by exact Hv. eapply mapM_app; [done|]. cbn. by rewrite Hy3.
    + rewrite touchesList_app, Ht3, Ht2, touchesList_cons, Hty3. apply dom_mono in Hk. cbn. set_solver.
Qed.

Lemma copyElements_ok h a b l vs n : mapM (read h) l = Some vs → ∀ i h1,
  copying h a b l vs h1 i → (i + n = length l)%nat →
  ∃ h2, copyElements (X := X) (Some a) (Some b) n i h1 = Done () h2 ∧ copying h a b l vs h2 (length l).
Proof.
  intros Hvs. induction n as [|n IH]; intros i h1 Hc Hi.
  { exists h1. split; [done|]. by replace (length l) with i by lia. }
  destruct (lookup_lt_is_Some_2 l i) as [x Hx]; [lia|].
  destruct (copying_step h a b l vs h1 i x Hc Hvs Hx) as (y & h2 & h3 & Hcopy & Hassign & Hc').
  destruct (IH (S i) h3 Hc') as (h4 & Hrun & Hc4); [lia|]. exists h4. split; [|done].
  cbn [copyElements]. rewrite go_bind_eq. destruct Hc as [Hk Hin Hb _].
  erewrite load_eq; [|rewrite (elements_same h h1); [exact Hin|]|exact Hx].
  - by rewrite go_bind_eq, Hcopy, go_bind_eq, Hassign.
  - pose proof (elements_dom _ _ _ Hin) as [blk Hblk]%elem_of_dom. rewrite Hblk. by eapply lookup_weaken.
Qed.
Lemma copySlice_ok h p v : readSlice X h p = Some v → ∃ q h', copySlice X p h = Done q h' ∧
  h ⊆ h' ∧ readSlice X h' q = Some v ∧ touchesSlice X h' q ## dom h.
Proof.
  destruct p as [a|]; [|intros Hv; exists None, h; split_and!; [done|done|done|apply disjoint_empty_l]].
  intros (l & vs & -> & Hl & Hvs & _)%readSlice_Some.
  set (b := fresh (dom h)). set (h1 := <[b := to_block (replicate (length l) zero)]> h).
  assert (b ∉ dom h) as Hb by apply is_fresh.
  destruct (copyElements_ok h a b l vs (length l) Hvs 0%nat h1) as (h2 & Hrun & [Hk _ _ Hout]); [|done|].
  { split; [by apply fresh_subseteq|done|done|]. exists [], (replicate (length l) zero). split_and!.
    - apply elements_to_block. unfold h1. by rewrite lookup_insert_eq.
    - done.
    - apply length_replicate.
    - done.
    - apply disjoint_empty_l. }
  destruct Hout as (ys & zs & Hout & Hlen & Hlens & Hys & Ht).
  assert (zs = []) as -> by (rewrite length_app in Hlens; apply length_zero_iff_nil; lia).
  rewrite app_nil_r in Hout.
  assert (length vs = length l) as Hvl by (apply length_mapM in Hvs; lia). rewrite <- Hvl, firstn_all in Hys.
  destruct (readSlice_of h2 b ys vs Hout Hys) as [Hr Htb]. exists (Some b), h2. split_and!.
  - unfold copySlice. rewrite go_bind_eq. unfold len. unfold elements in Hl. cbn in Hl. rewrite Hl.
    rewrite go_bind_eq, make_eq, go_bind_eq. fold b h1. by rewrite Hrun.
  - exact Hk.
  - exact Hr.
  - rewrite Htb. set_solver.
Qed.

(** ** Pointers *)
Lemma readPointer_Some h a v : readPointer X h (Some a) = Some v →
  ∃ l x w, v = Some w ∧ elements X h (Some a) = Some l ∧ l !! 0%nat = Some x ∧ read h x = Some w ∧
    touchesPointer X h (Some a) = {[a]} ∪ touches h x.
Proof.
  unfold readPointer. intros (l & Hl & (x & Hx & (w & Hw & [= <-])%bind_Some)%bind_Some)%bind_Some.
  exists l, x, w. split_and!; [done..|]. unfold touchesPointer. rewrite Hl. cbn. by rewrite Hx.
Qed.
Lemma readPointer_of h a l x w : elements X h (Some a) = Some l → l !! 0%nat = Some x → read h x = Some w →
  readPointer X h (Some a) = Some (Some w) ∧ touchesPointer X h (Some a) = {[a]} ∪ touches h x.
Proof. intros Hl Hx Hw. unfold readPointer, touchesPointer. rewrite Hl. cbn. rewrite Hx. cbn. by rewrite Hw. Qed.
Lemma readPointer_frame h h' p v : readPointer X h p = Some v → same_at (touchesPointer X h p) h h' →
  readPointer X h' p = Some v ∧ touchesPointer X h' p = touchesPointer X h p.
Proof.
  destruct p as [a|]; [|done]. intros (l & x & w & -> & Hl & Hx & Hw & ->)%readPointer_Some Hsame.
  destruct (read_frame h h' x w Hw) as [Hw' Ht]; [eapply same_at_mono; [|exact Hsame]; set_solver|].
  destruct (readPointer_of h' a l x w) as [-> ->]; [|done|done|by rewrite Ht].
  rewrite (elements_same h h'); [done|]. apply Hsame. set_solver.
Qed.
Lemma readPointer_dom h p v : readPointer X h p = Some v → touchesPointer X h p ⊆ dom h.
Proof.
  destruct p as [a|]; [|intros _; apply empty_subseteq].
  intros (l & x & w & -> & Hl & Hx & Hw & ->)%readPointer_Some.
  apply read_dom in Hw. apply elements_dom in Hl. set_solver.
Qed.
Lemma DeepCopy_ok h p v : readPointer X h p = Some v → ∃ q h', DeepCopy X p h = Done q h' ∧
  h ⊆ h' ∧ readPointer X h' q = Some v ∧ touchesPointer X h' q ## dom h.
Proof.
  destruct p as [a|]; [|intros Hv; exists None, h; split_and!; [done|done|done|apply disjoint_empty_l]].
  intros (l & x & w & -> & Hl & Hx & Hw & _)%readPointer_Some.
  set (b := fresh (dom h)). set (h1 := <[b := to_block [zero]]> h).
  assert (b ∉ dom h) as Hb by apply is_fresh. assert (h ⊆ h1) as Hk by (by apply fresh_subseteq).
  destruct (read_later _ _ _ _ Hw Hk) as [Hw1 _].
  destruct (copies h1 x w Hw1) as (y & h2 & Hcopy & [Hk2 Hy Hf]).
  assert (h1 !! b = Some (to_block [zero])) as Hb1 by (unfold h1; by rewrite lookup_insert_eq).
  assert (b ∈ dom h1) as Hbd by (by apply elem_of_dom).
  set (h3 := <[b := to_block [y]]> h2).
  destruct (read_frame h2 h3 y w Hy) as [Hy3 Ht3].
  { intros c Hc. unfold h3. rewrite lookup_insert_ne; [done|]. intros ->. set_solver. }
  destruct (readPointer_of h3 b [y] y w) as [Hr Ht];
    [apply elements_to_block; unfold h3; by rewrite lookup_insert_eq|done|done|].
  exists (Some b), h3. split_and!.
  - unfold DeepCopy, new. rewrite go_bind_eq, make_eq. fold b. cbn [replicate]. fold h1. rewrite go_bind_eq.
    erewrite load_eq; [|rewrite (elements_same h h1); [exact Hl|]|exact Hx].
    + rewrite go_bind_eq, Hcopy, go_bind_eq. rewrite (assign_eq h2 b 0 [zero] y); [done|..].
      * apply elements_to_block. by eapply lookup_weaken.
      * cbn. lia.
    + apply elements_dom in Hl. unfold h1. rewrite lookup_insert_ne; [done|]. intros <-. done.
  - apply insert_subseteq_r; [by apply not_elem_of_dom|by etrans].
  - exact Hr.
  - rewrite Ht, Ht3. apply dom_mono in Hk. set_solver.
Qed.
End one_type.
End laws.

(** ** Building blocks: flat values, pairs, slices, pointers *)
Record slice (X : Type) := Slice { slice_ptr : option addr }.
Arguments Slice {X} slice_ptr.
Arguments slice_ptr {X} _.
Record pointer_to (X : Type) := PointerTo { ptr : option addr }.
Arguments PointerTo {X} ptr.
Arguments ptr {X} _.

Section building.
Context {T : LibTypes}.
Implicit Types h : heap.

(** Assignment copies what has no pointers. *)
Definition flat_copies (X : Type) : Copies X := λ x, mret x.
Lemma flat_laws (X : Type) : @DeepLaws T X (flat X) (flat_copies X).
Proof.
  split.
  - intros h h' x v Hr _. done.
  - intros h x v _. apply empty_subseteq.
  - intros h x v [= <-]. exists x, h. split; [done|]. split; [done|done|apply disjoint_empty_l].
Qed.

#[global] Instance prod_readable X Y `{!Readable X, !Readable Y} : Readable (X * Y) := {|
  Value := Value X * Value Y;
  read h p := v ← read h p.1; w ← read h p.2; Some (v, w);
  touches h p := touches h p.1 ∪ touches h p.2 |}.
#[global] Instance prod_copies X Y `{!Copies X, !Copies Y} : Copies (X * Y) := λ p,
  x ← DeepCopyInto p.1; y ← DeepCopyInto p.2; mret (x, y).
#[global] Instance prod_laws X Y `{!Readable X, !Copies X, !DeepLaws X, !Readable Y, !Copies Y, !DeepLaws Y} :
  DeepLaws (X * Y).
Proof.
  split.
  - intros h h' [x y] [v w] Hr Hsame. cbn in *.
    apply bind_Some in Hr as (v' & Hv & (w' & Hw & [= <- <-])%bind_Some).
    destruct (read_frame h h' x v' Hv) as [-> ->]; [eapply same_at_mono; [|exact Hsame]; set_solver|].
    destruct (read_frame h h' y w' Hw) as [-> ->]; [eapply same_at_mono; [|exact Hsame]; set_solver|done].
  - intros h [x y] [v w] Hr. cbn in *. apply bind_Some in Hr as (v' & Hv & (w' & Hw & _)%bind_Some).
    apply read_dom in Hv. apply read_dom in Hw. set_solver.
  - intros h [x y] [v w] Hr. cbn in *. apply bind_Some in Hr as (v' & Hv & (w' & Hw & [= <- <-])%bind_Some).
    destruct (copies h x v' Hv) as (x' & h1 & Hx & Hcx). destruct (read_later _ h1 _ _ Hw) as [Hw1 _]; [apply Hcx|].
    destruct (copies h1 y w' Hw1) as (y' & h2 & Hy & Hcy). exists (x', y'), h2.
    split; [unfold DeepCopyInto at 1, prod_copies; cbn [fst snd]; by rewrite go_bind_eq, Hx, go_bind_eq, Hy|].
    destruct (copied_later _ _ h2 _ _ Hcx) as [H1 H2 H3]; [apply Hcy|].
    destruct (copied_earlier h _ _ _ _ (cp_keeps _ _ _ _ Hcx) Hcy) as [_ H4 H5].
    split; [done|cbn; by rewrite H2, H4|]. cbn. set_solver.
Qed.

#[global] Instance slice_readable X `{!Storable X, !Readable X} : Readable (slice X) := {|
  Value := option (list (Value X)); read h s := readSlice X h (slice_ptr s);
  touches h s := touchesSlice X h (slice_ptr s) |}.
#[global] Instance slice_copies X `{!Storable X, !Copies X} : Copies (slice X) := λ s,
  p ← copySlice X (slice_ptr s); mret (Slice p).
#[global] Instance slice_laws X `{!Storable X, !Readable X, !Copies X, !DeepLaws X} : DeepLaws (slice X).
Proof.
  split.
  - intros h h' [p] v. apply readSlice_frame.
  - intros h [p] v. apply readSlice_dom.
  - intros h [p] v (q & h' & Hrun & Hk & Hr & Hf)%copySlice_ok. exists (Slice q), h'.
    split; [|by split]. unfold DeepCopyInto, slice_copies. cbn [slice_ptr] in *. by rewrite go_bind_eq, Hrun.
Qed.

#[global] Instance pointer_to_readable X `{!Storable X, !Readable X} : Readable (pointer_to X) := {|
  Value := option (Value X); read h s := readPointer X h (ptr s);
  touches h s := touchesPointer X h (ptr s) |}.
#[global] Instance pointer_to_copies X `{!Storable X, !Copies X} : Copies (pointer_to X) := λ s,
  p ← DeepCopy X (ptr s); mret (PointerTo p).
#[global] Instance pointer_to_laws X `{!Storable X, !Readable X, !Copies X, !DeepLaws X} : DeepLaws (pointer_to X).
Proof.
  split.
  - intros h h' [p] v. apply readPointer_frame.
  - intros h [p] v. apply readPointer_dom.
  - intros h [p] v (q & h' & Hrun & Hk & Hr & Hf)%DeepCopy_ok. exists (PointerTo q), h'.
    split; [|by split]. unfold DeepCopyInto, pointer_to_copies. cbn [ptr] in *. by rewrite go_bind_eq, Hrun.
Qed.

(** A record that is its parts. *)
Section via.
Context {X Y : Type} `{!Readable Y, !Copies X, !Copies Y, !DeepLaws Y} (parts : X → Y) (build : Y → X).
Definition via : Readable X := {| Value := Value Y; read h x := read h (parts x); touches h x := touches h (parts x) |}.
Lemma via_laws :
  (∀ y, parts (build y) = y) →
  (∀ x h, DeepCopyInto x h = (y ← DeepCopyInto (parts x); mret (build y)) h) → @DeepLaws T X via _.
Proof.
  intros Hbuild Hcopy. split.
  - intros h h' x v. apply (read_frame (X := Y)).
  - intros h x v. apply (read_dom (X := Y)).
  - intros h x v (y & h' & Hrun & [Hk Hr Hf])%(copies (X := Y)). exists (build y), h'.
    split; [by rewrite Hcopy, go_bind_eq, Hrun|]. split; cbn; by rewrite ?Hbuild.
Qed.
End via.
End building.

(** ** The generated types

    What the types of the libraries read as, and that their methods copy them, is assumed. *)
Class LibReadable (T : LibTypes) := {
  #[global] ObjectMeta_readable :: Readable ObjectMeta;
  #[global] ListMeta_readable :: Readable ListMeta;
  #[global] Condition_readable :: Readable Condition;
  #[global] clusterv1_ObjectMeta_readable :: Readable clusterv1_ObjectMeta;
}.
Class LibLaws (T : LibTypes) `{!LibCopies T, !LibReadable T} := {
  #[global] ObjectMeta_laws :: DeepLaws ObjectMeta;
  #[global] ListMeta_laws :: DeepLaws ListMeta;
  #[global] Condition_laws :: DeepLaws Condition;
  #[global] clusterv1_ObjectMeta_laws :: DeepLaws clusterv1_ObjectMeta;
}.

Section generated.
Context {T : LibTypes} {C : LibCopies T} {R : LibReadable T} {Laws : LibLaws T}.
Implicit Types h : heap.

#[local] Instance TypeMeta_readable : Readable TypeMeta := flat _.
#[local] Instance TypeMeta_copies : Copies TypeMeta := flat_copies _.
#[local] Instance TypeMeta_laws : DeepLaws TypeMeta := flat_laws _.
#[local] Instance bool_readable : Readable bool := flat _.
#[local] Instance bool_copies : Copies bool := flat_copies _.
#[local] Instance bool_laws : DeepLaws bool := flat_laws _.
#[local] Instance string_copies : Copies string := flat_copies _.
#[local] Instance string_laws : DeepLaws string := flat_laws _.
#[local] Instance APIEndpoint_laws : DeepLaws APIEndpoint := flat_laws _.
#[local] Instance CloudMachineSpec_laws : DeepLaws CloudMachineSpec := flat_laws _.
#[local] Instance CloudMachineStatus_laws : DeepLaws CloudMachineStatus := flat_laws _.

(** The method of a record copies the parts in order. *)
Ltac by_parts_build :=
  intros; repeat match goal with p : _ * _ |- _ => destruct p | s : slice _ |- _ => destruct s
    | s : pointer_to _ |- _ => destruct s end; reflexivity.
Tactic Notation "by_parts" reference(method) :=
  intros x h; unfold DeepCopyInto, method, prod_copies, slice_copies, pointer_to_copies, flat_copies;
  unfold DeepCopyInto; go_unfold; try reflexivity; repeat (case_goal; try reflexivity).

Definition GoofyClusterSpec_parts (c : GoofyClusterSpec) := gcs_ControlPlaneEndpoint c.
#[global] Instance GoofyClusterSpec_readable : Readable GoofyClusterSpec := via GoofyClusterSpec_parts.
#[global] Instance GoofyClusterSpec_laws : DeepLaws GoofyClusterSpec.
Proof.
  apply (via_laws GoofyClusterSpec_parts (λ e, mkGoofyClusterSpec e)).
  - by_parts_build.
  - by_parts GoofyClusterSpec_DeepCopyInto.
Qed.
Definition GoofyClusterStatus_parts (s : GoofyClusterStatus) := (gct_Ready s, Slice (X := Condition) (gct_Conditions s)).
#[global] Instance GoofyClusterStatus_readable : Readable GoofyClusterStatus := via GoofyClusterStatus_parts.
#[global] Instance GoofyClusterStatus_laws : DeepLaws GoofyClusterStatus.
Proof.
  apply (via_laws GoofyClusterStatus_parts (λ p, mkGoofyClusterStatus p.1 (slice_ptr p.2))).
  - by_parts_build.
  - by_parts GoofyClusterStatus_DeepCopyInto.
Qed.
Definition GoofyCluster_parts (c : GoofyCluster) := (gc_TypeMeta c, (gc_ObjectMeta c, (gc_Spec c, gc_Status c))).
#[global] Instance GoofyCluster_readable : Readable GoofyCluster := via GoofyCluster_parts.
#[global] Instance GoofyCluster_laws : DeepLaws GoofyCluster.
Proof.
  apply (via_laws GoofyCluster_parts (λ p, mkGoofyCluster p.1 p.2.1 p.2.2.1 p.2.2.2)).
  - by_parts_build.
  - by_parts GoofyCluster_DeepCopyInto. by destruct (gc_Spec x).
Qed.
Definition GoofyClusterList_parts (c : GoofyClusterList) := (gcl_TypeMeta c, (gcl_ListMeta c, Slice (X := GoofyCluster) (gcl_Items c))).
#[global] Instance GoofyClusterList_readable : Readable GoofyClusterList := via GoofyClusterList_parts.
#[global] Instance GoofyClusterList_laws : DeepLaws GoofyClusterList.
Proof.
  apply (via_laws GoofyClusterList_parts (λ p, mkGoofyClusterList p.1 p.2.1 (slice_ptr p.2.2))).
  - by_parts_build.
  - by_parts GoofyClusterList_DeepCopyInto.
Qed.
Definition GoofyMachineSpec_parts (s : GoofyMachineSpec) := PointerTo (X := string) (gms_ProviderID s).
#[global] Instance GoofyMachineSpec_readable : Readable GoofyMachineSpec := via GoofyMachineSpec_parts.
#[global] Instance GoofyMachineSpec_laws : DeepLaws GoofyMachineSpec.
Proof.
  apply (via_laws GoofyMachineSpec_parts (λ p, mkGoofyMachineSpec (ptr p))).
  - by_parts_build.
  - intros [[a|]] h; [|done]. unfold DeepCopyInto, GoofyMachineSpec_DeepCopyInto, pointer_to_copies, DeepCopy,
      GoofyMachineSpec_parts, new. cbn [gms_ProviderID ptr]. rewrite !go_bind_eq, make_eq.
    rewrite !go_bind_eq. destruct (load (Some a) 0 _) as [s h2| |]; [|done..]. rewrite !go_bind_eq.
    unfold DeepCopyInto, string_copies, flat_copies. cbn [mret go_ret]. rewrite go_bind_eq.
    by destruct (assign _ _ _ _).
Qed.
Definition GoofyMachineStatus_parts (s : GoofyMachineStatus) := (gmt_Ready s, Slice (X := Condition) (gmt_Conditions s)).
#[global] Instance GoofyMachineStatus_readable : Readable GoofyMachineStatus := via GoofyMachineStatus_parts.
#[global] Instance GoofyMachineStatus_laws : DeepLaws GoofyMachineStatus.
Proof.
  apply (via_laws GoofyMachineStatus_parts (λ p, mkGoofyMachineStatus p.1 (slice_ptr p.2))).
  - by_parts_build.
  - by_parts GoofyMachineStatus_DeepCopyInto.
Qed.
Definition GoofyMachine_parts (c : GoofyMachine) := (gm_TypeMeta c, (gm_ObjectMeta c, (gm_Spec c, gm_Status c))).
#[global] Instance GoofyMachine_readable : Readable GoofyMachine := via GoofyMachine_parts.
#[global] Instance GoofyMachine_laws : DeepLaws GoofyMachine.
Proof.
  apply (via_laws GoofyMachine_parts (λ p, mkGoofyMachine p.1 p.2.1 p.2.2.1 p.2.2.2)).
  - by_parts_build.
  - by_parts GoofyMachine_DeepCopyInto.
Qed.
Definition GoofyMachineList_parts (c : GoofyMachineList) := (gml_TypeMeta c, (gml_ListMeta c, Slice (X := GoofyMachine) (gml_Items c))).
#[global] Instance GoofyMachineList_readable : Readable GoofyMachineList := via GoofyMachineList_parts.
#[global] Instance GoofyMachineList_laws : DeepLaws GoofyMachineList.
Proof.
  apply (via_laws GoofyMachineList_parts (λ p, mkGoofyMachineList p.1 p.2.1 (slice_ptr p.2.2))).
  - by_parts_build.
  - by_parts GoofyMachineList_DeepCopyInto.
Qed.
Definition GoofyMachineTemplateResource_parts (r : GoofyMachineTemplateResource) := (gmr_ObjectMeta r, gmr_Spec r).
#[global] Instance GoofyMachineTemplateResource_readable : Readable GoofyMachineTemplateResource := via GoofyMachineTemplateResource_parts.
#[global] Instance GoofyMachineTemplateResource_laws : DeepLaws GoofyMachineTemplateResource.
Proof.
  apply (via_laws GoofyMachineTemplateResource_parts (λ p, mkGoofyMachineTemplateResource p.1 p.2)).
  - by_parts_build.
  - by_parts GoofyMachineTemplateResource_DeepCopyInto.
Qed.
Definition GoofyMachineTemplateSpec_parts (s : GoofyMachineTemplateSpec) := gmts_Template s.
#[global] Instance GoofyMachineTemplateSpec_readable : Readable GoofyMachineTemplateSpec := via GoofyMachineTemplateSpec_parts.
#[global] Instance GoofyMachineTemplateSpec_laws : DeepLaws GoofyMachineTemplateSpec.
Proof.
  apply (via_laws GoofyMachineTemplateSpec_parts (λ r, mkGoofyMachineTemplateSpec r)).
  - by_parts_build.
  - by_parts GoofyMachineTemplateSpec_DeepCopyInto.
Qed.
Definition GoofyMachineTemplate_parts (c : GoofyMachineTemplate) := (gmte_TypeMeta c, (gmte_ObjectMeta c, gmte_Spec c)).
#[global] Instance GoofyMachineTemplate_readable : Readable GoofyMachineTemplate := via GoofyMachineTemplate_parts.
#[global] Instance GoofyMachineTemplate_laws : DeepLaws GoofyMachineTemplate.
Proof.
  apply (via_laws GoofyMachineTemplate_parts (λ p, mkGoofyMachineTemplate p.1 p.2.1 p.2.2)).
  - by_parts_build.
  - by_parts GoofyMachineTemplate_DeepCopyInto.
Qed.
Definition GoofyMachineTemplateList_parts (c : GoofyMachineTemplateList) := (gmtl_TypeMeta c, (gmtl_ListMeta c, Slice (X := GoofyMachineTemplate) (gmtl_Items c))).
#[global] Instance GoofyMachineTemplateList_readable : Readable GoofyMachineTemplateList := via GoofyMachineTemplateList_parts.
#[global] Instance GoofyMachineTemplateList_laws : DeepLaws GoofyMachineTemplateList.
Proof.
  apply (via_laws GoofyMachineTemplateList_parts (λ p, mkGoofyMachineTemplateList p.1 p.2.1 (slice_ptr p.2.2))).
  - by_parts_build.
  - by_parts GoofyMachineTemplateList_DeepCopyInto.
Qed.
Definition CloudMachine_parts (c : CloudMachine) := (cm_TypeMeta c, (cm_ObjectMeta c, (cm_Spec c, cm_Status c))).
#[global] Instance CloudMachine_readable : Readable CloudMachine := via CloudMachine_parts.
#[global] Instance CloudMachine_laws : DeepLaws CloudMachine.
Proof.
  apply (via_laws CloudMachine_parts (λ p, mkCloudMachine p.1 p.2.1 p.2.2.1 p.2.2.2)).
  - by_parts_build.
  - by_parts CloudMachine_DeepCopyInto.
Qed.
Definition CloudMachineList_parts (c : CloudMachineList) := (cml_TypeMeta c, (cml_ListMeta c, Slice (X := CloudMachine) (cml_Items c))).
#[global] Instance CloudMachineList_readable : Readable CloudMachineList := via CloudMachineList_parts.
#[global] Instance CloudMachineList_laws : DeepLaws CloudMachineList.
Proof.
  apply (via_laws CloudMachineList_parts (λ p, mkCloudMachineList p.1 p.2.1 (slice_ptr p.2.2))).
  - by_parts_build.
  - by_parts CloudMachineList_DeepCopyInto.
Qed.

(** ** Properties *)
(** A deep copy of a pointer: nil for nil; else a pointer that reads the same and stays so
    whatever happens to the blocks of the original, and the other way round. *)
Record copies_deeply (X : Type) `{!Storable X, !Readable X} (deepCopy : option addr → Go heap (option addr)) : Prop := {
  cd_nil h : deepCopy None h = Done None h;
  cd_copy h p v : readPointer X h (Some p) = Some v → ∃ q h', deepCopy (Some p) h = Done (Some q) h' ∧
    readPointer X h' (Some q) = Some v ∧
    (∀ h2, (∀ a, a ∉ touchesPointer X h' (Some p) → h2 !! a = h' !! a) → readPointer X h2 (Some q) = Some v) ∧
    (∀ h2, (∀ a, a ∉ touchesPointer X h' (Some q) → h2 !! a = h' !! a) → readPointer X h2 (Some p) = Some v);
}.
Lemma DeepCopy_deep (X : Type) `{!Storable X, !Readable X, !Copies X, !DeepLaws X} : copies_deeply X (DeepCopy X).
Proof.
  split; [done|]. intros h p v Hv. pose proof (readPointer_Some h p v Hv) as (l & x & w & -> & _).
  destruct (DeepCopy_ok h (Some p) _ Hv) as ([q|] & h' & Hrun & Hk & Hq & Hf); [|by cbn in Hq].
  destruct (readPointer_frame h h' (Some p) _ Hv) as [Hp Ht].
  { apply subseteq_same_at; [by eapply readPointer_dom|done]. }
  pose proof (readPointer_dom _ _ _ Hv) as Hdom.
  exists q, h'. split_and!; [done..| |]; intros h2 Hsame.
  - apply (readPointer_frame h' h2 (Some q) _ Hq). intros a Ha. apply Hsame. rewrite Ht. set_solver.
  - apply (readPointer_frame h' h2 (Some p) _ Hp). intros a Ha. apply Hsame. rewrite Ht in Ha. set_solver.
Qed.
Lemma DeepCopyObject_deep (X : Type) `{!Storable X, !Readable X} deepCopy :
  copies_deeply X deepCopy → copies_deeply X (DeepCopyObject deepCopy).
Proof.
  intros [Hnil Hcopy]. split.
  - intros h. unfold DeepCopyObject. by rewrite go_bind_eq, Hnil.
  - intros h p v (q & h' & Hrun & Hrest)%Hcopy. exists q, h'. split; [|done].
    unfold DeepCopyObject. by rewrite go_bind_eq, Hrun.
Qed.

(** C12: DeepCopyObject of each kind of the program's API is deep: of nil it gives nil, and
    of any object that can be read a copy that reads the same; no later change of what the
    original is made of (its metadata, provider ID, conditions or items included) shows in
    the copy, and no change of the copy in the original. *)
Theorem objects_are_copied_deeply :
  copies_deeply GoofyCluster GoofyCluster_DeepCopyObject ∧
  copies_deeply GoofyClusterList GoofyClusterList_DeepCopyObject ∧
  copies_deeply GoofyMachine GoofyMachine_DeepCopyObject ∧
  copies_deeply GoofyMachineList GoofyMachineList_DeepCopyObject ∧
  copies_deeply GoofyMachineTemplate GoofyMachineTemplate_DeepCopyObject ∧
  copies_deeply GoofyMachineTemplateList GoofyMachineTemplateList_DeepCopyObject ∧
  copies_deeply CloudMachine CloudMachine_DeepCopyObject ∧
  copies_deeply CloudMachineList CloudMachineList_DeepCopyObject.
Proof. split_and!; apply DeepCopyObject_deep, DeepCopy_deep; apply _. Qed.

(** The same of DeepCopy of the parts. *)
Theorem parts_are_copied_deeply :
  copies_deeply APIEndpoint APIEndpoint_DeepCopy ∧
  copies_deeply GoofyClusterSpec GoofyClusterSpec_DeepCopy ∧
  copies_deeply GoofyClusterStatus GoofyClusterStatus_DeepCopy ∧
  copies_deeply GoofyMachineSpec GoofyMachineSpec_DeepCopy ∧
  copies_deeply GoofyMachineStatus GoofyMachineStatus_DeepCopy ∧
  copies_deeply GoofyMachineTemplateResource GoofyMachineTemplateResource_DeepCopy ∧
  copies_deeply GoofyMachineTemplateSpec GoofyMachineTemplateSpec_DeepCopy ∧
  copies_deeply CloudMachineSpec CloudMachineSpec_DeepCopy ∧
  copies_deeply CloudMachineStatus CloudMachineStatus_DeepCopy.
Proof. split_and!; apply DeepCopy_deep; apply _. Qed.
End generated.

(** ** A concrete memory *)
(** Metadata with a name and a slice of finalizers. *)
Section witness.
#[local] Instance test_types : LibTypes := {|
  TypeMeta := string * string; zero_TypeMeta := ("", "");
  ObjectMeta := string * slice string; zero_ObjectMeta := ("", Slice None);
  ListMeta := string; zero_ListMeta := "";
  Condition := string * string; zero_Condition := ("", "");
  clusterv1_ObjectMeta := slice string; zero_clusterv1_ObjectMeta := Slice None;
  OtherBlock := () |}.
#[local] Instance test_string_copies : Copies string := flat_copies string.
#[local] Instance test_string_laws : DeepLaws string := flat_laws string.
#[local] Instance test_copies : LibCopies test_types := {|
  ObjectMeta_copies := prod_copies string (slice string); ListMeta_copies := flat_copies string;
  Condition_copies := flat_copies (string * string); clusterv1_ObjectMeta_copies := slice_copies string |}.
#[local] Instance test_readable : LibReadable test_types := {|
  ObjectMeta_readable := prod_readable string (slice string); ListMeta_readable := flat string;
  Condition_readable := flat (string * string); clusterv1_ObjectMeta_readable := slice_readable string |}.
#[local] Instance test_laws : LibLaws test_types := {|
  ObjectMeta_laws := prod_laws string (slice string); ListMeta_laws := flat_laws string;
  Condition_laws := flat_laws (string * string); clusterv1_ObjectMeta_laws := slice_laws string |}.

(** A list of one machine, with a finalizer, a provider ID and a condition. *)
Definition test_heap : heap := {[
  0%nat := BString ["finalizer"];
  1%nat := BString ["goofy:////m"];
  2%nat := BCondition [("Ready", "True")];
  3%nat := BGoofyMachine [mkGoofyMachine ("GoofyMachine", "v1alpha1") ("m", Slice (Some 0%nat))
    (mkGoofyMachineSpec (Some 1%nat)) (mkGoofyMachineStatus true (Some 2%nat))];
  4%nat := BGoofyMachineList [mkGoofyMachineList ("GoofyMachineList", "v1alpha1") "" (Some 3%nat)] ]}.
Definition test_value : Value GoofyMachineList :=
  (("GoofyMachineList", "v1alpha1"), ("", Some [(("GoofyMachine", "v1alpha1"), (("m", Some ["finalizer"]),
    (Some "goofy:////m", (true, Some [("Ready", "True")]))))])).

(** The copy does not notice that the provider ID of the original is overwritten. *)
Lemma objects_are_copied_deeply_witness : ∃ q h', GoofyMachineList_DeepCopyObject (Some 4%nat) test_heap = Done (Some q) h' ∧
  readPointer GoofyMachineList (<[1%nat := BString ["other"]]> h') (Some q) = Some (Some test_value).
Proof.
  destruct objects_are_copied_deeply as (_ & _ & _ & [_ Hcopy] & _).
  destruct (Hcopy test_heap 4%nat (Some test_value)) as (q & h' & Hrun & _ & Hq & _); [vm_compute; reflexivity|].
  exists q, h'. split; [exact Hrun|]. apply Hq. intros a Ha. rewrite lookup_insert_ne; [done|].
  intros <-. apply Ha.
  vm_compute in Hrun. injection Hrun as <- <-. vm_decide.
Defined.
End witness.
