(* ===== verification/Runtime.v ===== *)
(** * What the cache relies on: the scheme, the clock, map order, queues, handlers

    Code of the Kubernetes libraries is a parameter here: the class [Env] holds
    the functions of the scheme, of the JSON patch library and of the clock that
    the program calls, [EnvLaws] the documented facts about them that theorems
    use, and [InformEventHandler] the interface of cache.go through which the
    cache notifies its informers.  The client-go work queue is a parameter too:
    what the program does to it is the sequence of calls it makes. *)

From stdpp Require Import prelude gmap strings list.
From Stdlib Require Import ZArith QArith_base.
From S2P Require Import Prelude GoStd GoTime Api.

(** ** Lists *)
Inductive ListType := UnstructuredList | TypedList (goType : string).

Record ObjectList := mkObjectList {
  list_gvk : GroupVersionKind; list_type : ListType; list_items : list Object }.

(** labels.Selector: its methods Empty and Matches. *)
Record LabelSelector := mkSelector {
  sel_Empty : bool; sel_Matches : gmap string string → bool }.

Record ListOptions := mkListOptions {
  lo_Namespace : string; lo_LabelSelector : option LabelSelector }.

(** A client.ListOption, by its ApplyToList, and ListOptions.ApplyOptions. *)
Definition ListOption : Type := ListOptions → ListOptions.
Definition ApplyOptions (o : ListOptions) (opts : list ListOption) : ListOptions :=
  fold_left (λ o f, f o) opts o.
Definition InNamespace (ns : string) : ListOption := λ o, mkListOptions ns (lo_LabelSelector o).

(** ** Patches *)
Definition MergePatchType : string := "application/merge-patch+json".
Definition StrategicMergePatchType : string := "application/strategic-merge-patch+json".

Record Patch := mkPatch { patch_Type : string; patch_Data : Object → string + string }.
Definition RawPatch (patchType data : string) : Patch := mkPatch patchType (λ _, inl data).

(** ** The environment *)
Class Env := {
  (** apiutil.GVKForObject: from the Go type of the object, or from its type
      meta when it is unstructured; an error message when the type is unknown *)
  scheme_GVKForObject : Body → GroupVersionKind → GroupVersionKind + string;
  scheme_GVKForList : ListType → GroupVersionKind → GroupVersionKind + string;
  (** scheme.Convert(in, out, nil): the new content of out *)
  scheme_Convert : Object → Object → Object + string;
  (** meta.SetList *)
  meta_SetList : ObjectList → list Object → ObjectList + string;
  (** schema.ParseGroupVersion *)
  ParseGroupVersion : string → option (string * string);
  (** the JSON serializer of the scheme, runtime.Encode with the encoder for a
      group and version, jsonpatch.MergePatch and runtime.DecodeInto *)
  scheme_has_json : bool;
  scheme_Encode : string * string → Object → string + string;
  jsonpatch_MergePatch : string → string → string + string;
  scheme_DecodeInto : string → Object → Object + string;
  (** the n-th reading of time.Now *)
  time_Now : nat → Time;
  (** wait.Jitter *)
  wait_Jitter : Duration → Q → Duration;
  (** the order in which range visits a map, or a map used as a set; any order, but the
      same one at each visit of equal maps, where Go draws it anew *)
  map_range : ∀ (K V : Type) (EK : EqDecision K) (CK : Countable K), gmap K V → list (K * V);
  set_range : ∀ (K : Type) (EK : EqDecision K) (CK : Countable K), gset K → list K;
  (** the operator == on metav1.OwnerReference, which compares the pointer
      fields Controller and BlockOwnerDeletion by identity *)
  OwnerReference_eqb : OwnerReference → OwnerReference → bool
}.
Arguments map_range {_ K V _ _} m.
Arguments set_range {_ K _ _} s.

Class EnvLaws (E : Env) := {
  map_range_perm : ∀ K V (EK : EqDecision K) (CK : Countable K) (m : gmap K V),
    map_range m ≡ₚ map_to_list m;
  set_range_perm : ∀ K (EK : EqDecision K) (CK : Countable K) (s : gset K),
    set_range s ≡ₚ elements s;
  (** the clock never shows the zero time *)
  time_Now_nonzero : ∀ n, IsZero (time_Now n) = false;
  (** equal structs have equal fields, and without pointers the converse holds *)
  OwnerReference_eqb_eq : ∀ a b, OwnerReference_eqb a b = true → a = b;
  OwnerReference_eqb_sym : ∀ a b, OwnerReference_eqb a b = OwnerReference_eqb b a;
  OwnerReference_eqb_refl : ∀ a,
    or_Controller a = None → or_BlockOwnerDeletion a = None → OwnerReference_eqb a a = true
}.

(** ** Work queues

    A [workqueue.RateLimitingInterface] variable is nil or a queue; the calls the
    program makes on it are recorded in order. *)
Inductive queue_call (A : Type) :=
| QAdd (item : A)
| QAddAfter (item : A) (after : Duration)
| QAddRateLimited (item : A)
| QForget (item : A)
| QDone (item : A)
| QShutDown.
Arguments QAdd {A} item.
Arguments QAddAfter {A} item after.
Arguments QAddRateLimited {A} item.
Arguments QForget {A} item.
Arguments QDone {A} item.
Arguments QShutDown {A}.

Abbreviation workqueue A := (option (list (queue_call A))).

(** An item of a queue is an [interface{}]: a value of the expected type, or not. *)
Inductive any (A : Type) := Is (a : A) | IsNot.
Arguments Is {A} a.
Arguments IsNot {A}.

(** ** Event handlers (InformEventHandler of cache.go): [H] the handlers, [S] the
    state they act on. *)
Class InformEventHandler (H S : Type) := {
  OnCreate : H → string → Object → S → S;
  OnUpdate : H → string → Object → Object → S → S;
  OnDelete : H → string → Object → S → S;
  OnGeneric : H → string → Object → S → S
}.

(** ** Lemmas *)
Section laws.
Context {E : Env} {L : EnvLaws E}.

Lemma elem_of_map_range `{Countable K} {V} (m : gmap K V) k v :
  (k, v) ∈ map_range m ↔ m !! k = Some v.
Proof. by rewrite map_range_perm, elem_of_map_to_list. Qed.

Lemma elem_of_set_range `{Countable K} (s : gset K) k : k ∈ set_range s ↔ k ∈ s.
Proof. by rewrite set_range_perm, elem_of_elements. Qed.

Lemma NoDup_set_range `{Countable K} (s : gset K) : NoDup (set_range s).
Proof. rewrite set_range_perm. apply NoDup_elements. Qed.

Lemma NoDup_map_range `{Countable K} {V} (m : gmap K V) : NoDup (map_range m).
Proof. rewrite map_range_perm. apply NoDup_map_to_list. Qed.
Lemma NoDup_fst_map_range `{Countable K} {V} (m : gmap K V) : NoDup (map_range m).*1.
Proof. rewrite map_range_perm. apply NoDup_fst_map_to_list. Qed.
End laws.

#[export] Hint Resolve NoDup_set_range NoDup_map_range : goofy.
