(* ===== verification/Cache.v ===== *)
(** * The in-memory cache: internal/cloud/runtime/cache

    State and operations of the package (cache.go, client.go, hooks.go,
    informer.go, sync.go, gc.go), one definition per function.  A function that
    mutates the caller's object returns the object as it leaves it; a Go [error]
    is an [option APIError].  Each operation runs as one atomic step, as its locks
    enforce; [LockOrder.v] has the locks. *)

From stdpp Require Import prelude gmap strings list.
From Stdlib Require Import ZArith QArith_base.
From S2P Require Import Prelude GoStd GoTime Api Runtime.
Local Open Scope Z_scope.

(** ** State *)
Record resourceGroupTracker := mkTracker {
  objects : gmap GroupVersionKind (gmap NamespacedName Object);
  ownedObjects : gmap ownReference (gset ownReference) }.

#[export] Instance resourceGroupTracker_eq_dec : EqDecision resourceGroupTracker.
Proof. solve_decision. Defined.

Record gcRequest := mkGcRequest {
  gc_resourceGroup : string; gc_gvk : GroupVersionKind; gc_key : NamespacedName }.

Record resyncRequest := mkResyncRequest {
  rr_resourceGroup : string; rr_gvk : GroupVersionKind; rr_key : NamespacedName }.

(** The struct [cache].  An informer is its list of handlers.  [ticks] counts the
    readings of the clock so far; [handlerState] is what event handlers act on. *)
Record cache (H HS : Type) := mkCache {
  resourceGroups : gmap string resourceGroupTracker;
  informers : gmap GroupVersionKind (list H);
  garbageCollectorRequeueAfter : Duration;
  garbageCollectorRequeueAfterJitterFactor : Q;
  garbageCollectorConcurrency : Z;
  garbageCollectorQueue : workqueue (any gcRequest);
  syncPeriod : Duration;
  syncConcurrency : Z;
  syncQueue : workqueue (any resyncRequest);
  started : bool;
  ticks : nat;
  handlerState : HS }.
Arguments mkCache {H HS}.
Arguments resourceGroups {H HS}.
Arguments informers {H HS}.
Arguments garbageCollectorRequeueAfter {H HS}.
Arguments garbageCollectorRequeueAfterJitterFactor {H HS}.
Arguments garbageCollectorConcurrency {H HS}.
Arguments garbageCollectorQueue {H HS}.
Arguments syncPeriod {H HS}.
Arguments syncConcurrency {H HS}.
Arguments syncQueue {H HS}.
Arguments started {H HS}.
Arguments ticks {H HS}.
Arguments handlerState {H HS}.

Section setters.
Context {H HS : Type}.
Implicit Types c : cache H HS.

Definition set_resourceGroups v c : cache H HS := mkCache v (informers c) (garbageCollectorRequeueAfter c)
  (garbageCollectorRequeueAfterJitterFactor c) (garbageCollectorConcurrency c)
  (garbageCollectorQueue c) (syncPeriod c) (syncConcurrency c) (syncQueue c) (started c)
  (ticks c) (handlerState c).
Definition set_informers v c : cache H HS := mkCache (resourceGroups c) v (garbageCollectorRequeueAfter c)
  (garbageCollectorRequeueAfterJitterFactor c) (garbageCollectorConcurrency c)
  (garbageCollectorQueue c) (syncPeriod c) (syncConcurrency c) (syncQueue c) (started c)
  (ticks c) (handlerState c).
Definition set_garbageCollectorQueue v c : cache H HS := mkCache (resourceGroups c) (informers c)
  (garbageCollectorRequeueAfter c) (garbageCollectorRequeueAfterJitterFactor c)
  (garbageCollectorConcurrency c) v (syncPeriod c) (syncConcurrency c) (syncQueue c) (started c)
  (ticks c) (handlerState c).
Definition set_syncQueue v c : cache H HS := mkCache (resourceGroups c) (informers c)
  (garbageCollectorRequeueAfter c) (garbageCollectorRequeueAfterJitterFactor c)
  (garbageCollectorConcurrency c) (garbageCollectorQueue c) (syncPeriod c) (syncConcurrency c)
  v (started c) (ticks c) (handlerState c).
Definition set_started v c : cache H HS := mkCache (resourceGroups c) (informers c)
  (garbageCollectorRequeueAfter c) (garbageCollectorRequeueAfterJitterFactor c)
  (garbageCollectorConcurrency c) (garbageCollectorQueue c) (syncPeriod c) (syncConcurrency c)
  (syncQueue c) v (ticks c) (handlerState c).
Definition set_ticks v c : cache H HS := mkCache (resourceGroups c) (informers c)
  (garbageCollectorRequeueAfter c) (garbageCollectorRequeueAfterJitterFactor c)
  (garbageCollectorConcurrency c) (garbageCollectorQueue c) (syncPeriod c) (syncConcurrency c)
  (syncQueue c) (started c) v (handlerState c).
Definition set_handlerState v c : cache H HS := mkCache (resourceGroups c) (informers c)
  (garbageCollectorRequeueAfter c) (garbageCollectorRequeueAfterJitterFactor c)
  (garbageCollectorConcurrency c) (garbageCollectorQueue c) (syncPeriod c) (syncConcurrency c)
  (syncQueue c) (started c) (ticks c) v.
End setters.

(** Assignments [tracker.objects[gvk][key] = obj] (the inner map exists),
    [delete(tracker.objects[gvk], key)] and [delete(tracker.ownedObjects, ref)]. *)
Definition tracked (t : resourceGroupTracker) (gvk : GroupVersionKind) (key : NamespacedName)
  : option Object := objects t !! gvk ≫= (.!! key).
Definition track (gvk : GroupVersionKind) (key : NamespacedName) (obj : Object)
    (t : resourceGroupTracker) : resourceGroupTracker :=
  mkTracker (alter (insert key obj) gvk (objects t)) (ownedObjects t).
Definition untrack (gvk : GroupVersionKind) (key : NamespacedName) (t : resourceGroupTracker)
  : resourceGroupTracker := mkTracker (alter (delete key) gvk (objects t)) (ownedObjects t).
(** [tracker.objects[gvk] = make(map...)] when there is none. *)
Definition with_kind (gvk : GroupVersionKind) (t : resourceGroupTracker) : resourceGroupTracker :=
  match objects t !! gvk with
  | Some _ => t
  | None => mkTracker (<[gvk := ∅]> (objects t)) (ownedObjects t)
  end.
Definition set_ownedObjects v (t : resourceGroupTracker) : resourceGroupTracker :=
  mkTracker (objects t) v.

Definition lastSyncTimeAnnotation : string := "internal.goofy.cluster.x-k8s.io/last-sync".

(** hooks.go: appendAnnotations; an odd trailing key is ignored. *)
Fixpoint append_pairs (m : gmap string string) (kv : list string) : gmap string string :=
  match kv with
  | k :: v :: kv => append_pairs (<[k := v]> m) kv
  | _ => m
  end.
Definition appendAnnotations (obj : Object) (keyValuePair : list string) : gomap string :=
  Some (append_pairs (gomap_elems (GetAnnotations obj)) keyValuePair).

(** sync.go: lastSyncTimeAnnotationValue. *)
Definition lastSyncTimeAnnotationValue (obj : Object) : option Time :=
  match gomap_elems (GetAnnotations obj) !! lastSyncTimeAnnotation with
  | None => None
  | Some value => Parse value
  end.

(** cache.go: unsafeGuessGroupVersionResource (its GroupResource) and
    unsafeGuessObjectKindFromList. *)
Definition unsafeGuessGroupResource (gvk : GroupVersionKind) : GroupResource :=
  mkGroupResource (gvk_Group gvk) (gvk_Kind gvk).
Definition unsafeGuessObjectKindFromList (gvk : GroupVersionKind) : GroupVersionKind :=
  GVK (gvk_Group gvk) (gvk_Version gvk) (TrimSuffix (gvk_Kind gvk) "List").

Definition notFound (gvk : GroupVersionKind) (key : NamespacedName) : APIError :=
  NotFound (unsafeGuessGroupResource gvk) (NamespacedName_String key).

Section ops.
Context {H HS : Type} `{Env} `{InformEventHandler H HS}.
Implicit Types c : cache H HS.

(** cache.go: NewCache. *)
Definition NewCache (s : HS) : cache H HS :=
  mkCache ∅ ∅ (30 * Second) (3 # 10) 1 None (10 * Minute) 1 None false 0%nat s.

(** cache.go: newOwnReferenceFromOwnerReference. *)
Definition newOwnReferenceFromOwnerReference (namespace : string) (owner : OwnerReference)
  : ownReference + APIError :=
  match ParseGroupVersion (or_APIVersion owner) with
  | None => inr (BadRequest (InvalidAPIVersion (or_APIVersion owner)))
  | Some (group, version) =>
      inl (OwnRef (GVK group version (or_Kind owner)) (NN namespace (or_Name owner)))
  end.

(** cache.go: AddResourceGroup, DeleteResourceGroup, resourceGroupTracker. *)
Definition AddResourceGroup (name : string) : Go (cache H HS) () :=
  c ← go_get;
  match resourceGroups c !! name with
  | Some _ => mret ()
  | None => go_put (set_resourceGroups (<[name := mkTracker ∅ ∅]> (resourceGroups c)) c)
  end.

Definition DeleteResourceGroup (name : string) : Go (cache H HS) () :=
  go_modify (λ c, set_resourceGroups (delete name (resourceGroups c)) c).

Definition get_tracker (resourceGroup : string) c : option resourceGroupTracker :=
  resourceGroups c !! resourceGroup.

(** What a call does to the tracker it holds a pointer to. *)
Definition put_tracker (resourceGroup : string) (t : resourceGroupTracker) : Go (cache H HS) () :=
  go_modify (λ c, set_resourceGroups (<[resourceGroup := t]> (resourceGroups c)) c).

(** cache.go: gvkGetAndSet. *)
Definition gvkGetAndSet (obj : Object) : (GroupVersionKind * Object) + APIError :=
  match scheme_GVKForObject (obj_body obj) (obj_gvk obj) with
  | inr err => inr (InternalError err)
  | inl gvk => inl (gvk, SetGroupVersionKind gvk obj)
  end.

Definition gvkGetAndSet_list (l : ObjectList) : (GroupVersionKind * ObjectList) + APIError :=
  match scheme_GVKForList (list_type l) (list_gvk l) with
  | inr err => inr (InternalError err)
  | inl gvk => inl (gvk, mkObjectList gvk (list_type l) (list_items l))
  end.

(** time.Now().UTC() *)
Definition Now : Go (cache H HS) Time :=
  c ← go_get; _ ← go_put (set_ticks (1 + ticks c)%nat c); mret (time_Now (ticks c)).

(** A call of Add on one of the two queues, which panics on a nil queue. *)
Definition gcQueue_call (q : queue_call (any gcRequest)) : Go (cache H HS) () :=
  c ← go_get;
  match garbageCollectorQueue c with
  | None => go_panic "nil pointer dereference: garbageCollectorQueue"
  | Some calls => go_put (set_garbageCollectorQueue (Some (calls ++ [q])) c)
  end.
Definition syncQueue_call (q : queue_call (any resyncRequest)) : Go (cache H HS) () :=
  c ← go_get;
  match syncQueue c with
  | None => go_panic "nil pointer dereference: syncQueue"
  | Some calls => go_put (set_syncQueue (Some (calls ++ [q])) c)
  end.

(** ** informer.go *)
Definition AddEventHandler (gvk : GroupVersionKind) (h : H) : Go (cache H HS) () :=
  go_modify (λ c, set_informers (alter (λ handlers, handlers ++ [h]) gvk (informers c)) c).

Definition GetInformerForKind (gvk : GroupVersionKind) : Go (cache H HS) GroupVersionKind :=
  c ← go_get;
  _ ← match informers c !! gvk with
      | Some _ => mret ()
      | None => go_put (set_informers (<[gvk := []]> (informers c)) c)
      end;
  mret gvk.

Definition GetInformer (obj : Object) : Go (cache H HS) (GroupVersionKind + string) :=
  match scheme_GVKForObject (obj_body obj) (obj_gvk obj) with
  | inr err => mret (inr err)
  | inl gvk => i ← GetInformerForKind gvk; mret (inl i)
  end.

(** The handlers of the informer of a kind, in the order they were added. *)
Definition inform (call : H → HS → HS) (gvk : GroupVersionKind) : Go (cache H HS) () :=
  go_modify (λ c,
    match informers c !! gvk with
    | None => c
    | Some handlers => set_handlerState (fold_left (λ s h, call h s) handlers (handlerState c)) c
    end).

Definition informCreate (resourceGroup : string) (obj : Object) : Go (cache H HS) () :=
  inform (λ h, OnCreate h resourceGroup obj) (obj_gvk obj).
Definition informUpdate (resourceGroup : string) (oldObj newObj : Object) : Go (cache H HS) () :=
  inform (λ h, OnUpdate h resourceGroup oldObj newObj) (obj_gvk newObj).
Definition informDelete (resourceGroup : string) (obj : Object) : Go (cache H HS) () :=
  inform (λ h, OnDelete h resourceGroup obj) (obj_gvk obj).
Definition informSync (resourceGroup : string) (obj : Object) : Go (cache H HS) () :=
  inform (λ h, OnGeneric h resourceGroup obj) (obj_gvk obj).

(** ** hooks.go: each hook returns the object as it leaves it.  The times in the metadata
    are kept exactly; an unstructured object keeps their whole seconds. *)
Definition beforeCreate (resourceGroup : string) (obj : Object)
  : Go (cache H HS) (Object * option APIError) :=
  now ← Now;
  let obj := SetCreationTimestamp now obj in
  let obj := SetAnnotations (appendAnnotations obj [lastSyncTimeAnnotation; Format now 0]) obj in
  let obj := SetResourceVersion ("v" +:+ Itoa 1) obj in
  mret (obj, None).

Definition afterCreate (resourceGroup : string) (obj : Object) : Go (cache H HS) () :=
  informCreate resourceGroup obj.

(** The fields that an update cannot set, copied from the tracked object. *)
Definition keep_managed_fields (oldObj newObj : Object) : Object :=
  let newObj := SetCreationTimestamp (GetCreationTimestamp oldObj) newObj in
  let newObj := SetResourceVersion (GetResourceVersion oldObj) newObj in
  let newObj := SetAnnotations (appendAnnotations newObj
    [lastSyncTimeAnnotation;
     default "" (gomap_elems (GetAnnotations oldObj) !! lastSyncTimeAnnotation)]) newObj in
  if TimePtr_IsZero (GetDeletionTimestamp oldObj) then newObj
  else SetDeletionTimestamp (GetDeletionTimestamp oldObj) newObj.

(** fmt.Sprintf of "v%d" with the number of the old version plus one. *)
Definition next_resource_version (v : string) : string :=
  let oldResourceVersion := (Atoi (TrimPrefix v "v")).1 in
  "v" +:+ Itoa (wrap_int (oldResourceVersion + 1)).

Definition beforeUpdate (resourceGroup : string) (oldObj newObj : Object)
  : Go (cache H HS) (Object * option APIError) :=
  let newObj := keep_managed_fields oldObj newObj in
  if DeepEqual newObj oldObj then mret (newObj, None)
  else
    now ← Now;
    let newObj :=
      SetAnnotations (appendAnnotations newObj [lastSyncTimeAnnotation; Format now 0]) newObj in
    let newObj := SetResourceVersion (next_resource_version (GetResourceVersion oldObj)) newObj in
    mret (newObj, None).

Definition afterUpdate (resourceGroup : string) (oldObj newObj : Object) : Go (cache H HS) () :=
  if TimePtr_IsZero (GetDeletionTimestamp oldObj)
     && negb (TimePtr_IsZero (GetDeletionTimestamp newObj))
  then informDelete resourceGroup newObj
  else if DeepEqual newObj oldObj then mret ()
  else informUpdate resourceGroup oldObj newObj.

Definition beforeDelete (resourceGroup : string) (obj : Object)
  : Go (cache H HS) (option APIError) := mret None.
Definition afterDelete (resourceGroup : string) (obj : Object) : Go (cache H HS) () := mret ().

(** ** client.go: Get and List *)
Definition Get (resourceGroup : string) (objKey : NamespacedName) (obj : option Object)
  : Go (cache H HS) (option Object * option APIError) :=
  if decide (resourceGroup = "") then mret (obj, Some (BadRequest ResourceGroupEmpty)) else
  if decide (nn_Name objKey = "") then mret (obj, Some (BadRequest KeyNameEmpty)) else
  match obj with
  | None => mret (None, Some (BadRequest ObjectNil))
  | Some obj =>
  match gvkGetAndSet obj with
  | inr err => mret (Some obj, Some err)
  | inl (objGVK, obj) =>
  c ← go_get;
  match get_tracker resourceGroup c with
  | None => mret (Some obj, Some (BadRequest (ResourceGroupMissing resourceGroup)))
  | Some tracker =>
  match objects tracker !! objGVK with
  | None => mret (Some obj, Some (notFound objGVK objKey))
  | Some objs =>
  match objs !! objKey with
  | None => mret (Some obj, Some (notFound objGVK objKey))
  | Some trackedObj =>
  match scheme_Convert trackedObj obj with
  | inr err => mret (Some obj, Some (InternalError err))
  | inl obj => mret (Some (SetGroupVersionKind (obj_gvk trackedObj) obj), None)
  end end end end end end.

(** The filters of List on one tracked object. *)
Definition list_selects (listOpts : ListOptions) (obj : Object) : bool :=
  negb (negb (bool_decide (lo_Namespace listOpts = ""))
        && negb (bool_decide (GetNamespace obj = lo_Namespace listOpts)))
  && match lo_LabelSelector listOpts with
     | None => true
     | Some sel => sel_Empty sel || sel_Matches sel (gomap_elems (GetLabels obj))
     end.

Definition empty_unstructured : Object := mkObject (GVK "" "" "") (named_meta "" "") (Unstructured "").

(** The loop of List: [inr] is its early return. *)
Fixpoint list_loop (t : ListType) (listOpts : ListOptions) (objs : list Object)
    (items : list Object) : list Object + APIError :=
  match objs with
  | [] => inl items
  | obj :: objs =>
      if list_selects listOpts obj then
        match t with
        | UnstructuredList =>
            match scheme_Convert obj empty_unstructured with
            | inr err => inr (InternalError err)
            | inl u => list_loop t listOpts objs (items ++ [u])
            end
        | TypedList _ => list_loop t listOpts objs (items ++ [obj])
        end
      else list_loop t listOpts objs items
  end.

Definition List_ (resourceGroup : string) (l : option ObjectList) (opts : list ListOption)
  : Go (cache H HS) (option ObjectList * option APIError) :=
  if decide (resourceGroup = "") then mret (l, Some (BadRequest ResourceGroupEmpty)) else
  match l with
  | None => mret (None, Some (BadRequest ListNil))
  | Some l =>
  match gvkGetAndSet_list l with
  | inr err => mret (Some l, Some err)
  | inl (gvk, l) =>
  c ← go_get;
  match get_tracker resourceGroup c with
  | None => mret (Some l, Some (BadRequest (ResourceGroupMissing resourceGroup)))
  | Some tracker =>
  let items :=
    match objects tracker !! unsafeGuessObjectKindFromList gvk with
    | None => inl []
    | Some objs =>
        list_loop (list_type l) (ApplyOptions (mkListOptions "" None) opts)
          (map_range objs).*2 []
    end in
  match items with
  | inr err => mret (Some l, Some err)
  | inl items =>
  match meta_SetList l items with
  | inr err => mret (Some l, Some (InternalError err))
  | inl l => mret (Some l, None)
  end end end end end.

(** ** client.go: store *)
(** The validation loop: every owner exists in the tracker. *)
Fixpoint validateOwners (tracker : resourceGroupTracker) (namespace : string)
    (owners : list OwnerReference) : option APIError :=
  match owners with
  | [] => None
  | o :: owners =>
      match newOwnReferenceFromOwnerReference namespace o with
      | inr err => Some err
      | inl oRef =>
          match objects tracker !! ref_gvk oRef with
          | None => Some (BadRequest (OwnerGVKNotTracked oRef))
          | Some objs =>
              match objs !! ref_key oRef with
              | None => Some (BadRequest (OwnerMissing oRef))
              | Some _ => validateOwners tracker namespace owners
              end
          end
      end
  end.

(** The two loops of updateTrackerOwnerReferences, over the old and over the new
    owner references.  [None] is the panic on an invalid reference. *)
Definition removeOwner (objRef : ownReference) (namespace : string) (news : list OwnerReference)
    (owned : gmap ownReference (gset ownReference)) (oldOwnerRef : OwnerReference)
  : option (gmap ownReference (gset ownReference)) :=
  let ownerRefStillExists := existsb (OwnerReference_eqb oldOwnerRef) news in
  if ownerRefStillExists then Some owned
  else match newOwnReferenceFromOwnerReference namespace oldOwnerRef with
       | inr _ => None
       | inl oldRef =>
           match owned !! oldRef with
           | None => Some owned
           | Some refs =>
               let refs := refs ∖ {[objRef]} in
               Some (if decide (refs = ∅) then delete oldRef owned else <[oldRef := refs]> owned)
           end
       end.

Definition addOwner (objRef : ownReference) (namespace : string) (olds : list OwnerReference)
    (owned : gmap ownReference (gset ownReference)) (newOwnerRef : OwnerReference)
  : option (gmap ownReference (gset ownReference)) :=
  let ownerRefAlreadyExisted := existsb (OwnerReference_eqb newOwnerRef) olds in
  if ownerRefAlreadyExisted then Some owned
  else match newOwnReferenceFromOwnerReference namespace newOwnerRef with
       | inr _ => None
       | inl newRef => Some (<[newRef := default ∅ (owned !! newRef) ∪ {[objRef]}]> owned)
       end.

Fixpoint foldM {A B} (f : B → A → option B) (l : list A) (b : B) : option B :=
  match l with
  | [] => Some b
  | a :: l => b ← f b a; foldM f l b
  end.

Definition updateTrackerOwnerReferences (tracker : resourceGroupTracker) (oldObj : option Object)
    (newObj : Object) (objRef : ownReference) : Go (cache H HS) resourceGroupTracker :=
  let olds := from_option GetOwnerReferences [] oldObj in
  let news := GetOwnerReferences newObj in
  let ns := GetNamespace newObj in
  match foldM (removeOwner objRef ns news) olds (ownedObjects tracker) ≫=
        foldM (addOwner objRef ns olds) news with
  | None => go_panic "nil pointer dereference: owner reference"
  | Some owned => mret (set_ownedObjects owned tracker)
  end.

(** The part of store that runs under the tracker's lock. *)
Definition storeLocked (resourceGroup : string) (tracker : resourceGroupTracker)
    (objGVK : GroupVersionKind) (obj : Object) (replaceExisting : bool)
  : Go (cache H HS) (resourceGroupTracker * Object * option APIError) :=
  match validateOwners tracker (GetNamespace obj) (GetOwnerReferences obj) with
  | Some err => mret (tracker, obj, Some err)
  | None =>
  let tracker := with_kind objGVK tracker in
  let objKey := ObjectKeyFromObject obj in
  let objRef := OwnRef objGVK objKey in
  match tracked tracker objGVK objKey with
  | Some trackedObj =>
      if replaceExisting then
        if negb (bool_decide (GetResourceVersion trackedObj = GetResourceVersion obj)) then
          mret (tracker, obj, Some (Conflict (unsafeGuessGroupResource objGVK)
            (NamespacedName_String objKey)))
        else
          r ← beforeUpdate resourceGroup trackedObj obj;
          match r with
          | (obj, Some err) => mret (tracker, obj, Some err)
          | (obj, None) =>
              let tracker := track objGVK objKey obj tracker in
              tracker ← updateTrackerOwnerReferences tracker (Some trackedObj) obj objRef;
              _ ← afterUpdate resourceGroup trackedObj obj;
              mret (tracker, obj, None)
          end
      else mret (tracker, obj, Some (AlreadyExists (unsafeGuessGroupResource objGVK)
             (NamespacedName_String objKey)))
  | None =>
      if replaceExisting then mret (tracker, obj, Some (notFound objGVK objKey))
      else
        r ← beforeCreate resourceGroup obj;
        match r with
        | (obj, Some err) => mret (tracker, obj, Some err)
        | (obj, None) =>
            let tracker := track objGVK objKey obj tracker in
            tracker ← updateTrackerOwnerReferences tracker None obj objRef;
            _ ← afterCreate resourceGroup obj;
            mret (tracker, obj, None)
        end
  end end.

Definition store (resourceGroup : string) (obj : option Object) (replaceExisting : bool)
  : Go (cache H HS) (option Object * option APIError) :=
  if decide (resourceGroup = "") then mret (obj, Some (BadRequest ResourceGroupEmpty)) else
  match obj with
  | None => mret (None, Some (BadRequest ObjectNil))
  | Some obj =>
  match gvkGetAndSet obj with
  | inr err => mret (Some obj, Some err)
  | inl (objGVK, obj) =>
  if replaceExisting && bool_decide (GetName obj = "")
  then mret (Some obj, Some (BadRequest ObjectNameEmpty)) else
  c ← go_get;
  match get_tracker resourceGroup c with
  | None => mret (Some obj, Some (BadRequest (ResourceGroupMissing resourceGroup)))
  | Some tracker =>
      r ← storeLocked resourceGroup tracker objGVK obj replaceExisting;
      let '(tracker, obj, err) := r in
      _ ← put_tracker resourceGroup tracker;
      mret (Some obj, err)
  end end end.

Definition Create (resourceGroup : string) (obj : option Object) := store resourceGroup obj false.
Definition Update (resourceGroup : string) (obj : option Object) := store resourceGroup obj true.

(** ** client.go: Patch *)
(** getEncoder: the encoder for a group and version, or an error. *)
Definition getEncoder (obj : Object) (gv : string * string)
  : (Object → string + string) + string :=
  if scheme_has_json then inl (scheme_Encode gv) else inr "failed to create serializer".

(** The error returned, if any; the caller's object is not modified. *)
Definition Patch_ (resourceGroup : string) (obj : option Object) (patch : Patch)
  : Go (cache H HS) (option APIError) :=
  match obj with
  | None => go_panic "nil pointer dereference: DeepCopyObject"
  | Some obj =>
  r ← Get resourceGroup (ObjectKeyFromObject obj) (Some obj);
  match r with
  | (_, Some err) => mret (Some err)
  | (None, None) => mret None
  | (Some obj, None) =>
  match patch_Data patch obj with
  | inr err => mret (Some (InternalError err))
  | inl patchData =>
  match getEncoder obj (gvk_Group (obj_gvk obj), gvk_Version (obj_gvk obj)) with
  | inr err => mret (Some (InternalError err))
  | inl encoder =>
  match encoder obj with
  | inr err => mret (Some (InternalError err))
  | inl originalObjJS =>
  if decide (patch_Type patch = MergePatchType ∨ patch_Type patch = StrategicMergePatchType) then
    match jsonpatch_MergePatch originalObjJS patchData with
    | inr err => mret (Some (InternalError err))
    | inl changedJS =>
        match scheme_DecodeInto changedJS obj with
        | inr err => mret (Some (InternalError err))
        | inl obj => r ← store resourceGroup (Some obj) true; mret (snd r)
        end
    end
  else mret (Some (BadRequest (PatchTypeUnsupported (patch_Type patch))))
  end end end end end.

(** ** client.go: Delete *)
(** The end of doTryDeleteLocked: an object with finalizers is marked, once; any
    other one is removed. *)
Definition markOrRemove (resourceGroup : string) (tracker : resourceGroupTracker)
    (objGVK : GroupVersionKind) (objKey : NamespacedName) (obj : Object)
  : Go (cache H HS) (resourceGroupTracker * (bool * option APIError)) :=
  match GetFinalizers obj with
  | _ :: _ =>
      if negb (TimePtr_IsZero (GetDeletionTimestamp obj)) then mret (tracker, (false, None))
      else
        err ← beforeDelete resourceGroup obj;
        match err with
        | Some err => mret (tracker, (false, Some (BadRequest (WrappedMessage "beforeDelete"))))
        | None =>
            let oldObj := obj in
            now ← Now;
            let obj := SetDeletionTimestamp (Some now) obj in
            r ← beforeUpdate resourceGroup oldObj obj;
            match r with
            | (obj, Some err) =>
                mret (track objGVK objKey obj tracker,
                      (false, Some (BadRequest (WrappedMessage "beforeUpdate"))))
            | (obj, None) =>
                let obj := SetDeletionTimestamp (Some now) obj in
                let tracker := track objGVK objKey obj tracker in
                _ ← afterUpdate resourceGroup oldObj obj;
                mret (tracker, (false, None))
            end
        end
  | [] =>
      let tracker := untrack objGVK objKey tracker in
      _ ← afterDelete resourceGroup obj;
      mret (tracker, (true, None))
  end.

(** doTryDeleteLocked recurses into the owned objects before it deletes or marks
    the object itself.  [fuel] bounds the depth of that recursion. *)
Fixpoint doTryDeleteLocked (fuel : nat) (resourceGroup : string) (tracker : resourceGroupTracker)
    (objGVK : GroupVersionKind) (objKey : NamespacedName)
  : Go (cache H HS) (resourceGroupTracker * (bool * option APIError)) :=
  match fuel with
  | O => go_out_of_fuel
  | S fuel =>
  match tracked tracker objGVK objKey with
  | None => mret (tracker, (true, Some (notFound objGVK objKey)))
  | Some obj =>
  r ← match ownedObjects tracker !! OwnRef objGVK objKey with
      | None => mret (tracker, None)
      | Some ownedReferences =>
          r ← go_for (λ ref tracker,
                r ← doTryDeleteLocked fuel resourceGroup tracker (ref_gvk ref) (ref_key ref);
                match r with
                | (tracker, (_, Some err)) => mret (tracker, Some err)
                | (tracker, (deleted, None)) =>
                    _ ← (if deleted : bool then mret ()
                         else gcQueue_call (QAdd (Is
                                (mkGcRequest resourceGroup (ref_gvk ref) (ref_key ref)))));
                    mret (tracker, None)
                end) (set_range ownedReferences) tracker;
          match r with
          | (tracker, Some err) => mret (tracker, Some err)
          | (tracker, None) =>
              mret (set_ownedObjects (delete (OwnRef objGVK objKey) (ownedObjects tracker)) tracker,
                    None)
          end
      end;
  match r with
  | (tracker, Some err) => mret (tracker, (false, Some err))
  | (tracker, None) => markOrRemove resourceGroup tracker objGVK objKey obj
  end end end.

Definition tryDelete (fuel : nat) (resourceGroup : string) (gvk : GroupVersionKind)
    (key : NamespacedName) : Go (cache H HS) (bool * option APIError) :=
  c ← go_get;
  match get_tracker resourceGroup c with
  | None => mret (true, Some (BadRequest (ResourceGroupMissing resourceGroup)))
  | Some tracker =>
      r ← doTryDeleteLocked fuel resourceGroup tracker gvk key;
      _ ← put_tracker resourceGroup r.1;
      mret r.2
  end.

Definition Delete (fuel : nat) (resourceGroup : string) (obj : option Object)
  : Go (cache H HS) (option Object * option APIError) :=
  if decide (resourceGroup = "") then mret (obj, Some (BadRequest ResourceGroupEmpty)) else
  match obj with
  | None => mret (None, Some (BadRequest ObjectNil))
  | Some obj =>
  if decide (GetName obj = "") then mret (Some obj, Some (BadRequest ObjectNameEmpty)) else
  match gvkGetAndSet obj with
  | inr err => mret (Some obj, Some err)
  | inl (objGVK, obj) =>
  let objKey := ObjectKeyFromObject obj in
  r ← tryDelete fuel resourceGroup objGVK objKey;
  match r with
  | (_, Some err) => mret (Some obj, Some err)
  | (true, None) => mret (Some obj, None)
  | (false, None) =>
      _ ← gcQueue_call (QAdd (Is (mkGcRequest resourceGroup objGVK objKey)));
      mret (Some obj, None)
  end end end.

(** ** gc.go: one iteration of a garbage collector worker, given what Get returned;
    the result says whether the worker goes on. *)
Definition processGarbageCollectorWorkItem (fuel : nat) (got : any gcRequest * bool)
  : Go (cache H HS) bool :=
  let '(item, shutdown) := got in
  if shutdown : bool then mret false else
  _ ← gcQueue_call (QDone item);
  r ← match item with
      | IsNot => _ ← gcQueue_call (QForget item); mret true
      | Is gcr =>
          r ← tryDelete fuel (gc_resourceGroup gcr) (gc_gvk gcr) (gc_key gcr);
          match r with
          | (true, None) => _ ← gcQueue_call (QForget item); mret true
          | _ =>
              _ ← gcQueue_call (QForget item);
              c ← go_get;
              _ ← gcQueue_call (QAddAfter item
                    (wait_Jitter (garbageCollectorRequeueAfter c)
                       (garbageCollectorRequeueAfterJitterFactor c)));
              mret true
          end
      end;
  (* the deferred call *)
  _ ← gcQueue_call (QDone item);
  mret r.

(** ** sync.go: the bodies of the three nested loops, from the inner one; [i] counts
    the objects queued *)
Definition syncObject (resourceGroup : string) (gvk : GroupVersionKind) (syncBeforeTime : Time)
    (kv : NamespacedName * Object) (i : Z) : Go (cache H HS) (Z * option ()) :=
  let '(key, obj) := kv in
  if match lastSyncTimeAnnotationValue obj with
     | Some lastSync => After lastSync syncBeforeTime
     | None => false
     end
  then mret (i, None)
  else _ ← syncQueue_call (QAdd (Is (mkResyncRequest resourceGroup gvk key)));
       mret (wrap_int (i + 1), None).

Definition syncKind (resourceGroup : string) (syncBeforeTime : Time)
    (kv : GroupVersionKind * gmap NamespacedName Object) (i : Z) : Go (cache H HS) (Z * option ()) :=
  let '(gvk, objs) := kv in go_for (syncObject resourceGroup gvk syncBeforeTime) (map_range objs) i.

Definition syncResourceGroupTracker (resourceGroup : string) (tracker : resourceGroupTracker)
  : Go (cache H HS) Z :=
  now ← Now;
  c ← go_get;
  let syncBeforeTime := TimeAdd now (- syncPeriod c) in
  r ← go_for (syncKind resourceGroup syncBeforeTime) (map_range (objects tracker)) 0;
  mret r.1.

Definition syncOneGroup (kv : string * resourceGroupTracker) (i : Z)
  : Go (cache H HS) (Z * option ()) :=
  let '(resourceGroup, tracker) := kv in
  n ← syncResourceGroupTracker resourceGroup tracker;
  mret (wrap_int (i + n), None).

(** The result is the number that the code logs. *)
Definition syncGroup : Go (cache H HS) Z :=
  c ← go_get;
  r ← go_for syncOneGroup (map_range (resourceGroups c)) 0;
  mret r.1.

(** One iteration of a sync worker, given what Get of the queue returned. *)
Definition resync (rr : resyncRequest) : Go (cache H HS) bool :=
  c ← go_get;
  match get_tracker (rr_resourceGroup rr) c with
  | None => mret true
  | Some tracker =>
  match objects tracker !! rr_gvk rr with
  | None => mret true
  | Some objs =>
  match objs !! rr_key rr with
  | None => mret true
  | Some obj =>
      now ← Now;
      let obj := SetAnnotations (appendAnnotations obj [lastSyncTimeAnnotation; Format now 0]) obj in
      _ ← put_tracker (rr_resourceGroup rr) (track (rr_gvk rr) (rr_key rr) obj tracker);
      _ ← informSync (rr_resourceGroup rr) obj;
      mret true
  end end end.

Definition processSyncWorkItem (got : any resyncRequest * bool) : Go (cache H HS) bool :=
  let '(item, shutdown) := got in
  if shutdown : bool then mret false else
  r ← match item with
      | IsNot => mret true
      | Is rr => resync rr
      end;
  (* the deferred calls *)
  _ ← syncQueue_call (QForget item);
  _ ← syncQueue_call (QDone item);
  mret r.

(** ** Start.  Whether the goroutines come up before the polls time out is an
    input; an error is the message of the failing check. *)
Definition startGarbageCollector (workersStarted : bool) : Go (cache H HS) (option string) :=
  _ ← go_modify (set_garbageCollectorQueue (Some []));
  mret (if workersStarted then None else Some "failed to start garbage collector workers").

Definition startSyncer (loopStarted workersStarted : bool) : Go (cache H HS) (option string) :=
  _ ← go_modify (set_syncQueue (Some []));
  mret (if negb loopStarted then Some "failed to start sync loop"
        else if negb workersStarted then Some "failed to start sync workers" else None).

Definition Start (ctxIsNil gcWorkers syncLoop syncWorkers : bool)
  : Go (cache H HS) (option string) :=
  if ctxIsNil then mret (Some "context cannot be nil") else
  c ← go_get;
  if started c then mret (Some "cache started more than once") else
  err ← startGarbageCollector gcWorkers;
  match err with
  | Some err => mret (Some err)
  | None =>
  err ← startSyncer syncLoop syncWorkers;
  match err with
  | Some err => mret (Some err)
  | None => _ ← go_modify (set_started true); mret None
  end end.
End ops.
