(* ===== verification/TestEnv.v ===== *)
(** * A concrete environment

    An instance of [Env] on which the definitions evaluate, and which satisfies
    [EnvLaws]: witnesses instantiate theorems with it.  The scheme knows the Go
    types of [Body]; the clock advances by one second per reading; maps are
    visited in the order of their elements; the event handler records events. *)

From stdpp Require Import prelude gmap strings list.
From Stdlib Require Import Ascii String ZArith.
From S2P Require Import Prelude GoStd GoTime Api Runtime Cache.

Definition corev1_gvk (kind : string) : GroupVersionKind := GVK "" "v1" kind.
Definition rbacv1_gvk (kind : string) : GroupVersionKind :=
  GVK "rbac.authorization.k8s.io" "v1" kind.
Definition cloudv1_gvk (kind : string) : GroupVersionKind :=
  GVK "virtual.cluster.x-k8s.io" "v1alpha1" kind.

Definition test_GVKForObject (b : Body) (tm : GroupVersionKind) : GroupVersionKind + string :=
  match b with
  | CloudMachine => inl (cloudv1_gvk "CloudMachine")
  | Node _ _ => inl (corev1_gvk "Node")
  | Pod _ _ => inl (corev1_gvk "Pod")
  | ConfigMap => inl (corev1_gvk "ConfigMap")
  | ClusterRole _ => inl (rbacv1_gvk "ClusterRole")
  | ClusterRoleBinding _ _ => inl (rbacv1_gvk "ClusterRoleBinding")
  | Unstructured _ => inl tm
  | OtherType t _ => inr ("no kind is registered for the type " +:+ t)
  end.

(** At most one "/". *)
Fixpoint split_slash (s : string) (acc : string) : list string :=
  match s with
  | EmptyString => [acc]
  | String c s =>
      if Ascii.eqb c "/" then acc :: split_slash s "" else split_slash s (acc +:+ String c "")
  end.
Definition test_ParseGroupVersion (s : string) : option (string * string) :=
  match split_slash s "" with
  | [v] => Some ("", v)
  | [g; v] => Some (g, v)
  | _ => None
  end.

Definition test_Convert (src dst : Object) : Object + string :=
  match obj_body dst with
  | Unstructured _ => inl (mkObject (obj_gvk src) (obj_meta src) (Unstructured ""))
  | _ => inl src
  end.

#[export] Instance test_env : Env := {|
  scheme_GVKForObject := test_GVKForObject;
  scheme_GVKForList t g := match t with TypedList "PodList" => inl (corev1_gvk "PodList") | _ => inl g end;
  scheme_Convert := test_Convert;
  meta_SetList l items := inl (mkObjectList (list_gvk l) (list_type l) items);
  ParseGroupVersion := test_ParseGroupVersion;
  scheme_has_json := true;
  scheme_Encode _ o := inl (GetResourceVersion o);
  jsonpatch_MergePatch _ p := inl p;
  scheme_DecodeInto js o :=
    inl (SetLabels (Some {["patched" := js]}) (if decide (GetName o = "") then SetName js o else o));
  time_Now n := ((63838368000 + Z.of_nat n) * Second)%Z;
  wait_Jitter d _ := d;
  map_range K V EK CK m := map_to_list m;
  set_range K EK CK s := elements s;
  OwnerReference_eqb a b := bool_decide (a = b)
|}.

#[export] Instance test_env_laws : EnvLaws test_env.
Proof.
  split; intros; cbn.
  - done.
  - done.
  - unfold IsZero, Second. apply Z.eqb_neq. lia.
  - by eapply bool_decide_eq_true.
  - apply bool_decide_ext. naive_solver.
  - by apply bool_decide_eq_true.
Qed.

Inductive CacheEvent :=
| Created (handler resourceGroup : string) (obj : Object)
| Updated (handler resourceGroup : string) (oldObj newObj : Object)
| Deleted (handler resourceGroup : string) (obj : Object)
| Synced (handler resourceGroup : string) (obj : Object).

#[export] Instance recording_handler : InformEventHandler string (list CacheEvent) := {|
  OnCreate h rg o s := s ++ [Created h rg o];
  OnUpdate h rg o n s := s ++ [Updated h rg o n];
  OnDelete h rg o s := s ++ [Deleted h rg o];
  OnGeneric h rg o s := s ++ [Synced h rg o]
|}.

(** A cache with a resource group "rg", an informer for cloud machines, and its
    queues created. *)
Abbreviation test_cache := (cache string (list CacheEvent)).

Definition new_machine (name : string) (owners : list OwnerReference) (finalizers : list string)
  : Object :=
  mkObject (GVK "" "" "")
    (mkObjectMeta name "" None None (Some owners) (Some finalizers) "" 0%Z None "") CloudMachine.

Definition owner_of_machine (name : string) : OwnerReference :=
  mkOwnerReference "virtual.cluster.x-k8s.io/v1alpha1" "CloudMachine" name "" None None.

Definition machine_ref (name : string) : ownReference :=
  OwnRef (cloudv1_gvk "CloudMachine") (NN "" name).

(** Run a program from a state, keeping the state it ends in. *)
Definition exec {W A} (m : Go W A) (w : W) : W := match m w with Done _ w => w | _ => w end.

Definition test_start : test_cache :=
  exec (AddResourceGroup "rg")
    (exec (AddEventHandler (cloudv1_gvk "CloudMachine") "h")
       (exec (GetInformer (new_machine "" [] []))
          (exec (Start false true true true) (NewCache [])))).

(** How a run that hands back an object ends. *)
Definition hands_back {W} (r : res W (option Object * option APIError)) (o : option Object)
    (e : option APIError) : bool :=
  match r with Done a _ => bool_decide (a = (o, e)) | _ => false end.

Lemma run_exec_in {W} (m : Go W (option Object * option APIError)) c o e :
  hands_back (m c) o e = true → m c = Done (o, e) (exec m c).
Proof.
  unfold hands_back, exec. destruct (m c) as [a c'| |]; [|done..].
  by intros ->%bool_decide_eq_true.
Qed.
Lemma run_exec (m : Go test_cache (option Object * option APIError)) c o e :
  hands_back (m c) o e = true → m c = Done (o, e) (exec m c).
Proof. apply run_exec_in. Qed.
Ltac vm_run := apply run_exec; vm_compute; reflexivity.
