(* ===== verification/CacheFacts.v ===== *)
(** * Facts on the cache: trackers, hooks, owner references, well-formedness

    The lemmas the theorems on store, Delete and the workers share: what the
    tracker assignments do to a lookup, what the hooks preserve, what the two
    loops of updateTrackerOwnerReferences compute, and the invariant
    [wf_tracker]. *)

From stdpp Require Import prelude gmap strings list.
From Stdlib Require Import ZArith QArith_base Lia.
From S2P Require Import Prelude GoStd GoTime Api Runtime Cache.

(** ** Definitions *)
(** Resource versions are "v" followed by an [int]. *)
Definition version (n : Z) : string := "v" +:+ Itoa n.
Definition valid_version (v : string) : Prop := ∃ n, is_int n ∧ v = version n.

(** [x] is recorded as owned by [r]. *)
Definition owns_in (owned : gmap ownReference (gset ownReference)) (r x : ownReference) : Prop :=
  ∃ s, owned !! r = Some s ∧ x ∈ s.
Definition owns (t : resourceGroupTracker) : ownReference → ownReference → Prop :=
  owns_in (ownedObjects t).
Definition no_empty (owned : gmap ownReference (gset ownReference)) : Prop :=
  ∀ r s, owned !! r = Some s → s ≠ ∅.

Definition tracked_ref (t : resourceGroupTracker) (r : ownReference) : option Object :=
  tracked t (ref_gvk r) (ref_key r).

(** Two trackers show the same objects and the same ownership: all that a client
    can see ([objects] may differ by an empty map for a kind). *)
Definition tracker_eqv (t u : resourceGroupTracker) : Prop :=
  (∀ gvk key, tracked t gvk key = tracked u gvk key) ∧ ownedObjects t = ownedObjects u.

Section defs.
Context {H HS : Type} `{Env} `{InformEventHandler H HS}.

(** The owner reference [o] of an object in [namespace] points to [r]. *)
Definition points_to (namespace : string) (o : OwnerReference) (r : ownReference) : Prop :=
  newOwnReferenceFromOwnerReference namespace o = inl r.

Record object_wf (gvk : GroupVersionKind) (key : NamespacedName) (obj : Object) : Prop := {
  wf_gvk : obj_gvk obj = gvk;
  wf_key : ObjectKeyFromObject obj = key;
  wf_version : valid_version (GetResourceVersion obj);
  wf_sync : is_Some (gomap_elems (GetAnnotations obj) !! lastSyncTimeAnnotation);
  wf_owners : ∀ o, o ∈ GetOwnerReferences obj → ∃ r, points_to (GetNamespace obj) o r }.

Definition wf_tracker (t : resourceGroupTracker) : Prop :=
  (∀ gvk key obj, tracked t gvk key = Some obj → object_wf gvk key obj) ∧
  no_empty (ownedObjects t).

Definition wf_cache (c : cache H HS) : Prop :=
  ∀ rg t, resourceGroups c !! rg = Some t → wf_tracker t.
End defs.

#[export] Instance tracker_eqv_equivalence : Equivalence tracker_eqv.
Proof. split; [done|intros ?? []; by split|intros ??? [H1 ?] [H2 ?]; split; intros; [by rewrite H1|congruence]]. Qed.

(** ** Trackers *)
Lemma tracked_track gvk key obj t gvk' key' :
  tracked (track gvk key obj t) gvk' key' =
    if decide (gvk = gvk' ∧ key = key') then (λ _, obj) <$> objects t !! gvk
    else tracked t gvk' key'.
Proof.
  unfold tracked, track; cbn [objects]. destruct (decide (gvk = gvk')) as [<-|Hne].
  - rewrite lookup_alter_eq. destruct (objects t !! gvk) as [m|]; cbn; [|by case_decide].
    destruct (decide (key = key')) as [<-|Hk].
    + by rewrite lookup_insert_eq, decide_True.
    + rewrite lookup_insert_ne by done. by rewrite decide_False by tauto.
  - rewrite lookup_alter_ne by done. by rewrite decide_False by tauto.
Qed.

Lemma tracked_untrack gvk key t gvk' key' :
  tracked (untrack gvk key t) gvk' key' =
    if decide (gvk = gvk' ∧ key = key') then None else tracked t gvk' key'.
Proof.
  unfold tracked, untrack; cbn [objects]. destruct (decide (gvk = gvk')) as [<-|Hne].
  - rewrite lookup_alter_eq. destruct (objects t !! gvk) as [m|]; cbn; [|by case_decide].
    destruct (decide (key = key')) as [<-|Hk].
    + by rewrite lookup_delete_eq, decide_True.
    + rewrite lookup_delete_ne by done. by rewrite decide_False by tauto.
  - rewrite lookup_alter_ne by done. by rewrite decide_False by tauto.
Qed.

Lemma tracked_is_Some_objects t gvk key obj :
  tracked t gvk key = Some obj → is_Some (objects t !! gvk).
Proof. unfold tracked. by destruct (objects t !! gvk). Qed.

Lemma tracked_set_ownedObjects v t gvk key :
  tracked (set_ownedObjects v t) gvk key = tracked t gvk key.
Proof. done. Qed.

(** Making an empty map for a kind shows nothing new. *)
Lemma tracked_with_kind gvk t gvk' key : tracked (with_kind gvk t) gvk' key = tracked t gvk' key.
Proof.
  unfold with_kind, tracked. destruct (objects t !! gvk) eqn:E; [done|]. cbn.
  destruct (decide (gvk = gvk')) as [<-|?]; [|by rewrite lookup_insert_ne].
  rewrite lookup_insert_eq, E. cbn. apply lookup_empty.
Qed.

Lemma with_kind_is_Some gvk t : is_Some (objects (with_kind gvk t) !! gvk).
Proof.
  unfold with_kind. destruct (objects t !! gvk) eqn:E; [by rewrite E|]. cbn.
  rewrite lookup_insert_eq. eauto.
Qed.

Lemma with_kind_owned gvk t : ownedObjects (with_kind gvk t) = ownedObjects t.
Proof. unfold with_kind. by destruct (objects t !! gvk). Qed.

Lemma with_kind_eqv gvk t : tracker_eqv (with_kind gvk t) t.
Proof. split; [intros; apply tracked_with_kind|apply with_kind_owned]. Qed.

#[export] Hint Rewrite tracked_set_ownedObjects tracked_with_kind with_kind_owned : goofy_str.
#[export] Hint Resolve with_kind_is_Some with_kind_eqv : goofy.

(** ** Annotations and versions *)
Lemma lookup_appendAnnotations_eq obj k v :
  gomap_elems (appendAnnotations obj [k; v]) !! k = Some v.
Proof. cbn. apply lookup_insert_eq. Qed.

Lemma lookup_appendAnnotations_ne obj k v k' :
  k ≠ k' → gomap_elems (appendAnnotations obj [k; v]) !! k' = gomap_elems (GetAnnotations obj) !! k'.
Proof. intros. cbn. by apply lookup_insert_ne. Qed.

Lemma appendAnnotations_id obj m k v :
  GetAnnotations obj = Some m → m !! k = Some v → appendAnnotations obj [k; v] = GetAnnotations obj.
Proof. intros Hm Hk. unfold appendAnnotations. rewrite Hm. cbn. by rewrite insert_id. Qed.

Lemma next_version n : is_int n → next_resource_version (version n) = version (wrap_int (n + 1)).
Proof.
  intros Hn. unfold next_resource_version, version. rewrite TrimPrefix_app, Atoi_Itoa by done.
  done.
Qed.

Lemma version_inj n m : version n = version m → n = m.
Proof. unfold version. by intros ?%string_app_inv_l%Itoa_inj. Qed.

Lemma valid_version_next v : valid_version v → valid_version (next_resource_version v).
Proof.
  intros (n & Hn & ->). rewrite next_version by done. exists (wrap_int (n + 1)). split; [|done].
  apply wrap_int_is_int.
Qed.

Lemma valid_version_1 : valid_version ("v" +:+ Itoa 1).
Proof. exists 1%Z. split; [|done]. unfold is_int, int_min, int_max. lia. Qed.

(** ** Owner references *)
Lemma elem_of_default_set (m : option (gset ownReference)) x :
  x ∈ default ∅ m ↔ ∃ s, m = Some s ∧ x ∈ s.
Proof.
  destruct m as [s|]; simpl; [|split; [by intros ?%elem_of_empty|by intros (? & ? & _)]].
  split; [by exists s|by intros (? & [= ->] & ?)].
Qed.

Section owners.
Context {H HS : Type} {E : Env} {L : EnvLaws E} `{InformEventHandler H HS}.

(** A call on a queue that exists. *)
Lemma gcQueue_call_eq x (c : cache H HS) q :
  garbageCollectorQueue c = Some q →
  gcQueue_call x c = Done () (set_garbageCollectorQueue (Some (q ++ [x])) c).
Proof. intros Hq. unfold gcQueue_call. rewrite go_bind_eq. cbn. by rewrite Hq. Qed.

Lemma syncQueue_call_eq x (c : cache H HS) q :
  syncQueue c = Some q →
  syncQueue_call x c = Done () (set_syncQueue (Some (q ++ [x])) c).
Proof. intros Hq. unfold syncQueue_call. rewrite go_bind_eq. cbn. by rewrite Hq. Qed.

Lemma points_to_inj ns o r r' : points_to ns o r → points_to ns o r' → r = r'.
Proof. unfold points_to. congruence. Qed.

Lemma points_to_namespace ns o r : points_to ns o r → nn_Namespace (ref_key r) = ns.
Proof.
  unfold points_to, newOwnReferenceFromOwnerReference.
  destruct (ParseGroupVersion _) as [[g v]|]; [|done]. by intros [= <-].
Qed.

Lemma validateOwners_None t ns owners :
  validateOwners t ns owners = None →
  ∀ o, o ∈ owners → ∃ r, points_to ns o r ∧ is_Some (tracked_ref t r).
Proof.
  induction owners as [|o owners IH]; cbn; [intros _ o Ho; by apply elem_of_nil in Ho|].
  destruct (newOwnReferenceFromOwnerReference ns o) as [r|] eqn:Hr; [|done].
  destruct (objects t !! ref_gvk r) as [objs|] eqn:Hobjs; [|done].
  destruct (objs !! ref_key r) as [x|] eqn:Hx; [|done].
  intros Hv o' [->|Ho]%elem_of_cons; [|by apply IH].
  exists r. split; [done|]. unfold tracked_ref, tracked. rewrite Hobjs. cbn. rewrite Hx. eauto.
Qed.

(** The converse, for the creation of an object whose owners are tracked. *)
Lemma validateOwners_tracked t ns owners :
  (∀ o, o ∈ owners → ∃ r, points_to ns o r ∧ is_Some (tracked_ref t r)) →
  validateOwners t ns owners = None.
Proof.
  induction owners as [|o owners IH]; intros Ho; [done|]. cbn.
  destruct (Ho o) as (r & Hr & x & Hx); [by left|]. rewrite Hr.
  unfold tracked_ref, tracked in Hx. destruct (objects t !! ref_gvk r) as [objs|]; [|done].
  cbn in Hx. rewrite Hx. apply IH. intros o' ?. apply Ho. by right.
Qed.

Lemma validateOwners_BadRequest t ns owners e :
  validateOwners t ns owners = Some e → IsBadRequest e = true.
Proof.
  induction owners as [|o owners IH]; cbn; [done|].
  unfold newOwnReferenceFromOwnerReference.
  destruct (ParseGroupVersion _) as [[g v]|]; [|by intros [= <-]].
  destruct (objects t !! _) as [objs|]; [|by intros [= <-]].
  destruct (objs !! _); [done|by intros [= <-]].
Qed.

Lemma removeOwner_owns objRef ns news owned o owned' :
  removeOwner objRef ns news owned o = Some owned' →
  ∀ r x, owns_in owned' r x ↔
    owns_in owned r x ∧
    ¬ (x = objRef ∧ points_to ns o r ∧ existsb (OwnerReference_eqb o) news = false).
Proof.
  unfold removeOwner. destruct (existsb _ news).
  { intros [= <-] r x. split; [|by intros []]. intros ?; split; [done|]. by intros (_ & _ & ?). }
  unfold points_to. destruct (newOwnReferenceFromOwnerReference ns o) as [r0|]; [|done].
  intros Heq r x. unfold owns_in.
  assert (Hne : r0 ≠ r → owned' !! r = owned !! r).
  { intros ?. destruct (owned !! r0); simplify_eq; [|done].
    case_decide; [by rewrite lookup_delete_ne|by rewrite lookup_insert_ne]. }
  destruct (decide (r0 = r)) as [<-|Hr]; [clear Hne|].
  - destruct (owned !! r0) as [refs|] eqn:Hrefs; simplify_eq.
    + destruct (decide (refs ∖ {[objRef]} = ∅)) as [Hempty|_].
      * rewrite lookup_delete_eq. split; [by intros (? & ? & _)|].
        intros [(s & [= <-] & Hx) Hn]. exfalso. apply Hn. split; [|done]. set_solver.
      * rewrite lookup_insert_eq. split.
        { intros (s & [= <-] & Hx). split; [exists refs|]; set_solver. }
        { intros [(s & [= <-] & Hx) Hn]. eexists. split; [done|].
          apply elem_of_difference. split; [done|]. intros ->%elem_of_singleton. by apply Hn. }
    + rewrite Hrefs. split; [by intros (? & ? & _)|by intros [(? & ? & _) _]].
  - rewrite Hne by done. split; [|by intros []]. intros ?; split; [done|].
    intros (_ & [= ?] & _). done.
Qed.

Lemma removeOwner_no_empty objRef ns news owned o owned' :
  removeOwner objRef ns news owned o = Some owned' → no_empty owned → no_empty owned'.
Proof.
  unfold removeOwner. destruct (existsb _ news); [by intros [= <-]|].
  destruct (newOwnReferenceFromOwnerReference ns o) as [r0|]; [|done].
  destruct (owned !! r0) as [refs|]; [|by intros [= <-]].
  destruct (decide _); intros [= <-] Hne r s; [intros [_ ?]%lookup_delete_Some; eauto|].
  intros [[_ <-]|[_ ?]]%lookup_insert_Some; eauto.
Qed.

Lemma addOwner_owns objRef ns olds owned o owned' :
  addOwner objRef ns olds owned o = Some owned' →
  ∀ r x, owns_in owned' r x ↔
    owns_in owned r x ∨
    (x = objRef ∧ points_to ns o r ∧ existsb (OwnerReference_eqb o) olds = false).
Proof.
  unfold addOwner. destruct (existsb _ olds).
  { intros [= <-] r x. split; [by left|]. by intros [?|(_ & _ & ?)]. }
  unfold points_to. destruct (newOwnReferenceFromOwnerReference ns o) as [r0|]; [|done].
  intros [= <-] r x; unfold owns_in. destruct (decide (r0 = r)) as [<-|Hne].
  - rewrite lookup_insert_eq, <- (elem_of_default_set (owned !! r0)). split.
    + intros (s & [= <-] & [?| ->%elem_of_singleton]%elem_of_union); [by left|by right].
    + intros Hx. eexists; split; [done|]. apply elem_of_union.
      destruct Hx as [?|(-> & _)]; [by left|right; by apply elem_of_singleton].
  - rewrite lookup_insert_ne by done. split; [by left|]. intros [?|(_ & [= ?] & _)]; done.
Qed.

Lemma addOwner_no_empty objRef ns olds owned o owned' :
  addOwner objRef ns olds owned o = Some owned' → no_empty owned → no_empty owned'.
Proof.
  unfold addOwner. destruct (existsb _ olds); [by intros [= <-]|].
  destruct (newOwnReferenceFromOwnerReference ns o) as [r0|]; [|done].
  intros [= <-] Hne r s [[_ <-]|[_ ?]]%lookup_insert_Some; [set_solver|eauto].
Qed.

Lemma foldM_removeOwner_owns objRef ns news olds owned owned' :
  foldM (removeOwner objRef ns news) olds owned = Some owned' →
  ∀ r x, owns_in owned' r x ↔
    owns_in owned r x ∧
    ¬ (x = objRef ∧ ∃ o, o ∈ olds ∧ points_to ns o r ∧ existsb (OwnerReference_eqb o) news = false).
Proof.
  revert owned. induction olds as [|o olds IH]; intros owned; cbn.
  - intros [= <-] r x. split; [|naive_solver]. intros ?; split; [done|].
    intros (_ & o & Ho & _). by apply elem_of_nil in Ho.
  - intros (owned1 & Hrm & Hrest)%bind_Some r x.
    rewrite (IH _ Hrest r x), (removeOwner_owns _ _ _ _ _ _ Hrm r x). set_solver.
Qed.

Lemma foldM_addOwner_owns objRef ns olds news owned owned' :
  foldM (addOwner objRef ns olds) news owned = Some owned' →
  ∀ r x, owns_in owned' r x ↔
    owns_in owned r x ∨
    (x = objRef ∧ ∃ o, o ∈ news ∧ points_to ns o r ∧ existsb (OwnerReference_eqb o) olds = false).
Proof.
  revert owned. induction news as [|o news IH]; intros owned; cbn.
  - intros [= <-] r x. split; [naive_solver|]. intros [?|(_ & o & Ho & _)]; [done|].
    by apply elem_of_nil in Ho.
  - intros (owned1 & Hadd & Hrest)%bind_Some r x.
    rewrite (IH _ Hrest r x), (addOwner_owns _ _ _ _ _ _ Hadd r x). set_solver.
Qed.

Lemma foldM_preserves {A B} (f : B → A → option B) (P : B → Prop) l b b' :
  (∀ b a b', f b a = Some b' → P b → P b') → foldM f l b = Some b' → P b → P b'.
Proof.
  intros Hf. revert b. induction l as [|a l IH]; intros b; cbn; [by intros [= <-]|].
  intros (b1 & ? & ?)%bind_Some ?. eauto.
Qed.

Lemma foldM_is_Some {A B} (f : B → A → option B) l b :
  (∀ a b, a ∈ l → is_Some (f b a)) → is_Some (foldM f l b).
Proof.
  revert b. induction l as [|a l IH]; intros b Hf; cbn; [eauto|].
  destruct (Hf a b) as [b1 Hb1]; [by left|]. rewrite Hb1. cbn. apply IH.
  intros; apply Hf; by right.
Qed.

Lemma removeOwner_is_Some objRef ns news owned o r :
  points_to ns o r → is_Some (removeOwner objRef ns news owned o).
Proof.
  intros Hr. unfold removeOwner. destruct (existsb _ _); [eauto|]. rewrite Hr.
  destruct (owned !! r); eauto.
Qed.

Lemma addOwner_is_Some objRef ns olds owned o r :
  points_to ns o r → is_Some (addOwner objRef ns olds owned o).
Proof. intros Hr. unfold addOwner. destruct (existsb _ _); [eauto|]. rewrite Hr. eauto. Qed.

(** updateTrackerOwnerReferences panics on no valid reference, touches no
    object, and keeps the owner map free of empty sets. *)
Lemma updateTracker_Done t oldObj newObj objRef (c : cache H HS) :
  (∀ o, o ∈ from_option GetOwnerReferences [] oldObj → ∃ r, points_to (GetNamespace newObj) o r) →
  (∀ o, o ∈ GetOwnerReferences newObj → ∃ r, points_to (GetNamespace newObj) o r) →
  ∃ owned, updateTrackerOwnerReferences t oldObj newObj objRef c = Done (set_ownedObjects owned t) c
    ∧ (no_empty (ownedObjects t) → no_empty owned)
    ∧ (∀ r x, owns_in owned r x ↔
        (owns t r x ∧ ¬ (x = objRef ∧ ∃ o, o ∈ from_option GetOwnerReferences [] oldObj ∧
           points_to (GetNamespace newObj) o r ∧
           existsb (OwnerReference_eqb o) (GetOwnerReferences newObj) = false)) ∨
        (x = objRef ∧ ∃ o, o ∈ GetOwnerReferences newObj ∧ points_to (GetNamespace newObj) o r ∧
           existsb (OwnerReference_eqb o) (from_option GetOwnerReferences [] oldObj) = false)).
Proof.
  intros Hold Hnew. unfold updateTrackerOwnerReferences.
  destruct (foldM_is_Some (removeOwner objRef (GetNamespace newObj) (GetOwnerReferences newObj))
    (from_option GetOwnerReferences [] oldObj) (ownedObjects t)) as [owned1 H1].
  { intros o b Ho. destruct (Hold o Ho) as [r Hr]. by eapply removeOwner_is_Some. }
  destruct (foldM_is_Some (addOwner objRef (GetNamespace newObj)
    (from_option GetOwnerReferences [] oldObj)) (GetOwnerReferences newObj) owned1) as [owned2 H2].
  { intros o b Ho. destruct (Hnew o Ho) as [r Hr]. by eapply addOwner_is_Some. }
  rewrite H1. cbn. rewrite H2. exists owned2. split; [done|]. split.
  - intros Hne. eapply foldM_preserves; [apply addOwner_no_empty|done|].
    eapply foldM_preserves; [apply removeOwner_no_empty|done|done].
  - intros r x. rewrite (foldM_addOwner_owns _ _ _ _ _ _ H2 r x).
    by rewrite (foldM_removeOwner_owns _ _ _ _ _ _ H1 r x).
Qed.
End owners.
