(* ===== verification/CacheStore.v ===== *)
(** * Create and Update: a specification of store, and its refinement

    [store_spec] says what store promises, rule by rule, in terms of what clients
    see: the tracked objects, the ownership relation, the notification sent.
    [storeLocked_refines] shows that the code of Cache.v implements it and never
    panics on a well-formed tracker; the properties of Create and Update follow
    from the specification. *)

From stdpp Require Import prelude gmap strings list.
From Stdlib Require Import ZArith QArith_base Lia.
From S2P Require Import Prelude GoStd GoTime Api Runtime Cache CacheFacts TestEnv.

(** ** The specification *)
(** The notification an operation sends to the informer of the object's kind. *)
Inductive notification :=
| Silent
| NotifyCreate (obj : Object)
| NotifyUpdate (oldObj newObj : Object)
| NotifyDelete (obj : Object)
| NotifySync (obj : Object).

Section spec.
Context {H HS : Type} {E : Env} `{InformEventHandler H HS}.
Implicit Types c : cache H HS.

Definition notified (call : H → HS → HS) (gvk : GroupVersionKind) c : cache H HS :=
  match informers c !! gvk with
  | None => c
  | Some handlers => set_handlerState (fold_left (λ s h, call h s) handlers (handlerState c)) c
  end.
Definition notify (rg : string) (n : notification) c : cache H HS :=
  match n with
  | Silent => c
  | NotifyCreate o => notified (λ h, OnCreate h rg o) (obj_gvk o) c
  | NotifyUpdate o o' => notified (λ h, OnUpdate h rg o o') (obj_gvk o') c
  | NotifyDelete o => notified (λ h, OnDelete h rg o) (obj_gvk o) c
  | NotifySync o => notified (λ h, OnGeneric h rg o) (obj_gvk o) c
  end.

(** What a successful Create stores. *)
Definition created_object (now : Time) (obj : Object) : Object :=
  let obj := SetCreationTimestamp now obj in
  SetResourceVersion ("v" +:+ Itoa 1)
    (SetAnnotations (appendAnnotations obj [lastSyncTimeAnnotation; Format now 0]) obj).

(** What a successful Update stores: the tracked object itself when nothing but
    managed fields differs. *)
Definition updated_object (now : Time) (oldObj newObj : Object) : Object :=
  let newObj := keep_managed_fields oldObj newObj in
  if DeepEqual newObj oldObj then oldObj
  else SetResourceVersion (next_resource_version (GetResourceVersion oldObj))
    (SetAnnotations (appendAnnotations newObj [lastSyncTimeAnnotation; Format now 0]) newObj).

Definition update_notification (oldObj newObj : Object) : notification :=
  if TimePtr_IsZero (GetDeletionTimestamp oldObj)
     && negb (TimePtr_IsZero (GetDeletionTimestamp newObj)) then NotifyDelete newObj
  else if DeepEqual newObj oldObj then Silent else NotifyUpdate oldObj newObj.

(** The object at [gvk], [key] becomes [obj], which replaces [oldObj]; a recorded
    owner is dropped when the reference to it is no longer there, and recorded
    when it is new. *)
Record tracker_set (t t' : resourceGroupTracker) (gvk : GroupVersionKind) (key : NamespacedName)
    (oldObj : option Object) (obj : Object) : Prop := {
  set_objects : ∀ gvk' key', tracked t' gvk' key' =
    if decide (gvk = gvk' ∧ key = key') then Some obj else tracked t gvk' key';
  set_owns : ∀ r x, owns t' r x ↔
    (owns t r x ∧ ¬ (x = OwnRef gvk key ∧ ∃ o, o ∈ from_option GetOwnerReferences [] oldObj ∧
       points_to (GetNamespace obj) o r ∧
       existsb (OwnerReference_eqb o) (GetOwnerReferences obj) = false)) ∨
    (x = OwnRef gvk key ∧ ∃ o, o ∈ GetOwnerReferences obj ∧ points_to (GetNamespace obj) o r ∧
       existsb (OwnerReference_eqb o) (from_option GetOwnerReferences [] oldObj) = false);
  set_no_empty : no_empty (ownedObjects t) → no_empty (ownedObjects t') }.

Inductive store_spec (t : resourceGroupTracker) (gvk : GroupVersionKind) (obj : Object)
    (now : Time) : bool → resourceGroupTracker → Object → option APIError → notification → Prop :=
| store_missing_owner replace e :
    validateOwners t (GetNamespace obj) (GetOwnerReferences obj) = Some e →
    store_spec t gvk obj now replace t obj (Some e) Silent
| store_already_exists t' old :
    validateOwners t (GetNamespace obj) (GetOwnerReferences obj) = None →
    tracked t gvk (ObjectKeyFromObject obj) = Some old → tracker_eqv t' t →
    store_spec t gvk obj now false t' obj
      (Some (AlreadyExists (unsafeGuessGroupResource gvk)
         (NamespacedName_String (ObjectKeyFromObject obj)))) Silent
| store_not_found t' :
    validateOwners t (GetNamespace obj) (GetOwnerReferences obj) = None →
    tracked t gvk (ObjectKeyFromObject obj) = None → tracker_eqv t' t →
    store_spec t gvk obj now true t' obj (Some (notFound gvk (ObjectKeyFromObject obj))) Silent
| store_conflict t' old :
    validateOwners t (GetNamespace obj) (GetOwnerReferences obj) = None →
    tracked t gvk (ObjectKeyFromObject obj) = Some old →
    GetResourceVersion old ≠ GetResourceVersion obj → tracker_eqv t' t →
    store_spec t gvk obj now true t' obj
      (Some (Conflict (unsafeGuessGroupResource gvk)
         (NamespacedName_String (ObjectKeyFromObject obj)))) Silent
| store_created t' :
    validateOwners t (GetNamespace obj) (GetOwnerReferences obj) = None →
    tracked t gvk (ObjectKeyFromObject obj) = None →
    tracker_set t t' gvk (ObjectKeyFromObject obj) None (created_object now obj) →
    store_spec t gvk obj now false t' (created_object now obj) None
      (NotifyCreate (created_object now obj))
| store_updated t' old :
    validateOwners t (GetNamespace obj) (GetOwnerReferences obj) = None →
    tracked t gvk (ObjectKeyFromObject obj) = Some old →
    GetResourceVersion old = GetResourceVersion obj →
    tracker_set t t' gvk (ObjectKeyFromObject obj) (Some old) (updated_object now old obj) →
    store_spec t gvk obj now true t' (updated_object now old obj) None
      (update_notification old (updated_object now old obj)).
End spec.

(** ** The operations on the tracker and on the hooks *)
Section refinement.
Context {H HS : Type} {E : Env} {L : EnvLaws E} {Hhandler : InformEventHandler H HS}.
Implicit Types c : cache H HS.

Lemma notify_frame rg n c :
  notify rg n c = set_handlerState (handlerState (notify rg n c)) c.
Proof.
  destruct c, n; cbn; unfold notified; cbn; try done;
    by match goal with |- context [match ?x with _ => _ end] => destruct x end.
Qed.

Lemma resourceGroups_notify rg n c : resourceGroups (notify rg n c) = resourceGroups c.
Proof. by rewrite notify_frame. Qed.
Lemma informers_notify rg n c : informers (notify rg n c) = informers c.
Proof. by rewrite notify_frame. Qed.
Lemma gcQueue_notify rg n c : garbageCollectorQueue (notify rg n c) = garbageCollectorQueue c.
Proof. by rewrite notify_frame. Qed.
Lemma syncQueue_notify rg n c : syncQueue (notify rg n c) = syncQueue c.
Proof. by rewrite notify_frame. Qed.
Lemma started_notify rg n c : started (notify rg n c) = started c.
Proof. by rewrite notify_frame. Qed.

Lemma afterCreate_eq rg obj c : afterCreate rg obj c = Done () (notify rg (NotifyCreate obj) c).
Proof. done. Qed.

Lemma afterUpdate_eq rg old obj c :
  afterUpdate rg old obj c = Done () (notify rg (update_notification old obj) c).
Proof.
  unfold afterUpdate, update_notification.
  destruct (TimePtr_IsZero _ && _); [done|]. by destruct (DeepEqual obj old).
Qed.

Lemma beforeCreate_eq rg obj c :
  beforeCreate rg obj c =
    Done (created_object (time_Now (ticks c)) obj, None) (set_ticks (S (ticks c)) c).
Proof. done. Qed.

(** beforeUpdate reads the clock only when something changed. *)
Lemma beforeUpdate_eq rg old obj c :
  ∃ k, beforeUpdate rg old obj c =
    Done (updated_object (time_Now (ticks c)) old obj, None) (set_ticks k c).
Proof.
  unfold beforeUpdate, updated_object. destruct (DeepEqual (keep_managed_fields old obj) old) eqn:Heq.
  - apply DeepEqual_true in Heq. exists (ticks c). rewrite Heq. by destruct c.
  - by exists (S (ticks c)).
Qed.

(** ** What an update keeps *)
Lemma keep_managed_fields_basic old obj :
  obj_gvk (keep_managed_fields old obj) = obj_gvk obj ∧
  ObjectKeyFromObject (keep_managed_fields old obj) = ObjectKeyFromObject obj ∧
  GetOwnerReferences (keep_managed_fields old obj) = GetOwnerReferences obj ∧
  GetFinalizers (keep_managed_fields old obj) = GetFinalizers obj ∧
  GetResourceVersion (keep_managed_fields old obj) = GetResourceVersion old.
Proof. unfold keep_managed_fields. by destruct (TimePtr_IsZero _). Qed.

(** A successful update stores the identity, owners and finalizers it was given. *)
Lemma updated_object_basic now old obj :
  obj_gvk old = obj_gvk obj → ObjectKeyFromObject old = ObjectKeyFromObject obj →
  obj_gvk (updated_object now old obj) = obj_gvk obj ∧
  ObjectKeyFromObject (updated_object now old obj) = ObjectKeyFromObject obj ∧
  GetOwnerReferences (updated_object now old obj) = GetOwnerReferences obj ∧
  GetFinalizers (updated_object now old obj) = GetFinalizers obj.
Proof.
  intros Hgvk Hkey. destruct (keep_managed_fields_basic old obj) as (Hg & Hk & Ho & Hf & _).
  unfold updated_object. destruct (DeepEqual _ old) eqn:Heq; [|done].
  apply DeepEqual_true in Heq. rewrite Heq in Ho, Hf. done.
Qed.

Lemma updated_object_content now old obj :
  GetLabels (updated_object now old obj) = GetLabels obj ∧
  GetFinalizers (updated_object now old obj) = GetFinalizers obj.
Proof.
  assert (GetLabels (keep_managed_fields old obj) = GetLabels obj ∧
    GetFinalizers (keep_managed_fields old obj) = GetFinalizers obj) as Hkeep
    by (unfold keep_managed_fields; by destruct (TimePtr_IsZero _)).
  unfold updated_object. destruct (DeepEqual _ old) eqn:Heq; [|done]. apply DeepEqual_true in Heq. by rewrite Heq in Hkeep.
Qed.

Lemma GetNamespace_key o o' : ObjectKeyFromObject o = ObjectKeyFromObject o' →
  GetNamespace o = GetNamespace o'.
Proof. by intros [= ? _]. Qed.

Lemma GetName_key o o' : ObjectKeyFromObject o = ObjectKeyFromObject o' → GetName o = GetName o'.
Proof. by intros [= _ ?]. Qed.

(** ** The tracker *)
Lemma tracker_set_intro t gvk key old obj ns (c : cache H HS) :
  is_Some (objects t !! gvk) → ns = GetNamespace obj →
  (∀ o, o ∈ from_option GetOwnerReferences [] old → ∃ r, points_to ns o r) →
  (∀ o, o ∈ GetOwnerReferences obj → ∃ r, points_to ns o r) →
  ∃ t', updateTrackerOwnerReferences (track gvk key obj t) old obj (OwnRef gvk key) c = Done t' c ∧
    tracker_set t t' gvk key old obj.
Proof.
  intros [objs Hobjs] -> Hold Hnew.
  destruct (updateTracker_Done (track gvk key obj t) old obj (OwnRef gvk key) c Hold Hnew)
    as (owned & Hrun & Hne & Howns).
  eexists; split; [exact Hrun|]. split.
  - intros gvk' key'. rewrite tracked_set_ownedObjects, tracked_track, Hobjs. done.
  - exact Howns.
  - exact Hne.
Qed.

Lemma tracker_set_eqv t t' u gvk key old obj :
  tracker_eqv t u → tracker_set t t' gvk key old obj → tracker_set u t' gvk key old obj.
Proof.
  intros [Ht Ho] [H1 H2 H3]. split.
  - intros. by rewrite H1, Ht.
  - intros r x. rewrite H2. unfold owns. by rewrite Ho.
  - by rewrite <- Ho.
Qed.

Lemma wf_tracker_owners t gvk key obj :
  wf_tracker t → tracked t gvk key = Some obj →
  ∀ o, o ∈ GetOwnerReferences obj → ∃ r, points_to (nn_Namespace key) o r.
Proof.
  intros [Hwf _] Ht o Ho. destruct (Hwf _ _ _ Ht) as [_ Hk _ _ Howners].
  destruct (Howners o Ho) as [r Hr]. exists r. by rewrite <- Hk.
Qed.

(** ** Refinement *)
Lemma storeLocked_refines rg t gvk obj replace c :
  wf_tracker t → obj_gvk obj = gvk →
  ∃ t' obj' e n k,
    storeLocked rg t gvk obj replace c = Done (t', obj', e) (notify rg n (set_ticks k c)) ∧
    store_spec t gvk obj (time_Now (ticks c)) replace t' obj' e n.
Proof.
  intros Hwf Hgvk. unfold storeLocked.
  assert (Hsilent : c = notify rg Silent (set_ticks (ticks c) c)) by (by destruct c).
  destruct (validateOwners t _ _) as [e|] eqn:Hv.
  { do 5 eexists. split; [|by constructor]. by rewrite <- Hsilent. }
  rewrite tracked_with_kind.
  assert (Hnew := validateOwners_None _ _ _ Hv).
  assert (Howners : ∀ o, o ∈ GetOwnerReferences obj → ∃ r, points_to (GetNamespace obj) o r).
  { intros o Ho. destruct (Hnew o Ho) as (r & Hr & _). by exists r. }
  destruct (tracked t gvk _) as [old|] eqn:Ht, replace; cycle 1.
  - do 5 eexists. split; [by rewrite Hsilent at 1|]. econstructor; eauto with goofy.
  - do 5 eexists. split; [by rewrite Hsilent at 1|]. econstructor; eauto with goofy.
  - rewrite go_bind_eq, beforeCreate_eq. cbn beta iota.
    destruct (tracker_set_intro (with_kind gvk t) gvk (ObjectKeyFromObject obj) None
      (created_object (time_Now (ticks c)) obj) (GetNamespace obj) (set_ticks (S (ticks c)) c))
      as (t' & Hrun & Hset); eauto with goofy; [by intros ? ?%elem_of_nil|].
    rewrite go_bind_eq, Hrun, go_bind_eq, afterCreate_eq.
    do 5 eexists. split; [done|]. constructor; [done..|].
    eapply tracker_set_eqv; [|done]. auto with goofy.
  - destruct (decide (GetResourceVersion old = GetResourceVersion obj)) as [Hrv|Hrv].
    2: { rewrite bool_decide_eq_false_2 by done. do 5 eexists.
         split; [by rewrite Hsilent at 1|]. econstructor; eauto with goofy. }
    rewrite bool_decide_eq_true_2 by done. cbn [negb].
    destruct (beforeUpdate_eq rg old obj c) as [k Hbefore]. rewrite go_bind_eq, Hbefore.
    cbn beta iota.
    destruct (proj1 Hwf _ _ _ Ht) as [Hg Hkey _ _ _]. rewrite <- Hgvk in Hg.
    destruct (updated_object_basic (time_Now (ticks c)) old obj Hg Hkey) as (_ & Hk' & Ho' & _).
    destruct (tracker_set_intro (with_kind gvk t) gvk (ObjectKeyFromObject obj) (Some old)
      (updated_object (time_Now (ticks c)) old obj) (GetNamespace obj) (set_ticks k c))
      as (t' & Hrun & Hset); eauto with goofy.
    { symmetry. by apply GetNamespace_key. }
    { exact (wf_tracker_owners _ _ _ _ Hwf Ht). }
    { by rewrite Ho'. }
    rewrite go_bind_eq, Hrun, go_bind_eq, afterUpdate_eq.
    do 5 eexists. split; [done|]. apply store_updated; [done..|].
    eapply tracker_set_eqv; [|done]. auto with goofy.
Qed.

(** The state a store leaves: the tracker of the resource group, and what the
    notification did to the handlers. *)
Definition after_store rg (t' : resourceGroupTracker) (n : notification) (k : nat) c : cache H HS :=
  set_resourceGroups (<[rg := t']> (resourceGroups c)) (notify rg n (set_ticks k c)).

Lemma handlerState_notify_same rg n c c' :
  informers c = informers c' → handlerState c = handlerState c' →
  handlerState (notify rg n c) = handlerState (notify rg n c').
Proof.
  destruct n; cbn; unfold notified; intros Hi Heq; rewrite ?Hi; try done;
    (match goal with |- context [match ?x with _ => _ end] => destruct x end); cbn; by rewrite ?Heq.
Qed.

Lemma handlerState_after_store rg t n k c :
  handlerState (after_store rg t n k c) = handlerState (notify rg n c).
Proof. exact (handlerState_notify_same rg n (set_ticks k c) c eq_refl eq_refl). Qed.

(** The arguments store accepts: everything but the checks on the tracker. *)
Record store_accepts rg (obj : Object) (replace : bool) gvk t c : Prop := {
  acc_rg : rg ≠ "";
  acc_gvk : scheme_GVKForObject (obj_body obj) (obj_gvk obj) = inl gvk;
  acc_name : replace = true → GetName obj ≠ "";
  acc_tracker : resourceGroups c !! rg = Some t }.

Lemma store_refines rg t gvk obj (replace : bool) c :
  wf_tracker t → store_accepts rg obj replace gvk t c →
  ∃ t' obj' e n k,
    store rg (Some obj) replace c = Done (Some obj', e) (after_store rg t' n k c) ∧
    store_spec t gvk (SetGroupVersionKind gvk obj) (time_Now (ticks c)) replace t' obj' e n.
Proof.
  intros Hwf [Hrg Hgvk Hname Ht]. unfold store. rewrite decide_False by done.
  unfold gvkGetAndSet. rewrite Hgvk.
  replace (replace && _) with false.
  2: { destruct replace; [|done]. cbn. symmetry. apply bool_decide_eq_false. by apply Hname. }
  rewrite go_bind_eq. cbn [go_get]. unfold get_tracker. rewrite Ht.
  destruct (storeLocked_refines rg t gvk (SetGroupVersionKind gvk obj) replace c Hwf eq_refl)
    as (t' & obj' & e & n & k & Hrun & Hspec).
  exists t', obj', e, n, k. split; [|done]. rewrite go_bind_eq, Hrun.
  unfold after_store. unfold put_tracker, go_modify, mbind, go_bind, mret, go_ret.
  by rewrite resourceGroups_notify.
Qed.

(** store never panics on a well-formed cache; the arguments it does not accept
    are refused with the cache untouched. *)
Lemma store_total rg obj replace c :
  wf_cache c →
  (∃ obj' e, store rg obj replace c = Done (obj', Some e) c ∧
     (IsBadRequest e = true ∨ ∃ msg, e = InternalError msg)) ∨
  (∃ o gvk t, obj = Some o ∧ store_accepts rg o replace gvk t c ∧ wf_tracker t).
Proof.
  intros Hwf. unfold store. destruct (decide (rg = "")) as [|Hrg]; [left; do 2 eexists; split; [done|by left]|].
  destruct obj as [obj|]; [|left; do 2 eexists; split; [done|by left]].
  unfold gvkGetAndSet. destruct (scheme_GVKForObject _ _) as [gvk|msg] eqn:Hgvk;
    [|left; do 2 eexists; split; [done|right; by eexists]].
  destruct (replace && bool_decide _) eqn:Hname; [left; do 2 eexists; split; [done|by left]|].
  rewrite go_bind_eq. cbn [go_get]. unfold get_tracker.
  destruct (resourceGroups c !! rg) as [t|] eqn:Ht; [|left; do 2 eexists; split; [done|by left]].
  right. exists obj, gvk, t. split; [done|]. split; [|by eapply Hwf].
  split; try done. intros ->. cbn in Hname. by apply bool_decide_eq_false in Hname.
Qed.

(** ** Well-formedness is preserved *)
Lemma created_object_wf now gvk obj :
  obj_gvk obj = gvk → (∀ o, o ∈ GetOwnerReferences obj → ∃ r, points_to (GetNamespace obj) o r) →
  object_wf gvk (ObjectKeyFromObject obj) (created_object now obj).
Proof.
  intros Hgvk Ho. split; [done|done|apply valid_version_1| |done].
  unfold created_object. cbn. rewrite lookup_insert_eq. eauto.
Qed.

Lemma updated_object_wf now gvk key old obj :
  object_wf gvk key old → obj_gvk obj = gvk → ObjectKeyFromObject obj = key →
  (∀ o, o ∈ GetOwnerReferences obj → ∃ r, points_to (GetNamespace obj) o r) →
  object_wf gvk key (updated_object now old obj).
Proof.
  intros Hold Hgvk Hkey Ho. destruct (keep_managed_fields_basic old obj) as (Hg & Hk & Hr & _).
  unfold updated_object. destruct (DeepEqual _ old) eqn:Heq; [done|].
  split; cbn.
  - by rewrite <- Hgvk, <- Hg.
  - by rewrite <- Hkey, <- Hk.
  - apply valid_version_next. apply Hold.
  - rewrite lookup_insert_eq. eauto.
  - intros o Hin. change (∃ r, points_to (GetNamespace (keep_managed_fields old obj)) o r).
    rewrite (GetNamespace_key _ _ Hk). apply Ho. rewrite <- Hr. exact Hin.
Qed.

Lemma tracker_set_wf t t' gvk key old obj :
  wf_tracker t → tracker_set t t' gvk key old obj → object_wf gvk key obj → wf_tracker t'.
Proof.
  intros [Hwf Hne] [Hobjs _ Hne'] Hobj. split; [|by apply Hne'].
  intros gvk' key' x. rewrite Hobjs. case_decide as Heq; [|by apply Hwf].
  destruct Heq as [<- <-]. by intros [= <-].
Qed.

Lemma wf_tracker_eqv t u : tracker_eqv t u → wf_tracker u → wf_tracker t.
Proof.
  intros [Ht Ho] [Hwf Hne]. split; [|by rewrite Ho].
  intros gvk key x. rewrite Ht. apply Hwf.
Qed.

Lemma store_spec_wf t gvk obj now replace t' obj' e n :
  wf_tracker t → obj_gvk obj = gvk →
  store_spec t gvk obj now replace t' obj' e n → wf_tracker t'.
Proof.
  intros Hwf Hgvk Hspec.
  assert (Hown : validateOwners t (GetNamespace obj) (GetOwnerReferences obj) = None →
    ∀ o, o ∈ GetOwnerReferences obj → ∃ r, points_to (GetNamespace obj) o r).
  { intros Hv o Ho. destruct (validateOwners_None _ _ _ Hv o Ho) as (r & Hr & _). by exists r. }
  inversion Hspec; subst; eauto using wf_tracker_eqv.
  - eapply tracker_set_wf; [done..|]. apply created_object_wf; auto.
  - eapply tracker_set_wf; [done..|]. apply updated_object_wf; auto. by eapply Hwf.
Qed.

Lemma wf_cache_insert rg t c c' :
  wf_cache c → wf_tracker t → resourceGroups c' = <[rg := t]> (resourceGroups c) → wf_cache c'.
Proof.
  intros Hc Ht Heq rg' t'. rewrite Heq.
  intros [[_ <-]|[_ ?]]%lookup_insert_Some; [done|by eapply Hc].
Qed.

Lemma store_wf rg obj replace c :
  wf_cache c → ∃ r c', store rg obj replace c = Done r c' ∧ wf_cache c'.
Proof.
  intros Hwf. destruct (store_total rg obj replace c Hwf)
    as [(obj' & e & Hrun & _)|(o & gvk & t & -> & Hacc & Ht)]; [by eauto|].
  destruct (store_refines rg t gvk o replace c Ht Hacc) as (t' & obj' & e & n & k & Hrun & Hspec).
  do 2 eexists; split; [exact Hrun|]. eapply wf_cache_insert; [done| |done].
  by eapply store_spec_wf in Hspec.
Qed.
End refinement.

(** ** Properties of Create and Update *)
(** What clients and informers can see of two caches is the same. *)
Record cache_eqv {H HS} (c c' : cache H HS) : Prop := {
  eqv_groups : ∀ rg, option_Forall2 tracker_eqv (resourceGroups c !! rg) (resourceGroups c' !! rg);
  eqv_informers : informers c' = informers c;
  eqv_handlers : handlerState c' = handlerState c;
  eqv_gcQueue : garbageCollectorQueue c' = garbageCollectorQueue c;
  eqv_syncQueue : syncQueue c' = syncQueue c;
  eqv_started : started c' = started c }.

#[export] Instance cache_eqv_refl {H HS} : Reflexive (cache_eqv (H := H) (HS := HS)).
Proof. intros c. split; try done. Qed.

Lemma cache_eqv_trans {H HS} (c1 c2 c3 : cache H HS) :
  cache_eqv c1 c2 → cache_eqv c2 c3 → cache_eqv c1 c3.
Proof.
  intros [G1 I1 H1 Q1 S1 T1] [G2 I2 H2 Q2 S2 T2]. split; [|congruence..]. intros rg.
  specialize (G1 rg). specialize (G2 rg). destruct G1 as [t1 t2 Ht|]; inversion G2; subst; constructor.
  by etrans.
Qed.

Section properties.
Context {H HS : Type} {E : Env} {L : EnvLaws E} {Hhandler : InformEventHandler H HS}.
Implicit Types c : cache H HS.

Lemma after_store_silent rg t t' k c :
  resourceGroups c !! rg = Some t → tracker_eqv t' t → cache_eqv c (after_store rg t' Silent k c).
Proof.
  intros Ht Heq. split; try done. intros rg'. unfold after_store. cbn.
  destruct (decide (rg = rg')) as [<-|?]; [|by rewrite lookup_insert_ne].
  rewrite lookup_insert_eq, Ht. constructor. by symmetry.
Qed.

(** C34: a Create or an Update that returns an error (bad request, missing owner,
    already existing, missing or modified object) leaves everything that clients,
    informers, the garbage collector and the syncer see as it was. *)
Theorem store_error_changes_nothing rg obj replace c obj' e c' :
  wf_cache c → store rg obj replace c = Done (obj', Some e) c' → cache_eqv c c'.
Proof.
  intros Hwf Hrun. destruct (store_total rg obj replace c Hwf)
    as [(o1 & e1 & Hrun1 & _)|(o & gvk & t & -> & Hacc & Ht)].
  { rewrite Hrun in Hrun1. by simplify_eq. }
  destruct (store_refines rg t gvk o replace c Ht Hacc) as (t' & o' & e' & n & k & Hrun' & Hspec).
  rewrite Hrun in Hrun'. destruct Hacc as [_ _ _ Hlook]. simplify_eq.
  inversion Hspec; subst; (eapply after_store_silent; [done|]); done || reflexivity.
Qed.

(** Creating what is not there, and reading what is. *)
Lemma Create_new rg t gvk obj c :
  wf_tracker t → store_accepts rg obj false gvk t c →
  tracked t gvk (ObjectKeyFromObject obj) = None →
  validateOwners t (GetNamespace obj) (GetOwnerReferences obj) = None →
  let stored := created_object (time_Now (ticks c)) (SetGroupVersionKind gvk obj) in
  ∃ t' k, Create rg (Some obj) c = Done (Some stored, None) (after_store rg t' (NotifyCreate stored) k c) ∧
    tracker_set t t' gvk (ObjectKeyFromObject obj) None stored.
Proof.
  intros Hwf Hacc Hfree Hv stored.
  change (validateOwners t (GetNamespace (SetGroupVersionKind gvk obj))
    (GetOwnerReferences (SetGroupVersionKind gvk obj)) = None) in Hv.
  change (tracked t gvk (ObjectKeyFromObject (SetGroupVersionKind gvk obj)) = None) in Hfree.
  destruct (store_refines rg t gvk obj false c Hwf Hacc) as (t' & o' & e & n & k & Hrun & Hspec).
  inversion Hspec; subst; [congruence..|]. exists t', k. by split.
Qed.

Lemma Get_tracked rg t gvk key o dst out c :
  rg ≠ "" → nn_Name key ≠ "" → resourceGroups c !! rg = Some t → tracked t gvk key = Some o →
  scheme_GVKForObject (obj_body dst) (obj_gvk dst) = inl gvk →
  scheme_Convert o (SetGroupVersionKind gvk dst) = inl out →
  Get rg key (Some dst) c = Done (Some (SetGroupVersionKind (obj_gvk o) out), None) c.
Proof.
  intros Hrg Hname Ht Ho Hdst Hconv. unfold Get. rewrite !decide_False by done.
  unfold gvkGetAndSet. rewrite Hdst, go_bind_eq. cbn [go_get]. unfold get_tracker. rewrite Ht.
  unfold tracked in Ho. destruct (objects t !! gvk) as [objs|]; [|done]. cbn in Ho. by rewrite Ho, Hconv.
Qed.

Lemma Get_untracked rg t gvk key dst c :
  rg ≠ "" → nn_Name key ≠ "" → resourceGroups c !! rg = Some t → tracked t gvk key = None →
  scheme_GVKForObject (obj_body dst) (obj_gvk dst) = inl gvk →
  Get rg key (Some dst) c = Done (Some (SetGroupVersionKind gvk dst), Some (notFound gvk key)) c.
Proof.
  intros Hrg Hname Ht Ho Hdst. unfold Get. rewrite !decide_False by done.
  unfold gvkGetAndSet. rewrite Hdst, go_bind_eq. cbn [go_get]. unfold get_tracker. rewrite Ht.
  unfold tracked in Ho. destruct (objects t !! gvk) as [objs|]; [|done]. cbn in Ho. by rewrite Ho.
Qed.

(** C1: a Create whose name is free and whose owners are tracked succeeds; it
    stores the object with version "v1" and the creation and last-sync times of
    the clock, touches no other object, tells the informer, and a Get of the key
    then returns the conversion of what was stored. *)
Theorem create_then_get rg t gvk obj c :
  wf_cache c → store_accepts rg obj false gvk t c → GetName obj ≠ "" →
  tracked t gvk (ObjectKeyFromObject obj) = None →
  (∀ o, o ∈ GetOwnerReferences obj →
     ∃ r, points_to (GetNamespace obj) o r ∧ is_Some (tracked_ref t r)) →
  ∃ stored t' c',
    Create rg (Some obj) c = Done (Some stored, None) c' ∧
    stored = created_object (time_Now (ticks c)) (SetGroupVersionKind gvk obj) ∧
    GetResourceVersion stored = "v1" ∧
    lastSyncTimeAnnotationValue stored = Parse (Format (time_Now (ticks c)) 0) ∧
    resourceGroups c' = <[rg := t']> (resourceGroups c) ∧
    (∀ gvk' key', (gvk', key') ≠ (gvk, ObjectKeyFromObject obj) →
       tracked t' gvk' key' = tracked t gvk' key') ∧
    handlerState c' = handlerState (notify rg (NotifyCreate stored) c) ∧
    (∀ dst out, scheme_GVKForObject (obj_body dst) (obj_gvk dst) = inl gvk →
       scheme_Convert stored (SetGroupVersionKind gvk dst) = inl out →
       Get rg (ObjectKeyFromObject obj) (Some dst) c' =
         Done (Some (SetGroupVersionKind gvk out), None) c').
Proof.
  intros Hwf Hacc Hname Hfree Howners. pose proof Hacc as [Hrg _ _ Ht].
  destruct (Create_new rg t gvk obj c (Hwf _ _ Ht) Hacc Hfree) as (t' & k & Hrun & [Hobjs _ _]).
  { by apply validateOwners_tracked. }
  do 3 eexists. split; [exact Hrun|]. split; [done|]. split; [done|].
  split. { unfold lastSyncTimeAnnotationValue. cbn. by rewrite lookup_insert_eq. }
  split; [done|]. split.
  { intros gvk' key' Hne. rewrite Hobjs. case_decide as Hc; [|done].
    destruct Hc as [<- <-]. by destruct Hne. }
  split; [apply handlerState_after_store|].
  intros dst out Hdst Hconv. apply (Get_tracked rg t' gvk _ (created_object (time_Now (ticks c)) (SetGroupVersionKind gvk obj)));
    [done..|apply lookup_insert_eq| |done|done].
  rewrite Hobjs. by apply decide_True.
Qed.

(** What a successful Update did, and when an Update is a conflict. *)
Lemma update_success_inv rg gvk t obj c r c1 :
  wf_cache c → store_accepts rg obj true gvk t c → Update rg (Some obj) c = Done (r, None) c1 →
  ∃ old t1 k, tracked t gvk (ObjectKeyFromObject obj) = Some old ∧
    GetResourceVersion old = GetResourceVersion obj ∧
    r = Some (updated_object (time_Now (ticks c)) old (SetGroupVersionKind gvk obj)) ∧
    tracker_set t t1 gvk (ObjectKeyFromObject obj) (Some old)
      (updated_object (time_Now (ticks c)) old (SetGroupVersionKind gvk obj)) ∧
    c1 = after_store rg t1 (update_notification old
      (updated_object (time_Now (ticks c)) old (SetGroupVersionKind gvk obj))) k c.
Proof.
  intros Hwf Hacc Hrun. destruct (store_refines rg t gvk obj true c
    (Hwf _ _ (acc_tracker _ _ _ _ _ _ Hacc)) Hacc) as (t1 & o1 & e & n & k & Hrun' & Hspec).
  unfold Update in Hrun. rewrite Hrun in Hrun'. simplify_eq.
  inversion Hspec as [| | | | |? old Hv Hold Hrv Hset]; simplify_eq. by exists old, t1, k.
Qed.

Lemma update_conflict rg gvk t obj old c :
  wf_cache c → store_accepts rg obj true gvk t c →
  tracked t gvk (ObjectKeyFromObject obj) = Some old →
  GetResourceVersion old ≠ GetResourceVersion obj →
  validateOwners t (GetNamespace obj) (GetOwnerReferences obj) = None →
  ∃ c2, Update rg (Some obj) c = Done (Some (SetGroupVersionKind gvk obj),
      Some (Conflict (unsafeGuessGroupResource gvk)
        (NamespacedName_String (ObjectKeyFromObject obj)))) c2 ∧ cache_eqv c c2.
Proof.
  intros Hwf Hacc Hold Hrv Hv. destruct (store_refines rg t gvk obj true c
    (Hwf _ _ (acc_tracker _ _ _ _ _ _ Hacc)) Hacc) as (t1 & o1 & e & n & k & Hrun & Hspec).
  change (tracked t gvk (ObjectKeyFromObject (SetGroupVersionKind gvk obj)) = Some old) in Hold.
  change (validateOwners t (GetNamespace (SetGroupVersionKind gvk obj))
    (GetOwnerReferences (SetGroupVersionKind gvk obj)) = None) in Hv.
  change (GetResourceVersion old ≠ GetResourceVersion (SetGroupVersionKind gvk obj)) in Hrv.
  inversion Hspec; subst; try congruence. eexists; split; [exact Hrun|].
  eapply after_store_silent; [by eapply acc_tracker|done].
Qed.

Lemma update_matching rg gvk t obj old c :
  wf_cache c → store_accepts rg obj true gvk t c →
  tracked t gvk (ObjectKeyFromObject obj) = Some old →
  GetResourceVersion old = GetResourceVersion obj →
  validateOwners t (GetNamespace obj) (GetOwnerReferences obj) = None →
  let stored := updated_object (time_Now (ticks c)) old (SetGroupVersionKind gvk obj) in
  ∃ t1 k, Update rg (Some obj) c =
      Done (Some stored, None) (after_store rg t1 (update_notification old stored) k c) ∧
    tracker_set t t1 gvk (ObjectKeyFromObject obj) (Some old) stored.
Proof.
  intros Hwf Hacc Hold Hrv Hv stored. destruct (store_refines rg t gvk obj true c
    (Hwf _ _ (acc_tracker _ _ _ _ _ _ Hacc)) Hacc) as (t1 & o1 & e & n & k & Hrun & Hspec).
  change (tracked t gvk (ObjectKeyFromObject (SetGroupVersionKind gvk obj)) = Some old) in Hold.
  change (validateOwners t (GetNamespace (SetGroupVersionKind gvk obj))
    (GetOwnerReferences (SetGroupVersionKind gvk obj)) = None) in Hv.
  change (GetResourceVersion old = GetResourceVersion (SetGroupVersionKind gvk obj)) in Hrv.
  inversion Hspec; subst; try congruence. exists t1, k.
  match goal with H : tracked _ _ _ = Some ?o |- _ => assert (o = old) as -> by congruence end. by split.
Qed.

Lemma update_wf rg obj c r e c' :
  wf_cache c → Update rg obj c = Done (r, e) c' → wf_cache c'.
Proof.
  intros Hwf Hrun. destruct (store_wf rg obj true c Hwf) as (? & ? & Hr & ?).
  unfold Update in Hrun. rewrite Hrun in Hr. by simplify_eq.
Qed.

(** A change of content changes the version; without one nothing changes. *)
Lemma updated_object_same now old obj :
  keep_managed_fields old obj = old → updated_object now old obj = old.
Proof. intros Heq. unfold updated_object. by rewrite Heq, DeepEqual_refl. Qed.

Lemma updated_object_version now gvk key old obj :
  object_wf gvk key old → keep_managed_fields old obj ≠ old →
  updated_object now old obj ≠ old ∧
  ∃ n, is_int n ∧ GetResourceVersion old = version n ∧
    GetResourceVersion (updated_object now old obj) = version (wrap_int (n + 1)).
Proof.
  intros [_ _ (n & Hn & Hv) _ _] Hne. unfold updated_object.
  rewrite (proj2 (DeepEqual_false _ _) Hne), Hv, next_version by done. split.
  - intros Heq%(f_equal GetResourceVersion). rewrite Hv in Heq. cbn in Heq.
    apply version_inj in Heq. by apply (wrap_int_succ_ne n).
  - by exists n.
Qed.

(** C2: optimistic concurrency: once an Update based on the tracked version has
    changed an object, an Update still based on that version is refused as a
    conflict and changes nothing, so no change is silently overwritten. *)
Theorem lost_update_prevented rg gvk t obj1 obj2 c stored c1 :
  wf_cache c → store_accepts rg obj1 true gvk t c →
  Update rg (Some obj1) c = Done (Some stored, None) c1 →
  tracked t gvk (ObjectKeyFromObject obj1) ≠ Some stored →
  scheme_GVKForObject (obj_body obj2) (obj_gvk obj2) = inl gvk →
  ObjectKeyFromObject obj2 = ObjectKeyFromObject obj1 →
  GetResourceVersion obj2 = GetResourceVersion obj1 →
  (∀ o, o ∈ GetOwnerReferences obj2 →
     ∃ r, points_to (GetNamespace obj2) o r ∧ is_Some (tracked_ref t r)) →
  ∃ c2, Update rg (Some obj2) c1 = Done (Some (SetGroupVersionKind gvk obj2),
      Some (Conflict (unsafeGuessGroupResource gvk)
        (NamespacedName_String (ObjectKeyFromObject obj2)))) c2 ∧ cache_eqv c1 c2.
Proof.
  intros Hwf Hacc Hrun Hchanged Hgvk2 Hkey Hrv Howners.
  assert (Hwf1 := update_wf _ _ _ _ _ _ Hwf Hrun).
  destruct (update_success_inv _ _ _ _ _ _ _ Hwf Hacc Hrun)
    as (old & t1 & k & Hold & Hsame & [= ->] & [Hobjs _ _] & ->).
  destruct (updated_object_version (time_Now (ticks c)) gvk (ObjectKeyFromObject obj1) old
    (SetGroupVersionKind gvk obj1)) as (_ & m & Hm & Hv & Hv1).
  { eapply Hwf; [|done]. by eapply acc_tracker. }
  { intros Heq. by rewrite (updated_object_same _ _ _ Heq), Hold in Hchanged. }
  eapply (update_conflict rg gvk t1); [done| | | |].
  - destruct Hacc as [? ? Hn ?]. split; [done..| |by cbn; rewrite lookup_insert_eq].
    intros _. rewrite (GetName_key _ _ Hkey). by apply Hn.
  - rewrite Hobjs. by rewrite decide_True.
  - rewrite Hv1, Hrv, <- Hsame, Hv. intros Heq%version_inj. by apply (wrap_int_succ_ne m).
  - apply validateOwners_tracked. intros o Ho. destruct (Howners o Ho) as (r & Hr & Hr').
    exists r. split; [done|]. unfold tracked_ref. rewrite Hobjs. case_decide; [by eexists|done].
Qed.

(** C21: after a successful Update the tracker holds the object it returns under the
    kind and key of the request, and every other object, of this resource group and of
    the others, as before.  An Update that changes nothing but the fields the cache
    manages returns the object that was tracked, and notifies nobody; any other one has
    the content, labels, finalizers and owners of the request, the next version ("v" and
    the number plus one, with the wrap-around of int) and a new last-sync time, keeps
    the creation time and a deletion time once set, and sends exactly one notification:
    of a deletion when the deletion time appears, else of an update. *)
Theorem update_changes_exactly rg gvk t obj c stored c1 :
  wf_cache c → store_accepts rg obj true gvk t c →
  Update rg (Some obj) c = Done (Some stored, None) c1 →
  ∃ old t1, tracked t gvk (ObjectKeyFromObject obj) = Some old ∧
    resourceGroups c1 = <[rg := t1]> (resourceGroups c) ∧
    (∀ gvk' key', tracked t1 gvk' key' =
       if decide (gvk = gvk' ∧ ObjectKeyFromObject obj = key') then Some stored else tracked t gvk' key') ∧
    GetCreationTimestamp stored = GetCreationTimestamp old ∧
    (TimePtr_IsZero (GetDeletionTimestamp old) = false →
       GetDeletionTimestamp stored = GetDeletionTimestamp old) ∧
    ((keep_managed_fields old (SetGroupVersionKind gvk obj) = old ∧
      stored = old ∧ handlerState c1 = handlerState c) ∨
     (keep_managed_fields old (SetGroupVersionKind gvk obj) ≠ old ∧
      (obj_body stored = obj_body obj ∧ GetLabels stored = GetLabels obj ∧
       GetFinalizers stored = GetFinalizers obj ∧ GetOwnerReferences stored = GetOwnerReferences obj) ∧
      (∃ n, is_int n ∧ GetResourceVersion old = version n ∧
         GetResourceVersion stored = version (wrap_int (n + 1))) ∧
      lastSyncTimeAnnotationValue stored = Parse (Format (time_Now (ticks c)) 0) ∧
      handlerState c1 = handlerState (notify rg
        (if TimePtr_IsZero (GetDeletionTimestamp old) &&
            negb (TimePtr_IsZero (GetDeletionTimestamp stored))
         then NotifyDelete stored else NotifyUpdate old stored) c))).
Proof.
  intros Hwf Hacc Hrun. destruct (update_success_inv _ _ _ _ _ _ _ Hwf Hacc Hrun)
    as (old & t1 & k & Hold & _ & [= ->] & [Hobjs _ _] & ->).
  assert (Howf : object_wf gvk (ObjectKeyFromObject obj) old).
  { eapply Hwf; [|done]. by eapply acc_tracker. }
  exists old, t1. split; [done|]. split; [done|]. split; [exact Hobjs|]. rewrite handlerState_after_store.
  set (kept := keep_managed_fields old (SetGroupVersionKind gvk obj)).
  assert (Hkept : GetCreationTimestamp kept = GetCreationTimestamp old ∧
    (TimePtr_IsZero (GetDeletionTimestamp old) = false →
     GetDeletionTimestamp kept = GetDeletionTimestamp old) ∧
    obj_body kept = obj_body obj ∧ GetLabels kept = GetLabels obj ∧
    GetFinalizers kept = GetFinalizers obj ∧ GetOwnerReferences kept = GetOwnerReferences obj).
  { unfold kept, keep_managed_fields. by destruct (TimePtr_IsZero _) eqn:?. }
  destruct Hkept as (Hcreated & Hdeleted & Hcontent).
  destruct (decide (kept = old)) as [Hsame|Hdiff].
  - rewrite (updated_object_same _ _ _ Hsame). split; [done|]. split; [done|]. left.
    split; [done|]. split; [done|].
    unfold update_notification. rewrite DeepEqual_refl. by destruct (TimePtr_IsZero _).
  - destruct (updated_object_version (time_Now (ticks c)) _ _ _ _ Howf Hdiff) as [Hne Hver].
    unfold update_notification. rewrite (proj2 (DeepEqual_false _ _) Hne).
    unfold updated_object in *. fold kept in Hver |- *.
    rewrite (proj2 (DeepEqual_false _ _) Hdiff) in Hver |- *.
    split; [exact Hcreated|]. split; [exact Hdeleted|]. right. split; [done|]. split; [exact Hcontent|].
    split; [done|]. split.
    { unfold lastSyncTimeAnnotationValue. cbn. by rewrite lookup_insert_eq. }
    by destruct (_ && _).
Qed.
(** ** Ownership *)
(** The owners recorded for [x] are the ones its references point to. *)
Definition owners_of (obj : option Object) : list OwnerReference :=
  from_option GetOwnerReferences [] obj.
Definition recorded_exactly (t : resourceGroupTracker) (x : ownReference) (ns : string)
    (obj : option Object) : Prop :=
  ∀ r, owns t r x ↔ ∃ o, o ∈ owners_of obj ∧ points_to ns o r.
Definition one_reference_per_owner (ns : string) (owners : list OwnerReference) : Prop :=
  ∀ o o' r, o ∈ owners → o' ∈ owners → points_to ns o r → points_to ns o' r → o = o'.

(** Versions start again with an object that is deleted and created again: an Update
    from the version of an earlier incarnation is then not refused, and overwrites the
    new object. *)
Theorem recreated_object_is_overwritten rg gvk t obj stale c :
  wf_cache c → store_accepts rg obj false gvk t c → GetName obj ≠ "" →
  tracked t gvk (ObjectKeyFromObject obj) = None →
  (∀ o, o ∈ GetOwnerReferences obj → ∃ r, points_to (GetNamespace obj) o r ∧ is_Some (tracked_ref t r)) →
  scheme_GVKForObject (obj_body stale) (obj_gvk stale) = inl gvk →
  ObjectKeyFromObject stale = ObjectKeyFromObject obj → GetResourceVersion stale = "v1" →
  (∀ o, o ∈ GetOwnerReferences stale → ∃ r, points_to (GetNamespace stale) o r ∧ is_Some (tracked_ref t r)) →
  ∃ created c1 stored c2, Create rg (Some obj) c = Done (Some created, None) c1 ∧
    Update rg (Some stale) c1 = Done (Some stored, None) c2 ∧
    GetLabels stored = GetLabels stale ∧ GetFinalizers stored = GetFinalizers stale.
Proof.
  intros Hwf Hacc Hname Hfree Howners Hgvk Hkey Hrv Howners2. pose proof Hacc as [Hrg _ _ Ht].
  destruct (Create_new rg t gvk obj c (Hwf _ _ Ht) Hacc Hfree) as (t1 & k & Hrun & [Hobjs _ _]).
  { by apply validateOwners_tracked. }
  destruct (store_wf rg (Some obj) false c Hwf) as (? & ? & Hrun1 & Hwf1). unfold Create in Hrun.
  rewrite Hrun in Hrun1. injection Hrun1 as <- <-.
  edestruct (update_matching rg gvk t1 stale) as (t2 & k2 & Hrun2 & _); [exact Hwf1| | | | |].
  - split; [done..|intros _; by rewrite (GetName_key _ _ Hkey)|by cbn; rewrite lookup_insert_eq].
  - rewrite Hobjs, Hkey. by rewrite decide_True.
  - by rewrite Hrv.
  - apply validateOwners_tracked. intros o Ho. destruct (Howners2 o Ho) as (r & Hr & Hr'). exists r.
    split; [done|]. unfold tracked_ref. rewrite Hobjs. case_decide; [by eexists|done].
  - do 4 eexists. split; [exact Hrun|]. split; [exact Hrun2|].
    apply (updated_object_content _ _ (SetGroupVersionKind gvk stale)).
Qed.

Lemma tracker_set_exact t t' gvk key old obj :
  tracker_set t t' gvk key old obj →
  recorded_exactly t (OwnRef gvk key) (GetNamespace obj) old →
  one_reference_per_owner (GetNamespace obj) (owners_of old) →
  recorded_exactly t' (OwnRef gvk key) (GetNamespace obj) (Some obj) ∧
  ∀ r y, y ≠ OwnRef gvk key → owns t' r y ↔ owns t r y.
Proof.
  intros [_ Howns _] Hrec Hone. split; intros r; rewrite ?Howns.
  2: { intros y Hy. rewrite Howns. split; [by intros [[? _]|[? _]]|].
       intros ?; left; split; [done|]. by intros [? _]. }
  cbn [owners_of from_option]. split.
  - intros [[Hold Hkept]|(_ & o & Ho & Hr & _)]; [|by exists o].
    apply Hrec in Hold as (o & Ho & Hr).
    destruct (existsb (OwnerReference_eqb o) (GetOwnerReferences obj)) eqn:Hex.
    + apply existsb_elem_of in Hex as (o' & Ho' & <-%OwnerReference_eqb_eq). by exists o.
    + destruct Hkept. split; [done|]. by exists o.
  - intros (o & Ho & Hr). destruct (existsb (OwnerReference_eqb o) (owners_of old)) eqn:Hex.
    + apply existsb_elem_of in Hex as (o' & Ho' & Heq).
      assert (o = o') as <- by by apply OwnerReference_eqb_eq. left. split.
      { apply Hrec. by exists o. }
      intros (_ & o' & Hin & Hr' & Hgone). rewrite (Hone _ _ _ Hin Ho' Hr' Hr) in Hgone.
      apply existsb_false_elem_of with (x := o) in Hgone; congruence.
    + right. split; [done|]. by exists o.
Qed.

(** Ownership bookkeeping is exact: when the owners recorded for the tracked
    object are the ones its references point to, with one reference per owner, a
    successful Update records the owners of the new object, all of them and no
    other, and the owners recorded for every other object stay. *)
Theorem update_records_owners rg gvk t obj old c stored c1 :
  wf_cache c → store_accepts rg obj true gvk t c →
  Update rg (Some obj) c = Done (Some stored, None) c1 →
  tracked t gvk (ObjectKeyFromObject obj) = Some old →
  recorded_exactly t (OwnRef gvk (ObjectKeyFromObject obj)) (GetNamespace obj) (Some old) →
  one_reference_per_owner (GetNamespace obj) (GetOwnerReferences old) →
  ∃ t1, resourceGroups c1 !! rg = Some t1 ∧
    (∀ r, owns t1 r (OwnRef gvk (ObjectKeyFromObject obj)) ↔
       ∃ o, o ∈ GetOwnerReferences obj ∧ points_to (GetNamespace obj) o r) ∧
    (∀ r y, y ≠ OwnRef gvk (ObjectKeyFromObject obj) → owns t1 r y ↔ owns t r y).
Proof.
  intros Hwf Hacc Hrun Hold Hrec Hone. destruct (update_success_inv _ _ _ _ _ _ _ Hwf Hacc Hrun)
    as (old' & t1 & k & Hold' & _ & [= ->] & Hset & ->). simplify_eq.
  destruct (proj1 (Hwf _ _ (acc_tracker _ _ _ _ _ _ Hacc)) _ _ _ Hold) as [Hg Hk _ _ _].
  destruct (updated_object_basic (time_Now (ticks c)) old (SetGroupVersionKind gvk obj) Hg Hk)
    as (_ & Hkey & Howners & _).
  apply GetNamespace_key in Hkey. change (GetNamespace (SetGroupVersionKind gvk obj))
    with (GetNamespace obj) in Hkey.
  rewrite <- Hkey in Hrec, Hone.
  destruct (tracker_set_exact _ _ _ _ _ _ Hset Hrec Hone) as [Hexact Hothers].
  exists t1. cbn. rewrite lookup_insert_eq. split; [done|]. split; [|done].
  intros r. rewrite (Hexact r). cbn [owners_of from_option]. by rewrite Howners, Hkey.
Qed.
End properties.

(** ** List *)
Section listing.
Context {H HS : Type} {E : Env} {L : EnvLaws E} {Hhandler : InformEventHandler H HS}.
Implicit Types c : cache H HS.

Lemma list_loop_typed goType opts objs items :
  list_loop (TypedList goType) opts objs items = inl (items ++ filter (list_selects opts) objs).
Proof.
  revert items. induction objs as [|o objs IH]; intros items; cbn [list_loop];
    [by rewrite filter_nil, app_nil_r|].
  destruct (list_selects opts o) eqn:Hsel; rewrite IH.
  - rewrite filter_cons_True by (rewrite Hsel; exact I). by rewrite <- app_assoc.
  - rewrite filter_cons_False by (rewrite Hsel; intros []). done.
Qed.

(** List of a typed list, from the type meta it comes with. *)
Lemma List_typed_ok rg l g gvk opts t c :
  rg ≠ "" → scheme_GVKForList (TypedList l) g = inl gvk → resourceGroups c !! rg = Some t →
  let lo := ApplyOptions (mkListOptions "" None) opts in
  let kind := unsafeGuessObjectKindFromList gvk in
  ∃ items,
    List_ rg (Some (mkObjectList g (TypedList l) [])) opts c =
      Done (match meta_SetList (mkObjectList gvk (TypedList l) []) items with
            | inl out => (Some out, None)
            | inr msg => (Some (mkObjectList gvk (TypedList l) []), Some (InternalError msg))
            end) c ∧
    items ≡ₚ filter (list_selects lo) (map_to_list (default ∅ (objects t !! kind))).*2 ∧
    (∀ obj, obj ∈ items ↔ (∃ key, tracked t kind key = Some obj) ∧
       (lo_Namespace lo = "" ∨ GetNamespace obj = lo_Namespace lo) ∧
       (∀ sel, lo_LabelSelector lo = Some sel → sel_Empty sel = false →
          sel_Matches sel (gomap_elems (GetLabels obj)) = true)).
Proof.
  intros Hrg Hgvk Ht lo kind.
  exists (filter (list_selects lo) (map_range (default ∅ (objects t !! kind))).*2). split.
  - unfold List_. rewrite decide_False by done. unfold gvkGetAndSet_list. cbn [list_type list_gvk].
    rewrite Hgvk, go_bind_eq. cbn [go_get]. unfold get_tracker. rewrite Ht.
    cbn [list_items list_type]. fold kind. destruct (objects t !! kind) as [objs|]; cbn [default].
    + rewrite list_loop_typed. cbn [app]. fold lo. by destruct (meta_SetList _ _).
    + replace (map_range ∅) with ([] : list (NamespacedName * Object)).
      2: { symmetry. apply Permutation_nil_r. by rewrite map_range_perm, map_to_list_empty. }
      cbn. by destruct (meta_SetList _ _).
  - split; [by rewrite map_range_perm|].
    intros obj. rewrite list_elem_of_filter, list_elem_of_fmap. unfold list_selects.
    rewrite Is_true_true, andb_true_iff, negb_true_iff, andb_false_iff, !negb_false_iff,
      !bool_decide_eq_true. rewrite (comm (∧)).
    assert (Hin : (∃ y : NamespacedName * Object, obj = y.2 ∧
      y ∈ map_range (default ∅ (objects t !! kind))) ↔ ∃ key, tracked t kind key = Some obj).
    { unfold tracked. destruct (objects t !! kind) as [objs|]; cbn; split.
      - intros ([key o] & -> & Hk). apply elem_of_map_range in Hk. by exists key.
      - intros (key & Hk). exists (key, obj). split; [done|]. by apply elem_of_map_range.
      - intros ([key o] & -> & Hk). by apply elem_of_map_range in Hk.
      - by intros (key & Hk). }
    rewrite Hin. destruct (lo_LabelSelector lo) as [sel|].
    + rewrite orb_true_iff. split; intros (Hk & Hns & Hsel); (split; [done|split; [done|]]).
      * intros ? [= <-] He. destruct Hsel; [congruence|done].
      * destruct (sel_Empty sel) eqn:He; [by left|right; by apply (Hsel sel)].
    + split; intros (Hk & Hns & Hsel); (split; [done|split; [done|]]); done.
Qed.

(** List of a typed list returns each tracked object of the kind that the
    namespace and the label selector admit, each exactly once and none other, and
    changes nothing; the kind of the items is the list's without "List". *)
Theorem list_returns_selected rg l g gvk opts t c :
  rg ≠ "" → scheme_GVKForList (TypedList l) g = inl gvk → resourceGroups c !! rg = Some t →
  let lo := ApplyOptions (mkListOptions "" None) opts in
  let kind := unsafeGuessObjectKindFromList gvk in
  ∃ items,
    List_ rg (Some (mkObjectList g (TypedList l) [])) opts c =
      Done (match meta_SetList (mkObjectList gvk (TypedList l) []) items with
            | inl out => (Some out, None)
            | inr msg => (Some (mkObjectList gvk (TypedList l) []), Some (InternalError msg))
            end) c ∧
    items ≡ₚ filter (list_selects lo) (map_to_list (default ∅ (objects t !! kind))).*2 ∧
    (∀ obj, obj ∈ items ↔ (∃ key, tracked t kind key = Some obj) ∧
       (lo_Namespace lo = "" ∨ GetNamespace obj = lo_Namespace lo) ∧
       (∀ sel, lo_LabelSelector lo = Some sel → sel_Empty sel = false →
          sel_Matches sel (gomap_elems (GetLabels obj)) = true)).
Proof. apply List_typed_ok. Qed.
End listing.

(** ** Concrete states *)
Lemma test_start_wf : wf_cache test_start.
Proof.
  assert (Heq : resourceGroups test_start = {[ "rg" := mkTracker ∅ ∅ ]})
    by (vm_compute; reflexivity).
  intros rg t. rewrite Heq. intros [<- <-]%lookup_singleton_Some.
  split; [by intros gvk key obj Ht|by intros r s Hs].
Qed.

Lemma exec_store_wf rg obj replace (c : test_cache) :
  wf_cache c → wf_cache (exec (store rg obj replace) c).
Proof. intros Hwf. destruct (store_wf rg obj replace c Hwf) as (r & c' & Hrun & ?). by unfold exec; rewrite Hrun. Qed.

#[export] Hint Resolve test_start_wf exec_store_wf : goofy.

(** "owner", then "child" that it owns. *)
Definition test_owner : test_cache := exec (Create "rg" (Some (new_machine "owner" [] []))) test_start.
Definition test_family : test_cache :=
  exec (Create "rg" (Some (new_machine "child" [owner_of_machine "owner"] []))) test_owner.

Lemma test_owner_wf : wf_cache test_owner.
Proof. unfold test_owner, Create. auto with goofy. Qed.
Lemma test_family_wf : wf_cache test_family.
Proof. unfold test_family, Create. apply exec_store_wf, test_owner_wf. Qed.

Definition the_tracker (c : test_cache) : resourceGroupTracker :=
  default (mkTracker ∅ ∅) (resourceGroups c !! "rg").
Definition the_object (name : string) (c : test_cache) : Object :=
  default (new_machine name [] []) (tracked_ref (the_tracker c) (machine_ref name)).
Definition child_update : Object := SetLabels (Some {["a" := "b"]}) (the_object "child" test_family).

Definition accepts_b (obj : Object) (c : test_cache) : bool :=
  bool_decide (obj_body obj = CloudMachine) && negb (bool_decide (GetName obj = "")) &&
  match resourceGroups c !! "rg" with Some _ => true | None => false end.

Lemma accepts_in_test (obj : Object) (replace : bool) (c : test_cache) :
  accepts_b obj c = true →
  store_accepts "rg" obj replace (cloudv1_gvk "CloudMachine") (the_tracker c) c.
Proof.
  unfold accepts_b, the_tracker. destruct (resourceGroups c !! "rg") as [t|] eqn:Ht.
  2: { by rewrite andb_false_r. }
  rewrite andb_true_r, andb_true_iff, negb_true_iff, bool_decide_eq_true, bool_decide_eq_false.
  intros [Hb Hn]. split; try done. by rewrite Hb.
Qed.

Lemma single_owner (obj : Object) o o' :
  GetOwnerReferences obj = [o] → o' ∈ GetOwnerReferences obj → o' = o.
Proof. intros ->. apply list_elem_of_singleton. Qed.

Definition new_child : Object := new_machine "child" [owner_of_machine "owner"] [].
Definition new_owner : Object := new_machine "owner" [] [].

Lemma store_error_changes_nothing_witness :
  cache_eqv test_family (exec (Create "rg" (Some new_owner)) test_family).
Proof.
  assert (Hrun : Create "rg" (Some new_owner) test_family =
    Done (Some (SetGroupVersionKind (cloudv1_gvk "CloudMachine") new_owner),
      Some (AlreadyExists (mkGroupResource "virtual.cluster.x-k8s.io" "CloudMachine") "/owner"))
      (exec (Create "rg" (Some new_owner)) test_family)) by vm_run.
  exact (store_error_changes_nothing _ _ _ _ _ _ _ test_family_wf Hrun).
Defined.

Lemma create_then_get_witness :
  ∃ stored c', Create "rg" (Some new_child) test_owner = Done (Some stored, None) c' ∧
    GetResourceVersion stored = "v1".
Proof.
  destruct (create_then_get "rg" (the_tracker test_owner) (cloudv1_gvk "CloudMachine")
    new_child test_owner test_owner_wf)
    as (stored & t' & c' & Hrun & _ & Hv & _).
  - apply accepts_in_test. vm_compute. reflexivity.
  - vm_decide.
  - vm_decide.
  - intros o ->%(single_owner _ (owner_of_machine "owner")); [|vm_decide].
    exists (machine_ref "owner"). split; [vm_compute; reflexivity|vm_decide].
  - exact (ex_intro _ stored (ex_intro _ c' (conj Hrun Hv))).
Defined.

(** The child after an update of its labels. *)
Definition test_updated : test_cache := exec (Update "rg" (Some child_update)) test_family.
Lemma test_updated_run :
  Update "rg" (Some child_update) test_family =
    Done (Some (the_object "child" test_updated), None) test_updated.
Proof. vm_run. Qed.

Definition child_stale : Object := SetFinalizers (Some ["f"]) (the_object "child" test_family).

Lemma lost_update_prevented_witness :
  ∃ r c', Update "rg" (Some child_stale) test_updated = Done r c' ∧ cache_eqv test_updated c'.
Proof.
  destruct (lost_update_prevented "rg" (cloudv1_gvk "CloudMachine") (the_tracker test_family)
    child_update child_stale test_family (the_object "child" test_updated) test_updated
    test_family_wf) as (c2 & Hrun2 & Heq).
  - apply accepts_in_test. vm_compute. reflexivity.
  - exact test_updated_run.
  - vm_decide.
  - vm_decide.
  - vm_decide.
  - vm_decide.
  - intros o ->%(single_owner _ (owner_of_machine "owner")); [|vm_decide].
    exists (machine_ref "owner"). split; [|vm_decide].
    unfold points_to. vm_compute. reflexivity.
  - exact (ex_intro _ _ (ex_intro _ c2 (conj Hrun2 Heq))).
Defined.

Lemma update_changes_exactly_witness :
  ∃ t1, resourceGroups test_updated !! "rg" = Some t1 ∧
    tracked t1 (cloudv1_gvk "CloudMachine") (NN "" "child") = Some (the_object "child" test_updated).
Proof.
  destruct (update_changes_exactly "rg" (cloudv1_gvk "CloudMachine") (the_tracker test_family)
    child_update test_family (the_object "child" test_updated) test_updated test_family_wf)
    as (old & t1 & _ & Hgroups & Hobjs & _).
  - apply accepts_in_test. vm_compute. reflexivity.
  - exact test_updated_run.
  - exists t1. rewrite Hgroups, lookup_insert_eq. split; [done|]. rewrite Hobjs. by apply decide_True; vm_decide.
Defined.

(** The child after an update that drops its owner. *)
Definition child_freed : Object := SetOwnerReferences None (the_object "child" test_family).
Definition test_freed : test_cache := exec (Update "rg" (Some child_freed)) test_family.
Lemma test_freed_run :
  Update "rg" (Some child_freed) test_family =
    Done (Some (the_object "child" test_freed), None) test_freed.
Proof. vm_run. Qed.

Lemma test_family_recorded :
  recorded_exactly (the_tracker test_family)
    (OwnRef (cloudv1_gvk "CloudMachine") (ObjectKeyFromObject child_freed))
    (GetNamespace child_freed) (Some (the_object "child" test_family)).
Proof.
  assert (Hkey : ObjectKeyFromObject child_freed = NN "" "child") by vm_decide.
  assert (Hns : GetNamespace child_freed = "") by vm_decide.
  assert (Howned : ownedObjects (the_tracker test_family) =
    {[ machine_ref "owner" := {[ machine_ref "child" ]} ]}) by vm_decide.
  assert (Howners : GetOwnerReferences (the_object "child" test_family) =
    [owner_of_machine "owner"]) by vm_decide.
  intros r. unfold owns, owns_in. cbn [owners_of from_option].
  rewrite Howned, Hkey, Hns, Howners. split.
  - intros (s & [<- _]%lookup_singleton_Some & _). exists (owner_of_machine "owner").
    split; [by left|reflexivity].
  - intros (o & ->%list_elem_of_singleton & [= <-]). eexists. split; [apply lookup_singleton_eq|].
    by apply elem_of_singleton.
Qed.

Lemma update_records_owners_witness :
  ∃ t1, resourceGroups test_freed !! "rg" = Some t1 ∧
  ¬ owns t1 (machine_ref "owner") (machine_ref "child").
Proof.
  destruct (update_records_owners "rg" (cloudv1_gvk "CloudMachine") (the_tracker test_family)
    child_freed (the_object "child" test_family) test_family (the_object "child" test_freed)
    test_freed test_family_wf) as (t1 & Ht1 & Howns & _).
  - apply accepts_in_test. vm_compute. reflexivity.
  - exact test_freed_run.
  - vm_decide.
  - exact test_family_recorded.
  - assert (Howners : GetOwnerReferences (the_object "child" test_family) =
      [owner_of_machine "owner"]) by vm_decide.
    intros o o' r. rewrite Howners. by intros ->%list_elem_of_singleton ->%list_elem_of_singleton.
  - assert (Hkey : OwnRef (cloudv1_gvk "CloudMachine") (ObjectKeyFromObject child_freed) =
      machine_ref "child") by vm_decide.
    exists t1. split; [exact Ht1|]. rewrite <- Hkey.
    intros (o & Ho & _)%Howns. by apply elem_of_nil in Ho.
Defined.

Lemma list_returns_selected_witness :
  ∃ items : list Object, length items = 2%nat ∧
    ∀ obj, obj ∈ items → ∃ key,
      tracked (the_tracker test_family) (cloudv1_gvk "CloudMachine") key = Some obj.
Proof.
  destruct (list_returns_selected "rg" "CloudMachineList" (cloudv1_gvk "CloudMachineList")
    (cloudv1_gvk "CloudMachineList") []
    (the_tracker test_family) test_family) as (items & _ & Hperm & Hin).
  - vm_decide.
  - reflexivity.
  - vm_decide.
  - exists items. split; [rewrite Hperm; vm_compute; reflexivity|].
    intros obj Hobj. apply Hin in Hobj as [[key Hk] _]. exists key. exact Hk.
Defined.
