(* ===== verification/CacheDelete.v ===== *)
(** * Delete: what the recursion of doTryDeleteLocked does

    [delete_outcome] is the contract of doTryDeleteLocked, proved by induction on
    the depth: it never panics once the queue is there, it stops when the
    ownership below the object has a bound, objects are only removed (without
    finalizers) or marked for deletion (with finalizers), and on success all that
    the object owns, directly or not, is gone or marked and queued for the garbage
    collector. *)

From stdpp Require Import prelude gmap strings list relations.
From Stdlib Require Import ZArith QArith_base Lia.
From S2P Require Import Prelude GoStd GoTime Api Runtime Cache CacheFacts CacheStore TestEnv.

(** ** Definitions *)
(** Waiting for its finalizers to go. *)
Definition terminating (o : Object) : Prop :=
  GetFinalizers o ≠ [] ∧ TimePtr_IsZero (GetDeletionTimestamp o) = false.

Record marked (o o' : Object) : Prop := {
  mk_finalizers : GetFinalizers o ≠ [];
  mk_unset : TimePtr_IsZero (GetDeletionTimestamp o) = true;
  mk_set : TimePtr_IsZero (GetDeletionTimestamp o') = false;
  mk_same_finalizers : GetFinalizers o' = GetFinalizers o;
  mk_same_owners : GetOwnerReferences o' = GetOwnerReferences o }.

(** All that a deletion does to an object. *)
Inductive evolves : option Object → option Object → Prop :=
| ev_same o : evolves o o
| ev_removed o : GetFinalizers o = [] → evolves (Some o) None
| ev_marked o o' : marked o o' → evolves (Some o) (Some o').

Definition gc_req (rg : string) (x : ownReference) : queue_call (any gcRequest) :=
  QAdd (Is (mkGcRequest rg (ref_gvk x) (ref_key x))).

(** [x] is gone, or terminating and queued for the garbage collector. *)
Definition handled (rg : string) (t : resourceGroupTracker) (q : list (queue_call (any gcRequest)))
    (x : ownReference) : Prop :=
  ∀ o, tracked_ref t x = Some o → terminating o ∧ gc_req rg x ∈ q.

(** From one state of tracker and queue to a later one: an ownership edge goes
    only when all that is below its owner is handled. *)
Record progress (rg : string) (t : resourceGroupTracker) (q : list (queue_call (any gcRequest)))
    (t' : resourceGroupTracker) (q' : list (queue_call (any gcRequest))) : Prop := {
  pg_evolves : ∀ x, evolves (tracked_ref t x) (tracked_ref t' x);
  pg_owns : ∀ a b, owns t' a b → owns t a b;
  pg_edges : ∀ a b, owns t a b →
    owns t' a b ∨ ∀ y, tc (owns t) a y → handled rg t' q' y;
  pg_queue : ∃ adds, q' = q ++ adds }.

(** Ownership below [r] is at most [n] levels deep. *)
Inductive bounded (t : resourceGroupTracker) : nat → ownReference → Prop :=
| bounded_S n r : (∀ x, owns t r x → bounded t n x) → bounded t (S n) r.

(** Only [r] and what it owns, directly or not, changes. *)
Definition changes_below (t t' : resourceGroupTracker) (r : ownReference) : Prop :=
  ∀ x, ¬ rtc (owns t) r x →
    tracked_ref t' x = tracked_ref t x ∧ ∀ b, owns t' x b ↔ owns t x b.

Record deleted_below rg t r t' q' (deleted : bool) : Prop := {
  db_root : if deleted then tracked_ref t' r = None
            else ∃ o, tracked_ref t' r = Some o ∧ terminating o;
  db_tracked : is_Some (tracked_ref t r);
  db_owned_tracked : ∀ y, owns t r y → is_Some (tracked_ref t y);
  db_below : ∀ y, tc (owns t) r y → handled rg t' q' y }.

(** ** The preorder *)
Lemma tc_inv_l {A} (R : relation A) x y : tc R x y → R x y ∨ ∃ z, R x z ∧ tc R z y.
Proof. destruct 1 as [|? z]; [by left|right; by exists z]. Qed.

Lemma evolves_trans a b c : evolves a b → evolves b c → evolves a c.
Proof.
  intros Hab Hbc. destruct Hab as [o|o Hf|o o' Hm]; [done| |].
  - inversion Hbc; subst. by constructor.
  - inversion Hbc as [|? Hf|? ? Hm']; subst.
    + by constructor.
    + destruct Hm as [? _ _ Hs _]. by rewrite Hs in Hf.
    + destruct Hm as [_ _ Hset _ _], Hm' as [_ Hun _ _ _]. congruence.
Qed.

Lemma evolves_terminating o x : evolves (Some o) x → terminating o → x = Some o.
Proof.
  intros Hev [Hf Hd]. inversion Hev as [|? Hf'|? ? [_ Hz _ _ _]]; [done|done|congruence].
Qed.

Lemma evolves_None x : evolves None x → x = None.
Proof. by inversion 1. Qed.

Lemma handled_progress rg t q t' q' x :
  progress rg t q t' q' → handled rg t q x → handled rg t' q' x.
Proof.
  intros [Hev _ _ [adds ->]] Hh o Ho. specialize (Hev x). rewrite Ho in Hev.
  destruct (tracked_ref t x) as [o0|] eqn:Ht; [|by apply evolves_None in Hev].
  destruct (Hh o0 Ht) as [Hterm Hq]. apply evolves_terminating in Hev; [|done].
  simplify_eq. split; [done|]. apply elem_of_app. by left.
Qed.

(** A path from [a] in the old state is still there, or its end is handled. *)
Lemma progress_tc rg t q t' q' a y :
  progress rg t q t' q' → tc (owns t) a y → tc (owns t') a y ∨ handled rg t' q' y.
Proof.
  intros Hp Hpath. induction Hpath as [a b Hab|a b y Hab Hpath IH].
  - destruct (pg_edges _ _ _ _ _ Hp a b Hab) as [?|Hh]; [left; by constructor|].
    right. apply Hh. by constructor.
  - destruct (pg_edges _ _ _ _ _ Hp a b Hab) as [Hab'|Hh].
    + destruct IH as [?|?]; [left; by eapply tc_l|by right].
    + right. apply Hh. by eapply tc_l.
Qed.

Lemma progress_refl rg t q : progress rg t q t q.
Proof. split; intros; [constructor|done|by left|exists []; by rewrite app_nil_r]. Qed.

Lemma progress_trans rg t1 q1 t2 q2 t3 q3 :
  progress rg t1 q1 t2 q2 → progress rg t2 q2 t3 q3 → progress rg t1 q1 t3 q3.
Proof.
  intros H12 H23. destruct (H12) as [Hev Ho He [adds Hq]].
  destruct (H23) as [Hev' Ho' He' [adds' Hq']]. split.
  - intros x. by eapply evolves_trans.
  - auto.
  - intros a b Hab. destruct (He a b Hab) as [Hab2|Hh].
    + destruct (He' a b Hab2) as [?|Hh]; [by left|]. right. intros y Hy.
      destruct (progress_tc _ _ _ _ _ _ _ H12 Hy) as [?|?]; [by apply Hh|].
      by eapply handled_progress.
    + right. intros y Hy. eapply handled_progress; [done|by apply Hh].
  - exists (adds ++ adds'). subst. by rewrite app_assoc.
Qed.

(** More calls on the queue is progress. *)
Lemma progress_enqueue rg t q q' : progress rg t q t (q ++ q').
Proof. split; intros; [constructor|done|by left|by exists q']. Qed.

Lemma progress_rtc rg t q t' q' a y : progress rg t q t' q' → rtc (owns t') a y → rtc (owns t) a y.
Proof.
  intros [_ Ho _ _]. induction 1 as [|a b y Hab _ IH]; [done|]. eapply rtc_l; [by apply Ho|done].
Qed.

Lemma bounded_progress rg t q t' q' n r : progress rg t q t' q' → bounded t n r → bounded t' n r.
Proof.
  intros Hp. induction 1 as [n r _ IH]. constructor. intros x Hx. apply IH.
  by eapply (pg_owns _ _ _ _ _ Hp).
Qed.

(** Ownership without cycles has a bound: the number of owners. *)
Lemma acyclic_bounded_in t (owners : gset ownReference) r :
  (∀ a, ¬ tc (owns t) a a) →
  (∀ a b, rtc (owns t) r a → owns t a b → a ∈ owners) →
  bounded t (S (size owners)) r.
Proof.
  intros Hacyclic. remember (size owners) as n eqn:Hn. revert owners Hn r.
  induction n as [|n IH]; intros owners Hn r Howners; constructor; intros x Hx.
  - assert (Hr : r ∈ owners) by (apply (Howners r x); [apply rtc_refl|done]).
    symmetry in Hn. apply size_empty_inv in Hn. set_solver.
  - assert (Hr : r ∈ owners) by (apply (Howners r x); [apply rtc_refl|done]).
    apply (IH (owners ∖ {[r]})).
    + rewrite size_difference by set_solver. rewrite size_singleton. lia.
    + intros a b Ha Hab. apply elem_of_difference. split.
      * apply (Howners a b); [|done]. by eapply rtc_l.
      * intros ->%elem_of_singleton. apply (Hacyclic r). apply tc_rtc_r with x; [by apply tc_once|done].
Qed.

Lemma acyclic_bounded t r :
  (∀ a, ¬ tc (owns t) a a) → bounded t (S (size (ownedObjects t))) r.
Proof.
  intros Hacyclic. rewrite <- size_dom. apply acyclic_bounded_in; [done|].
  intros a b _ (s & Hs & _). by apply elem_of_dom_2 in Hs.
Qed.

(** ** The end of doTryDeleteLocked *)
Section delete.
Context {H HS : Type} {E : Env} {L : EnvLaws E} {Hhandler : InformEventHandler H HS}.
Implicit Types c : cache H HS.

(** What deletions leave alone in the cache. *)
Record same_config c c' : Prop := {
  sc_groups : resourceGroups c' = resourceGroups c;
  sc_informers : informers c' = informers c;
  sc_requeue : garbageCollectorRequeueAfter c' = garbageCollectorRequeueAfter c;
  sc_jitter : garbageCollectorRequeueAfterJitterFactor c' =
    garbageCollectorRequeueAfterJitterFactor c;
  sc_period : syncPeriod c' = syncPeriod c;
  sc_syncQueue : syncQueue c' = syncQueue c;
  sc_started : started c' = started c }.

#[export] Instance same_config_preorder : PreOrder same_config.
Proof. split; [by intros c|]. intros c1 c2 c3 [] []. split; congruence. Qed.

Definition marked_object (now now' : Time) (o : Object) : Object :=
  SetDeletionTimestamp (Some now) (updated_object now' o (SetDeletionTimestamp (Some now) o)).

Lemma marked_object_marked now now' o :
  IsZero now = false → GetFinalizers o ≠ [] → TimePtr_IsZero (GetDeletionTimestamp o) = true →
  marked o (marked_object now now' o).
Proof.
  intros Hnow Hf Hz. destruct (updated_object_basic now' o (SetDeletionTimestamp (Some now) o)
    eq_refl eq_refl) as (_ & _ & Ho & Hfin). by split.
Qed.

Lemma marked_object_wf now now' gvk key o :
  object_wf gvk key o → object_wf gvk key (marked_object now now' o).
Proof.
  intros Hwf.
  assert (Hup : object_wf gvk key (updated_object now' o (SetDeletionTimestamp (Some now) o))).
  { apply updated_object_wf; apply Hwf. }
  destruct Hup as [? ? ? ? ?]. split; auto.
Qed.

(** The object goes, or is marked; either way nothing else changes. *)
Lemma markOrRemove_spec rg t gvk key obj c :
  (∃ k, let obj' := marked_object (time_Now (ticks c)) (time_Now (S (ticks c))) obj in
     markOrRemove rg t gvk key obj c =
     Done (track gvk key obj' t, (false, None))
       (notify rg (update_notification obj obj') (set_ticks k c)) ∧
     GetFinalizers obj ≠ [] ∧ TimePtr_IsZero (GetDeletionTimestamp obj) = true) ∨
  (markOrRemove rg t gvk key obj c = Done (t, (false, None)) c ∧ terminating obj) ∨
  (markOrRemove rg t gvk key obj c = Done (untrack gvk key t, (true, None)) c ∧
   GetFinalizers obj = []).
Proof.
  unfold markOrRemove. destruct (GetFinalizers obj) as [|f fs] eqn:Hf; [right; by right|].
  destruct (TimePtr_IsZero _) eqn:Hz; cbn [negb].
  - left. rewrite go_bind_eq. cbn [beforeDelete mret go_ret]. rewrite go_bind_eq.
    unfold Now at 1. rewrite go_bind_eq. cbn [go_get]. rewrite go_bind_eq. cbn [go_put mret go_ret].
    destruct (beforeUpdate_eq rg obj (SetDeletionTimestamp (Some (time_Now (ticks c))) obj)
      (set_ticks (1 + ticks c) c)) as [k Hbefore].
    rewrite go_bind_eq, Hbefore. cbn beta iota. rewrite go_bind_eq, afterUpdate_eq.
    exists k. split; [done|]. done.
  - right; left. split; [done|]. split; [by rewrite Hf|done].
Qed.

Lemma same_config_notify rg n k c : same_config c (notify rg n (set_ticks k c)).
Proof. rewrite notify_frame. by split. Qed.

(** ** The contract *)
Definition delete_outcome rg t r q c (n : nat)
    (x : res (cache H HS) (resourceGroupTracker * (bool * option APIError))) : Prop :=
  match x with
  | Done (t', (deleted, err)) c' =>
      same_config c c' ∧ wf_tracker t' ∧
      ∃ q', garbageCollectorQueue c' = Some q' ∧ progress rg t q t' q' ∧ changes_below t t' r ∧
        match err with
        | Some e => IsNotFound e = true
        | None => deleted_below rg t r t' q' deleted
        end
  | Panicked _ => False
  | OutOfFuel => ¬ bounded t n r
  end.

(** The loop over the owned objects: the body, and its contract. *)
Definition delete_child fuel rg (ref : ownReference) (tracker : resourceGroupTracker)
  : Go (cache H HS) (resourceGroupTracker * option APIError) :=
  r ← doTryDeleteLocked fuel rg tracker (ref_gvk ref) (ref_key ref);
  match r with
  | (tracker, (_, Some err)) => mret (tracker, Some err)
  | (tracker, (deleted, None)) =>
      _ ← (if deleted : bool then mret () else gcQueue_call (gc_req rg ref));
      mret (tracker, None)
  end.

Record loop_done rg t t' q' (l : list ownReference) : Prop := {
  ld_tracked : ∀ y, y ∈ l → is_Some (tracked_ref t y);
  ld_handled : ∀ y, y ∈ l → handled rg t' q' y;
  ld_below : ∀ y z, y ∈ l → tc (owns t) y z → handled rg t' q' z }.

Definition changes_below_any t t' (l : list ownReference) : Prop :=
  ∀ x, (∀ y, y ∈ l → ¬ rtc (owns t) y x) →
    tracked_ref t' x = tracked_ref t x ∧ ∀ b, owns t' x b ↔ owns t x b.

Definition loop_outcome rg t q c (n : nat) (l : list ownReference)
    (x : res (cache H HS) (resourceGroupTracker * option APIError)) : Prop :=
  match x with
  | Done (t', err) c' =>
      same_config c c' ∧ wf_tracker t' ∧
      ∃ q', garbageCollectorQueue c' = Some q' ∧ progress rg t q t' q' ∧
        changes_below_any t t' l ∧
        match err with
        | Some e => IsNotFound e = true
        | None => loop_done rg t t' q' l
        end
  | Panicked _ => False
  | OutOfFuel => ∃ y, y ∈ l ∧ ¬ bounded t n y
  end.

(** One child, and its request to the garbage collector. *)
Lemma delete_child_outcome fuel rg t q c a :
  (∀ t r q c, wf_tracker t → garbageCollectorQueue c = Some q →
     delete_outcome rg t r q c fuel (doTryDeleteLocked fuel rg t (ref_gvk r) (ref_key r) c)) →
  wf_tracker t → garbageCollectorQueue c = Some q →
  loop_outcome rg t q c fuel [a] (delete_child fuel rg a t c).
Proof.
  intros IH Hwf Hq. specialize (IH t a q c Hwf Hq). unfold delete_child. rewrite go_bind_eq.
  destruct (doTryDeleteLocked _ _ _ _ _ c) as [[t' [deleted err]] c'| |]; cbn in IH |- *;
    [|done|by exists a; split; [left|]].
  destruct IH as (Hc & Hwf' & q' & Hq' & Hp & Hbelow & Herr).
  assert (Hany : changes_below_any t t' [a]).
  { intros x Hx. apply Hbelow. apply Hx. by left. }
  destruct err as [e|]; cbn; [by split; [done|split; [done|exists q']]|].
  assert (Hld : ∀ adds, (deleted = true ∨ gc_req rg a ∈ adds) →
    loop_done rg t t' (q' ++ adds) [a]).
  { intros adds Hadds. destruct Herr as [Hroot Htr _ Hb]. split.
    - by intros y ->%list_elem_of_singleton.
    - intros y ->%list_elem_of_singleton o Ho. destruct deleted; [congruence|].
      destruct Hroot as (o' & Ho' & Hterm). simplify_eq. split; [done|].
      apply elem_of_app; right. by destruct Hadds.
    - intros y z ->%list_elem_of_singleton Hz. eapply handled_progress; [apply progress_enqueue|].
      by apply Hb. }
  destruct deleted; cbn.
  - split; [done|]. split; [done|]. exists q'. split; [done|]. split; [done|]. split; [done|].
    specialize (Hld []). rewrite app_nil_r in Hld. apply Hld. by left.
  - unfold gcQueue_call. rewrite go_bind_eq. rewrite go_bind_eq. cbn [go_get]. rewrite Hq'. cbn.
    split; [by destruct Hc|]. split; [done|]. exists (q' ++ [gc_req rg a]). split; [done|]. split.
    { eapply progress_trans; [done|]. apply progress_enqueue. }
    split; [done|]. apply Hld. right. by left.
Qed.

Lemma delete_loop fuel rg l t q c :
  (∀ t r q c, wf_tracker t → garbageCollectorQueue c = Some q →
     delete_outcome rg t r q c fuel (doTryDeleteLocked fuel rg t (ref_gvk r) (ref_key r) c)) →
  wf_tracker t → garbageCollectorQueue c = Some q →
  loop_outcome rg t q c fuel l (go_for (delete_child fuel rg) l t c).
Proof.
  intros IHd. revert t q c. induction l as [|a l IH]; intros t q c Hwf Hq.
  { cbn. split; [done|]. split; [done|]. exists q. split; [done|]. split; [apply progress_refl|].
    split; [done|]. split; by intros ? ?%elem_of_nil || intros ? ? ?%elem_of_nil. }
  cbn [go_for]. rewrite go_bind_eq.
  assert (Ha := delete_child_outcome fuel rg t q c a IHd Hwf Hq).
  destruct (delete_child fuel rg a t c) as [[t1 err] c1| |]; cbn in Ha |- *; [|done|].
  2: { destruct Ha as (y & ->%list_elem_of_singleton & ?). exists a. split; [by left|done]. }
  destruct Ha as (Hc1 & Hwf1 & q1 & Hq1 & Hp1 & Hany1 & Herr1).
  destruct err as [e|]; cbn.
  { split; [done|]. split; [done|]. exists q1. split; [done|]. split; [done|]. split; [|done].
    intros x Hx. apply Hany1. intros y ->%list_elem_of_singleton. apply Hx. by left. }
  specialize (IH t1 q1 c1 Hwf1 Hq1).
  destruct (go_for (delete_child fuel rg) l t1 c1) as [[t2 err2] c2| |]; cbn in IH |- *; [|done|].
  2: { destruct IH as (y & Hy & Hb). exists y. split; [by right|]. intros Hb'. apply Hb.
       by eapply bounded_progress. }
  destruct IH as (Hc2 & Hwf2 & q2 & Hq2 & Hp2 & Hany2 & Herr2).
  split; [by etrans|]. split; [done|]. exists q2. split; [done|].
  split; [by eapply progress_trans|]. split.
  { intros x Hx. destruct (Hany1 x) as [Ht1 Ho1].
    { intros y ->%list_elem_of_singleton. apply Hx. by left. }
    destruct (Hany2 x) as [Ht2 Ho2].
    { intros y Hy Hyx. apply (Hx y); [by right|]. by eapply progress_rtc. }
    split; [congruence|]. intros b. by rewrite Ho2. }
  destruct err2 as [e2|]; [done|]. destruct Herr1 as [Htr1 Hh1 Hb1], Herr2 as [Htr2 Hh2 Hb2]. split.
  - intros y [-> |Hy]%elem_of_cons; [apply Htr1; by left|]. destruct (Htr2 y Hy) as [o Ho].
    assert (Hev := pg_evolves _ _ _ _ _ Hp1 y). rewrite Ho in Hev.
    destruct (tracked_ref t y); [by eexists|]. by apply evolves_None in Hev.
  - intros y [-> |Hy]%elem_of_cons; [|by apply Hh2]. eapply handled_progress; [done|].
    apply Hh1. by left.
  - intros y z [-> |Hy]%elem_of_cons Hyz.
    + eapply handled_progress; [done|]. eapply Hb1; [by left|done].
    + destruct (progress_tc _ _ _ _ _ _ _ Hp1 Hyz) as [?|?]; [by eapply Hb2|].
      by eapply handled_progress.
Qed.

(** What the loop and the removal of the owner's entry leave. *)
Lemma owns_delete t r a b :
  owns (set_ownedObjects (delete r (ownedObjects t)) t) a b ↔ a ≠ r ∧ owns t a b.
Proof.
  unfold owns, owns_in, set_ownedObjects. cbn [ownedObjects]. split.
  - by intros (s & [? ?]%lookup_delete_Some & ?); split; [|exists s].
  - intros (? & s & ? & ?). exists s. by rewrite lookup_delete_ne.
Qed.

Lemma wf_set_owned_delete t r : wf_tracker t → wf_tracker (set_ownedObjects (delete r (ownedObjects t)) t).
Proof.
  intros [Hwf Hne]. split; [exact Hwf|]. unfold set_ownedObjects; cbn [ownedObjects].
  intros a s [_ Hs]%lookup_delete_Some. by apply Hne in Hs.
Qed.

(** The children of [r] are handled and its entry is gone; then [r] goes too. *)
Definition children_done rg t q t1 q1 r : Prop :=
  wf_tracker t1 ∧
  (∀ x, evolves (tracked_ref t x) (tracked_ref t1 x)) ∧
  (∀ a b, owns t1 a b → owns t a b) ∧ (∀ b, ¬ owns t1 r b) ∧
  (∀ a b, owns t a b → owns t1 a b ∨ ∀ y, tc (owns t) a y → handled rg t1 q1 y) ∧
  (∃ adds, q1 = q ++ adds) ∧
  (∀ x, ¬ rtc (owns t) r x → tracked_ref t1 x = tracked_ref t x ∧ ∀ b, owns t1 x b ↔ owns t x b) ∧
  (∀ y, owns t r y → is_Some (tracked_ref t y)) ∧ (∀ y, tc (owns t) r y → handled rg t1 q1 y).

(** The object at [r] changes last. *)
Lemma children_done_root rg t q t1 q1 t2 r obj (deleted : bool) :
  children_done rg t q t1 q1 r → wf_tracker t2 → tracked_ref t r = Some obj →
  (∀ x, x ≠ r → tracked_ref t2 x = tracked_ref t1 x) → ownedObjects t2 = ownedObjects t1 →
  evolves (Some obj) (tracked_ref t2 r) →
  (tracked_ref t1 r = None → tracked_ref t2 r = None) →
  (if deleted then tracked_ref t2 r = None
   else ∃ o, tracked_ref t2 r = Some o ∧ terminating o) →
  progress rg t q t2 q1 ∧ changes_below t t2 r ∧ deleted_below rg t r t2 q1 deleted.
Proof.
  intros (_ & Hev & Hsub & _ & Hedges & Hadds & Hlocal & Htr & Hb) _ Hobj Hother Howned Hroot Hnone Hres.
  assert (Hterm : ∀ o, tracked_ref t2 r = Some o → terminating o).
  { destruct deleted; [congruence|]. destruct Hres as (o' & Ho' & ?). intros o Ho. congruence. }
  assert (Hh : ∀ y, handled rg t1 q1 y → handled rg t2 q1 y).
  { intros y Hy o Ho. destruct (decide (y = r)) as [->|Hne].
    - split; [by apply Hterm|]. destruct (tracked_ref t1 r) as [o1|] eqn:Ho1.
      + by apply (Hy o1).
      + rewrite Hnone in Ho by done. done.
    - apply Hy. by rewrite <- Hother. }
  assert (Howns : ∀ a b, owns t2 a b ↔ owns t1 a b) by (intros; unfold owns; by rewrite Howned).
  split; [|split].
  - split; [|..|done].
    + intros x. destruct (decide (x = r)) as [->|Hne]; [by rewrite Hobj|]. by rewrite Hother.
    + intros a b Hab%Howns. by apply Hsub.
    + intros a b Hab. destruct (Hedges a b Hab) as [?|?]; [left; by apply Howns|right; auto].
  - intros x Hx. destruct (Hlocal x Hx) as [Ht Ho]. split.
    + rewrite <- Ht. apply Hother. intros ->. apply Hx. apply rtc_refl.
    + intros b. by rewrite Howns, Ho.
  - split; [done|by rewrite Hobj|done|auto].
Qed.

(** After a loop that ended without an error. *)
Lemma loop_children_done rg t q t1 q1 r s :
  wf_tracker t1 → ownedObjects t !! r = Some s →
  progress rg t q t1 q1 → changes_below_any t t1 (set_range s) →
  loop_done rg t t1 q1 (set_range s) →
  children_done rg t q (set_ownedObjects (delete r (ownedObjects t1)) t1) q1 r.
Proof.
  intros Hwf Hs [Hev Hsub Hedges Hadds] Hany [Htr Hh Hb].
  assert (Hchild : ∀ y, owns t r y ↔ y ∈ set_range s).
  { intros y. rewrite elem_of_set_range. unfold owns, owns_in. rewrite Hs. split.
    - by intros (? & [= ->] & ?).
    - intros ?. by exists s. }
  assert (Hbelow : ∀ y, tc (owns t) r y → handled rg t1 q1 y).
  { intros y [Hy|(z & Hz & Hy)]%tc_inv_l; [by apply Hh, Hchild|].
    apply (Hb z); [by apply Hchild|done]. }
  split; [by apply wf_set_owned_delete|]. split; [done|].
  split; [by intros a b [_ ?]%owns_delete; auto|].
  split; [by intros b [? _]%owns_delete|]. split; [|split; [done|split; [|split; [|done]]]].
  - intros a b Hab. destruct (decide (a = r)) as [->|Hne]; [by right|].
    destruct (Hedges a b Hab) as [?|?]; [left; by apply owns_delete|by right].
  - intros x Hx. destruct (Hany x) as [Ht Ho].
    { intros y Hy Hyx. apply Hx. eapply rtc_l; [by apply Hchild|done]. }
    split; [done|]. intros b. rewrite owns_delete, Ho. split; [by intros []|]. intros ?. split; [|done].
    intros ->. apply Hx, rtc_refl.
  - intros y Hy. by apply Htr, Hchild.
Qed.

(** Without an entry there is nothing to do. *)
Lemma no_children_done rg t q r :
  wf_tracker t → ownedObjects t !! r = None → children_done rg t q t q r.
Proof.
  intros Hwf Hs. assert (Hno : ∀ b, ¬ owns t r b) by (intros b (? & ? & _); congruence).
  split; [done|]. split; [intros; constructor|]. split; [done|]. split; [done|].
  split; [by left|]. split; [exists []; by rewrite app_nil_r|]. split; [done|].
  split; [by intros y ?%Hno|]. intros y Hy. exfalso.
  apply tc_inv_l in Hy as [?|(z & ? & _)]; by eapply Hno.
Qed.

Lemma tracked_ref_track gvk key obj t x :
  is_Some (tracked_ref t (OwnRef gvk key)) →
  tracked_ref (track gvk key obj t) x = if decide (x = OwnRef gvk key) then Some obj else tracked_ref t x.
Proof.
  unfold tracked_ref. intros [o Ho]. rewrite tracked_track.
  destruct (tracked_is_Some_objects _ _ _ _ Ho) as [objs Hobjs]. cbn in Hobjs. rewrite Hobjs.
  destruct x as [g k]; cbn. destruct (decide (gvk = g ∧ key = k)) as [[-> ->]|Hne].
  - by rewrite decide_True.
  - rewrite decide_False; [done|]. intros [= -> ->]. by destruct Hne.
Qed.

Lemma tracked_ref_untrack gvk key t x :
  tracked_ref (untrack gvk key t) x = if decide (x = OwnRef gvk key) then None else tracked_ref t x.
Proof.
  unfold tracked_ref. rewrite tracked_untrack. destruct x as [g k]; cbn.
  destruct (decide (gvk = g ∧ key = k)) as [[-> ->]|Hne].
  - by rewrite decide_True.
  - rewrite decide_False; [done|]. intros [= -> ->]. by destruct Hne.
Qed.

Lemma wf_track gvk key obj t : wf_tracker t → object_wf gvk key obj → wf_tracker (track gvk key obj t).
Proof.
  intros [Hwf Hne] Hobj. split; [|exact Hne]. intros g k o. rewrite tracked_track.
  case_decide as Heq; [|by apply Hwf]. destruct Heq as [<- <-].
  destruct (objects t !! gvk); [|done]. by intros [= <-].
Qed.

Lemma wf_untrack gvk key t : wf_tracker t → wf_tracker (untrack gvk key t).
Proof.
  intros [Hwf Hne]. split; [|exact Hne]. intros g k o. rewrite tracked_untrack.
  case_decide; [done|by apply Hwf].
Qed.

(** The end, after the children. *)
Lemma delete_end rg t q t1 q1 r obj c c1 n :
  children_done rg t q t1 q1 r → tracked_ref t r = Some obj → object_wf (ref_gvk r) (ref_key r) obj →
  same_config c c1 → garbageCollectorQueue c1 = Some q1 →
  delete_outcome rg t r q c n (markOrRemove rg t1 (ref_gvk r) (ref_key r) obj c1).
Proof.
  intros Hdone Hobj Howf Hc Hq1. assert (Hwf1 := proj1 Hdone).
  assert (Hev := proj1 (proj2 Hdone) r). rewrite Hobj in Hev.
  assert (Hr : OwnRef (ref_gvk r) (ref_key r) = r) by (by destruct r).
  destruct (markOrRemove_spec rg t1 (ref_gvk r) (ref_key r) obj c1)
    as [(k & -> & Hf & Hz)|[[-> Hterm]|[-> Hf]]]; cbn.
  - assert (Hmark := marked_object_marked _ (time_Now (S (ticks c1))) _
      (time_Now_nonzero (ticks c1)) Hf Hz).
    set (obj' := marked_object _ _ obj) in *.
    assert (Htr : is_Some (tracked_ref t1 (OwnRef (ref_gvk r) (ref_key r)))).
    { rewrite Hr. inversion Hev as [|? Hf'|]; [by eexists|done|by eexists]. }
    assert (Hwf2 : wf_tracker (track (ref_gvk r) (ref_key r) obj' t1)).
    { apply wf_track; [done|]. by apply marked_object_wf. }
    split; [by etrans; [|apply same_config_notify]|]. split; [done|]. exists q1.
    split; [by rewrite notify_frame|].
    eapply (children_done_root _ _ _ _ _ _ _ _ false); [done..| | | | |];
      try (intros x; rewrite tracked_ref_track, Hr by done; intros; by rewrite decide_False);
      rewrite ?tracked_ref_track, ?Hr, ?decide_True by done.
    + done.
    + by constructor.
    + rewrite Hr in Htr. intros Heq. rewrite Heq in Htr. by destruct Htr.
    + exists obj'. split; [done|]. destruct Hmark. split; [congruence|done].
  - apply evolves_terminating in Hev as Heq; [|done].
    split; [done|]. split; [done|]. exists q1. split; [done|].
    eapply (children_done_root _ _ _ _ _ _ _ _ false); try done. by exists obj.
  - split; [done|]. split; [by apply wf_untrack|]. exists q1. split; [done|].
    eapply (children_done_root _ _ _ _ _ _ _ _ true); try done;
      [by apply wf_untrack|intros x; rewrite tracked_ref_untrack, Hr; intros; by rewrite decide_False|..];
      rewrite tracked_ref_untrack, Hr, decide_True by done; [by constructor|done..].
Qed.

(** The contract holds at every depth. *)
Lemma doTryDeleteLocked_outcome fuel rg t r q c :
  wf_tracker t → garbageCollectorQueue c = Some q →
  delete_outcome rg t r q c fuel (doTryDeleteLocked fuel rg t (ref_gvk r) (ref_key r) c).
Proof.
  revert t r q c. induction fuel as [|fuel IH]; intros t r q c Hwf Hq; [cbn; by inversion 1|].
  cbn [doTryDeleteLocked]. change (tracked t (ref_gvk r) (ref_key r)) with (tracked_ref t r).
  destruct (tracked_ref t r) as [obj|] eqn:Hobj.
  2: { split; [done|]. split; [done|]. exists q. split; [done|]. split; [apply progress_refl|]. done. }
  assert (Hr : OwnRef (ref_gvk r) (ref_key r) = r) by (by destruct r). rewrite Hr.
  assert (Howf : object_wf (ref_gvk r) (ref_key r) obj) by (by apply Hwf).
  rewrite go_bind_eq. destruct (ownedObjects t !! r) as [s|] eqn:Hs.
  2: { cbn [mret go_ret]. eapply delete_end; [by apply no_children_done|done..]. }
  rewrite go_bind_eq. fold (delete_child fuel rg).
  assert (Hloop := delete_loop fuel rg (set_range s) t q c (λ t r q c, IH t r q c) Hwf Hq).
  change (go_for _ (set_range s) t c) with (go_for (delete_child fuel rg) (set_range s) t c).
  destruct (go_for (delete_child fuel rg) (set_range s) t c) as [[t1 [e|]] c1| |];
    cbn in Hloop |- *; [| |done|].
  - destruct Hloop as (Hc & Hwf1 & q1 & Hq1 & Hp & Hany & He). split; [done|]. split; [done|].
    exists q1. split; [done|]. split; [done|]. split; [|done]. intros x Hx. apply Hany.
    intros y Hy Hyx. apply Hx. eapply rtc_l; [|done]. exists s. by rewrite <- elem_of_set_range.
  - destruct Hloop as (Hc & Hwf1 & q1 & Hq1 & Hp & Hany & He).
    eapply delete_end; [by eapply loop_children_done|done..].
  - destruct Hloop as (y & Hy & Hb). intros Hb'. apply Hb. inversion Hb' as [? ? Hall]; subst.
    apply Hall. exists s. by rewrite <- elem_of_set_range.
Qed.

Lemma bounded_le t n m r : n ≤ m → bounded t n r → bounded t m r.
Proof.
  intros Hle Hb. revert m Hle. induction Hb as [n r _ IH]. intros m Hle.
  destruct m as [|m]; [lia|]. constructor. intros x Hx. apply IH; [done|lia].
Qed.

(** The recursion on an object that is its only child. *)
Lemma self_owned_diverges fuel rg t r o c :
  tracked_ref t r = Some o → ownedObjects t !! r = Some {[r]} →
  doTryDeleteLocked fuel rg t (ref_gvk r) (ref_key r) c = OutOfFuel.
Proof.
  intros Ho Hs. revert c. induction fuel as [|fuel IH]; intros c; [done|].
  cbn [doTryDeleteLocked]. change (tracked t (ref_gvk r) (ref_key r)) with (tracked_ref t r).
  replace (OwnRef (ref_gvk r) (ref_key r)) with r by (by destruct r).
  rewrite Ho, go_bind_eq, Hs, go_bind_eq.
  replace (set_range {[r]}) with [r].
  2: { symmetry. apply Permutation_singleton_r. by rewrite set_range_perm, elements_singleton. }
  cbn [go_for]. rewrite !go_bind_eq. by rewrite IH.
Qed.

(** ** When every object has one owner *)
Record forest (t : resourceGroupTracker) : Prop := {
  fo_acyclic : ∀ x, ¬ tc (owns t) x x;
  fo_unique : ∀ a b x, owns t a x → owns t b x → a = b }.

Definition tracked_below (t : resourceGroupTracker) (r : ownReference) : Prop :=
  ∀ x, rtc (owns t) r x → is_Some (tracked_ref t x).

Lemma forest_comparable t y z x :
  forest t → rtc (owns t) y x → rtc (owns t) z x → rtc (owns t) y z ∨ rtc (owns t) z y.
Proof.
  intros Hf Hyx. revert z. revert x Hyx. refine (rtc_ind_r (λ x, ∀ z, _) y _ _).
  - intros z Hz. by right.
  - intros x w Hyx Hxw IH z Hz. apply rtc_inv_r in Hz as [->|(v & Hzv & Hvw)].
    + left. by eapply rtc_r.
    + apply IH. by rewrite (fo_unique _ Hf _ _ _ Hxw Hvw).
Qed.

Lemma forest_disjoint t r y z x :
  forest t → owns t r y → owns t r z → rtc (owns t) y x → rtc (owns t) z x → y = z.
Proof.
  intros Hf. assert (Hone : ∀ y z, owns t r y → owns t r z → rtc (owns t) y z → y = z).
  { intros a b Ha Hb Hab. apply rtc_inv_r in Hab as [->|(p & Hap & Hpb)]; [done|].
    rewrite (fo_unique _ Hf _ _ _ Hpb Hb) in Hap. destruct (fo_acyclic _ Hf r).
    apply tc_rtc_r with a; [by apply tc_once|done]. }
  intros Hy Hz Hyx Hzx. destruct (forest_comparable _ _ _ _ Hf Hyx Hzx); [|symmetry]; eauto.
Qed.

Lemma forest_progress rg t q t' q' : progress rg t q t' q' → forest t → forest t'.
Proof.
  intros Hp [Ha Hu]. assert (Hsub := pg_owns _ _ _ _ _ Hp). split.
  - intros x Hx. apply (Ha x). by eapply tc_congruence with (f := id) in Hx.
  - eauto.
Qed.

(** The subtrees still to visit are tracked, and do not meet. *)
Definition ready (t : resourceGroupTracker) (l : list ownReference) : Prop :=
  (∀ y, y ∈ l → tracked_below t y) ∧
  (∀ y z x, y ∈ l → z ∈ l → rtc (owns t) y x → rtc (owns t) z x → y = z).

Lemma ready_progress rg t q t' q' a l :
  a ∉ l → ready t (a :: l) → progress rg t q t' q' → changes_below_any t t' [a] → ready t' l.
Proof.
  intros Ha [Htr Hdis] Hp Hany. split.
  - intros y Hy x Hx%(progress_rtc _ _ _ _ _ _ _ Hp). destruct (Hany x) as [-> _].
    + intros w ->%list_elem_of_singleton Hax.
      assert (a = y) as -> by (eapply Hdis; [by left|by right|done..]). done.
    + eapply Htr; [by right|done].
  - intros y z x Hy Hz Hyx%(progress_rtc _ _ _ _ _ _ _ Hp) Hzx%(progress_rtc _ _ _ _ _ _ _ Hp).
    eapply Hdis; [by right|by right|done..].
Qed.

Lemma forest_loop_no_error fuel rg l t q c t' e c' :
  (∀ t r q c t' d e c', wf_tracker t → garbageCollectorQueue c = Some q → forest t →
     tracked_below t r →
     doTryDeleteLocked fuel rg t (ref_gvk r) (ref_key r) c = Done (t', (d, e)) c' → e = None) →
  wf_tracker t → garbageCollectorQueue c = Some q → forest t → NoDup l → ready t l →
  go_for (delete_child fuel rg) l t c = Done (t', e) c' → e = None.
Proof.
  intros IHd. revert t q c. induction l as [|a l IH]; intros t q c Hwf Hq Hf Hnodup Hready Hrun.
  { cbn in Hrun. go_unfold_in Hrun. by simplify_eq. }
  apply NoDup_cons in Hnodup as [Hal Hnodup]. cbn [go_for] in Hrun. rewrite go_bind_eq in Hrun.
  assert (Ha := delete_child_outcome fuel rg t q c a
    (λ t r q c, doTryDeleteLocked_outcome fuel rg t r q c) Hwf Hq).
  assert (Hnone : ∀ t1 e1 c1, delete_child fuel rg a t c = Done (t1, e1) c1 → e1 = None).
  { unfold delete_child. intros t1 e1 c1. rewrite go_bind_eq.
    destruct (doTryDeleteLocked _ _ _ _ _ c) as [[t2 [d2 e2]] c2| |] eqn:Hd; [|done..].
    eapply IHd in Hd as ->; [|done..|apply Hready; by left]. cbn beta iota.
    intros Hrun1. destruct d2; [|unfold gcQueue_call in Hrun1]; by go_run Hrun1. }
  destruct (delete_child fuel rg a t c) as [[t1 e1] c1| |]; [|done..].
  rewrite (Hnone _ _ _ eq_refl) in Ha, Hrun.
  destruct Ha as (_ & Hwf1 & q1 & Hq1 & Hp & Hany & _).
  eapply IH; [done|done|by eapply forest_progress|done|by eapply ready_progress|done].
Qed.

Lemma forest_no_error fuel rg t r q c t' d e c' :
  wf_tracker t → garbageCollectorQueue c = Some q → forest t → tracked_below t r →
  doTryDeleteLocked fuel rg t (ref_gvk r) (ref_key r) c = Done (t', (d, e)) c' → e = None.
Proof.
  revert t r q c t' d e c'. induction fuel as [|fuel IH]; intros t r q c t' d e c'; [done|].
  intros Hwf Hq Hf Htr. cbn [doTryDeleteLocked].
  change (tracked t (ref_gvk r) (ref_key r)) with (tracked_ref t r).
  destruct (Htr r (rtc_refl _ _)) as [o Ho]. rewrite Ho.
  replace (OwnRef (ref_gvk r) (ref_key r)) with r by (by destruct r). rewrite go_bind_eq.
  assert (Hend : ∀ t1 c1, markOrRemove rg t1 (ref_gvk r) (ref_key r) o c1 = Done (t', (d, e)) c' →
    e = None).
  { intros t1 c1. destruct (markOrRemove_spec rg t1 (ref_gvk r) (ref_key r) o c1)
      as [(k & -> & _)|[[-> _]|[-> _]]]; by intros [= _ _ <- _]. }
  destruct (ownedObjects t !! r) as [s|] eqn:Hs; [|by apply Hend].
  rewrite go_bind_eq.
  change (go_for _ (set_range s) t c) with (go_for (delete_child fuel rg) (set_range s) t c).
  assert (Hin : ∀ y, y ∈ set_range s → owns t r y).
  { intros y Hy. exists s. by rewrite <- elem_of_set_range. }
  destruct (go_for (delete_child fuel rg) (set_range s) t c) as [[t1 e1] c1| |] eqn:Hloop; [|done..].
  eapply forest_loop_no_error in Hloop as ->; [by apply Hend|exact IH|done|done|done| |].
  - auto with goofy.
  - split.
    + intros y Hy x Hx. apply Htr. eapply rtc_l; [by apply Hin|done].
    + intros y z x Hy Hz. apply (forest_disjoint t r); auto.
Qed.

(** ** tryDelete and Delete *)
Definition with_tracker rg t c : cache H HS :=
  set_resourceGroups (<[rg := t]> (resourceGroups c)) c.

Record delete_accepts rg (obj : Object) gvk t c : Prop := {
  da_rg : rg ≠ "";
  da_name : GetName obj ≠ "";
  da_gvk : scheme_GVKForObject (obj_body obj) (obj_gvk obj) = inl gvk;
  da_tracker : resourceGroups c !! rg = Some t }.

(** What the caller of tryDelete sees. *)
Definition tryDelete_outcome rg t r q c n (x : res (cache H HS) (bool * option APIError)) : Prop :=
  match x with
  | Done (deleted, err) c' =>
      ∃ t' q', resourceGroups c' = <[rg := t']> (resourceGroups c) ∧
        same_config (with_tracker rg t' c) c' ∧ wf_tracker t' ∧
        garbageCollectorQueue c' = Some q' ∧ progress rg t q t' q' ∧ changes_below t t' r ∧
        match err with
        | Some e => IsNotFound e = true
        | None => deleted_below rg t r t' q' deleted
        end
  | Panicked _ => False
  | OutOfFuel => ¬ bounded t n r
  end.

Lemma tryDelete_ok fuel rg t r q c :
  wf_tracker t → resourceGroups c !! rg = Some t → garbageCollectorQueue c = Some q →
  tryDelete_outcome rg t r q c fuel (tryDelete fuel rg (ref_gvk r) (ref_key r) c).
Proof.
  intros Hwf Ht Hq. unfold tryDelete. rewrite go_bind_eq. cbn [go_get]. unfold get_tracker.
  rewrite Ht, go_bind_eq.
  assert (Hout := doTryDeleteLocked_outcome fuel rg t r q c Hwf Hq).
  destruct (doTryDeleteLocked _ _ _ _ _ c) as [[t' [deleted err]] c'| |]; cbn in Hout |- *; [|done..].
  destruct Hout as (Hc & Hwf' & q' & Hq' & Hp & Hbelow & He). exists t', q'.
  destruct Hc as [Hg ? ? ? ? ? ?]. rewrite Hg. split; [done|]. split; [by split|]. done.
Qed.

(** Delete, for arguments it accepts. *)
Definition Delete_outcome rg t r q c n (x : res (cache H HS) (option Object * option APIError))
  : Prop :=
  match x with
  | Done (_, err) c' =>
      ∃ t' q', resourceGroups c' = <[rg := t']> (resourceGroups c) ∧ wf_tracker t' ∧
        garbageCollectorQueue c' = Some q' ∧ progress rg t q t' q' ∧ changes_below t t' r ∧
        match err with
        | Some e => IsNotFound e = true
        | None => ∃ deleted, deleted_below rg t r t' q' deleted ∧ handled rg t' q' r
        end
  | Panicked _ => False
  | OutOfFuel => ¬ bounded t n r
  end.

Definition del_ref (gvk : GroupVersionKind) (obj : Object) : ownReference :=
  OwnRef gvk (ObjectKeyFromObject obj).

Lemma Delete_ok fuel rg obj gvk t q c :
  wf_cache c → delete_accepts rg obj gvk t c → garbageCollectorQueue c = Some q →
  Delete_outcome rg t (del_ref gvk obj) q c fuel (Delete fuel rg (Some obj) c).
Proof.
  intros Hwf [Hrg Hn Hg Ht] Hq. unfold Delete. rewrite !decide_False by done.
  unfold gvkGetAndSet. rewrite Hg, go_bind_eq.
  assert (Hout := tryDelete_ok fuel rg t (del_ref gvk obj) q c (Hwf _ _ Ht) Ht Hq).
  change (tryDelete fuel rg gvk (ObjectKeyFromObject (SetGroupVersionKind gvk obj)) c)
    with (tryDelete fuel rg (ref_gvk (del_ref gvk obj)) (ref_key (del_ref gvk obj)) c).
  destruct (tryDelete _ _ _ _ c) as [[deleted err] c'| |]; cbn in Hout |- *; [|done..].
  destruct Hout as (t' & q' & Hg' & Hc & Hwf' & Hq' & Hp & Hbelow & He).
  destruct err as [e|]; [destruct deleted; cbn; by exists t', q'|].
  destruct deleted; cbn.
  - exists t', q'. do 5 (split; [done|]). exists true. split; [done|]. intros o Ho.
    destruct He as [Hroot _ _ _]. congruence.
  - unfold gcQueue_call. rewrite !go_bind_eq. cbn [go_get]. rewrite Hq'. cbn.
    set (req := QAdd _). assert (Hpq : progress rg t q t' (q' ++ [req])).
    { eapply progress_trans; [done|apply progress_enqueue]. }
    exists t', (q' ++ [req]). do 5 (split; [done|]). exists false. split.
    + destruct He as [? ? ? Hb]. split; [done..|]. intros y Hy.
      eapply handled_progress; [apply progress_enqueue|by apply Hb].
    + intros o Ho. destruct He as [(o' & Ho' & Hterm) _ _ _]. simplify_eq. split; [done|].
      apply elem_of_app; right; by left.
Qed.

Lemma Delete_wf fuel rg obj c r c' :
  wf_cache c → is_Some (garbageCollectorQueue c) → Delete fuel rg obj c = Done r c' → wf_cache c'.
Proof.
  intros Hwf [q Hq] Hrun. destruct obj as [obj|]; unfold Delete in Hrun.
  2: { destruct (decide (rg = "")); by go_unfold_in Hrun; simplify_eq. }
  destruct (decide (rg = "")) as [|Hrg]; [by go_unfold_in Hrun; simplify_eq|].
  destruct (decide (GetName obj = "")) as [|Hn]; [by go_unfold_in Hrun; simplify_eq|].
  unfold gvkGetAndSet in Hrun.
  destruct (scheme_GVKForObject (obj_body obj) (obj_gvk obj)) as [gvk|] eqn:Hg; [|by go_unfold_in Hrun; simplify_eq].
  destruct (resourceGroups c !! rg) as [t|] eqn:Ht.
  - assert (Hacc : delete_accepts rg obj gvk t c) by done.
    assert (Hok := Delete_ok fuel rg obj gvk t q c Hwf Hacc Hq). unfold Delete in Hok.
    rewrite !decide_False in Hok by done. unfold gvkGetAndSet in Hok. rewrite Hg, Hrun in Hok.
    destruct r as [? err]. destruct Hok as (t' & q' & Hgr & Hwf' & _).
    by eapply wf_cache_insert.
  - rewrite go_bind_eq in Hrun. unfold tryDelete, get_tracker in Hrun. rewrite go_bind_eq in Hrun.
    cbn [go_get] in Hrun. rewrite Ht in Hrun. by go_unfold_in Hrun; simplify_eq.
Qed.
End delete.

(** ** Special cases *)
Section cases.
Context {H HS : Type} {E : Env} {L : EnvLaws E} {Hhandler : InformEventHandler H HS}.
Implicit Types c : cache H HS.

(** The recursion fails on a child that is not tracked, before the owner changes. *)
Lemma stale_child_error fuel rg t r q c y o t' d e c' :
  wf_tracker t → garbageCollectorQueue c = Some q → tracked_ref t r = Some o →
  ¬ tc (owns t) r r → owns t r y → tracked_ref t y = None →
  doTryDeleteLocked fuel rg t (ref_gvk r) (ref_key r) c = Done (t', (d, e)) c' →
  is_Some e ∧ tracked_ref t' r = Some o ∧ owns t' r y ∧ tracked_ref t' y = None.
Proof.
  intros Hwf Hq Ho Hacyclic Hy Hgone. destruct fuel as [|fuel]; [done|]. cbn [doTryDeleteLocked].
  change (tracked t (ref_gvk r) (ref_key r)) with (tracked_ref t r). rewrite Ho.
  replace (OwnRef (ref_gvk r) (ref_key r)) with r by (by destruct r). rewrite go_bind_eq.
  destruct (Hy) as (s & Hs & Hin). rewrite Hs, go_bind_eq.
  change (go_for _ (set_range s) t c) with (go_for (delete_child fuel rg) (set_range s) t c).
  assert (Hloop := delete_loop fuel rg (set_range s) t q c
    (λ t r q c, doTryDeleteLocked_outcome fuel rg t r q c) Hwf Hq).
  destruct (go_for (delete_child fuel rg) (set_range s) t c) as [[t1 [e1|]] c1| |]; [|..|done|done].
  - intros [= <- _ <- _]. destruct Hloop as (_ & _ & q1 & _ & [Hev _ _ _] & Hany & _).
    destruct (Hany r) as [Htr Howns].
    { intros z Hz Hzr. apply Hacyclic. apply tc_rtc_r with z; [|done]. apply tc_once.
      exists s. by rewrite <- elem_of_set_range. }
    split; [by eexists|]. split; [by rewrite Htr|]. split; [by apply Howns|].
    specialize (Hev y). rewrite Hgone in Hev. by apply evolves_None.
  - destruct Hloop as (_ & _ & q1 & _ & _ & _ & [Htr _ _]). exfalso.
    destruct (Htr y) as [x Hx]; [by apply elem_of_set_range|congruence].
Qed.

(** The two outcomes for an object with finalizers that owns nothing. *)
Lemma doTryDelete_leaf fuel rg t r o c :
  ownedObjects t !! r = None → tracked_ref t r = Some o →
  doTryDeleteLocked (S fuel) rg t (ref_gvk r) (ref_key r) c =
    markOrRemove rg t (ref_gvk r) (ref_key r) o c.
Proof.
  intros Hs Ho. cbn [doTryDeleteLocked].
  change (tracked t (ref_gvk r) (ref_key r)) with (tracked_ref t r).
  replace (OwnRef (ref_gvk r) (ref_key r)) with r by (by destruct r).
  rewrite Ho, go_bind_eq, Hs. done.
Qed.

Definition enqueued rg r q c : cache H HS := set_garbageCollectorQueue (Some (q ++ [gc_req rg r])) c.

Lemma Delete_leaf fuel rg obj gvk t q c o :
  delete_accepts rg obj gvk t c → ownedObjects t !! del_ref gvk obj = None →
  tracked_ref t (del_ref gvk obj) = Some o →
  ∀ t' c', markOrRemove rg t gvk (ObjectKeyFromObject obj) o c = Done (t', (false, None)) c' →
  garbageCollectorQueue c' = Some q →
  Delete (S fuel) rg (Some obj) c = Done (Some (SetGroupVersionKind gvk obj), None)
    (enqueued rg (del_ref gvk obj) q (with_tracker rg t' c')).
Proof.
  intros [Hrg Hn Hg Ht] Hs Ho t' c' Hrun Hq. unfold Delete. rewrite !decide_False by done.
  unfold gvkGetAndSet. rewrite Hg, go_bind_eq. unfold tryDelete. rewrite go_bind_eq.
  cbn [go_get]. unfold get_tracker. rewrite Ht, go_bind_eq.
  change (doTryDeleteLocked (S fuel) rg t gvk (ObjectKeyFromObject (SetGroupVersionKind gvk obj)) c)
    with (doTryDeleteLocked (S fuel) rg t (ref_gvk (del_ref gvk obj)) (ref_key (del_ref gvk obj)) c).
  rewrite (doTryDelete_leaf _ _ _ _ o) by done. unfold del_ref at 1 2. cbn [ref_gvk ref_key].
  rewrite Hrun. cbn. rewrite go_bind_eq. cbn.
  rewrite go_bind_eq, (gcQueue_call_eq _ _ q) by done. done.
Qed.

Lemma Delete_leaf_terminating fuel rg obj gvk t q c o :
  delete_accepts rg obj gvk t c → garbageCollectorQueue c = Some q →
  ownedObjects t !! del_ref gvk obj = None → tracked_ref t (del_ref gvk obj) = Some o →
  terminating o →
  ∃ r, Delete (S fuel) rg (Some obj) c = Done (r, None)
    (enqueued rg (del_ref gvk obj) q (with_tracker rg t c)).
Proof.
  intros Hacc Hq Hs Ho [Hf Hz]. eexists. eapply Delete_leaf; [done..| |done].
  unfold markOrRemove. rewrite Hz. by destruct (GetFinalizers o).
Qed.

Lemma Delete_leaf_marks fuel rg obj gvk t q c o :
  delete_accepts rg obj gvk t c → garbageCollectorQueue c = Some q →
  ownedObjects t !! del_ref gvk obj = None → tracked_ref t (del_ref gvk obj) = Some o →
  GetFinalizers o ≠ [] → TimePtr_IsZero (GetDeletionTimestamp o) = true →
  let o1 := marked_object (time_Now (ticks c)) (time_Now (S (ticks c))) o in
  ∃ r c1 k, Delete (S fuel) rg (Some obj) c = Done (r, None) c1 ∧
    c1 = enqueued rg (del_ref gvk obj) q
      (set_resourceGroups
        (<[rg := track gvk (ObjectKeyFromObject obj) o1 t]> (resourceGroups c))
        (notify rg (NotifyDelete o1) (set_ticks k c))).
Proof.
  intros Hacc Hq Hs Ho Hf Hz o1.
  destruct (markOrRemove_spec rg t gvk (ObjectKeyFromObject obj) o c)
    as [(k & Hrun & _)|[[_ [_ ?]]|[_ ?]]]; [|congruence|done].
  fold o1 in Hrun. do 2 eexists. exists k. split.
  - eapply Delete_leaf; [done..|exact Hrun|by rewrite notify_frame].
  - assert (Hmk : marked o o1) by (by apply marked_object_marked; [apply time_Now_nonzero|..]).
    unfold update_notification. rewrite Hz, (mk_set _ _ Hmk). cbn [negb andb]. unfold with_tracker.
    by rewrite (resourceGroups_notify rg (NotifyDelete o1) (set_ticks k c)).
Qed.
End cases.

(** ** Properties of Delete *)
Section properties.
Context {H HS : Type} {E : Env} {L : EnvLaws E} {Hhandler : InformEventHandler H HS}.
Implicit Types c : cache H HS.

(** C14: a successful Delete cascades: the object and all that it owns, directly or
    through others, are gone from the tracker or, where they have finalizers, are
    marked for deletion and queued for the garbage collector; every object that is
    not below the deleted one, and every other resource group, is as before. *)
Theorem delete_cascades fuel rg obj gvk t q c r c' :
  wf_cache c → delete_accepts rg obj gvk t c → garbageCollectorQueue c = Some q →
  Delete fuel rg (Some obj) c = Done (r, None) c' →
  ∃ t' q', resourceGroups c' = <[rg := t']> (resourceGroups c) ∧
    garbageCollectorQueue c' = Some q' ∧
    (∀ x, rtc (owns t) (del_ref gvk obj) x →
       tracked_ref t' x = None ∨
       ∃ o, tracked_ref t' x = Some o ∧ GetFinalizers o ≠ [] ∧
         TimePtr_IsZero (GetDeletionTimestamp o) = false ∧ gc_req rg x ∈ q') ∧
    (∀ x, ¬ rtc (owns t) (del_ref gvk obj) x →
       tracked_ref t' x = tracked_ref t x ∧ ∀ y, owns t' x y ↔ owns t x y).
Proof.
  intros Hwf Hacc Hq Hrun. assert (Hok := Delete_ok fuel rg obj gvk t q c Hwf Hacc Hq).
  rewrite Hrun in Hok.
  destruct Hok as (t' & q' & Hg & _ & Hq' & _ & Hbelow & deleted & [_ _ _ Htc] & Hroot).
  exists t', q'. split; [done|]. split; [done|]. split; [|done].
  intros x Hx. assert (Hh : handled rg t' q' x).
  { apply rtc_tc in Hx as [<-|Hx]; [done|by apply Htc]. }
  destruct (tracked_ref t' x) as [o|] eqn:Ho; [right|by left].
  destruct (Hh o Ho) as [[Hf Hd] Hin]. by exists o.
Qed.

(** C19: finalizers are respected: whatever a Delete does, and even when it fails
    half-way, an object with finalizers stays in the tracker with its finalizers
    and owners, unchanged or marked for deletion for the first time; an object
    without finalizers stays unchanged or goes; and no object appears. *)
Theorem delete_respects_finalizers fuel rg obj gvk t q c r e c' :
  wf_cache c → delete_accepts rg obj gvk t c → garbageCollectorQueue c = Some q →
  Delete fuel rg (Some obj) c = Done (r, e) c' →
  ∃ t', resourceGroups c' = <[rg := t']> (resourceGroups c) ∧
    ∀ x, match tracked_ref t x with
         | None => tracked_ref t' x = None
         | Some o =>
             (GetFinalizers o ≠ [] → ∃ o', tracked_ref t' x = Some o' ∧ (o' = o ∨
                TimePtr_IsZero (GetDeletionTimestamp o) = true ∧
                TimePtr_IsZero (GetDeletionTimestamp o') = false ∧
                GetFinalizers o' = GetFinalizers o ∧
                GetOwnerReferences o' = GetOwnerReferences o)) ∧
             (GetFinalizers o = [] → tracked_ref t' x = Some o ∨ tracked_ref t' x = None)
         end.
Proof.
  intros Hwf Hacc Hq Hrun. assert (Hok := Delete_ok fuel rg obj gvk t q c Hwf Hacc Hq).
  rewrite Hrun in Hok. destruct Hok as (t' & q' & Hg & _ & _ & [Hev _ _ _] & _).
  exists t'. split; [done|]. intros x. specialize (Hev x).
  destruct (tracked_ref t x) as [o|]; [|by apply evolves_None].
  inversion Hev as [|? Hf|? o' [Hf Hz Hs Hfin Hown]]; subst.
  - split; [intros _; exists o; by split; [|left]|by left].
  - split; [done|by right].
  - split; [intros _; exists o'|done]. split; [done|]. right. done.
Qed.

(** C15: when ownership has no cycle, a Delete with recursion depth above the number
    of owners returns; it never panics once the garbage collector's queue exists. *)
Theorem delete_terminates fuel rg obj gvk t q c :
  wf_cache c → delete_accepts rg obj gvk t c → garbageCollectorQueue c = Some q →
  (∀ x, ¬ tc (owns t) x x) → (size (ownedObjects t) < fuel)%nat →
  ∃ r c', Delete fuel rg (Some obj) c = Done r c'.
Proof.
  intros Hwf Hacc Hq Hacyclic Hfuel. assert (Hok := Delete_ok fuel rg obj gvk t q c Hwf Hacc Hq).
  destruct (Delete fuel rg (Some obj) c) as [r c'| |]; [by exists r, c'|done|].
  destruct Hok. apply (bounded_le t (S (size (ownedObjects t)))); [lia|].
  by apply acyclic_bounded.
Qed.

(** An object that owns itself can never be deleted: the recursion visits it
    again before its entry is removed, whatever the depth. *)
Theorem delete_of_own_owner_diverges fuel rg obj gvk t c o :
  delete_accepts rg obj gvk t c → tracked_ref t (del_ref gvk obj) = Some o →
  ownedObjects t !! del_ref gvk obj = Some {[del_ref gvk obj]} →
  Delete fuel rg (Some obj) c = OutOfFuel.
Proof.
  intros [Hrg Hn Hg Ht] Ho Hself. unfold Delete. rewrite !decide_False by done.
  unfold gvkGetAndSet. rewrite Hg, go_bind_eq. unfold tryDelete. rewrite go_bind_eq.
  cbn [go_get]. unfold get_tracker. rewrite Ht, go_bind_eq.
  change (ObjectKeyFromObject (SetGroupVersionKind gvk obj)) with (ObjectKeyFromObject obj).
  rewrite (self_owned_diverges fuel rg t (del_ref gvk obj) o c Ho Hself : 
    doTryDeleteLocked fuel rg t gvk (ObjectKeyFromObject obj) c = _). done.
Qed.

(** C38: when each object has at most one owner, ownership has no cycle and all that
    is below the object is tracked, Delete succeeds, with recursion depth above
    the number of owners. *)
Theorem delete_of_forest_succeeds fuel rg obj gvk t q c :
  wf_cache c → delete_accepts rg obj gvk t c → garbageCollectorQueue c = Some q →
  forest t → tracked_below t (del_ref gvk obj) → (size (ownedObjects t) < fuel)%nat →
  ∃ r c', Delete fuel rg (Some obj) c = Done (r, None) c'.
Proof.
  intros Hwf Hacc Hq Hf Htr Hfuel. assert (Hok := Delete_ok fuel rg obj gvk t q c Hwf Hacc Hq).
  destruct Hacc as [Hrg Hn Hg Ht].
  destruct (Delete fuel rg (Some obj) c) as [[r e] c'| |] eqn:Hrun; [|done|].
  2: { destruct Hok. apply (bounded_le t (S (size (ownedObjects t)))); [lia|].
       apply acyclic_bounded, Hf. }
  exists r, c'. revert Hrun. unfold Delete. rewrite !decide_False by done.
  unfold gvkGetAndSet. rewrite Hg, go_bind_eq. unfold tryDelete at 1. rewrite go_bind_eq.
  cbn [go_get]. unfold get_tracker. rewrite Ht, go_bind_eq.
  change (doTryDeleteLocked fuel rg t gvk (ObjectKeyFromObject (SetGroupVersionKind gvk obj)) c)
    with (doTryDeleteLocked fuel rg t (ref_gvk (del_ref gvk obj)) (ref_key (del_ref gvk obj)) c).
  destruct (doTryDeleteLocked _ _ _ _ _ c) as [[t' [d e']] c1| |] eqn:Hd; [|done..].
  apply (forest_no_error _ _ _ _ q) in Hd as ->; [|by eapply Hwf|done..].
  cbn. unfold gcQueue_call. intros Hrun. by destruct d; go_run Hrun.
Qed.

(** C40: an owner whose recorded child is no longer tracked can never be deleted:
    every Delete that returns reports an error and leaves the owner and its
    record of the child.  (Deleting a child does not remove it from the record.) *)
Theorem stale_child_blocks_delete fuel rg obj gvk t q c r e c' y o :
  wf_cache c → delete_accepts rg obj gvk t c → garbageCollectorQueue c = Some q →
  tracked_ref t (del_ref gvk obj) = Some o → ¬ tc (owns t) (del_ref gvk obj) (del_ref gvk obj) →
  owns t (del_ref gvk obj) y → tracked_ref t y = None →
  Delete fuel rg (Some obj) c = Done (r, e) c' →
  is_Some e ∧ ∃ t', resourceGroups c' !! rg = Some t' ∧ tracked_ref t' (del_ref gvk obj) = Some o
    ∧ owns t' (del_ref gvk obj) y ∧ tracked_ref t' y = None.
Proof.
  intros Hwf Hacc Hq Ho Hacyclic Hy Hgone Hrun.
  destruct Hacc as [Hrg Hn Hg Ht]. revert Hrun. unfold Delete. rewrite !decide_False by done.
  unfold gvkGetAndSet. rewrite Hg, go_bind_eq. unfold tryDelete at 1. rewrite go_bind_eq.
  cbn [go_get]. unfold get_tracker. rewrite Ht, go_bind_eq.
  change (doTryDeleteLocked fuel rg t gvk (ObjectKeyFromObject (SetGroupVersionKind gvk obj)) c)
    with (doTryDeleteLocked fuel rg t (ref_gvk (del_ref gvk obj)) (ref_key (del_ref gvk obj)) c).
  destruct (doTryDeleteLocked _ _ _ _ _ c) as [[t' [d e']] c1| |] eqn:Hd; [|done..].
  destruct (stale_child_error _ _ _ _ _ _ _ _ _ _ _ _ (Hwf _ _ Ht) Hq Ho Hacyclic Hy Hgone Hd)
    as ([e'' ->] & Hroot & Howns & Hchild).
  intros Hrun. go_unfold_in Hrun. destruct d; go_unfold_in Hrun; simplify_eq;
    (split; [by eexists|]; exists t'; cbn; by rewrite lookup_insert_eq).
Qed.

(** Delete of an object that owns nothing and has finalizers marks it, tells the
    informer of the deletion and queues it; deleting it again changes nothing that
    clients or informers see, and queues it again. *)
Theorem delete_marks_once fuel rg obj gvk t q c o :
  wf_cache c → delete_accepts rg obj gvk t c → garbageCollectorQueue c = Some q →
  ownedObjects t !! del_ref gvk obj = None → tracked_ref t (del_ref gvk obj) = Some o →
  GetFinalizers o ≠ [] → TimePtr_IsZero (GetDeletionTimestamp o) = true →
  ∃ r c1 t1 o1,
    Delete (S fuel) rg (Some obj) c = Done (r, None) c1 ∧
    resourceGroups c1 = <[rg := t1]> (resourceGroups c) ∧
    tracked_ref t1 (del_ref gvk obj) = Some o1 ∧
    GetDeletionTimestamp o1 = Some (time_Now (ticks c)) ∧
    handlerState c1 = handlerState (notify rg (NotifyDelete o1) c) ∧
    garbageCollectorQueue c1 = Some (q ++ [gc_req rg (del_ref gvk obj)]) ∧
    ∃ r2 c2, Delete (S fuel) rg (Some obj) c1 = Done (r2, None) c2 ∧
      resourceGroups c2 = resourceGroups c1 ∧ handlerState c2 = handlerState c1 ∧
      garbageCollectorQueue c2 =
        Some (q ++ [gc_req rg (del_ref gvk obj); gc_req rg (del_ref gvk obj)]).
Proof.
  intros Hwf Hacc Hq Howned Ho Hf Hz. destruct (Hacc) as [Hrg Hn Hg Ht].
  destruct (Delete_leaf_marks fuel rg obj gvk t q c o Hacc Hq Howned Ho Hf Hz)
    as (r & c1 & k & Hrun & ->).
  set (o1 := marked_object (time_Now (ticks c)) (time_Now (S (ticks c))) o) in *.
  set (t1 := track gvk (ObjectKeyFromObject obj) o1 t).
  assert (Ho1 : tracked_ref t1 (del_ref gvk obj) = Some o1).
  { unfold t1, del_ref. rewrite tracked_ref_track; [by rewrite decide_True|by eexists]. }
  do 4 eexists. split; [exact Hrun|]. split; [done|]. split; [exact Ho1|]. split; [done|].
  split; [exact (handlerState_after_store rg t1 (NotifyDelete o1) k c)|].
  split; [done|].
  assert (Hterm : terminating o1).
  { assert (Hmk : marked o o1) by (by apply marked_object_marked; [apply time_Now_nonzero|..]).
    destruct Hmk as [_ _ Hset Hsame _]. split; [by rewrite Hsame|done]. }
  match goal with |- context [Delete (S fuel) rg (Some obj) ?c1] =>
    destruct (Delete_leaf_terminating fuel rg obj gvk t1 (q ++ [gc_req rg (del_ref gvk obj)]) c1 o1)
      as (r2 & Hrun2); [by split; [..|cbn; rewrite lookup_insert_eq]|done|done|done|done|]
  end.
  do 2 eexists. split; [exact Hrun2|]. cbn. rewrite insert_insert_eq. by rewrite <- app_assoc.
Qed.
End properties.

(** ** Concrete states *)
Definition the_queue (c : test_cache) : list (queue_call (any gcRequest)) :=
  default [] (garbageCollectorQueue c).
Definition deletable_b (obj : Object) (c : test_cache) : bool :=
  accepts_b obj c && match garbageCollectorQueue c with Some _ => true | None => false end.

Lemma deletable (obj : Object) (c : test_cache) :
  deletable_b obj c = true →
  delete_accepts "rg" obj (cloudv1_gvk "CloudMachine") (the_tracker c) c ∧
  garbageCollectorQueue c = Some (the_queue c).
Proof.
  unfold deletable_b, the_queue. rewrite andb_true_iff. intros [Hacc Hq].
  destruct (garbageCollectorQueue c); [|done]. split; [|done].
  destruct (accepts_in_test obj true c Hacc) as [? ? Hn ?]. split; auto.
Qed.

Definition m (name : string) : Object := new_machine name [] [].

(** In [test_family] the owner owns the child and there is nothing else. *)
Lemma test_family_owns a b :
  owns (the_tracker test_family) a b ↔ a = machine_ref "owner" ∧ b = machine_ref "child".
Proof.
  unfold owns, owns_in. assert (Howned : ownedObjects (the_tracker test_family) =
    {[ machine_ref "owner" := {[ machine_ref "child" ]} ]}) by vm_decide.
  rewrite Howned; clear Howned. split.
  - by intros (s & [<- <-]%lookup_singleton_Some & ->%elem_of_singleton).
  - intros [-> ->]. eexists. split; [apply lookup_singleton_eq|]. by apply elem_of_singleton.
Qed.

Lemma test_family_forest : forest (the_tracker test_family).
Proof.
  split.
  - intros x Hx. assert (Hend : ∀ a b, tc (owns (the_tracker test_family)) a b →
      a = machine_ref "owner" ∧ b = machine_ref "child").
    { induction 1 as [a b Hab|a b z Hab _ IH]; [by apply test_family_owns|].
      apply test_family_owns in Hab as [-> _]. by destruct IH. }
    destruct (Hend x x Hx) as [-> ?]. done.
  - by intros a b x [-> _]%test_family_owns [-> _]%test_family_owns.
Qed.

(** The owner and its child deleted. *)
Definition test_deleted : test_cache := exec (Delete 5 "rg" (Some (m "owner"))) test_family.
Lemma test_deleted_run :
  Delete 5 "rg" (Some (m "owner")) test_family =
    Done (Some (SetGroupVersionKind (cloudv1_gvk "CloudMachine") (m "owner")), None) test_deleted.
Proof. vm_run. Qed.

Lemma test_family_deletable :
  delete_accepts "rg" (m "owner") (cloudv1_gvk "CloudMachine") (the_tracker test_family) test_family ∧
  garbageCollectorQueue test_family = Some (the_queue test_family).
Proof. apply deletable. vm_compute. reflexivity. Qed.

Lemma delete_cascades_witness :
  ∃ t' (q' : list (queue_call (any gcRequest))), tracked_ref t' (machine_ref "owner") = None ∨ gc_req "rg" (machine_ref "owner") ∈ q'.
Proof.
  destruct test_family_deletable as [Hacc Hq].
  destruct (delete_cascades 5 "rg" (m "owner") (cloudv1_gvk "CloudMachine") (the_tracker test_family)
    (the_queue test_family) test_family _ test_deleted test_family_wf Hacc Hq test_deleted_run)
    as (t' & q' & _ & _ & Hbelow & _).
  exists t', q'. destruct (Hbelow (machine_ref "owner") (rtc_refl _ _)) as [?|(o & _ & _ & _ & ?)];
    [by left|by right].
Defined.

Lemma delete_terminates_witness : ∃ r c', Delete 5 "rg" (Some (m "owner")) test_family = Done r c'.
Proof.
  destruct test_family_deletable as [Hacc Hq].
  apply (delete_terminates 5 "rg" (m "owner") (cloudv1_gvk "CloudMachine") (the_tracker test_family)
    (the_queue test_family) test_family test_family_wf Hacc Hq).
  - apply test_family_forest.
  - vm_decide.
Defined.

Lemma delete_of_forest_succeeds_witness :
  ∃ r c', Delete 5 "rg" (Some (m "owner")) test_family = Done (r, None) c'.
Proof.
  destruct test_family_deletable as [Hacc Hq].
  apply (delete_of_forest_succeeds 5 "rg" (m "owner") (cloudv1_gvk "CloudMachine")
    (the_tracker test_family) (the_queue test_family) test_family test_family_wf Hacc Hq).
  - apply test_family_forest.
  - change (del_ref (cloudv1_gvk "CloudMachine") (m "owner")) with (machine_ref "owner").
    intros x Hx. apply rtc_inv_r in Hx as [<-|(y & _ & [_ ->]%test_family_owns)]; vm_decide.
  - vm_decide.
Defined.

(** An object with a finalizer, marked by a Delete. *)
Definition test_finalizer : test_cache :=
  exec (Create "rg" (Some (new_machine "f" [] ["fin"]))) test_start.
Lemma test_finalizer_wf : wf_cache test_finalizer.
Proof. unfold test_finalizer, Create. apply exec_store_wf, test_start_wf. Qed.
Definition test_marked : test_cache := exec (Delete 5 "rg" (Some (m "f"))) test_finalizer.

Lemma test_finalizer_deletable :
  delete_accepts "rg" (m "f") (cloudv1_gvk "CloudMachine") (the_tracker test_finalizer) test_finalizer
  ∧ garbageCollectorQueue test_finalizer = Some (the_queue test_finalizer).
Proof. apply deletable. vm_compute. reflexivity. Qed.

Lemma delete_respects_finalizers_witness :
  ∃ t' o', resourceGroups test_marked !! "rg" = Some t' ∧
    tracked_ref t' (machine_ref "f") = Some o' ∧ GetFinalizers o' = ["fin"].
Proof.
  assert (Hrun : Delete 5 "rg" (Some (m "f")) test_finalizer =
    Done (Some (SetGroupVersionKind (cloudv1_gvk "CloudMachine") (m "f")), None) test_marked)
    by vm_run.
  destruct test_finalizer_deletable as [Hacc Hq].
  destruct (delete_respects_finalizers 5 "rg" (m "f") (cloudv1_gvk "CloudMachine")
    (the_tracker test_finalizer) (the_queue test_finalizer) test_finalizer _ _ test_marked
    test_finalizer_wf Hacc Hq Hrun) as (t' & Hg & Hev).
  assert (Ho : tracked_ref (the_tracker test_finalizer) (machine_ref "f") =
    Some (the_object "f" test_finalizer)) by vm_decide.
  assert (Hf : GetFinalizers (the_object "f" test_finalizer) = ["fin"]) by vm_decide.
  specialize (Hev (machine_ref "f")). rewrite Ho in Hev. destruct Hev as [Hev _].
  rewrite Hf in Hev. destruct (Hev ltac:(done)) as (o' & Ho' & Hcase).
  exists t', o'. rewrite Hg, lookup_insert_eq. split; [done|]. split; [done|].
  destruct Hcase as [->|(_ & _ & -> & _)]; exact Hf.
Defined.

Lemma delete_marks_once_witness :
  ∃ r c1, Delete 5 "rg" (Some (m "f")) test_finalizer = Done (r, None) c1 ∧
  ∃ r2 c2, Delete 5 "rg" (Some (m "f")) c1 = Done (r2, None) c2 ∧ handlerState c2 = handlerState c1.
Proof.
  destruct test_finalizer_deletable as [Hacc Hq].
  destruct (delete_marks_once 4 "rg" (m "f") (cloudv1_gvk "CloudMachine")
    (the_tracker test_finalizer) (the_queue test_finalizer) test_finalizer
    (the_object "f" test_finalizer) test_finalizer_wf Hacc Hq)
    as (r & c1 & t1 & o1 & Hrun & _ & _ & _ & _ & _ & r2 & c2 & Hrun2 & _ & Hh & _);
    [vm_decide|vm_decide|vm_decide|vm_decide|].
  exact (ex_intro _ r (ex_intro _ c1 (conj Hrun (ex_intro _ r2 (ex_intro _ c2 (conj Hrun2 Hh)))))).
Defined.

(** The child deleted on its own: the owner's record of it is stale. *)
Definition test_stale : test_cache := exec (Delete 5 "rg" (Some (m "child"))) test_family.
Lemma test_stale_run :
  Delete 5 "rg" (Some (m "child")) test_family =
    Done (Some (SetGroupVersionKind (cloudv1_gvk "CloudMachine") (m "child")), None) test_stale.
Proof. vm_run. Qed.
Definition test_stale2 : test_cache := exec (Delete 5 "rg" (Some (m "owner"))) test_stale.
Lemma test_stale2_run :
  Delete 5 "rg" (Some (m "owner")) test_stale =
    Done (Some (SetGroupVersionKind (cloudv1_gvk "CloudMachine") (m "owner")),
          Some (notFound (cloudv1_gvk "CloudMachine") (NN "" "child"))) test_stale2.
Proof. vm_run. Qed.

Lemma test_stale_owns a b :
  owns (the_tracker test_stale) a b ↔ a = machine_ref "owner" ∧ b = machine_ref "child".
Proof.
  rewrite <- test_family_owns. unfold owns, owns_in.
  assert (Howned : ownedObjects (the_tracker test_stale) = ownedObjects (the_tracker test_family))
    by vm_decide. by rewrite Howned.
Qed.

Lemma stale_child_blocks_delete_witness :
  ∃ t', resourceGroups test_stale2 !! "rg" = Some t' ∧
    owns t' (machine_ref "owner") (machine_ref "child").
Proof.
  assert (Hwf : wf_cache test_stale).
  { eapply Delete_wf; [exact test_family_wf| |exact test_stale_run]. eexists.
    apply test_family_deletable. }
  destruct (deletable (m "owner") test_stale) as [Hacc Hq]; [vm_compute; reflexivity|].
  destruct (stale_child_blocks_delete 5 "rg" (m "owner") (cloudv1_gvk "CloudMachine")
    (the_tracker test_stale) (the_queue test_stale) test_stale
    (Some (SetGroupVersionKind (cloudv1_gvk "CloudMachine") (m "owner")))
    (Some (notFound (cloudv1_gvk "CloudMachine") (NN "" "child"))) test_stale2
    (machine_ref "child") (the_object "owner" test_stale) Hwf Hacc Hq)
    as (_ & t' & Ht' & _ & Howns & _).
  - vm_decide.
  - change (del_ref (cloudv1_gvk "CloudMachine") (m "owner")) with (machine_ref "owner").
    intros [[_ Hx]%test_stale_owns|(z & [_ ->]%test_stale_owns & Hz)]%tc_inv_l; [done|].
    apply tc_inv_l in Hz as [[Hx _]%test_stale_owns|(z & [Hx _]%test_stale_owns & _)]; done.
  - exact (proj2 (test_stale_owns (machine_ref "owner") (machine_ref "child"))
      (conj eq_refl eq_refl)).
  - vm_decide.
  - exact test_stale2_run.
  - exact (ex_intro _ t' (conj Ht' Howns)).
Defined.

(** A machine updated to own itself. *)
Definition test_self : test_cache :=
  exec (Update "rg" (Some (SetOwnerReferences (Some [owner_of_machine "owner"])
    (the_object "owner" test_owner)))) test_owner.

Lemma delete_of_own_owner_diverges_witness :
  Delete 1000 "rg" (Some (m "owner")) test_self = OutOfFuel.
Proof.
  destruct (deletable (m "owner") test_self) as [Hacc _]; [vm_compute; reflexivity|].
  apply (delete_of_own_owner_diverges 1000 "rg" (m "owner") (cloudv1_gvk "CloudMachine")
    (the_tracker test_self) test_self (the_object "owner" test_self) Hacc).
  - vm_decide.
  - vm_decide.
Defined.
