(* ===== verification/CacheWorkers.v ===== *)
(** * The garbage collector and the syncer

    What one iteration of each worker does, and which objects a sync round
    queues.  The goroutines that call them in a loop and the client-go queue
    that feeds them are in CacheSystem.v as steps of the whole cache. *)

From stdpp Require Import prelude gmap strings list relations.
From Stdlib Require Import ZArith QArith_base Lia.
From S2P Require Import Prelude GoStd GoTime Api Runtime Cache CacheFacts CacheStore CacheDelete TestEnv.
Local Open Scope Z_scope.

Section workers.
Context {H HS : Type} {E : Env} {L : EnvLaws E} {Hhandler : InformEventHandler H HS}.
Implicit Types c : cache H HS.

(** ** Garbage collector *)
Definition gc_item (rg : string) (r : ownReference) : any gcRequest :=
  Is (mkGcRequest rg (ref_gvk r) (ref_key r)).

(** Forget the item and queue it again later. *)
Lemma gc_retry (item : any gcRequest) q c :
  garbageCollectorQueue c = Some q →
  (_ ← gcQueue_call (QForget item);
   c ← go_get;
   _ ← gcQueue_call (QAddAfter item (wait_Jitter (garbageCollectorRequeueAfter c)
         (garbageCollectorRequeueAfterJitterFactor c)));
   mret true) c =
  Done true (set_garbageCollectorQueue (Some (q ++ [QForget item; QAddAfter item
    (wait_Jitter (garbageCollectorRequeueAfter c) (garbageCollectorRequeueAfterJitterFactor c))])) c).
Proof.
  intros Hq. rewrite go_bind_eq, (gcQueue_call_eq _ _ q) by done.
  rewrite go_bind_eq. cbn [go_get]. rewrite go_bind_eq.
  rewrite (gcQueue_call_eq _ _ (q ++ [QForget item])) by done.
  rewrite <- app_assoc. done.
Qed.

(** One iteration of the garbage collector on a request retries the deletion and
    goes on; the request is dropped exactly when the object has now been removed
    without an error, and else queued again after the jittered delay; the request
    is marked as done twice. *)
Theorem gc_worker_outcome fuel rg r t q c :
  wf_tracker t → resourceGroups c !! rg = Some t → garbageCollectorQueue c = Some q →
  bounded t fuel r →
  let item := gc_item rg r in
  ∃ t' q1 c',
    processGarbageCollectorWorkItem fuel (item, false) c = Done true c' ∧
    resourceGroups c' = <[rg := t']> (resourceGroups c) ∧
    progress rg t (q ++ [QDone item]) t' q1 ∧
    ((is_Some (tracked_ref t r) ∧ tracked_ref t' r = None ∧
      garbageCollectorQueue c' = Some (q1 ++ [QForget item; QDone item])) ∨
     (garbageCollectorQueue c' = Some (q1 ++ [QForget item; QAddAfter item
        (wait_Jitter (garbageCollectorRequeueAfter c) (garbageCollectorRequeueAfterJitterFactor c));
        QDone item]) ∧
      ((∃ o, tracked_ref t' r = Some o ∧ terminating o) ∨
       ∃ d e, (tryDelete fuel rg (ref_gvk r) (ref_key r)
         (set_garbageCollectorQueue (Some (q ++ [QDone item])) c)) = Done (d, Some e)
         (set_garbageCollectorQueue (Some q1) c') ∧ IsNotFound e = true))).
Proof.
  intros Hwf Ht Hq Hb item. unfold processGarbageCollectorWorkItem.
  rewrite go_bind_eq, (gcQueue_call_eq _ _ q) by done. rewrite go_bind_eq.
  set (c1 := set_garbageCollectorQueue (Some (q ++ [QDone item])) c).
  unfold item at 1, gc_item at 1. cbn [gc_resourceGroup gc_gvk gc_key]. rewrite go_bind_eq.
  assert (Hout := tryDelete_ok fuel rg t r (q ++ [QDone item]) c1 Hwf Ht eq_refl).
  destruct (tryDelete _ _ _ _ c1) as [[d err] c2| |]; [|done|done].
  destruct Hout as (t' & q1 & Hg & [_ _ Hra Hjf _ _ _] & _ & Hq1 & Hp & _ & He).
  change (garbageCollectorRequeueAfter c2 = garbageCollectorRequeueAfter c) in Hra.
  change (garbageCollectorRequeueAfterJitterFactor c2 =
    garbageCollectorRequeueAfterJitterFactor c) in Hjf.
  assert (Hretry := gc_retry item q1 c2 Hq1). rewrite Hra, Hjf in Hretry.
  assert (Hcase : (d = true ∧ err = None) ∨ ¬ (d = true ∧ err = None)) by (destruct d, err; naive_solver).
  destruct Hcase as [[-> ->]|Hcase].
  - rewrite go_bind_eq, (gcQueue_call_eq _ _ q1) by done. cbn. rewrite go_bind_eq.
    rewrite (gcQueue_call_eq _ _ (q1 ++ [QForget item])) by done.
    exists t', q1. eexists. split; [done|]. split; [done|]. split; [done|]. left.
    destruct He as [? ? _ _]. rewrite <- app_assoc. done.
  - assert (Hbody : ∀ (k : Go (cache H HS) bool) w, match d, err with true, None => k | _, _ =>
      (_ ← gcQueue_call (QForget item); c ← go_get;
       _ ← gcQueue_call (QAddAfter item (wait_Jitter (garbageCollectorRequeueAfter c)
         (garbageCollectorRequeueAfterJitterFactor c))); mret true) end w =
      (_ ← gcQueue_call (QForget item); c ← go_get;
       _ ← gcQueue_call (QAddAfter item (wait_Jitter (garbageCollectorRequeueAfter c)
         (garbageCollectorRequeueAfterJitterFactor c))); mret true) w).
    { intros. destruct d, err; try done. by destruct Hcase. }
    cbn beta iota. rewrite Hbody, Hretry. rewrite go_bind_eq. erewrite gcQueue_call_eq by done.
    exists t', q1. eexists. split; [done|]. split; [done|]. split; [done|]. right.
    rewrite <- app_assoc. split; [done|]. destruct err as [e|].
    + right. exists d, e. split; [|done]. destruct c2; cbn in Hq1; by subst.
    + left. destruct d; [by destruct Hcase|]. by destruct He as [? _ _ _].
Qed.

(** A request whose object is not there (any more) is retried for ever: an
    iteration leaves the tracker as it is and queues the request again. *)
Theorem gc_retries_missing_forever fuel rg r t q c :
  resourceGroups c !! rg = Some t → garbageCollectorQueue c = Some q → tracked_ref t r = None →
  let item := gc_item rg r in
  ∃ c', processGarbageCollectorWorkItem (S fuel) (item, false) c = Done true c' ∧
    resourceGroups c' = resourceGroups c ∧ handlerState c' = handlerState c ∧
    garbageCollectorQueue c' = Some (q ++ [QDone item; QForget item; QAddAfter item
      (wait_Jitter (garbageCollectorRequeueAfter c) (garbageCollectorRequeueAfterJitterFactor c));
      QDone item]).
Proof.
  intros Ht Hq Hnone item. unfold processGarbageCollectorWorkItem.
  rewrite go_bind_eq, (gcQueue_call_eq _ _ q) by done. rewrite go_bind_eq.
  set (c1 := set_garbageCollectorQueue (Some (q ++ [QDone item])) c).
  unfold item at 1, gc_item at 1. cbn [gc_resourceGroup gc_gvk gc_key]. rewrite go_bind_eq.
  assert (Hrun : tryDelete (S fuel) rg (ref_gvk r) (ref_key r) c1 =
    Done (true, Some (notFound (ref_gvk r) (ref_key r))) c1).
  { unfold tryDelete. rewrite go_bind_eq. cbn [go_get]. unfold get_tracker, c1. cbn [resourceGroups
      set_garbageCollectorQueue]. rewrite Ht, go_bind_eq. cbn [doTryDeleteLocked].
    change (tracked t (ref_gvk r) (ref_key r)) with (tracked_ref t r). rewrite Hnone. cbn.
    unfold put_tracker, go_modify. rewrite go_bind_eq. cbn. rewrite insert_id by done. by destruct c. }
  rewrite Hrun. cbn beta iota. rewrite (gc_retry item (q ++ [QDone item])) by done.
  rewrite go_bind_eq. erewrite gcQueue_call_eq by done. eexists. split; [done|].
  split; [done|]. split; [done|]. cbn. by rewrite <- !app_assoc.
Qed.

(** Once the last finalizer of a marked object that owns nothing is gone, the next
    iteration on its request removes it from the tracker and drops the request. *)
Theorem gc_removes_finalized fuel rg r t q c o :
  resourceGroups c !! rg = Some t → garbageCollectorQueue c = Some q →
  tracked_ref t r = Some o → GetFinalizers o = [] → ownedObjects t !! r = None →
  let item := gc_item rg r in
  ∃ c' t', processGarbageCollectorWorkItem (S fuel) (item, false) c = Done true c' ∧
    resourceGroups c' = <[rg := t']> (resourceGroups c) ∧
    (∀ x, tracked_ref t' x = if decide (x = r) then None else tracked_ref t x) ∧
    garbageCollectorQueue c' = Some (q ++ [QDone item; QForget item; QDone item]).
Proof.
  intros Ht Hq Ho Hf Hs item. unfold processGarbageCollectorWorkItem.
  rewrite go_bind_eq, (gcQueue_call_eq _ _ q) by done. rewrite go_bind_eq.
  set (c1 := set_garbageCollectorQueue (Some (q ++ [QDone item])) c).
  unfold item at 1, gc_item at 1. cbn [gc_resourceGroup gc_gvk gc_key]. rewrite go_bind_eq.
  assert (Hr : OwnRef (ref_gvk r) (ref_key r) = r) by (by destruct r).
  assert (Hrun : tryDelete (S fuel) rg (ref_gvk r) (ref_key r) c1 =
    Done (true, None) (with_tracker rg (untrack (ref_gvk r) (ref_key r) t) c1)).
  { unfold tryDelete. rewrite go_bind_eq. cbn [go_get]. unfold get_tracker, c1. cbn [resourceGroups
      set_garbageCollectorQueue]. rewrite Ht, go_bind_eq. rewrite (doTryDelete_leaf _ _ _ _ o) by done.
    unfold markOrRemove. rewrite Hf. done. }
  rewrite Hrun. cbn beta iota. rewrite go_bind_eq, (gcQueue_call_eq _ _ (q ++ [QDone item])) by done.
  cbn. rewrite go_bind_eq. erewrite gcQueue_call_eq by done. do 2 eexists. split; [done|].
  split; [done|]. split; [|cbn; by rewrite <- !app_assoc].
  intros x. rewrite tracked_ref_untrack, Hr. done.
Qed.

(** ** Syncer *)
(** An object is due when it was last synced before the period, or never. *)
Definition sync_due (before : Time) (obj : Object) : bool :=
  match lastSyncTimeAnnotationValue obj with
  | Some lastSync => negb (After lastSync before)
  | None => true
  end.

Definition sync_req (rg : string) (gvk : GroupVersionKind) (key : NamespacedName)
  : queue_call (any resyncRequest) := QAdd (Is (mkResyncRequest rg gvk key)).

Definition sync_kind (rg : string) (before : Time)
    (kv : GroupVersionKind * gmap NamespacedName Object) : list (queue_call (any resyncRequest)) :=
  (λ ko, sync_req rg kv.1 ko.1) <$> filter (λ ko, sync_due before ko.2 = true) (map_range kv.2).
Definition sync_tracker (rg : string) (before : Time) (t : resourceGroupTracker)
  : list (queue_call (any resyncRequest)) := map_range (objects t) ≫= sync_kind rg before.

Lemma syncObject_loop rg gvk before l i q c :
  syncQueue c = Some q → is_int i →
  let reqs := (λ ko, sync_req rg gvk ko.1) <$> filter (λ ko, sync_due before ko.2 = true) l in
  go_for (syncObject rg gvk before) l i c =
    Done (wrap_int (i + Z.of_nat (length reqs)), None) (set_syncQueue (Some (q ++ reqs)) c).
Proof.
  revert i q c. induction l as [|[key obj] l IH]; intros i q c Hq Hi.
  { cbn. rewrite Z.add_0_r, wrap_int_id, app_nil_r by done. destruct c; cbn in *; by subst. }
  cbn [go_for]. rewrite go_bind_eq. unfold syncObject at 1.
  replace (match lastSyncTimeAnnotationValue obj with Some _ => _ | None => _ end)
    with (negb (sync_due before obj)).
  2: { unfold sync_due. destruct (lastSyncTimeAnnotationValue obj); [apply negb_involutive|done]. }
  destruct (sync_due before obj) eqn:Hdue; cbn [negb].
  - rewrite (filter_cons_True (λ ko : NamespacedName * Object, sync_due before ko.2 = true)
      (key, obj) l Hdue).
    rewrite go_bind_eq, (syncQueue_call_eq _ _ q) by done. cbn beta iota.
    cbn [mret go_ret]. rewrite (IH _ (q ++ [sync_req rg gvk key])) by (done || apply wrap_int_is_int).
    cbn. rewrite wrap_int_add, <- app_assoc. do 3 f_equal. lia.
  - rewrite (filter_cons_False (λ ko : NamespacedName * Object, sync_due before ko.2 = true)
      (key, obj) l) by (cbn; by rewrite Hdue).
    cbn [mret go_ret]. by rewrite (IH _ q).
Qed.

Lemma syncKind_loop rg before l i q c :
  syncQueue c = Some q → is_int i →
  go_for (syncKind rg before) l i c =
    Done (wrap_int (i + Z.of_nat (length (l ≫= sync_kind rg before))), None)
      (set_syncQueue (Some (q ++ (l ≫= sync_kind rg before))) c).
Proof.
  revert i q c. induction l as [|[gvk objs] l IH]; intros i q c Hq Hi.
  { cbn. rewrite Z.add_0_r, wrap_int_id, app_nil_r by done. destruct c; cbn in *; by subst. }
  cbn [go_for syncKind]. rewrite go_bind_eq, (syncObject_loop _ _ _ _ _ q) by done. cbn beta iota.
  rewrite (IH _ (q ++ sync_kind rg before (gvk, objs))) by (done || apply wrap_int_is_int).
  rewrite bind_cons, length_app, wrap_int_add, <- app_assoc. unfold sync_kind at 1. cbn [fst snd].
  by rewrite Nat2Z.inj_add, Z.add_assoc.
Qed.

(** syncResourceGroupTracker reads the clock once. *)
Lemma syncResourceGroupTracker_eq rg t q c :
  syncQueue c = Some q →
  let reqs := sync_tracker rg (TimeAdd (time_Now (ticks c)) (- syncPeriod c)) t in
  syncResourceGroupTracker rg t c =
    Done (wrap_int (Z.of_nat (length reqs)))
      (set_syncQueue (Some (q ++ reqs)) (set_ticks (S (ticks c)) c)).
Proof.
  intros Hq reqs. unfold syncResourceGroupTracker. rewrite go_bind_eq.
  change (Now c) with (Done (W := cache H HS) (time_Now (ticks c)) (set_ticks (S (ticks c)) c)).
  cbn beta iota. rewrite go_bind_eq. cbn [go_get]. rewrite go_bind_eq.
  rewrite (syncKind_loop rg (TimeAdd (time_Now (ticks c)) (- syncPeriod c)) _ _ q) by done. done.
Qed.

(** One group after the other, each with its own reading of the clock. *)
Fixpoint sync_groups (k : nat) (period : Duration) (l : list (string * resourceGroupTracker))
  : list (queue_call (any resyncRequest)) :=
  match l with
  | [] => []
  | (rg, t) :: l => sync_tracker rg (TimeAdd (time_Now k) (- period)) t ++ sync_groups (S k) period l
  end.

Lemma syncOneGroup_loop l i q c :
  syncQueue c = Some q → is_int i →
  let reqs := sync_groups (ticks c) (syncPeriod c) l in
  go_for syncOneGroup l i c =
    Done (wrap_int (i + Z.of_nat (length reqs)), None)
      (set_syncQueue (Some (q ++ reqs)) (set_ticks (length l + ticks c)%nat c)).
Proof.
  revert i q c. induction l as [|[rg t] l IH]; intros i q c Hq Hi.
  { cbn. rewrite Z.add_0_r, wrap_int_id, app_nil_r by done. destruct c; cbn in *; by subst. }
  cbn [go_for syncOneGroup]. rewrite go_bind_eq. rewrite go_bind_eq.
  rewrite (syncResourceGroupTracker_eq _ _ q) by done. cbn [mret go_ret].
  set (reqs1 := sync_tracker _ _ _). set (c1 := set_syncQueue _ _).
  rewrite (IH _ (q ++ reqs1) c1) by (done || apply wrap_int_is_int).
  change (ticks c1) with (S (ticks c)). change (syncPeriod c1) with (syncPeriod c).
  cbn [sync_groups]. fold reqs1. rewrite wrap_int_add, length_app, <- app_assoc.
  replace (length l + S (ticks c))%nat with (length ((rg, t) :: l) + ticks c)%nat by (cbn; lia).
  f_equal. f_equal.
  match goal with |- wrap_int (i + ?a + ?b) = _ => replace (i + a + b) with (a + (i + b)) by lia end.
  rewrite wrap_int_add. f_equal. lia.
Qed.

(** ** What a round of the syncer queues *)
Lemma elem_of_sync_tracker rg before t rg' gvk key :
  sync_req rg' gvk key ∈ sync_tracker rg before t ↔
    rg' = rg ∧ ∃ obj, tracked t gvk key = Some obj ∧ sync_due before obj = true.
Proof.
  unfold sync_tracker. rewrite list_elem_of_bind. split.
  - intros ([g objs] & Hin & Hkv). apply elem_of_map_range in Hkv. unfold sync_kind in Hin.
    cbn [fst snd] in Hin. apply list_elem_of_fmap in Hin as ([k obj] & [= -> -> ->] & Hin).
    apply list_elem_of_filter in Hin as [Hdue Hin]. apply elem_of_map_range in Hin.
    split; [done|]. exists obj. unfold tracked. cbn. by rewrite Hkv.
  - intros (-> & obj & Ht & Hdue). unfold tracked in Ht.
    destruct (objects t !! gvk) as [objs|] eqn:Hobjs; [|done]. cbn in Ht. exists (gvk, objs).
    split; [|by apply elem_of_map_range]. unfold sync_kind. cbn [fst snd]. apply list_elem_of_fmap.
    exists (key, obj). split; [done|]. apply list_elem_of_filter. split; [done|].
    by apply elem_of_map_range.
Qed.

Lemma NoDup_sync_tracker rg before t : NoDup (sync_tracker rg before t).
Proof.
  unfold sync_tracker. assert (Hnd := NoDup_fst_map_range (objects t)). revert Hnd.
  generalize (map_range (objects t)). intros l. induction l as [|[gvk objs] l IH]; intros Hnd.
  { constructor. }
  rewrite fmap_cons in Hnd. apply NoDup_cons in Hnd as [Hgvk Hnd]. rewrite bind_cons.
  apply NoDup_app. split; [|split; [|by apply IH]].
  - apply NoDup_fmap_2_strong.
    + intros [k o] [k' o'] [_ Hin]%list_elem_of_filter [_ Hin']%list_elem_of_filter [= ->].
      apply elem_of_map_range in Hin, Hin'. cbn in Hin, Hin'. congruence.
    + apply NoDup_filter. auto with goofy.
  - intros x [[k o] [-> _]]%list_elem_of_fmap [[gvk' objs'] [Hin Hkv]]%list_elem_of_bind.
    unfold sync_kind in Hin. apply list_elem_of_fmap in Hin as ([k' o'] & [= Heq _] & _).
    apply Hgvk. apply list_elem_of_fmap. exists (gvk', objs'). by rewrite Heq.
Qed.

Lemma sync_groups_spec k period l :
  NoDup l.*1 →
  ∃ before : string → Time,
    (∀ rg, rg ∈ l.*1 → ∃ i, (k <= i < k + length l)%nat ∧ before rg = TimeAdd (time_Now i) (- period)) ∧
    (∀ rg gvk key, sync_req rg gvk key ∈ sync_groups k period l ↔
       ∃ t obj, (rg, t) ∈ l ∧ tracked t gvk key = Some obj ∧ sync_due (before rg) obj = true) ∧
    NoDup (sync_groups k period l).
Proof.
  revert k. induction l as [|[rg0 t0] l IH]; intros k Hnd.
  { exists (λ _, 0). split; [by intros ? ?%elem_of_nil|]. split; [|constructor].
    intros. split; [by intros ?%elem_of_nil|]. by intros (? & ? & ?%elem_of_nil & _). }
  rewrite fmap_cons in Hnd. apply NoDup_cons in Hnd as [Hrg0 Hnd]. cbn [fst] in Hrg0.
  destruct (IH (S k) Hnd) as (before & Htime & Hin & Hnodup). clear IH.
  exists (λ rg, if decide (rg = rg0) then TimeAdd (time_Now k) (- period) else before rg).
  assert (Hother : ∀ rg gvk key, sync_req rg gvk key ∈ sync_groups (S k) period l → rg ≠ rg0).
  { intros rg gvk key (t & o & Ht & _)%Hin ->. apply Hrg0. apply list_elem_of_fmap. by exists (rg0, t). }
  split; [|split].
  - intros rg Hrg. cbn [length]. case_decide as Heq; [exists k; split; [lia|done]|].
    rewrite fmap_cons in Hrg. apply elem_of_cons in Hrg as [->|Hrg]; [done|].
    destruct (Htime rg Hrg) as (i & Hi & Hb). exists i. split; [lia|done].
  - intros rg gvk key. cbn [sync_groups]. rewrite elem_of_app, elem_of_sync_tracker. split.
    + intros [(-> & obj & Ht & Hdue)|Hrest].
      * exists t0, obj. rewrite decide_True by done. split; [by left|done].
      * assert (Hne := Hother _ _ _ Hrest). apply Hin in Hrest as (t & o & Ht & Ho & Hdue).
        exists t, o. rewrite decide_False by done. split; [by right|done].
    + intros (t & o & [Heq|Ht]%elem_of_cons & Ho & Hdue).
      * simplify_eq. rewrite decide_True in Hdue by done. left. split; [done|]. by exists o.
      * right. rewrite decide_False in Hdue.
        { apply Hin. by exists t, o. }
        intros ->. apply Hrg0. apply list_elem_of_fmap. by exists (rg0, t).
  - cbn [sync_groups]. apply NoDup_app. split; [apply NoDup_sync_tracker|]. split; [|done].
    intros x Hx Hrest. unfold sync_tracker in Hx.
    apply list_elem_of_bind in Hx as ([gvk objs] & Hx & _). unfold sync_kind in Hx.
    apply list_elem_of_fmap in Hx as ([key o] & -> & _). by apply Hother in Hrest.
Qed.

(** C39: a round of the syncer queues one request for each tracked object, of any
    resource group, whose last-sync annotation is missing, unreadable or older than
    the sync period, and none for the others; it changes no object. *)
Theorem sync_round_queues_due q c :
  syncQueue c = Some q →
  ∃ c' reqs before,
    syncGroup c = Done (wrap_int (Z.of_nat (length reqs))) c' ∧
    syncQueue c' = Some (q ++ reqs) ∧
    resourceGroups c' = resourceGroups c ∧ handlerState c' = handlerState c ∧
    (∀ rg, is_Some (resourceGroups c !! rg) →
       ∃ i, (ticks c <= i < ticks c')%nat ∧ before rg = TimeAdd (time_Now i) (- syncPeriod c)) ∧
    NoDup reqs ∧
    ∀ rg gvk key, sync_req rg gvk key ∈ reqs ↔
      ∃ t obj, resourceGroups c !! rg = Some t ∧ tracked t gvk key = Some obj ∧
        match lastSyncTimeAnnotationValue obj with
        | Some lastSync => lastSync <= before rg
        | None => True
        end.
Proof.
  intros Hq.
  destruct (sync_groups_spec (ticks c) (syncPeriod c) (map_range (resourceGroups c)))
    as (before & Htime & Hin & Hnd); [apply NoDup_fst_map_range|].
  eexists _, _, before. split.
  { unfold syncGroup. rewrite go_bind_eq. cbn [go_get]. rewrite go_bind_eq.
    rewrite (syncOneGroup_loop _ 0 q) by done. done. }
  split; [done|]. split; [done|]. split; [done|]. split; [|split; [done|]].
  - intros rg [t Ht]. cbn [ticks set_syncQueue set_ticks].
    destruct (Htime rg) as (i & Hi & Hb).
    { apply list_elem_of_fmap. exists (rg, t). split; [done|]. by apply elem_of_map_range. }
    exists i. split; [lia|done].
  - intros rg gvk key. rewrite Hin.
    assert (Hdue : ∀ obj, sync_due (before rg) obj = true ↔
      match lastSyncTimeAnnotationValue obj with Some ls => ls <= before rg | None => True end).
    { intros obj. unfold sync_due, After. destruct (lastSyncTimeAnnotationValue obj); [|done].
      rewrite negb_true_iff, Z.ltb_ge. done. }
    setoid_rewrite elem_of_map_range. by setoid_rewrite Hdue.
Qed.

(** ** A sync worker *)
(** One iteration of a sync worker on a tracked object sets its last-sync
    annotation to the time of the clock, touches nothing else of the object (its
    version and its other annotations stay) and sends one generic event; after it
    the object is not due until the sync period has passed, to the second. *)
Theorem sync_worker_outcome rg t gvk key obj q c :
  wf_tracker t → resourceGroups c !! rg = Some t → syncQueue c = Some q →
  tracked t gvk key = Some obj →
  0 <= time_Now (ticks c) / Second < 315537897600 →
  let item := Is (mkResyncRequest rg gvk key) in
  ∃ c' t' obj',
    processSyncWorkItem (item, false) c = Done true c' ∧
    resourceGroups c' = <[rg := t']> (resourceGroups c) ∧
    (∀ x, tracked_ref t' x = if decide (x = OwnRef gvk key) then Some obj' else tracked_ref t x) ∧
    ownedObjects t' = ownedObjects t ∧
    GetResourceVersion obj' = GetResourceVersion obj ∧
    (∀ k, k ≠ lastSyncTimeAnnotation →
       gomap_elems (GetAnnotations obj') !! k = gomap_elems (GetAnnotations obj) !! k) ∧
    handlerState c' = handlerState (notify rg (NotifySync obj') c) ∧
    syncQueue c' = Some (q ++ [QForget item; QDone item]) ∧
    (∀ now, now - syncPeriod c < time_Now (ticks c) / Second * Second →
       sync_due (TimeAdd now (- syncPeriod c)) obj' = false).
Proof.
  intros Hwf Ht Hq Hobj Hclock item. unfold processSyncWorkItem, item. cbn [fst snd].
  rewrite go_bind_eq. unfold resync. rewrite go_bind_eq. cbn [go_get rr_resourceGroup rr_gvk rr_key].
  unfold get_tracker. rewrite Ht. unfold tracked in Hobj.
  destruct (objects t !! gvk) as [objs|] eqn:Hobjs; [|done]. cbn in Hobj. rewrite Hobj, go_bind_eq.
  change (Now c) with (Done (W := cache H HS) (time_Now (ticks c)) (set_ticks (S (ticks c)) c)).
  cbn beta iota. set (obj' := SetAnnotations _ obj).
  rewrite go_bind_eq. unfold put_tracker at 1, go_modify at 1.
  rewrite go_bind_eq.
  set (c1 := set_resourceGroups _ _).
  change (informSync rg obj' c1) with (Done (W := cache H HS) () (notify rg (NotifySync obj') c1)).
  cbn beta iota. cbn [mret go_ret].
  assert (Hq1 : syncQueue (notify rg (NotifySync obj') c1) = Some q) by by rewrite syncQueue_notify.
  rewrite go_bind_eq, (syncQueue_call_eq _ _ q) by done. rewrite go_bind_eq.
  erewrite syncQueue_call_eq by done. cbn [mret go_ret].
  do 3 eexists. split; [done|]. split; [exact (resourceGroups_notify rg (NotifySync obj') c1)|]. split.
  { intros x. rewrite tracked_ref_track; [done|]. unfold tracked_ref, tracked. cbn.
    rewrite Hobjs. cbn. by eexists. }
  split; [done|]. split; [done|]. split.
  { intros k Hk. unfold obj'. cbn. by rewrite lookup_insert_ne. }
  split; [exact (handlerState_notify_same rg (NotifySync obj') c1 c eq_refl eq_refl)|].
  split; [cbn; by rewrite <- app_assoc|].
  assert (Hls : lastSyncTimeAnnotationValue obj' = Parse (Format (time_Now (ticks c)) 0)).
  { unfold lastSyncTimeAnnotationValue. change (GetAnnotations obj') with
      (appendAnnotations obj [lastSyncTimeAnnotation; Format (time_Now (ticks c)) 0]).
    by rewrite lookup_appendAnnotations_eq. }
  intros now Hnow. unfold sync_due. rewrite Hls, Parse_Format by lia. apply negb_false_iff.
  unfold After, TimeAdd. apply Z.ltb_lt. lia.
Qed.
End workers.

(** ** Concrete states *)
Lemma test_family_tracker : resourceGroups test_family !! "rg" = Some (the_tracker test_family).
Proof. vm_decide. Qed.
Lemma test_family_queue : garbageCollectorQueue test_family = Some (the_queue test_family).
Proof. apply test_family_deletable. Qed.
Lemma test_family_tracker_wf : wf_tracker (the_tracker test_family).
Proof. eapply test_family_wf, test_family_tracker. Qed.

Lemma gc_worker_outcome_witness :
  ∃ fuel c', processGarbageCollectorWorkItem fuel (gc_item "rg" (machine_ref "owner"), false)
    test_family = Done true c'.
Proof.
  destruct (gc_worker_outcome (S (size (ownedObjects (the_tracker test_family)))) "rg"
    (machine_ref "owner") (the_tracker test_family) (the_queue test_family) test_family
    test_family_tracker_wf test_family_tracker test_family_queue
    (acyclic_bounded _ _ (fo_acyclic _ test_family_forest))) as (t' & q1 & c' & Hrun & _).
  exact (ex_intro _ _ (ex_intro _ c' Hrun)).
Defined.

Lemma gc_retries_missing_forever_witness :
  ∃ c', processGarbageCollectorWorkItem 5 (gc_item "rg" (machine_ref "ghost"), false) test_family =
    Done true c' ∧ resourceGroups c' = resourceGroups test_family.
Proof.
  destruct (gc_retries_missing_forever 4 "rg" (machine_ref "ghost") (the_tracker test_family)
    (the_queue test_family) test_family test_family_tracker test_family_queue)
    as (c' & Hrun & Hg & _); [vm_decide|].
  exact (ex_intro _ c' (conj Hrun Hg)).
Defined.

Lemma gc_removes_finalized_witness :
  ∃ c', processGarbageCollectorWorkItem 5 (gc_item "rg" (machine_ref "child"), false) test_family =
    Done true c'.
Proof.
  destruct (gc_removes_finalized 4 "rg" (machine_ref "child") (the_tracker test_family)
    (the_queue test_family) test_family (the_object "child" test_family)
    test_family_tracker test_family_queue) as (c' & t' & Hrun & _); [vm_decide..|].
  exact (ex_intro _ c' Hrun).
Defined.

Definition the_sync_queue (c : test_cache) : list (queue_call (any resyncRequest)) :=
  default [] (syncQueue c).

Lemma has_sync_queue (c : test_cache) :
  match syncQueue c with Some _ => true | None => false end = true →
  syncQueue c = Some (the_sync_queue c).
Proof. unfold the_sync_queue. by destruct (syncQueue c). Qed.

Lemma sync_round_queues_due_witness : ∃ n c', syncGroup test_family = Done n c'.
Proof.
  destruct (sync_round_queues_due (the_sync_queue test_family) test_family)
    as (c' & reqs & before & Hrun & _); [apply has_sync_queue; vm_compute; reflexivity|].
  exact (ex_intro _ _ (ex_intro _ c' Hrun)).
Defined.

Lemma sync_worker_outcome_witness :
  ∃ c', processSyncWorkItem (Is (mkResyncRequest "rg" (cloudv1_gvk "CloudMachine") (NN "" "child")),
    false) test_family = Done true c'.
Proof.
  destruct (sync_worker_outcome "rg" (the_tracker test_family) (cloudv1_gvk "CloudMachine")
    (NN "" "child") (the_object "child" test_family) (the_sync_queue test_family) test_family
    test_family_tracker_wf test_family_tracker) as (c' & t' & obj' & Hrun & _).
  - apply has_sync_queue. vm_compute. reflexivity.
  - vm_decide.
  - vm_decide.
  - exact (ex_intro _ c' Hrun).
Defined.
