(* ===== verification/CacheSystem.v ===== *)
(** * The cache as a transition system

    The client calls and the worker iterations are the steps of a started cache;
    [reachable] caches are those that a sequence of steps leads to from a fresh
    one.  Well-formedness is an invariant, and no step panics but a Patch of nil. *)

From stdpp Require Import prelude gmap strings list relations.
From Stdlib Require Import ZArith QArith_base Lia.
From S2P Require Import Prelude GoStd GoTime Api Runtime Cache CacheFacts CacheStore CacheDelete CacheWorkers TestEnv.

(** ** Steps *)
(** A call by a client, or the iteration of a worker on an item it got. *)
Inductive cache_op (H : Type) :=
| OpAddResourceGroup (name : string)
| OpDeleteResourceGroup (name : string)
| OpGetInformer (obj : Object)
| OpAddEventHandler (gvk : GroupVersionKind) (h : H)
| OpGet (rg : string) (key : NamespacedName) (obj : option Object)
| OpList (rg : string) (l : option ObjectList) (opts : list ListOption)
| OpCreate (rg : string) (obj : option Object)
| OpUpdate (rg : string) (obj : option Object)
| OpPatch (rg : string) (obj : option Object) (patch : Patch)
| OpDelete (rg : string) (obj : option Object)
| OpGarbageCollect (got : any gcRequest * bool)
| OpSyncGroup
| OpSync (got : any resyncRequest * bool).
Arguments OpAddResourceGroup {H}.
Arguments OpDeleteResourceGroup {H}.
Arguments OpGetInformer {H}.
Arguments OpAddEventHandler {H}.
Arguments OpGet {H}.
Arguments OpList {H}.
Arguments OpCreate {H}.
Arguments OpUpdate {H}.
Arguments OpPatch {H}.
Arguments OpDelete {H}.
Arguments OpGarbageCollect {H}.
Arguments OpSyncGroup {H}.
Arguments OpSync {H}.

Section system.
Context {H HS : Type} {E : Env} {L : EnvLaws E} {Hhandler : InformEventHandler H HS}.
Implicit Types c : cache H HS.

Definition ignore {A} (m : Go (cache H HS) A) : Go (cache H HS) () := _ ← m; mret ().

(** [fuel] bounds the recursion of the deletions. *)
Definition run_op (fuel : nat) (op : cache_op H) : Go (cache H HS) () :=
  match op with
  | OpAddResourceGroup name => AddResourceGroup name
  | OpDeleteResourceGroup name => DeleteResourceGroup name
  | OpGetInformer obj => ignore (GetInformer obj)
  | OpAddEventHandler gvk h => AddEventHandler gvk h
  | OpGet rg key obj => ignore (Get rg key obj)
  | OpList rg l opts => ignore (List_ rg l opts)
  | OpCreate rg obj => ignore (Create rg obj)
  | OpUpdate rg obj => ignore (Update rg obj)
  | OpPatch rg obj patch => ignore (Patch_ rg obj patch)
  | OpDelete rg obj => ignore (Delete fuel rg obj)
  | OpGarbageCollect got => ignore (processGarbageCollectorWorkItem fuel got)
  | OpSyncGroup => ignore syncGroup
  | OpSync got => ignore (processSyncWorkItem got)
  end.

Definition cache_step c c' : Prop := ∃ fuel op, run_op fuel op c = Done () c'.

(** A fresh cache, started. *)
Definition initial c : Prop :=
  ∃ s, Start false true true true (NewCache s) = Done None c.
Definition reachable c : Prop := ∃ c0, initial c0 ∧ rtc cache_step c0 c.

(** The invariant: trackers are well-formed and the queues are there. *)
Record invariant c : Prop := {
  inv_wf : wf_cache c;
  inv_gcQueue : is_Some (garbageCollectorQueue c);
  inv_syncQueue : is_Some (syncQueue c);
  inv_started : started c = true }.

(** What a run of [m] from [c] must satisfy; [may] says whether it can need more fuel. *)
Definition keeps (may : Prop) {A} (m : Go (cache H HS) A) c : Prop :=
  match m c with
  | Done _ c' => invariant c'
  | Panicked _ => False
  | OutOfFuel => may
  end.

Lemma keeps_bind may {A B} (m : Go (cache H HS) A) (k : A → Go (cache H HS) B) c :
  keeps may m c → (∀ a c', invariant c' → keeps may (k a) c') → keeps may (m ≫= k) c.
Proof.
  unfold keeps. rewrite go_bind_eq. intros Hm Hk. destruct (m c) as [a c'| |]; [|done..]. by apply Hk.
Qed.

Lemma keeps_ret may {A} (a : A) c : invariant c → keeps may (mret a) c.
Proof. done. Qed.

Lemma keeps_ignore may {A} (m : Go (cache H HS) A) c : keeps may m c → keeps may (ignore m) c.
Proof. intros. by apply keeps_bind. Qed.

(** ** Each operation keeps the invariant *)
Lemma invariant_same c c' :
  invariant c → resourceGroups c' = resourceGroups c → garbageCollectorQueue c' = garbageCollectorQueue c →
  syncQueue c' = syncQueue c → started c' = started c → invariant c'.
Proof. intros [Hwf Hq Hs Hst] Hg Hgq Hsq Hss. split; rewrite ?Hgq, ?Hsq, ?Hss; [|done..]. intros rg t. rewrite Hg. apply Hwf. Qed.

Lemma invariant_set_tracker rg t c :
  invariant c → wf_tracker t → invariant (set_resourceGroups (<[rg := t]> (resourceGroups c)) c).
Proof. intros [Hwf Hq Hs Hst] Ht. split; [|done..]. by eapply wf_cache_insert. Qed.

Lemma invariant_notify rg n c : invariant c → invariant (notify rg n c).
Proof.
  intros Hi. eapply invariant_same; [done|apply resourceGroups_notify|apply gcQueue_notify|
    apply syncQueue_notify|apply started_notify].
Qed.

Lemma keeps_modify may f c : (invariant c → invariant (f c)) → invariant c → keeps may (go_modify f) c.
Proof. unfold keeps. cbn. auto. Qed.

Lemma keeps_gcQueue_call may x c : invariant c → keeps may (gcQueue_call x) c.
Proof.
  intros [Hwf [q Hq] Hs Hst]. unfold keeps. rewrite (gcQueue_call_eq _ _ q) by done. by split.
Qed.

Lemma keeps_syncQueue_call may x c : invariant c → keeps may (syncQueue_call x) c.
Proof.
  intros [Hwf Hg [q Hq] Hst]. unfold keeps. rewrite (syncQueue_call_eq _ _ q) by done. by split.
Qed.

(** Operations that only read. *)
Definition reads_only {A} (m : Go (cache H HS) A) : Prop := ∀ c, ∃ a, m c = Done a c.

Lemma keeps_reads_only may {A} (m : Go (cache H HS) A) c : reads_only m → invariant c → keeps may m c.
Proof. intros Hm. unfold keeps. by destruct (Hm c) as [a ->]. Qed.

Lemma Get_reads_only rg key obj : reads_only (Get rg key obj).
Proof.
  intros c. unfold Get. destruct (decide (rg = "")); [by eexists|].
  destruct (decide (nn_Name key = "")); [by eexists|]. destruct obj as [obj|]; [|by eexists].
  destruct (gvkGetAndSet obj) as [[gvk obj1]|e]; [|by eexists]. rewrite go_bind_eq. cbn [go_get].
  destruct (get_tracker rg c) as [t|]; [|by eexists]. destruct (objects t !! gvk); [|by eexists].
  destruct (_ !! key); [|by eexists]. destruct (scheme_Convert _ _); by eexists.
Qed.

Lemma List_reads_only rg l opts : reads_only (List_ rg l opts).
Proof.
  intros c. unfold List_. destruct (decide (rg = "")); [by eexists|]. destruct l as [l|]; [|by eexists].
  destruct (gvkGetAndSet_list l) as [[gvk l1]|e]; [|by eexists]. rewrite go_bind_eq. cbn [go_get].
  destruct (get_tracker rg c) as [t|]; [|by eexists].
  destruct (match objects t !! _ with Some _ => _ | None => _ end); [|by eexists].
  destruct (meta_SetList _ _); by eexists.
Qed.

Lemma keeps_store may rg obj replace c : invariant c → keeps may (store rg obj replace) c.
Proof.
  intros Hi. destruct Hi as [Hwf Hq Hs Hst] eqn:Hi'. unfold keeps.
  destruct (store_total rg obj replace c Hwf) as [(o & e & -> & _)|(o & gvk & t & -> & Hacc & Ht)]; [done|].
  destruct (store_refines rg t gvk o replace c Ht Hacc) as (t' & o' & e & n & k & -> & Hspec).
  apply store_spec_wf in Hspec; [|done..]. unfold after_store.
  assert (Hn : invariant (notify rg n (set_ticks k c))).
  { apply invariant_notify. by apply (invariant_same c). }
  destruct Hn as [_ ? ? ?]. split; [by eapply wf_cache_insert|done..].
Qed.

Lemma keeps_Patch may rg obj patch c : invariant c → keeps may (Patch_ rg (Some obj) patch) c.
Proof.
  intros Hi. unfold Patch_. apply keeps_bind; [apply keeps_reads_only; [apply Get_reads_only|done]|].
  intros [[o|] [e|]] c' Hi'; try by apply keeps_ret. destruct (patch_Data patch o); [|by apply keeps_ret].
  destruct (getEncoder _ _) as [enc|]; [|by apply keeps_ret]. destruct (enc o); [|by apply keeps_ret].
  destruct (decide _); [|by apply keeps_ret]. destruct (jsonpatch_MergePatch _ _); [|by apply keeps_ret].
  destruct (scheme_DecodeInto _ _); [|by apply keeps_ret].
  apply keeps_bind; [by apply keeps_store|]. intros; by apply keeps_ret.
Qed.

Lemma keeps_tryDelete fuel rg r c : invariant c → keeps True (tryDelete fuel rg (ref_gvk r) (ref_key r)) c.
Proof.
  intros Hi. destruct (Hi) as [Hwf [q Hq] Hs Hst].
  destruct (resourceGroups c !! rg) as [t|] eqn:Ht.
  2: { unfold keeps, tryDelete. rewrite go_bind_eq. cbn [go_get]. unfold get_tracker. by rewrite Ht. }
  assert (Hout := tryDelete_ok fuel rg t r q c (Hwf _ _ Ht) Ht Hq). unfold keeps.
  destruct (tryDelete _ _ _ _ c) as [[d e] c'| |]; [|done..].
  destruct Hout as (t' & q' & Hg & [_ _ _ _ _ Hsq Hss] & Hwf' & Hq' & _). split.
  - by eapply wf_cache_insert.
  - by eexists.
  - by rewrite Hsq.
  - by rewrite Hss.
Qed.

Lemma keeps_Delete fuel rg obj c : invariant c → keeps True (Delete fuel rg obj) c.
Proof.
  intros Hi. unfold Delete. destruct (decide (rg = "")); [by apply keeps_ret|].
  destruct obj as [obj|]; [|by apply keeps_ret].
  destruct (decide (GetName obj = "")); [by apply keeps_ret|].
  destruct (gvkGetAndSet obj) as [[gvk obj1]|]; [|by apply keeps_ret].
  apply keeps_bind; [by apply (keeps_tryDelete fuel rg (OwnRef gvk (ObjectKeyFromObject obj1)))|].
  intros [[] [e|]] c' Hi'; try by apply keeps_ret.
  apply keeps_bind; [by apply keeps_gcQueue_call|]. intros; by apply keeps_ret.
Qed.

Lemma keeps_gc fuel got c : invariant c → keeps True (processGarbageCollectorWorkItem fuel got) c.
Proof.
  intros Hi. unfold processGarbageCollectorWorkItem. destruct got as [item []]; [by apply keeps_ret|].
  apply keeps_bind; [by apply keeps_gcQueue_call|]. intros _ c1 Hi1.
  assert (Hend : ∀ (r : bool) c', invariant c' →
    keeps True (_ ← gcQueue_call (QDone item); mret r) c').
  { intros r c' Hi'. apply keeps_bind; [by apply keeps_gcQueue_call|]. intros; by apply keeps_ret. }
  apply keeps_bind; [|by intros; apply Hend].
  destruct item as [gcr|].
  2: { apply keeps_bind; [by apply keeps_gcQueue_call|]. intros; by apply keeps_ret. }
  apply keeps_bind; [by apply (keeps_tryDelete fuel _ (OwnRef (gc_gvk gcr) (gc_key gcr)))|].
  intros [d e] c2 Hi2.
  assert (Hretry : keeps True (_ ← gcQueue_call (QForget (Is gcr)); c ← go_get;
    _ ← gcQueue_call (QAddAfter (Is gcr) (wait_Jitter (garbageCollectorRequeueAfter c)
      (garbageCollectorRequeueAfterJitterFactor c))); mret true) c2).
  { apply keeps_bind; [by apply keeps_gcQueue_call|]. intros _ c3 Hi3.
    apply keeps_bind; [done|]. intros a c4 Hi4.
    apply keeps_bind; [by apply keeps_gcQueue_call|]. intros; by apply keeps_ret. }
  destruct d, e; try exact Hretry.
  apply keeps_bind; [by apply keeps_gcQueue_call|]. intros; by apply keeps_ret.
Qed.

Lemma keeps_syncGroup may c : invariant c → keeps may syncGroup c.
Proof.
  intros Hi. destruct (Hi) as [Hwf Hq [q Hs] Hst]. unfold keeps, syncGroup.
  rewrite go_bind_eq. cbn [go_get]. rewrite go_bind_eq.
  rewrite (syncOneGroup_loop _ 0 q) by done. by split.
Qed.

(** A sync keeps an object well-formed. *)
Lemma synced_object_wf now gvk key obj :
  object_wf gvk key obj →
  object_wf gvk key
    (SetAnnotations (appendAnnotations obj [lastSyncTimeAnnotation; Format now 0]) obj).
Proof.
  intros [? ? ? ? ?]. split; try done. cbn. rewrite lookup_insert_eq. by eexists.
Qed.

Lemma keeps_resync may rr c : invariant c → keeps may (resync rr) c.
Proof.
  intros Hi. destruct rr as [rg gvk key]. unfold resync, keeps. rewrite go_bind_eq. cbn [go_get].
  cbn [rr_resourceGroup rr_gvk rr_key]. unfold get_tracker.
  destruct (resourceGroups c !! rg) as [t|] eqn:Ht; [|done].
  destruct (objects t !! gvk) as [objs|] eqn:Hobjs; [|done].
  destruct (objs !! key) as [obj|] eqn:Hobj; [|done].
  assert (Htr : tracked t gvk key = Some obj) by (unfold tracked; by rewrite Hobjs).
  assert (Hwf : wf_tracker t) by (by eapply (inv_wf _ Hi)).
  rewrite go_bind_eq.
  change (Now c) with (Done (W := cache H HS) (time_Now (ticks c)) (set_ticks (S (ticks c)) c)).
  cbn beta iota. set (obj' := SetAnnotations _ obj).
  change (invariant (notify rg (NotifySync obj') (set_resourceGroups
    (<[rg := track gvk key obj' t]> (resourceGroups (set_ticks (S (ticks c)) c)))
    (set_ticks (S (ticks c)) c)))).
  apply invariant_notify, invariant_set_tracker; [by apply (invariant_same c)|].
  apply wf_track; [done|]. apply synced_object_wf. by apply Hwf.
Qed.

Lemma keeps_sync may got c : invariant c → keeps may (processSyncWorkItem got) c.
Proof.
  intros Hi. destruct got as [item []]; [by apply keeps_ret|]. unfold processSyncWorkItem.
  apply keeps_bind; [destruct item; [by apply keeps_resync|by apply keeps_ret]|]. intros r c1 Hi1.
  apply keeps_bind; [by apply keeps_syncQueue_call|]. intros _ c2 Hi2.
  apply keeps_bind; [by apply keeps_syncQueue_call|]. intros; by apply keeps_ret.
Qed.

Lemma keeps_AddResourceGroup may name c : invariant c → keeps may (AddResourceGroup name) c.
Proof.
  intros Hi. unfold AddResourceGroup, keeps. rewrite go_bind_eq. cbn [go_get].
  destruct (resourceGroups c !! name); [done|]. cbn. apply invariant_set_tracker; [done|].
  split; [by intros gvk key obj Ht|by intros r s Hs].
Qed.

Lemma keeps_DeleteResourceGroup may name c : invariant c → keeps may (DeleteResourceGroup name) c.
Proof.
  intros [Hwf ? ? ?]. unfold keeps. cbn. split; [|done..].
  intros rg t. cbn. intros [_ ?]%lookup_delete_Some. by eapply Hwf.
Qed.

Lemma keeps_GetInformer may obj c : invariant c → keeps may (GetInformer obj) c.
Proof.
  intros Hi. unfold GetInformer. destruct (scheme_GVKForObject _ _) as [gvk|]; [|by apply keeps_ret].
  apply keeps_bind; [|by intros; apply keeps_ret]. unfold GetInformerForKind, keeps.
  rewrite go_bind_eq. cbn [go_get]. destruct (informers c !! gvk); cbn; [done|].
  by apply (invariant_same c).
Qed.

Definition recursive (op : cache_op H) : Prop :=
  match op with OpDelete _ _ | OpGarbageCollect _ => True | _ => False end.

(** A Patch of a nil object. *)
Definition patches_nil (op : cache_op H) : bool :=
  match op with OpPatch _ None _ => true | _ => false end.

Lemma keeps_op fuel op c : patches_nil op = false → invariant c → keeps (recursive op) (run_op fuel op) c.
Proof.
  intros Hnil Hi. destruct op as [| | | | | | | |rg [obj|] patch| | | |]; [..|done| | | |]; cbn [run_op recursive];
    try (apply keeps_ignore);
    eauto using keeps_AddResourceGroup, keeps_DeleteResourceGroup, keeps_GetInformer, keeps_store,
      keeps_Patch, keeps_Delete, keeps_gc, keeps_syncGroup, keeps_sync, keeps_reads_only,
      Get_reads_only, List_reads_only.
  by apply (invariant_same c).
Qed.

Lemma initial_invariant c : initial c → invariant c.
Proof.
  intros (s & Hrun). cbn in Hrun. injection Hrun as <-.
  split; [|by eexists|by eexists|done]. intros rg t Ht. cbn in Ht. by rewrite lookup_empty in Ht.
Qed.

Lemma reachable_invariant c : reachable c → invariant c.
Proof.
  intros (c0 & Hinit & Hsteps). apply initial_invariant in Hinit. revert Hinit.
  induction Hsteps as [c|c1 c2 c3 (fuel & op & Hrun) _ IH]; [done|]. intros Hi. apply IH.
  destruct (patches_nil op) eqn:Hnil; [by destruct op as [| | | | | | | |rg [obj|] patch| | | |]|].
  assert (Hk := keeps_op fuel op c1 Hnil Hi). unfold keeps in Hk. by rewrite Hrun in Hk.
Qed.

(** ** Properties *)
(** C8: in every state that client calls and worker iterations lead a started cache
    to, each tracked object sits under its own kind and key, has a version "v<n>"
    with n an int, a last-sync annotation and only readable owner references, no
    empty set of owned objects is kept, and both queues exist. *)
Theorem reachable_well_formed c rg t :
  reachable c → resourceGroups c !! rg = Some t →
  (∀ gvk key obj, tracked t gvk key = Some obj →
     obj_gvk obj = gvk ∧ ObjectKeyFromObject obj = key ∧
     (∃ n, is_int n ∧ GetResourceVersion obj = "v" +:+ Itoa n) ∧
     is_Some (gomap_elems (GetAnnotations obj) !! lastSyncTimeAnnotation) ∧
     ∀ o, o ∈ GetOwnerReferences obj → ∃ r, points_to (GetNamespace obj) o r) ∧
  (∀ r s, ownedObjects t !! r = Some s → s ≠ ∅) ∧
  is_Some (garbageCollectorQueue c) ∧ is_Some (syncQueue c) ∧ started c = true.
Proof.
  intros [Hwf Hgq Hsq Hst]%reachable_invariant Ht. destruct (Hwf _ _ Ht) as [Hobj Hne].
  split; [|done]. intros gvk key obj [Hg Hk Hv Hs Ho]%Hobj. done.
Qed.

(** An object one of whose owner references points to an object that is not
    tracked can be neither created nor updated, whatever else changes: the call is a
    bad request and changes nothing.  (So a dependent that waits for its finalizers
    can no longer be updated, even to drop them, once its owner is gone.) *)
Theorem untracked_owner_refused rg gvk t obj (replace : bool) c o r :
  reachable c → store_accepts rg obj replace gvk t c →
  o ∈ GetOwnerReferences obj → points_to (GetNamespace obj) o r → tracked_ref t r = None →
  ∃ e c', store rg (Some obj) replace c = Done (Some (SetGroupVersionKind gvk obj), Some e) c' ∧
    IsBadRequest e = true ∧ cache_eqv c c'.
Proof.
  intros Hr Hacc Ho Hpt Hnone. destruct (reachable_invariant _ Hr) as [Hwf _ _ _].
  assert (Ht := acc_tracker _ _ _ _ _ _ Hacc).
  destruct (store_refines rg t gvk obj replace c (Hwf _ _ Ht) Hacc)
    as (t' & o' & e & n & k & Hrun & Hspec).
  destruct (validateOwners t (GetNamespace (SetGroupVersionKind gvk obj))
    (GetOwnerReferences (SetGroupVersionKind gvk obj))) as [e1|] eqn:Hv.
  2: { destruct (validateOwners_None _ _ _ Hv o Ho) as (r' & Hpt' & [x Hx]).
       rewrite (points_to_inj _ _ _ _ Hpt' Hpt) in Hx. congruence. }
  inversion Hspec; subst; try congruence. do 2 eexists. split; [exact Hrun|]. split.
  - by eapply validateOwners_BadRequest.
  - by apply (after_store_silent rg t').
Qed.

(** C20: in a reachable cache no client call and no worker iteration panics, other than
    a Patch of a nil object, which always does; and other than deletions, whose
    recursion can fail to end, each of them returns.  Other calls may be given nil objects
    and lists.  Patches, list options, event handlers and the object that
    names the kind of an informer are taken to be not nil. *)
Theorem reachable_never_panics c fuel op :
  reachable c →
  match run_op fuel op c with
  | Done _ c' => reachable c'
  | Panicked _ => match op with OpPatch _ None _ => True | _ => False end
  | OutOfFuel =>
      match op with OpDelete _ _ | OpGarbageCollect _ => True | _ => False end
  end ∧
  ∀ rg patch, ∃ msg, run_op fuel (OpPatch rg None patch) c = Panicked msg.
Proof.
  intros Hr. split; [|intros rg patch; by eexists].
  destruct (patches_nil op) eqn:Hnil; [by destruct op as [| | | | | | | |rg [obj|] patch| | | |]|].
  assert (Hk := keeps_op fuel op c Hnil (reachable_invariant c Hr)). unfold keeps in Hk.
  destruct (run_op fuel op c) as [[] c'| |] eqn:Hrun; [|done|].
  - destruct Hr as (c0 & Hinit & Hsteps). exists c0. split; [done|].
    eapply rtc_r; [done|]. by exists fuel, op.
  - by destruct op.
Qed.
End system.

(** ** Concrete states *)
Lemma reachable_exec {A} fuel op (m : Go test_cache A) c :
  reachable c → run_op fuel op = ignore m →
  match m c with Done _ _ => true | _ => false end = true → reachable (exec m c).
Proof.
  intros (c0 & Hinit & Hsteps) Hop Hrun. exists c0. split; [done|]. eapply rtc_r; [done|].
  exists fuel, op. rewrite Hop. unfold ignore, exec. rewrite go_bind_eq. by destruct (m c).
Qed.

Lemma test_start_reachable : reachable test_start.
Proof.
  eexists. split; [by exists []|]. eapply rtc_l; [|eapply rtc_l; [|eapply rtc_l; [|apply rtc_refl]]].
  - exists 0%nat, (OpGetInformer (new_machine "" [] [])). reflexivity.
  - exists 0%nat, (OpAddEventHandler (cloudv1_gvk "CloudMachine") "h"). reflexivity.
  - exists 0%nat, (OpAddResourceGroup "rg"). reflexivity.
Qed.

(** A "child" with a finalizer whose owner has been deleted. *)
Definition test_orphan0 : test_cache :=
  exec (Create "rg" (Some (new_machine "child" [owner_of_machine "owner"] ["fin"]))) test_owner.
Definition test_orphan : test_cache := exec (Delete 5 "rg" (Some (m "owner"))) test_orphan0.

Lemma test_owner_reachable : reachable test_owner.
Proof.
  apply (reachable_exec 0%nat (OpCreate "rg" (Some new_owner)));
    [exact test_start_reachable|done|vm_compute; reflexivity].
Qed.

Lemma test_family_reachable : reachable test_family.
Proof.
  apply (reachable_exec 0%nat (OpCreate "rg" (Some new_child)));
    [exact test_owner_reachable|done|vm_compute; reflexivity].
Qed.

Lemma test_orphan_reachable : reachable test_orphan.
Proof.
  apply (reachable_exec 5 (OpDelete "rg" (Some (m "owner")))); [|done|vm_compute; reflexivity].
  apply (reachable_exec 0%nat (OpCreate "rg" (Some (new_machine "child" [owner_of_machine "owner"] ["fin"]))));
    [exact test_owner_reachable|done|vm_compute; reflexivity].
Qed.

Lemma reachable_well_formed_witness :
  is_Some (garbageCollectorQueue test_family) ∧ started test_family = true.
Proof.
  destruct (reachable_well_formed test_family "rg" (the_tracker test_family) test_family_reachable
    test_family_tracker) as (_ & _ & Hq & _ & Hst).
  exact (conj Hq Hst).
Defined.

Lemma reachable_never_panics_witness :
  match run_op 5 (OpDelete "rg" (Some (m "owner"))) test_family with
  | Done _ c' => reachable c'
  | Panicked _ => False
  | OutOfFuel => True
  end.
Proof.
  exact (proj1 (reachable_never_panics test_family 5 (OpDelete "rg" (Some (m "owner")))
    test_family_reachable)).
Defined.

(** The controller drops the finalizer of the orphan: refused. *)
Lemma untracked_owner_refused_witness :
  ∃ r e c', Update "rg" (Some (SetFinalizers None (the_object "child" test_orphan))) test_orphan =
    Done (r, Some e) c' ∧ IsBadRequest e = true.
Proof.
  destruct (untracked_owner_refused "rg" (cloudv1_gvk "CloudMachine") (the_tracker test_orphan)
    (SetFinalizers None (the_object "child" test_orphan)) true test_orphan
    (owner_of_machine "owner") (machine_ref "owner") test_orphan_reachable)
    as (e & c' & Hrun & He & _).
  - apply accepts_in_test. vm_compute. reflexivity.
  - vm_decide.
  - unfold points_to. vm_compute. reflexivity.
  - vm_decide.
  - exact (ex_intro _ _ (ex_intro _ e (ex_intro _ c' (conj Hrun He)))).
Defined.
