(* ===== verification/CacheLocks.v ===== *)
(** * The operations on a resource group, with their locks

    Get, List, store (Create and Update), tryDelete and the step of a sync worker as
    programs that take the locks of client.go, sync.go and informer.go, on the cache of
    Cache.v: the lock of the cache to find the tracker, the lock of the tracker for the
    operation, and the locks of the cache and of the informer for each event.
    As requests of a client they do in their sections what the functions of Cache.v do at
    once ([request_follows]) and take their locks in order ([request_neutral]);
    CacheSerial.v and CacheClients.v draw the conclusions.

    A goroutine that panics or overflows its stack waits for ever for the lock it
    holds; that happens only where the function of Cache.v does not return either. *)

From stdpp Require Import prelude gmap strings list relations countable.
From Stdlib Require Import ZArith Lia.
From S2P Require Import Prelude GoStd GoTime Api Runtime Cache CacheFacts CacheStore CacheDelete CacheWorkers CacheSystem TestEnv.
From S2P Require Import Sync SyncSerial LockOrder.

Section locked.
Context {H HS : Type} {E : Env} {IH : InformEventHandler H HS}.
Implicit Types c : cache H HS.
Abbreviation program A := (prog LockId (cache H HS) A).

(** Pointers are the codes of what they are found by; an event is a call of a handler. *)
#[export] Instance cache_pointers : Pointers (cache H HS) (H → HS → HS) := {|
  tracker_of rg c := (λ _, encode rg) <$> resourceGroups c !! rg;
  trackers c := encode <$> (map_to_list (resourceGroups c)).*1;
  informer_of gvk c := (λ _, encode gvk) <$> informers c !! gvk;
  handlers_of i c :=
    match decode i ≫= (informers c !!.) with
    | Some handlers => (λ h call c, set_handlerState (call h (handlerState c)) c) <$> handlers
    | None => []
    end;
  (* these belong to other parts of the program *)
  name_by_host _ _ := None; started_ _ _ := false; startWatches_ _ _ := []; hotRestartDone_ _ := false |}.

#[export] Instance tracker_inhabited : Inhabited resourceGroupTracker := populate (mkTracker ∅ ∅).
#[export] Instance Object_inhabited : Inhabited Object := populate empty_unstructured.

Context (rg : string).
Abbreviation tracker_lock := (TrackerLock (encode rg)).

(** A call of a function of Cache.v that takes no lock.  When it does not return, neither
    does the goroutine: it waits for the lock it holds. *)
Definition never {A} `{!Inhabited A} : program A := Lock tracker_lock (mret inhabitant).
Definition runs {A} `{!Inhabited A} (m : Go (cache H HS) A) : program A :=
  Do (λ c, match m c with Done _ c' => c' | _ => c end)
     (λ c, match m c with Done a _ => mret a | _ => never end).

(** What the pointer to the tracker leads to, and an assignment through it. *)
Definition load_tracker : program resourceGroupTracker := reads (λ c, default inhabitant (get_tracker rg c)).
Definition set_tracker (t : resourceGroupTracker) : program () :=
  does (λ c, set_resourceGroups (<[rg := t]> (resourceGroups c)) c).

(** *** hooks.go *)
Definition afterCreate_locked (obj : Object) : program () :=
  inform_locks (obj_gvk obj) (λ h, OnCreate h rg obj).
Definition afterUpdate_locked (oldObj newObj : Object) : program () :=
  if TimePtr_IsZero (GetDeletionTimestamp oldObj)
     && negb (TimePtr_IsZero (GetDeletionTimestamp newObj))
  then inform_locks (obj_gvk newObj) (λ h, OnDelete h rg newObj)
  else if DeepEqual newObj oldObj then mret ()
  else inform_locks (obj_gvk newObj) (λ h, OnUpdate h rg oldObj newObj).

(** *** client.go: Get and List, which read in their section what is left of them *)
Definition Get_locked (key : NamespacedName) (obj : option Object) : program (option Object * option APIError) :=
  if decide (rg = "") then mret (obj, Some (BadRequest ResourceGroupEmpty)) else
  if decide (nn_Name key = "") then mret (obj, Some (BadRequest KeyNameEmpty)) else
  match obj with
  | None => mret (None, Some (BadRequest ObjectNil))
  | Some o =>
  match gvkGetAndSet o with
  | inr err => mret (Some o, Some err)
  | inl (_, o1) =>
      Get_locks rg (Some o1, Some (BadRequest (ResourceGroupMissing rg)))
        (λ _ c, match Get rg key obj c with Done a _ => a | _ => inhabitant end)
  end end.
Definition List_locked (l : option ObjectList) (opts : list ListOption) : program (option ObjectList * option APIError) :=
  if decide (rg = "") then mret (l, Some (BadRequest ResourceGroupEmpty)) else
  match l with
  | None => mret (None, Some (BadRequest ListNil))
  | Some l0 =>
  match gvkGetAndSet_list l0 with
  | inr err => mret (Some l0, Some err)
  | inl (_, l1) =>
      Get_locks rg (Some l1, Some (BadRequest (ResourceGroupMissing rg)))
        (λ _ c, match List_ rg l opts c with Done a _ => a | _ => (l, None) end)
  end end.

(** *** client.go: store *)
Definition updateOwners_locked (oldObj : option Object) (newObj : Object) (objRef : ownReference) : program () :=
  tracker ← load_tracker;
  tracker ← runs (updateTrackerOwnerReferences tracker oldObj newObj objRef);
  set_tracker tracker.

Definition storeLocked_locked (objGVK : GroupVersionKind) (obj : Object) (replaceExisting : bool)
  : program (Object * option APIError) :=
  tracker ← load_tracker;
  match validateOwners tracker (GetNamespace obj) (GetOwnerReferences obj) with
  | Some err => mret (obj, Some err)
  | None =>
  _ ← set_tracker (with_kind objGVK tracker);
  let objKey := ObjectKeyFromObject obj in
  let objRef := OwnRef objGVK objKey in
  tracker ← load_tracker;
  match tracked tracker objGVK objKey with
  | Some trackedObj =>
      if replaceExisting then
        if negb (bool_decide (GetResourceVersion trackedObj = GetResourceVersion obj)) then
          mret (obj, Some (Conflict (unsafeGuessGroupResource objGVK) (NamespacedName_String objKey)))
        else
          r ← runs (beforeUpdate rg trackedObj obj);
          match r with
          | (obj, Some err) => mret (obj, Some err)
          | (obj, None) =>
              _ ← set_tracker (track objGVK objKey obj tracker);
              _ ← updateOwners_locked (Some trackedObj) obj objRef;
              _ ← afterUpdate_locked trackedObj obj;
              mret (obj, None)
          end
      else mret (obj, Some (AlreadyExists (unsafeGuessGroupResource objGVK) (NamespacedName_String objKey)))
  | None =>
      if replaceExisting then mret (obj, Some (notFound objGVK objKey))
      else
        r ← runs (beforeCreate rg obj);
        match r with
        | (obj, Some err) => mret (obj, Some err)
        | (obj, None) =>
            _ ← set_tracker (track objGVK objKey obj tracker);
            _ ← updateOwners_locked None obj objRef;
            _ ← afterCreate_locked obj;
            mret (obj, None)
        end
  end end.

Definition store_locked (obj : option Object) (replaceExisting : bool) : program (option Object * option APIError) :=
  if decide (rg = "") then mret (obj, Some (BadRequest ResourceGroupEmpty)) else
  match obj with
  | None => mret (None, Some (BadRequest ObjectNil))
  | Some obj =>
  match gvkGetAndSet obj with
  | inr err => mret (Some obj, Some err)
  | inl (objGVK, obj) =>
  if replaceExisting && bool_decide (GetName obj = "")
  then mret (Some obj, Some (BadRequest ObjectNameEmpty)) else
  t ← resourceGroupTracker_locks rg;
  match t with
  | None => mret (Some obj, Some (BadRequest (ResourceGroupMissing rg)))
  | Some a => locked (TrackerLock a) (
      r ← storeLocked_locked objGVK obj replaceExisting;
      mret (Some r.1, r.2))
  end end end.

(** *** client.go: tryDelete *)
Definition markOrRemove_locked (objGVK : GroupVersionKind) (objKey : NamespacedName) (obj : Object)
  : program (bool * option APIError) :=
  match GetFinalizers obj with
  | _ :: _ =>
      if negb (TimePtr_IsZero (GetDeletionTimestamp obj)) then mret (false, None)
      else
        err ← runs (beforeDelete rg obj);
        match err with
        | Some err => mret (false, Some (BadRequest (WrappedMessage "beforeDelete")))
        | None =>
            let oldObj := obj in
            now ← runs Now;
            let obj := SetDeletionTimestamp (Some now) obj in
            r ← runs (beforeUpdate rg oldObj obj);
            tracker ← load_tracker;
            match r with
            | (obj, Some err) =>
                _ ← set_tracker (track objGVK objKey obj tracker);
                mret (false, Some (BadRequest (WrappedMessage "beforeUpdate")))
            | (obj, None) =>
                let obj := SetDeletionTimestamp (Some now) obj in
                _ ← set_tracker (track objGVK objKey obj tracker);
                _ ← afterUpdate_locked oldObj obj;
                mret (false, None)
            end
        end
  | [] =>
      tracker ← load_tracker;
      _ ← set_tracker (untrack objGVK objKey tracker);
      _ ← runs (afterDelete rg obj);
      mret (true, None)
  end.

(** A loop whose body can end it with an error. *)
Fixpoint untilError {A} (body : A → program (option APIError)) (l : list A) : program (option APIError) :=
  match l with
  | [] => mret None
  | x :: l =>
      err ← body x;
      match err with
      | Some err => mret (Some err)
      | None => untilError body l
      end
  end.

Fixpoint doTryDeleteLocked_locked (fuel : nat) (objGVK : GroupVersionKind) (objKey : NamespacedName)
  : program (bool * option APIError) :=
  match fuel with
  | O => never
  | S fuel =>
  tracker ← load_tracker;
  match tracked tracker objGVK objKey with
  | None => mret (true, Some (notFound objGVK objKey))
  | Some obj =>
  err ← match ownedObjects tracker !! OwnRef objGVK objKey with
        | None => mret None
        | Some ownedReferences =>
            err ← untilError (λ ref,
                r ← doTryDeleteLocked_locked fuel (ref_gvk ref) (ref_key ref);
                match r with
                | (_, Some err) => mret (Some err)
                | (deleted, None) =>
                    _ ← (if deleted : bool then mret ()
                         else runs (gcQueue_call (QAdd (Is (mkGcRequest rg (ref_gvk ref) (ref_key ref))))));
                    mret None
                end) (set_range ownedReferences);
            match err with
            | Some err => mret (Some err)
            | None =>
                tracker ← load_tracker;
                _ ← set_tracker (set_ownedObjects (delete (OwnRef objGVK objKey) (ownedObjects tracker)) tracker);
                mret None
            end
        end;
  match err with
  | Some err => mret (false, Some err)
  | None => markOrRemove_locked objGVK objKey obj
  end end end.

Definition tryDelete_locked (fuel : nat) (gvk : GroupVersionKind) (key : NamespacedName)
  : program (bool * option APIError) :=
  t ← resourceGroupTracker_locks rg;
  match t with
  | None => mret (true, Some (BadRequest (ResourceGroupMissing rg)))
  | Some a => locked (TrackerLock a) (doTryDeleteLocked_locked fuel gvk key)
  end.

(** *** sync.go: the step of a sync worker *)
Definition resync_locked (gvk : GroupVersionKind) (key : NamespacedName) : program bool :=
  t ← resourceGroupTracker_locks rg;
  match t with
  | None => mret true
  | Some a => locked (TrackerLock a) (
      tracker ← load_tracker;
      match objects tracker !! gvk with
      | None => mret true
      | Some objs =>
      match objs !! key with
      | None => mret true
      | Some obj =>
          now ← runs Now;
          let obj := SetAnnotations (appendAnnotations obj [lastSyncTimeAnnotation; Format now 0]) obj in
          _ ← set_tracker (track gvk key obj tracker);
          _ ← inform_locks (obj_gvk obj) (λ h, OnGeneric h rg obj);
          mret true
      end end)
  end.
End locked.

(** ** Requests: what a goroutine asks of the group, and what it gets *)
Inductive request :=
| RequestGet (key : NamespacedName) (obj : option Object)
| RequestList (l : option ObjectList) (opts : list ListOption)
| RequestCreate (obj : option Object)
| RequestUpdate (obj : option Object)
| RequestTryDelete (gvk : GroupVersionKind) (key : NamespacedName)
| RequestResync (gvk : GroupVersionKind) (key : NamespacedName).
Inductive answer :=
| AnswerObject (r : option Object * option APIError)
| AnswerList (r : option ObjectList * option APIError)
| AnswerDeleted (r : bool * option APIError)
| AnswerContinue (r : bool).

Section requests.
Context {H HS : Type} {E : Env} {IH : InformEventHandler H HS} (rg : string) (fuel : nat).

(** The function of Cache.v, and the program with its locks. *)
Definition at_once (r : request) : Go (cache H HS) answer :=
  match r with
  | RequestGet key obj => a ← Get rg key obj; mret (AnswerObject a)
  | RequestList l opts => a ← List_ rg l opts; mret (AnswerList a)
  | RequestCreate obj => a ← Create rg obj; mret (AnswerObject a)
  | RequestUpdate obj => a ← Update rg obj; mret (AnswerObject a)
  | RequestTryDelete gvk key => a ← tryDelete fuel rg gvk key; mret (AnswerDeleted a)
  | RequestResync gvk key => a ← resync (mkResyncRequest rg gvk key); mret (AnswerContinue a)
  end.
Definition with_locks (r : request) : prog LockId (cache H HS) answer :=
  match r with
  | RequestGet key obj => a ← Get_locked rg key obj; mret (AnswerObject a)
  | RequestList l opts => a ← List_locked rg l opts; mret (AnswerList a)
  | RequestCreate obj => a ← store_locked rg obj false; mret (AnswerObject a)
  | RequestUpdate obj => a ← store_locked rg obj true; mret (AnswerObject a)
  | RequestTryDelete gvk key => a ← tryDelete_locked rg fuel gvk key; mret (AnswerDeleted a)
  | RequestResync gvk key => a ← resync_locked rg gvk key; mret (AnswerContinue a)
  end.
(** The answer of an operation that runs at once. *)
Definition answers_at_once (r : request) (c : cache H HS) (a : answer) (c' : cache H HS) : Prop := at_once r c = Done a c'.
End requests.

(** ** Each program does in its section what the function does *)
Section simulation.
Context {H HS : Type} {E : Env} {IH : InformEventHandler H HS} (rg : string) (fuel : nat).
Implicit Types c : cache H HS.
Abbreviation program A := (prog LockId (cache H HS) A).
Abbreviation tracker_lock := (TrackerLock (encode rg)).

Definition has_group c : Prop := is_Some (resourceGroups c !! rg).
Abbreviation obeys := (follows (answers_at_once rg fuel) tracker_lock has_group has_group).

(** The memory when a function of Cache.v has got to the tracker [t] and the rest [c]. *)
Definition seen (t : resourceGroupTracker) c : cache H HS := set_resourceGroups (<[rg := t]> (resourceGroups c)) c.
Lemma seen_tracker t c : get_tracker rg (seen t c) = Some t.
Proof. unfold get_tracker. cbn. by rewrite lookup_insert_eq. Qed.
Lemma seen_group t c : has_group (seen t c).
Proof. unfold has_group. cbn. rewrite lookup_insert_eq. by eexists. Qed.
Lemma seen_same t c : resourceGroups c !! rg = Some t → seen t c = c.
Proof. intros Ht. unfold seen. rewrite insert_id by done. by destruct c. Qed.
Lemma seen_seen t u c : seen t (seen u c) = seen t c.
Proof. unfold seen. cbn. by rewrite insert_insert_eq. Qed.

Lemma notified_seen call gvk t c : notified call gvk (seen t c) = seen t (notified call gvk c).
Proof. unfold notified. cbn [informers seen set_resourceGroups]. by destruct (informers c !! gvk). Qed.

(** Functions that touch no tracker. *)
Definition blind {A} (m : Go (cache H HS) A) : Prop := ∀ t c,
  m (seen t c) = match m c with
                 | Done a c' => Done a (seen t c')
                 | Panicked msg => Panicked msg
                 | OutOfFuel => OutOfFuel
                 end.
Lemma blind_ret {A} (a : A) : blind (mret a).
Proof. done. Qed.
Lemma blind_bind {A B} (m : Go (cache H HS) A) (k : A → Go (cache H HS) B) :
  blind m → (∀ a, blind (k a)) → blind (m ≫= k).
Proof. intros Hm Hk t c. rewrite !go_bind_eq, Hm. destruct (m c); [apply Hk|done..]. Qed.
Lemma blind_Now : blind Now.
Proof. done. Qed.
Lemma blind_beforeCreate obj : blind (beforeCreate rg obj).
Proof. done. Qed.
Lemma blind_beforeUpdate old obj : blind (beforeUpdate rg old obj).
Proof. unfold beforeUpdate. case_match; [apply blind_ret|]. apply blind_bind; [apply blind_Now|]. by intros now. Qed.
Lemma blind_gcQueue_call q : blind (gcQueue_call q).
Proof. intros t c. unfold gcQueue_call. rewrite !go_bind_eq. cbn. by destruct (garbageCollectorQueue c). Qed.
Lemma blind_updateOwners t old obj r : blind (updateTrackerOwnerReferences t old obj r).
Proof. unfold updateTrackerOwnerReferences. by case_match. Qed.
#[local] Hint Resolve blind_ret blind_Now blind_beforeCreate blind_beforeUpdate blind_gcQueue_call blind_updateOwners : core.

(** How a run goes on, and what holds when it does not return. *)
Definition on_res {A} (r : res (cache H HS) A) (otherwise : Prop) (P : A → cache H HS → Prop) : Prop :=
  match r with Done a c => P a c | _ => otherwise end.
Lemma on_res_bind {A B} (m : Go (cache H HS) A) (k : A → Go (cache H HS) B) c S P :
  on_res ((m ≫= k) c) S P = on_res (m c) S (λ a c', on_res (k a c') S P).
Proof. rewrite go_bind_eq. by destruct (m c). Qed.
Lemma on_res_mono {A} (r : res (cache H HS) A) S (P P' : A → cache H HS → Prop) :
  on_res r S P → (∀ a c, P a c → P' a c) → on_res r S P'.
Proof. destruct r; cbn; auto. Qed.

(** Sections: the client [kc] came to the cache [c0]. *)
Section rules.
Context {B : Type} (kc : client request answer B) (c0 : cache H HS).
Abbreviation section_at t c := (obeys kc (Writes c0 (seen t c))).
Abbreviation stuck_here := (stuck (answers_at_once rg fuel) c0 kc).

Lemma runs_follows {A} `{!Inhabited A} (m : Go (cache H HS) A) (k : A → program B) t c :
  blind m → on_res (m c) stuck_here (λ a c', section_at t c' (k a)) → section_at t c (runs rg m ≫= k).
Proof.
  intros Hm Hk. unfold runs. cbn. rewrite Hm. destruct (m c) as [a c'| |]; cbn in *.
  - split; [apply seen_group|exact Hk].
  - split; [apply seen_group|]. by rewrite decide_True.
  - split; [apply seen_group|]. by rewrite decide_True.
Qed.
Lemma load_tracker_follows (k : _ → program B) t c : section_at t c (k t) → section_at t c (load_tracker rg ≫= k).
Proof. intros Hk. cbn -[get_tracker]. rewrite seen_tracker. split; [apply seen_group|exact Hk]. Qed.
Lemma set_tracker_follows (k : _ → program B) t t' c :
  section_at t' c (k tt) → section_at t c (set_tracker rg t' ≫= k).
Proof. intros Hk. cbn. change (set_resourceGroups _ (seen t c)) with (seen t' (seen t c)). rewrite seen_seen. split; [apply seen_group|exact Hk]. Qed.

(** An event reaches the handlers in order. *)
Lemma handlers_follow (hs : list H) (call : H → HS → HS) (k : () → program B) t c :
  section_at t (set_handlerState (fold_left (λ s h, call h s) hs (handlerState c)) c) (k tt) →
  section_at t c (inSequence (λ h, does (h call)) ((λ h call c, set_handlerState (call h (handlerState c)) c) <$> hs) ≫= k).
Proof.
  revert c. induction hs as [|h hs IHhs]; intros c Hk.
  - by destruct c.
  - cbn. split; [apply seen_group|]. apply (IHhs (set_handlerState (call h (handlerState c)) c)). done.
Qed.
Lemma inform_follows gvk call (k : () → program B) t c :
  section_at t (notified call gvk c) (k tt) → section_at t c (inform_locks gvk call ≫= k).
Proof.
  intros Hk. unfold inform_locks, rlocked. cbn. unfold notified in Hk.
  rewrite decide_False by done. split; [apply seen_group|].
  destruct (informers c !! gvk) as [hs|] eqn:Hhs; cbn; [|by rewrite decide_False].
  rewrite !decide_False by done. split; [apply seen_group|]. rewrite !follows_assoc, decode_encode. cbn.
  rewrite Hhs. apply handlers_follow. cbn. by rewrite !decide_False.
Qed.

(** *** client.go *)
Lemma afterCreate_follows obj (k : () → program B) t c :
  on_res (afterCreate rg obj c) stuck_here (λ _ c', section_at t c' (k tt)) →
  section_at t c (afterCreate_locked rg obj ≫= k).
Proof. intros Hk. by apply inform_follows, Hk. Qed.
Lemma afterUpdate_follows old obj (k : () → program B) t c :
  on_res (afterUpdate rg old obj c) stuck_here (λ _ c', section_at t c' (k tt)) →
  section_at t c (afterUpdate_locked rg old obj ≫= k).
Proof.
  unfold afterUpdate, afterUpdate_locked. intros Hk. case_match; [by apply inform_follows, Hk|].
  case_match; [by apply Hk|by apply inform_follows, Hk].
Qed.
Lemma updateOwners_follows old obj r (k : () → program B) t c :
  on_res (updateTrackerOwnerReferences t old obj r c) stuck_here (λ t' c', section_at t' c' (k tt)) →
  section_at t c (updateOwners_locked rg old obj r ≫= k).
Proof.
  intros Hk. unfold updateOwners_locked. rewrite follows_assoc. apply load_tracker_follows.
  rewrite follows_assoc. apply runs_follows; [done|]. eapply on_res_mono; [exact Hk|]. intros t' c' Ht.
  by apply set_tracker_follows.
Qed.

(** One call of the function and of the program. *)
Ltac in_step rule a c1 Hk1 :=
  lazymatch goal with Hk : on_res _ _ _ |- _ =>
    rewrite on_res_bind in Hk; rewrite follows_assoc; apply rule; [try done..|];
    eapply on_res_mono; [exact Hk|]; clear Hk; intros a c1 Hk1; cbn beta in Hk1
  end.
Ltac in_section rule := rewrite follows_assoc; apply rule.

Lemma storeLocked_follows gvk obj replace (k : _ → program B) t c :
  on_res (storeLocked rg t gvk obj replace c) stuck_here (λ r c', section_at r.1.1 c' (k (r.1.2, r.2))) →
  section_at t c (storeLocked_locked rg gvk obj replace ≫= k).
Proof.
  unfold storeLocked, storeLocked_locked. intros Hk. in_section load_tracker_follows.
  destruct (validateOwners _ _ _) as [e|]; [exact Hk|]. in_section set_tracker_follows. in_section load_tracker_follows.
  destruct (tracked _ _ _) as [old|], replace; try exact Hk.
  - destruct (negb _); [exact Hk|]. in_step @runs_follows r1 c1 Hk1. destruct r1 as [obj1 [e|]]; [exact Hk1|].
    in_section set_tracker_follows. in_step updateOwners_follows t2 c2 Hk2. in_step afterUpdate_follows u c3 Hk3. exact Hk3.
  - in_step @runs_follows r1 c1 Hk1. destruct r1 as [obj1 [e|]]; [exact Hk1|].
    in_section set_tracker_follows. in_step updateOwners_follows t2 c2 Hk2. in_step afterCreate_follows u c3 Hk3. exact Hk3.
Qed.

Lemma markOrRemove_follows gvk key obj (k : _ → program B) t c :
  on_res (markOrRemove rg t gvk key obj c) stuck_here (λ r c', section_at r.1 c' (k r.2)) →
  section_at t c (markOrRemove_locked rg gvk key obj ≫= k).
Proof.
  unfold markOrRemove, markOrRemove_locked. intros Hk. destruct (GetFinalizers obj) as [|f fs].
  - in_section load_tracker_follows. in_section set_tracker_follows. in_step @runs_follows u c1 Hk1. exact Hk1.
  - destruct (negb _); [exact Hk|]. in_step @runs_follows e c1 Hk1. destruct e as [e|]; [exact Hk1|].
    in_step @runs_follows now c2 Hk2. in_step @runs_follows r c3 Hk3. destruct r as [obj1 e].
    in_section load_tracker_follows. destruct e as [e|]; in_section set_tracker_follows; [exact Hk3|].
    in_step afterUpdate_follows u c4 Hk4. exact Hk4.
Qed.

Lemma untilError_follows {A} (go_body : A → resourceGroupTracker → Go (cache H HS) (resourceGroupTracker * option APIError))
    (body : A → program (option APIError)) l :
  (∀ x (k : _ → program B) t c, on_res (go_body x t c) stuck_here (λ r c', section_at r.1 c' (k r.2)) →
     section_at t c (body x ≫= k)) →
  ∀ (k : _ → program B) t c, on_res (go_for go_body l t c) stuck_here (λ r c', section_at r.1 c' (k r.2)) →
    section_at t c (untilError body l ≫= k).
Proof.
  intros Hbody. induction l as [|x l IHl]; intros k t c Hk; cbn; [exact Hk|]. cbn in Hk.
  in_step Hbody r1 c1 Hk1. destruct r1 as [t1 [e|]]; [exact Hk1|]. by apply IHl.
Qed.

Lemma doTryDeleteLocked_follows n : ∀ gvk key (k : _ → program B) t c,
  on_res (doTryDeleteLocked n rg t gvk key c) stuck_here (λ r c', section_at r.1 c' (k r.2)) →
  section_at t c (doTryDeleteLocked_locked rg n gvk key ≫= k).
Proof.
  induction n as [|n IHf]; intros gvk key k t c Hk.
  { cbn. by rewrite decide_True. }
  cbn [doTryDeleteLocked doTryDeleteLocked_locked] in *. in_section load_tracker_follows.
  destruct (tracked t gvk key) as [obj|]; [|exact Hk]. rewrite follows_assoc.
  destruct (ownedObjects t !! OwnRef gvk key) as [refs|].
  2: { rewrite on_res_bind in Hk. by apply markOrRemove_follows. }
  rewrite on_res_bind, on_res_bind in Hk. rewrite follows_assoc.
  lazymatch type of Hk with context [go_for ?body _ _] => apply (untilError_follows body) end.
  - clear Hk. intros ref k' t1 c1 Hk'. in_step IHf r2 c2 Hk2. destruct r2 as [t2 [deleted [e|]]]; [exact Hk2|].
    cbn [fst snd]. destruct deleted; [exact Hk2|]. in_step @runs_follows u c3 Hk3. exact Hk3.
  - eapply on_res_mono; [exact Hk|]. intros [t1 [e|]] c1 Hk1; [exact Hk1|]. cbn in Hk1.
    cbn [fst snd]. in_section load_tracker_follows. in_section set_tracker_follows. by apply markOrRemove_follows.
Qed.
End rules.

(** *** Whole operations

    [m] is the function of the request [q], whose result [wrap] puts into an answer. *)
Section operation.
Context (q : request) {A : Type} (m : Go (cache H HS) A) (wrap : A → answer).
Context (Hq : at_once rg fuel q = (a ← m; mret (wrap a))).

Lemma operation_answers c a c' :
  m c = Done a c' → rtc (answered (answers_at_once rg fuel)) (c, ask q) (c', Return (wrap a)).
Proof. intros Hm. apply answers_once. unfold answers_at_once. by rewrite Hq, go_bind_eq, Hm. Qed.
Lemma returned_follows (a : answer) : obeys (Return a) Between (Ret a).
Proof. split; [done|]. intros c _. reflexivity. Qed.
(** What is answered without a look at the group. *)
Lemma early_follows (a : A) : (∀ c, m c = Done a c) → obeys (ask q) Between (a ← mret a; mret (wrap a)).
Proof. intros Hm. split; [done|]. intros c _. by apply operation_answers. Qed.

Lemma with_tracker_follows (body : program A) (missing : A) :
  (∀ c t (k : A → program answer), resourceGroups c !! rg = Some t →
     (∀ t' a c', m c = Done a (seen t' c') → obeys (ask q) (Writes c (seen t' c')) (k a)) →
     ((∀ a c', m c ≠ Done a c') → stuck (answers_at_once rg fuel) c (ask q)) →
     obeys (ask q) (Writes c (seen t c)) (body ≫= k)) →
  obeys (ask q) Between (a ← (t ← resourceGroupTracker_locks rg;
    match t with None => mret missing | Some a => locked (TrackerLock a) body end); mret (wrap a)).
Proof.
  intros Hbody. unfold resourceGroupTracker_locks, rlocked. cbn. rewrite decide_False by done.
  intros c [t Ht]. split; [done|]. rewrite decide_False by done. rewrite Ht. cbn. rewrite decide_True by done.
  clear c t Ht. intros c [t Ht]. rewrite <- (seen_same t c Ht) at 2.
  rewrite follows_assoc. apply Hbody; [done| |].
  2: { intros Hno. exists c, q, Return. split; [reflexivity|]. intros r d'. unfold answers_at_once. rewrite Hq, go_bind_eq.
    destruct (m c) as [a c'| |] eqn:Hm; [by destruct (Hno a c')|done..]. }
  intros t' a c' Ha. cbn. rewrite decide_True by done. exists c, (seen t' c'), (Return (wrap a)).
  split; [done|]. split; [by apply operation_answers|]. split; [apply seen_group|by apply returned_follows].
Qed.
Lemma Get_locks_follows (missing otherwise : A) :
  reads_only m →
  obeys (ask q) Between (a ← Get_locks rg missing (λ _ c, match m c with Done a _ => a | _ => otherwise end); mret (wrap a)).
Proof.
  intros Hm. unfold Get_locks, resourceGroupTracker_locks, rlocked. cbn. rewrite decide_False by done.
  intros c [t Ht]. split; [done|]. rewrite decide_False by done. rewrite Ht. cbn. rewrite decide_True by done.
  clear c t Ht. intros c _. split; [done|]. rewrite decide_True by done.
  destruct (Hm c) as [a Ha]. rewrite Ha. exists c, (Return (wrap a)).
  split; [done|]. split; [by apply operation_answers|by apply returned_follows].
Qed.
End operation.

Lemma Get_follows key obj : obeys (ask (RequestGet key obj)) Between (with_locks rg fuel (RequestGet key obj)).
Proof.
  pose proof (Get_locks_follows (RequestGet key obj) (Get rg key obj) AnswerObject eq_refl) as Hget.
  pose proof (early_follows (RequestGet key obj) (Get rg key obj) AnswerObject eq_refl) as Hearly.
  cbn [with_locks]. unfold Get_locked.
  destruct (decide (rg = "")) as [Hrg|Hrg]; [apply Hearly; intros c; unfold Get; by rewrite decide_True|].
  destruct (decide (nn_Name key = "")) as [Hn|Hn].
  { apply Hearly. intros c. unfold Get. by rewrite decide_False, decide_True. }
  destruct obj as [obj|]; [|apply Hearly; intros c; unfold Get; by rewrite !decide_False].
  destruct (gvkGetAndSet obj) as [[gvk o]|e] eqn:Hgvk; [by apply Hget, Get_reads_only|].
  apply Hearly. intros c. unfold Get. by rewrite !decide_False, Hgvk.
Qed.
Lemma List_follows l opts : obeys (ask (RequestList l opts)) Between (with_locks rg fuel (RequestList l opts)).
Proof.
  pose proof (Get_locks_follows (RequestList l opts) (List_ rg l opts) AnswerList eq_refl) as Hlist.
  pose proof (early_follows (RequestList l opts) (List_ rg l opts) AnswerList eq_refl) as Hearly.
  cbn [with_locks]. unfold List_locked.
  destruct (decide (rg = "")) as [Hrg|Hrg]; [apply Hearly; intros c; unfold List_; by rewrite decide_True|].
  destruct l as [l|]; [|apply Hearly; intros c; unfold List_; by rewrite !decide_False].
  destruct (gvkGetAndSet_list l) as [[gvk o]|e] eqn:Hgvk; [by apply Hlist, List_reads_only|].
  apply Hearly. intros c. unfold List_. by rewrite !decide_False, Hgvk.
Qed.
Lemma store_follows q obj replace :
  at_once rg fuel q = (a ← store rg obj replace; mret (AnswerObject a)) →
  obeys (ask q) Between (a ← store_locked rg obj replace; mret (AnswerObject a)).
Proof.
  intros Hq. pose proof (early_follows q _ _ Hq) as Hearly. unfold store_locked, store in *.
  destruct (decide (rg = "")) as [Hrg|Hrg]; [by apply Hearly|].
  destruct obj as [obj|]; [|by apply Hearly].
  destruct (gvkGetAndSet obj) as [[gvk o]|e]; [|by apply Hearly].
  destruct (replace && _); [by apply Hearly|].
  apply (with_tracker_follows q _ _ Hq). intros c t k Ht Hk Hno. rewrite follows_assoc. apply storeLocked_follows.
  rewrite go_bind_eq in Hk, Hno. cbn [go_get] in Hk, Hno. unfold get_tracker in Hk, Hno. rewrite Ht, go_bind_eq in Hk, Hno.
  destruct (storeLocked rg t gvk o replace c) as [[[t' obj'] e] c'| |]; [by apply Hk|by apply Hno..].
Qed.
Lemma tryDelete_follows gvk key :
  obeys (ask (RequestTryDelete gvk key)) Between (with_locks rg fuel (RequestTryDelete gvk key)).
Proof.
  apply (with_tracker_follows (RequestTryDelete gvk key) (tryDelete fuel rg gvk key) AnswerDeleted eq_refl). intros c t k Ht Hk Hno. apply doTryDeleteLocked_follows.
  unfold tryDelete in Hk, Hno. rewrite go_bind_eq in Hk, Hno. cbn [go_get] in Hk, Hno. unfold get_tracker in Hk, Hno.
  rewrite Ht, go_bind_eq in Hk, Hno.
  destruct (doTryDeleteLocked fuel rg t gvk key c) as [[t' a] c'| |]; [by apply Hk|by apply Hno..].
Qed.
Lemma resync_follows gvk key :
  obeys (ask (RequestResync gvk key)) Between (with_locks rg fuel (RequestResync gvk key)).
Proof.
  apply (with_tracker_follows (RequestResync gvk key) (resync (mkResyncRequest rg gvk key)) AnswerContinue eq_refl). intros c t k Ht Hk _.
  rewrite follows_assoc. apply load_tracker_follows.
  assert (∀ objs, objects t !! gvk = objs → (∀ l, objs = Some l → l !! key = None) →
    resync (mkResyncRequest rg gvk key) c = Done true (seen t c)) as Hnone.
  { intros objs Hobjs Hl. rewrite seen_same by done. unfold resync. rewrite go_bind_eq.
    cbn [go_get rr_resourceGroup rr_gvk rr_key]. unfold get_tracker. rewrite Ht, Hobjs.
    destruct objs as [l|]; [|done]. by rewrite (Hl l). }
  destruct (objects t !! gvk) as [objs|] eqn:Hobjs; [|by apply Hk, (Hnone None)].
  destruct (objs !! key) as [obj|] eqn:Hobj; [|apply Hk, (Hnone (Some objs)); naive_solver].
  rewrite follows_assoc. apply runs_follows; [done|]. destruct (Now c) as [now c1| |] eqn:H1; [|done..]. cbn [on_res].
  rewrite follows_assoc. apply set_tracker_follows. rewrite follows_assoc. apply inform_follows, Hk.
  unfold resync. rewrite go_bind_eq. cbn [go_get rr_resourceGroup rr_gvk rr_key]. unfold get_tracker.
  rewrite Ht, Hobjs, Hobj, go_bind_eq, H1, <- notified_seen. done.
Qed.

Lemma request_follows r : obeys (ask r) Between (with_locks rg fuel r).
Proof.
  destruct r; [apply Get_follows|apply List_follows|by apply store_follows|by apply store_follows|
    apply tryDelete_follows|apply resync_follows].
Qed.
End simulation.

(** ** The programs take their locks in order, but for what does not return *)
Section order.
Context {H HS : Type} {E : Env} {IH : InformEventHandler H HS} (rg : string) (fuel : nat).
Abbreviation program A := (prog LockId (cache H HS) A).
Abbreviation tracker_lock := (TrackerLock (encode rg)).
Definition may_be_lost (l : LockId) : bool := bool_decide (l = tracker_lock).
Abbreviation neutral := (neutral lock_rank (lock_ro false) may_be_lost).
Abbreviation in_section := (neutral [(tracker_lock, Writing)]).

Lemma never_neutral {A} `{!Inhabited A} : in_section (never rg : program A).
Proof. left. split; [by apply bool_decide_eq_true|by left]. Qed.
Lemma runs_neutral {A} `{!Inhabited A} (m : Go (cache H HS) A) : in_section (runs rg m).
Proof. intros c. destruct (m c); [done|apply never_neutral..]. Qed.
Lemma load_tracker_neutral : in_section (load_tracker rg : program _).
Proof. done. Qed.
Lemma set_tracker_neutral t : in_section (set_tracker rg t : program _).
Proof. done. Qed.
Lemma event_neutral gvk (call : H → HS → HS) : in_section (inform_locks gvk call).
Proof. by apply inform_neutral. Qed.

(** A section is put together from these. *)
Ltac sections := repeat first
  [ apply neutral_ret | apply runs_neutral | apply never_neutral | apply load_tracker_neutral
  | apply set_tracker_neutral | apply event_neutral | done
  | lazymatch goal with |- ∀ _, _ => intros ? end | apply neutral_bind | case_match ].

Lemma storeLocked_neutral gvk obj replace : in_section (storeLocked_locked rg gvk obj replace).
Proof. unfold storeLocked_locked, updateOwners_locked, afterUpdate_locked, afterCreate_locked. sections. Qed.
Lemma markOrRemove_neutral gvk key obj : in_section (markOrRemove_locked rg gvk key obj).
Proof. unfold markOrRemove_locked, afterUpdate_locked. sections. Qed.
Lemma untilError_neutral {A} (body : A → program (option APIError)) l :
  (∀ x, in_section (body x)) → in_section (untilError body l).
Proof. intros Hb. induction l as [|x l IHl]; [done|]. apply neutral_bind; [apply Hb|]. by intros [e|]. Qed.
Lemma doTryDeleteLocked_neutral gvk key : in_section (doTryDeleteLocked_locked rg fuel gvk key).
Proof.
  revert gvk key. induction fuel as [|n IHn]; intros gvk key; [apply never_neutral|]. cbn [doTryDeleteLocked_locked].
  apply neutral_bind; [done|]. intros t. destruct (tracked t gvk key) as [obj|]; [|done]. apply neutral_bind.
  - destruct (ownedObjects t !! OwnRef gvk key) as [refs|]; [|done]. apply neutral_bind; [|sections].
    apply untilError_neutral. intros ref. apply neutral_bind; [apply IHn|]. sections.
  - intros [e|]; [done|]. apply markOrRemove_neutral.
Qed.

(** The lock of the tracker, around a section. *)
Lemma with_tracker_neutral {A} (missing : A) (body : program A) :
  in_section body →
  neutral [] (t ← resourceGroupTracker_locks rg;
    match t with None => mret missing | Some a => locked (TrackerLock a) body end).
Proof.
  intros Hb. unfold resourceGroupTracker_locks, rlocked. cbn. split; [done|]. intros c. split; [by left|].
  rewrite decide_True by done. destruct (resourceGroups c !! rg); [|done].
  by apply (neutral_locked lock_rank (lock_ro false) may_be_lost [] tracker_lock body).
Qed.
Lemma Get_locked_neutral key obj : neutral [] (Get_locked rg key obj : program _).
Proof. unfold Get_locked. repeat case_match; try apply neutral_ret. apply Get_neutral. Qed.
Lemma List_locked_neutral l opts : neutral [] (List_locked rg l opts : program _).
Proof. unfold List_locked. repeat case_match; try apply neutral_ret. apply Get_neutral. Qed.
Lemma store_locked_neutral obj replace : neutral [] (store_locked rg obj replace : program _).
Proof.
  unfold store_locked. repeat case_match; try apply neutral_ret.
  apply with_tracker_neutral, neutral_bind; [apply storeLocked_neutral|done].
Qed.
Lemma request_neutral r : neutral [] (with_locks rg fuel r).
Proof.
  destruct r; (apply neutral_bind; [|done]);
    auto using Get_locked_neutral, List_locked_neutral, store_locked_neutral.
  - apply with_tracker_neutral, doTryDeleteLocked_neutral.
  - apply with_tracker_neutral. sections.
Qed.

(** A program of a goroutine that takes the locks in order, but for what does not return. *)
Definition in_order {A} (p : program A) : Prop := ordered lock_rank (lock_ro false) may_be_lost [] p.
Lemma request_in_order r : in_order (with_locks rg fuel r).
Proof. apply request_neutral. Qed.
End order.
