(* ===== verification/CacheSerial.v ===== *)
(** * Concurrent operations on a resource group

    Goroutines that run the programs of CacheLocks.v at once behave like the functions of
    Cache.v one after the other; so of many clients that update one object from
    the same version, one wins, and all others are told. *)

From stdpp Require Import prelude gmap strings list relations countable.
From Stdlib Require Import ZArith Lia.
From S2P Require Import Prelude GoStd GoTime Api Runtime Cache CacheFacts CacheStore CacheDelete CacheWorkers CacheSystem TestEnv.
From S2P Require Import Sync SyncSerial LockOrder CacheLocks.

Section serial.
Context {H HS : Type} {E : Env} {IH : InformEventHandler H HS}.
Implicit Types c : cache H HS.
Context (rg : string) (fuel : nat).

Abbreviation at_once := (at_once rg fuel).
Abbreviation with_locks := (with_locks rg fuel).

(** The requests one after the other, with their answers. *)
Definition one_after_the_other : list request → cache H HS → list (nat * answer) → cache H HS → Prop :=
  replays (answers_at_once rg fuel).
Lemma requests_follow reqs :
  all_follow (answers_at_once rg fuel) (TrackerLock (encode rg)) (has_group rg) (has_group rg) (ask <$> reqs) (with_locks <$> reqs).
Proof. unfold all_follow. rewrite Forall2_fmap. apply Forall_Forall2_diag, Forall_true. intros r. apply request_follows. Qed.
Lemma requests_serialize reqs c s :
  has_group rg c → Sync.reachable c (with_locks <$> reqs) s → finished s →
  ∃ log, log.*1 ≡ₚ seq 0 (length reqs) ∧ one_after_the_other reqs c log s.1 ∧
    ∀ i a, (i, a) ∈ log → ∃ g, s.2 !! i = Some g ∧ g_prog g = Ret a.
Proof.
  intros Hc Hreach Hfin.
  destruct (runs_serialize (answers_at_once rg fuel) (TrackerLock (encode rg)) (has_group rg) (has_group rg)
    c reqs (with_locks <$> reqs) s) as (log & Hperm & Hrep & _ & Hret); [done|done| |done|done|by exists log].
  apply requests_follow.
Qed.

(** Programs of clients whose requests all have answers return, whatever the
    schedule. *)
Lemma programs_finish {A} (ks : list (client request answer A)) ps c s :
  has_group rg c → all_follow (answers_at_once rg fuel) (TrackerLock (encode rg)) (has_group rg) (has_group rg) ks ps →
  all_answered (answers_at_once rg fuel) (c, ks) →
  Forall (in_order rg) ps → reachable c ps s →
  completes s.
Proof.
  intros Hg Hfol Hans Hord Hreach.
  by eapply (all_answered_finish (answers_at_once rg fuel) (TrackerLock (encode rg)) (has_group rg) (has_group rg)).
Qed.

Lemma requests_finish reqs c s :
  has_group rg c → all_answered (answers_at_once rg fuel) (c, ask <$> reqs) → reachable c (with_locks <$> reqs) s → completes s.
Proof.
  intros Hg Hans Hreach. eapply programs_finish; [exact Hg|apply requests_follow|exact Hans| |exact Hreach].
  apply Forall_fmap, Forall_true. intros r. apply request_in_order.
Qed.

Context {EL : EnvLaws E}.
(** Requests that only read and store have answers on every well-formed cache. *)
Definition is_store_or_read (r : request) : Prop :=
  match r with RequestGet _ _ | RequestList _ _ | RequestCreate _ | RequestUpdate _ => True | _ => False end.
Lemma store_or_read_answered r c :
  is_store_or_read r → wf_cache c →
  (∃ a c', answers_at_once rg fuel r c a c') ∧ ∀ a c', answers_at_once rg fuel r c a c' → wf_cache c'.
Proof.
  intros Hr Hwf. assert (∃ a c', answers_at_once rg fuel r c a c' ∧ wf_cache c') as (a & c' & Ha & Hwf').
  { unfold answers_at_once. destruct r; try done; cbn.
    - destruct (Get_reads_only rg key obj c) as [a Ha]. do 2 eexists. by rewrite go_bind_eq, Ha.
    - destruct (List_reads_only rg l opts c) as [a Ha]. do 2 eexists. by rewrite go_bind_eq, Ha.
    - destruct (store_wf rg obj false c Hwf) as (a & c' & Ha & ?). do 2 eexists. unfold Create. by rewrite go_bind_eq, Ha.
    - destruct (store_wf rg obj true c Hwf) as (a & c' & Ha & ?). do 2 eexists. unfold Update. by rewrite go_bind_eq, Ha. }
  split; [by eauto|]. intros a1 c1 Ha1. unfold answers_at_once in *. rewrite Ha in Ha1. by injection Ha1 as <- <-.
Qed.
Lemma stores_answered {A} c (ks : list (client request answer A)) :
  wf_cache c → Forall (asks_only is_store_or_read) ks → all_answered (answers_at_once rg fuel) (c, ks).
Proof. apply all_answered_by. intros q d. apply store_or_read_answered. Qed.

(** Only a deletion may fail to return, when its recursion does not end. *)
Definition is_deletion (r : request) : Prop := match r with RequestTryDelete _ _ => True | _ => False end.
Lemma keeps_request r c : invariant c → keeps (is_deletion r) (at_once r) c.
Proof.
  intros Hc. destruct r; apply keeps_bind; try by intros; apply keeps_ret.
  - by apply keeps_reads_only; [apply Get_reads_only|].
  - by apply keeps_reads_only; [apply List_reads_only|].
  - by apply keeps_store.
  - by apply keeps_store.
  - by apply (keeps_tryDelete fuel rg (OwnRef gvk key)).
  - by apply keeps_resync.
Qed.
Lemma one_after_the_other_keeps reqs c log c' : one_after_the_other reqs c log c' → invariant c → invariant c'.
Proof.
  revert c. induction log as [|[i a] log IHlog]; intros c; [by intros <-|].
  intros (r & c1 & _ & Hrun & Hlog) Hc. apply (IHlog c1 Hlog).
  pose proof (keeps_request r c Hc) as Hk. unfold keeps in Hk. by rewrite Hrun in Hk.
Qed.

(** The locks make operations atomic.  However goroutines that get, list, create,
    update, delete and resync objects of one resource group at once are interleaved,
    lock by lock and handler by handler, once all have returned there is an order in which
    the functions of Cache.v, each run at once, give every goroutine
    its answer and lead to the same cache; if the cache was reachable, it satisfies
    the invariant again. *)
Theorem operations_serialize reqs c s :
  CacheSystem.reachable c → has_group rg c → reachable c (with_locks <$> reqs) s → finished s →
  invariant s.1 ∧ ∃ log, log.*1 ≡ₚ seq 0 (length reqs) ∧ one_after_the_other reqs c log s.1 ∧
    ∀ i a, (i, a) ∈ log → ∃ g, s.2 !! i = Some g ∧ g_prog g = Ret a.
Proof.
  intros Hc%reachable_invariant Hg Hreach Hfin.
  destruct (requests_serialize reqs c s Hg Hreach Hfin) as (log & Hperm & Hlog & Hret).
  split; [by eapply one_after_the_other_keeps|by exists log].
Qed.

(** *** Concurrent updates of one object *)
Section updates.
Context (gvk : GroupVersionKind) (key : NamespacedName) (t : resourceGroupTracker) (old : Object) (c0 : cache H HS).

(** An update from the version of [old] that changes something. *)
Record contends (obj : Object) : Prop := {
  con_accepts : store_accepts rg obj true gvk t c0;
  con_key : ObjectKeyFromObject obj = key;
  con_version : GetResourceVersion obj = GetResourceVersion old;
  con_changes : keep_managed_fields old (SetGroupVersionKind gvk obj) ≠ old;
  con_owners : ∀ o, o ∈ GetOwnerReferences obj → ∃ r, points_to (GetNamespace obj) o r ∧ is_Some (tracked_ref t r) }.
Definition refused : APIError := Conflict (unsafeGuessGroupResource gvk) (NamespacedName_String key).

(** The cache holds what the winner stored. *)
Record won (stored : Object) c : Prop := {
  won_wf : wf_cache c;
  won_tracker : ∃ t', resourceGroups c !! rg = Some t' ∧ tracked t' gvk key = Some stored ∧
    ∀ r, is_Some (tracked_ref t r) → is_Some (tracked_ref t' r) }.

Lemma contends_accepts obj t' c :
  contends obj → resourceGroups c !! rg = Some t' → store_accepts rg obj true gvk t' c.
Proof. intros [[? ? ? _] _ _ _ _] Ht. by split. Qed.
Lemma contends_validates obj t' :
  contends obj → (∀ r, is_Some (tracked_ref t r) → is_Some (tracked_ref t' r)) →
  validateOwners t' (GetNamespace obj) (GetOwnerReferences obj) = None.
Proof.
  intros [_ _ _ _ Howners] Hrefs. apply validateOwners_tracked. intros o Ho.
  destruct (Howners o Ho) as (r & Hr & Hr'). exists r. auto.
Qed.

Lemma first_update_wins obj a c1 :
  wf_cache c0 → tracked t gvk key = Some old → contends obj → Update rg (Some obj) c0 = Done a c1 →
  ∃ stored, stored = updated_object (time_Now (ticks c0)) old (SetGroupVersionKind gvk obj) ∧
    a = (Some stored, None) ∧ GetResourceVersion stored ≠ GetResourceVersion old ∧ won stored c1.
Proof.
  intros Hwf Hold Hcon Hrun. pose proof Hcon as [Hacc <- Hrv Hne Howners].
  pose proof (acc_tracker _ _ _ _ _ _ Hacc) as Ht.
  destruct (updated_object_version (time_Now (ticks c0)) gvk (ObjectKeyFromObject obj) old
    (SetGroupVersionKind gvk obj)) as (_ & m & Hm & Hv & Hv1); [by eapply Hwf|done|].
  destruct (update_matching rg gvk t obj old c0) as (t1 & k & Hrun' & [Hobjs _ _]);
    [done..|by apply (contends_validates obj t Hcon)|].
  rewrite Hrun in Hrun'. injection Hrun' as -> Hc1. eexists. split_and!; [done..| |].
  - rewrite Hv, Hv1. intros Heq%version_inj. by apply (wrap_int_succ_ne m).
  - split; [by eapply update_wf|]. exists t1. subst c1. cbn. rewrite lookup_insert_eq. split_and!; [done| |].
    + rewrite Hobjs. by rewrite decide_True.
    + intros r Hr. unfold tracked_ref in *. rewrite Hobjs. case_decide; [by eexists|done].
Qed.
Lemma later_update_refused obj stored a c c1 :
  contends obj → GetResourceVersion stored ≠ GetResourceVersion old → won stored c →
  Update rg (Some obj) c = Done a c1 → a = (Some (SetGroupVersionKind gvk obj), Some refused) ∧ won stored c1.
Proof.
  intros Hcon Hne [Hwf (t' & Ht' & Hstored & Hrefs)] Hrun. pose proof Hcon as [_ Hkey Hrv _ _].
  destruct (update_conflict rg gvk t' obj stored c) as (c2 & Hrun' & Heqv);
    [done|by apply contends_accepts|by rewrite Hkey|by rewrite Hrv|by apply contends_validates|].
  rewrite Hrun in Hrun'. injection Hrun' as -> ->. rewrite Hkey. split; [done|].
  split; [by eapply update_wf|]. pose proof (eqv_groups _ _ Heqv rg) as Hg. rewrite Ht' in Hg.
  inversion Hg as [? t2 [Htr _] Heq1 Heq2|]; subst. exists t2. split_and!; [done|by rewrite <- Htr|].
  intros r Hr. unfold tracked_ref in *. rewrite <- Htr. by apply Hrefs.
Qed.

(** What a log of updates says of each of them. *)
Lemma later_updates objs stored c log c' :
  GetResourceVersion stored ≠ GetResourceVersion old → Forall contends objs → won stored c →
  one_after_the_other ((λ obj, RequestUpdate (Some obj)) <$> objs) c log c' →
  won stored c' ∧ ∀ i a, (i, a) ∈ log → ∃ obj, objs !! i = Some obj ∧
    a = AnswerObject (Some (SetGroupVersionKind gvk obj), Some refused).
Proof.
  intros Hne Hall. revert c. induction log as [|[i a] log IHlog]; intros c Hwon.
  { intros <-. split; [done|]. intros i a Hin. by apply not_elem_of_nil in Hin. }
  intros (r & c1 & Hr & Hrun & Hlog). rewrite list_lookup_fmap in Hr.
  destruct (objs !! i) as [obj|] eqn:Hobj; [|done]. injection Hr as <-. cbn in Hrun.
  apply go_bind_Done_inv in Hrun as (a1 & c2 & Hrun & [= <- <-]).
  destruct (later_update_refused obj stored a1 c c2) as [-> Hwon']; [by eapply (Forall_lookup_1 _ _ _ _ Hall)|done..|].
  destruct (IHlog c2 Hwon' Hlog) as [Hend Hrest]. split; [done|].
  intros j b [[= -> ->]|Hin]%elem_of_cons; [by exists obj|by apply Hrest].
Qed.

(** C4: of concurrent updates one wins.  When clients update an object at once, each from
    the version that is in the cache and each with a change, then however their
    goroutines are interleaved all of them return, exactly one succeeds, the cache then
    holds what that one asked for, and all others are refused as a conflict. *)
Theorem one_update_wins objs s :
  wf_cache c0 → tracked t gvk key = Some old → objs ≠ [] → Forall contends objs →
  reachable c0 (with_locks <$> ((λ obj, RequestUpdate (Some obj)) <$> objs)) s →
  completes s ∧ (finished s → ∃ i obj stored t', objs !! i = Some obj ∧
    stored = updated_object (time_Now (ticks c0)) old (SetGroupVersionKind gvk obj) ∧
    resourceGroups s.1 !! rg = Some t' ∧ tracked t' gvk key = Some stored ∧
    ∀ j obj', objs !! j = Some obj' → ∃ g, s.2 !! j = Some g ∧ g_prog g = Ret (AnswerObject
      (if decide (i = j) then (Some stored, None) else (Some (SetGroupVersionKind gvk obj'), Some refused)))).
Proof.
  intros Hwf Hold Hsome Hall Hreach. pose proof Hall as Hall'. rewrite Forall_lookup in Hall'.
  assert (has_group rg c0) as Hg.
  { destruct objs as [|obj objs]; [done|]. exists t. by apply (Hall' 0%nat obj). }
  split.
  { eapply requests_finish; [done..| |exact Hreach]. apply stores_answered; [done|]. do 2 apply Forall_fmap.
    apply Forall_true. intros obj. by split. }
  intros Hfin. destruct (requests_serialize _ c0 s Hg Hreach Hfin) as (log & Hperm & Hlog & Hret). rewrite length_fmap in Hperm.
  destruct log as [|[i a] log]; [by destruct objs; [|apply Permutation_nil_cons in Hperm]|].
  destruct Hlog as (r & c1 & Hr & Hrun & Hlog). rewrite list_lookup_fmap in Hr.
  destruct (objs !! i) as [obj|] eqn:Hobj; [|done]. injection Hr as <-. cbn in Hrun.
  apply go_bind_Done_inv in Hrun as (a1 & c2 & Hrun & [= <- <-]).
  destruct (first_update_wins obj a1 c2 Hwf Hold (Hall' i obj Hobj) Hrun) as (stored & Hst & -> & Hne & Hwon).
  destruct (later_updates objs stored c2 log s.1 Hne Hall Hwon Hlog) as [[_ (t' & Ht' & Hstored & _)] Hrest].
  exists i, obj, stored, t'. split_and!; [done..|]. intros j obj' Hj.
  assert (j ∈ ((i, AnswerObject (Some stored, None)) :: log).*1) as Hin.
  { rewrite Hperm. apply elem_of_seq. apply lookup_lt_Some in Hj. lia. }
  apply list_elem_of_fmap in Hin as ([j' b] & -> & Hin). destruct (Hret j' b Hin) as (g & Hg' & Hb).
  exists g. split; [done|]. rewrite Hb. cbn [fst] in *.
  apply elem_of_cons in Hin as [[= -> ->]|Hin]; [by rewrite decide_True|].
  destruct (Hrest j' b Hin) as (obj2 & Hobj2 & ->). rewrite Hj in Hobj2. injection Hobj2 as <-.
  rewrite decide_False; [done|]. intros <-.
  assert (NoDup ((i, AnswerObject (Some stored, None)) :: log).*1) as Hnd by (rewrite Hperm; apply NoDup_seq).
  apply NoDup_cons_1_1 in Hnd. apply Hnd. by apply (list_elem_of_fmap_2 fst) in Hin.
Qed.
End updates.
End serial.

(** ** Concrete runs *)
Section witnesses.
Let child_key := NN "" "child".
(** A client reads the child while a second updates it and a third deletes it. *)
Definition test_requests : list request :=
  [RequestGet child_key (Some (new_machine "child" [] [])); RequestUpdate (Some child_update);
   RequestTryDelete (cloudv1_gvk "CloudMachine") child_key].
Definition test_ended := round_robin 200 0 (start test_family (with_locks "rg" 5 <$> test_requests)).

Lemma operations_serialize_witness : ∃ log, log.*1 ≡ₚ seq 0 3 ∧
  one_after_the_other "rg" 5 test_requests test_family log test_ended.1.
Proof.
  destruct (operations_serialize "rg" 5 test_requests test_family test_ended) as (_ & log & Hperm & Hlog & _).
  - exact test_family_reachable.
  - exists (the_tracker test_family). vm_decide.
  - apply round_robin_steps.
  - apply all_returned_finished. vm_compute. reflexivity.
  - exact (ex_intro _ log (conj Hperm Hlog)).
Defined.

(** Two clients label the child differently. *)
Definition child_update2 : Object := SetLabels (Some {["a" := "c"]}) (the_object "child" test_family).
Definition test_contenders : list Object := [child_update; child_update2].
Definition test_contended := round_robin 200 0
  (start test_family (with_locks "rg" 5 <$> ((λ obj, RequestUpdate (Some obj)) <$> test_contenders))).

Lemma one_update_wins_witness : ∃ i g stored, test_contended.2 !! i = Some g ∧
  g_prog g = Ret (AnswerObject (Some stored, None)).
Proof.
  destruct (one_update_wins "rg" 5 (cloudv1_gvk "CloudMachine") child_key (the_tracker test_family)
    (the_object "child" test_family) test_family test_contenders test_contended)
    as [_ Hwins].
  - exact test_family_wf.
  - vm_decide.
  - discriminate.
  - repeat constructor.
    all: try (apply accepts_in_test; vm_compute; reflexivity).
    all: try vm_decide.
    all: intros o ->%(single_owner _ (owner_of_machine "owner")); [|vm_decide];
      exists (machine_ref "owner"); (split; [|vm_decide]); unfold points_to; vm_compute; reflexivity.
  - apply round_robin_steps.
  - destruct Hwins as (i & obj & stored & t' & Hi & _ & _ & _ & Hall).
    { apply all_returned_finished. vm_compute. reflexivity. }
    destruct (Hall i obj Hi) as (g & Hg & Hret). exists i, g, stored. split; [exact Hg|].
    rewrite decide_True in Hret by reflexivity. exact Hret.
Defined.
End witnesses.
