(* ===== verification/CacheClients.v ===== *)
(** * Clients of a resource group

    A client asks for several operations in turn and goes on with the answers; Patch is
    one: it gets the object, patches its copy and updates the object, under a lock for the
    Get and a lock for the update, with none between them.  Goroutines that run clients with the
    locks of CacheLocks.v refine the clients that run on the functions of Cache.v, one
    operation after the other, and return when these do; so concurrent patches of an
    object compose. *)

From stdpp Require Import prelude gmap strings list relations countable.
From Stdlib Require Import ZArith Lia.
From S2P Require Import Prelude GoStd GoTime Api Runtime Cache CacheFacts CacheStore CacheDelete CacheWorkers CacheSystem.
From S2P Require Import Sync SyncSerial LockOrder CacheLocks CacheSerial.

(** ** client.go: Patch, between its Get and its store *)
Definition patch_object {E : Env} (patch : Patch) (obj : Object) : Object + APIError :=
  match patch_Data patch obj with
  | inr err => inr (InternalError err)
  | inl patchData =>
  match getEncoder obj (gvk_Group (obj_gvk obj), gvk_Version (obj_gvk obj)) with
  | inr err => inr (InternalError err)
  | inl encoder =>
  match encoder obj with
  | inr err => inr (InternalError err)
  | inl originalObjJS =>
  if decide (patch_Type patch = MergePatchType ∨ patch_Type patch = StrategicMergePatchType) then
    match jsonpatch_MergePatch originalObjJS patchData with
    | inr err => inr (InternalError err)
    | inl changedJS =>
        match scheme_DecodeInto changedJS obj with
        | inr err => inr (InternalError err)
        | inl obj => inl obj
        end
    end
  else inr (BadRequest (PatchTypeUnsupported (patch_Type patch)))
  end end end.

Section clients.
Context {H HS : Type} {E : Env} {IH : InformEventHandler H HS} (rg : string) (fuel : nat).
Implicit Types c : cache H HS.
Abbreviation program A := (prog LockId (cache H HS) A).

Definition Patch_locked (obj : Object) (patch : Patch) : program (option APIError) :=
  r ← Get_locked rg (ObjectKeyFromObject obj) (Some obj);
  match r with
  | (_, Some err) => mret (Some err)
  | (None, None) => mret None
  | (Some obj, None) =>
      match patch_object patch obj with
      | inr err => mret (Some err)
      | inl obj => r ← store_locked rg (Some obj) true; mret r.2
      end
  end.

(** The client: what it asks, and what it does with the answers. *)
Definition answer_object (a : answer) : option Object * option APIError :=
  match a with AnswerObject r => r | _ => (None, None) end.
Definition Patch_update (r : option Object * option APIError) (patch : Patch)
  : client request answer (option APIError) :=
  match r with
  | (_, Some err) => Return (Some err)
  | (None, None) => Return None
  | (Some obj, None) =>
      match patch_object patch obj with
      | inr err => Return (Some err)
      | inl obj => Ask (RequestUpdate (Some obj)) (λ a, Return (answer_object a).2)
      end
  end.
Definition Patch_client (obj : Object) (patch : Patch) : client request answer (option APIError) :=
  Ask (RequestGet (ObjectKeyFromObject obj) (Some obj)) (λ a, Patch_update (answer_object a) patch).

(** Any client, with the locks. *)
Fixpoint client_locks {A} (k : client request answer A) : program A :=
  match k with
  | Return a => mret a
  | Ask q k => a ← with_locks rg fuel q; client_locks (k a)
  end.

(** What a goroutine does. *)
Inductive job :=
| JobPatch (obj : Object) (patch : Patch)
| JobClient (k : client request answer (option APIError)).
Definition job_client (j : job) : client request answer (option APIError) :=
  match j with JobPatch obj patch => Patch_client obj patch | JobClient k => k end.
Definition job_locks (j : job) : program (option APIError) :=
  match j with JobPatch obj patch => Patch_locked obj patch | JobClient k => client_locks k end.

Abbreviation at_once := (answers_at_once rg fuel).
Abbreviation obeys := (follows at_once (TrackerLock (encode rg)) (has_group rg) (has_group rg)).

(** Alone, the client of Patch does what Patch does. *)
Lemma Patch_eq obj patch c :
  Patch_ rg (Some obj) patch c =
    (r ← Get rg (ObjectKeyFromObject obj) (Some obj);
     match r with
     | (_, Some err) => mret (Some err)
     | (None, None) => mret None
     | (Some obj, None) =>
         match patch_object patch obj with
         | inr err => mret (Some err)
         | inl obj => r ← store rg (Some obj) true; mret r.2
         end
     end) c.
Proof.
  unfold Patch_, patch_object. rewrite !go_bind_eq. destruct (Get _ _ _ c) as [[[o|] [e|]] c'| |]; try done.
  destruct (patch_Data patch o); [|done]. destruct (getEncoder _ _) as [enc|]; [|done]. destruct (enc o); [|done].
  destruct (decide _); [|done]. destruct (jsonpatch_MergePatch _ _); [|done]. by destruct (scheme_DecodeInto _ _).
Qed.
Lemma Patch_alone obj patch c e c' :
  Patch_ rg (Some obj) patch c = Done e c' → rtc (answered at_once) (c, Patch_client obj patch) (c', Return e).
Proof.
  rewrite Patch_eq. intros (r & c1 & Hget & Hrun)%go_bind_Done_inv.
  eapply (rtc_l _ _ (c1, Patch_update r patch)).
  { apply (answered_intro at_once c _ (λ a, Patch_update (answer_object a) patch) (AnswerObject r)). unfold answers_at_once. cbn. by rewrite go_bind_eq, Hget. }
  destruct r as [[o|] [err|]]; cbn; try by injection Hrun as -> ->.
  destruct (patch_object patch o) as [p|err]; [|by injection Hrun as -> ->].
  apply go_bind_Done_inv in Hrun as (r & c2 & Hupd & [= <- <-]).
  apply rtc_once, (answered_intro at_once c1 _ (λ a, Return (answer_object a).2) (AnswerObject r)). unfold answers_at_once. cbn.
  unfold Update. by rewrite go_bind_eq, Hupd.
Qed.

(** The programs follow their clients. *)
Lemma client_follows {A} (k : client request answer A) : obeys k Between (client_locks k).
Proof.
  induction k as [a|q k IHk]; cbn [client_locks]; [by split|].
  change (Ask q k) with (ask q ≫= k). by apply follows_bind; [apply request_follows|].
Qed.
Lemma Patch_update_follows r patch : obeys (Patch_update r patch) Between
  (match r with
   | (_, Some err) => mret (Some err)
   | (None, None) => mret None
   | (Some obj, None) =>
       match patch_object patch obj with
       | inr err => mret (Some err)
       | inl obj => r ← store_locked rg (Some obj) true; mret r.2
       end
   end).
Proof.
  destruct r as [[o|] [err|]]; cbn; try by split. destruct (patch_object patch o) as [p|err]; [|by split].
  change (Ask (RequestUpdate (Some p)) _) with (ask (RequestUpdate (Some p)) ≫= λ a, Return (answer_object a).2).
  pose proof (follows_bind at_once (TrackerLock (encode rg)) (has_group rg) (has_group rg) (ask (RequestUpdate (Some p)))
    (λ a, Return (answer_object a).2) (with_locks rg fuel (RequestUpdate (Some p))) (λ a, mret (answer_object a).2) Between
    (request_follows rg fuel _)) as Hf.
  cbn [with_locks] in Hf. rewrite follows_assoc in Hf. apply Hf. by split.
Qed.
Lemma Patch_follows obj patch : obeys (Patch_client obj patch) Between (Patch_locked obj patch).
Proof.
  set (q := RequestGet (ObjectKeyFromObject obj) (Some obj)).
  pose proof (follows_bind at_once (TrackerLock (encode rg)) (has_group rg) (has_group rg) (ask q)
    (λ a, Patch_update (answer_object a) patch) (with_locks rg fuel q) _ Between (request_follows rg fuel q)
    (λ a, Patch_update_follows (answer_object a) patch)) as Hf.
  cbn [with_locks q] in Hf. by rewrite follows_assoc in Hf.
Qed.
Lemma jobs_follow jobs : all_follow at_once (TrackerLock (encode rg)) (has_group rg) (has_group rg)
  (job_client <$> jobs) (job_locks <$> jobs).
Proof.
  unfold all_follow. rewrite Forall2_fmap. apply Forall_Forall2_diag, Forall_true.
  intros [obj patch|k]; [apply Patch_follows|apply client_follows].
Qed.

Lemma Patch_in_order obj patch : in_order rg (Patch_locked obj patch).
Proof.
  apply neutral_bind; [apply Get_locked_neutral|]. intros [[o|] [err|]]; try apply neutral_ret.
  destruct (patch_object patch o) as [p|err]; [|apply neutral_ret].
  apply neutral_bind; [apply store_locked_neutral|done].
Qed.
Lemma client_in_order (k : client request answer (option APIError)) : in_order rg (client_locks k).
Proof.
  induction k as [a|q k IHk]; cbn [client_locks]; [apply neutral_ret|].
  by apply neutral_bind; [apply request_neutral|].
Qed.
Lemma jobs_finish jobs c s :
  has_group rg c → all_answered at_once (c, job_client <$> jobs) → reachable c (job_locks <$> jobs) s → completes s.
Proof.
  intros Hg Hans Hreach. eapply programs_finish; [exact Hg|apply jobs_follow|exact Hans| |exact Hreach].
  apply Forall_fmap, Forall_true. intros [obj patch|k]; [apply Patch_in_order|apply client_in_order].
Qed.
(** Patch only gets and updates. *)
Lemma Patch_asks obj patch : asks_only is_store_or_read (Patch_client obj patch).
Proof.
  split; [done|]. intros a. destruct (answer_object a) as [[o|] [err|]]; cbn; try done.
  by destruct (patch_object patch o).
Qed.

Context {EL : EnvLaws E}.
Lemma asked_invariant {A} (a a' : cache H HS * list (client request answer A)) :
  rtc (asked at_once) a a' → invariant a.1 → invariant a'.1.
Proof.
  induction 1 as [a|a a1 a2 (i & k & d' & k' & _ & Hq & ->) _ IHa]; [done|]. intros Hc. apply IHa.
  inversion Hq as [d q k1 r d1 Hrun]; subst. pose proof (keeps_request rg fuel q a.1 Hc) as Hk.
  unfold keeps in Hk. by rewrite Hrun in Hk.
Qed.

(** C3: goroutines with locks refine clients of atomic operations.  Goroutines that patch
    objects of a resource group, or run any client of its operations, one operation
    after the other, take steps lock by lock and handler by handler; each state they reach corresponds
    to one that the clients reach on the functions of Cache.v, every
    operation in one step: it satisfies the invariant and is the cache in memory
    whenever no goroutine writes.  When the operations that the clients ask for return, all
    goroutines return, and once they have, the clients have led to the same cache
    and the same results. *)
Theorem goroutines_refine_clients jobs c s :
  CacheSystem.reachable c → has_group rg c → reachable c (job_locks <$> jobs) s →
  (∃ c' ks, rtc (asked at_once) (c, job_client <$> jobs) (c', ks) ∧ invariant c' ∧
    ((∀ g, g ∈ s.2 → (TrackerLock (encode rg), Writing) ∉ g_held g) → s.1 = c')) ∧
  (all_answered at_once (c, job_client <$> jobs) → completes s) ∧
  (finished s → ∃ ks, rtc (asked at_once) (c, job_client <$> jobs) (s.1, ks) ∧ invariant s.1 ∧
    ∀ i g, s.2 !! i = Some g → ∃ e, g_prog g = Ret e ∧ ks !! i = Some (Return e)).
Proof.
  intros Hc%reachable_invariant Hg Hreach. split_and!; [|intros Hans; by eapply jobs_finish|].
  - destruct (reachable_refines at_once (TrackerLock (encode rg)) (has_group rg) (has_group rg) (λ _ Hd, Hd)
      c _ _ s Hg (jobs_follow jobs) Hreach) as (c' & ks & Hsim).
    exists c', ks. split; [by apply Hsim|]. split; [exact (asked_invariant _ _ (sim_run _ _ _ _ _ _ _ _ Hsim) Hc)|].
    intros Hno. destruct (sim_data _ _ _ _ _ _ _ _ Hsim) as [->|(i & g & Hi & Hw)]; [done|].
    destruct (Hno g); [by eapply list_elem_of_lookup_2|done].
  - intros Hfin. destruct (finished_refines at_once (TrackerLock (encode rg)) (has_group rg) (has_group rg) (λ _ Hd, Hd)
      c _ _ s Hg (jobs_follow jobs) Hreach Hfin) as (_ & ks & Hrun & _ & Hret).
    exists ks. split; [done|]. split; [exact (asked_invariant _ _ Hrun Hc)|done].
Qed.
(** *** Concurrent patches of one object *)
Section patches.
Context (gvk : GroupVersionKind) (key : NamespacedName) (jobs : list (Object * Patch)).

(** A patch makes [new] of [old]: it is applied to the copy that Get gives of [old]. *)
Definition gives (job : Object * Patch) (old p : Object) : Prop :=
  ∃ out, scheme_Convert old (SetGroupVersionKind gvk job.1) = inl out ∧
    patch_object job.2 (SetGroupVersionKind (obj_gvk old) out) = inl p.
Definition patches (job : Object * Patch) (old new : Object) : Prop :=
  ∃ p now, gives job old p ∧ new = updated_object now old (SetGroupVersionKind gvk p).
(** The patches with these numbers, each applied to what the one before has made. *)
Fixpoint composed (order : list nat) (o o' : Object) : Prop :=
  match order with
  | [] => o = o'
  | i :: order => ∃ job o1, jobs !! i = Some job ∧ patches job o o1 ∧ composed order o1 o'
  end.

(** The patch is of the object, and leaves its identity and its version alone. *)
Record fits (job : Object * Patch) : Prop := {
  fit_gvk : scheme_GVKForObject (obj_body job.1) (obj_gvk job.1) = inl gvk;
  fit_key : ObjectKeyFromObject job.1 = key;
  fit_patched : ∀ old p, object_wf gvk key old → gives job old p →
    scheme_GVKForObject (obj_body p) (obj_gvk p) = inl gvk ∧ ObjectKeyFromObject p = key ∧
    GetResourceVersion p = GetResourceVersion old }.

Lemma composed_snoc order o o1 i job o' :
  composed order o o1 → jobs !! i = Some job → patches job o1 o' → composed (order ++ [i]) o o'.
Proof.
  intros Hcomp Hi Hp. revert o Hcomp. induction order as [|j order IHorder]; intros o; [intros ->|]; cbn.
  - by exists job, o'.
  - intros (job' & o2 & Hj & Hp' & Hcomp). exists job', o2. auto.
Qed.
Lemma composed_numbers order o o' : composed order o o' → Forall (λ i, i < length jobs) order.
Proof.
  revert o. induction order as [|j order IHorder]; intros o; [done|].
  intros (job & o1 & Hj & _ & Hcomp). constructor; [by eapply lookup_lt_Some|by eapply IHorder].
Qed.

(** An update changes nothing, or it takes the next version. *)
Lemma updated_object_next now old obj n :
  is_int n → GetResourceVersion old = version n →
  updated_object now old obj = old ∨ GetResourceVersion (updated_object now old obj) = version (wrap_int (n + 1)).
Proof. intros Hn Hv. unfold updated_object. rewrite Hv, next_version by done. case_match; [by left|by right]. Qed.
Lemma composed_version order o o' n :
  composed order o o' → is_int n → GetResourceVersion o = version n →
  o' = o ∨ ∃ k, (1 ≤ k ≤ Z.of_nat (length order))%Z ∧ GetResourceVersion o' = version (wrap_int (n + k)).
Proof.
  revert o n. induction order as [|j order IHorder]; intros o n; [intros <-; by left|].
  intros (job & o1 & _ & (p & now & _ & ->) & Hcomp) Hn Hv. cbn [length].
  destruct (updated_object_next now o (SetGroupVersionKind gvk p) n Hn Hv) as [Heq|Hv1].
  - rewrite Heq in Hcomp. destruct (IHorder o n Hcomp Hn Hv) as [?|(k & ? & ?)]; [by left|right; exists k; split; [lia|done]].
  - right. destruct (IHorder _ _ Hcomp (wrap_int_is_int _) Hv1) as [->|(k & Hk & Hvk)].
    + exists 1%Z. split; [lia|done].
    + exists (k + 1)%Z. split; [lia|]. rewrite Hvk. f_equal. rewrite wrap_int_add. f_equal. lia.
Qed.
Lemma composed_same order o o' :
  composed order o o' → valid_version (GetResourceVersion o) → (Z.of_nat (length order) < 2 ^ 64)%Z →
  GetResourceVersion o' = GetResourceVersion o → o' = o.
Proof.
  intros Hcomp (n & Hn & Hv) Hlen Heq. destruct (composed_version order o o' n Hcomp Hn Hv) as [?|(k & Hk & Hvk)]; [done|].
  rewrite Heq, Hv in Hvk. apply version_inj in Hvk. unfold is_int, int_min, int_max, wrap_int in *.
  Z.to_euclidean_division_equations. lia.
Qed.

(** *** Get and Update of the object *)
Context (Hrg : rg ≠ "") (Hname : nn_Name key ≠ "").
Record holds c (o : Object) : Prop := {
  holds_wf : wf_cache c;
  holds_object : ∃ t, resourceGroups c !! rg = Some t ∧ tracked t gvk key = Some o }.
Lemma holds_object_wf c o : holds c o → object_wf gvk key o.
Proof. intros [Hwf (t & Ht & Ho)]. by eapply Hwf. Qed.

Lemma Get_gives job c o r c' :
  fits job → holds c o → Get rg key (Some job.1) c = Done r c' →
  c' = c ∧ ((∃ e, r.2 = Some e) ∨ ∃ out, scheme_Convert o (SetGroupVersionKind gvk job.1) = inl out ∧
    r = (Some (SetGroupVersionKind (obj_gvk o) out), None)).
Proof.
  intros [Hgvk _ _] [_ (t & Ht & Ho)] Hrun. unfold Get in Hrun. rewrite !decide_False in Hrun by done.
  unfold gvkGetAndSet in Hrun. rewrite Hgvk, go_bind_eq in Hrun. cbn [go_get] in Hrun. unfold get_tracker in Hrun.
  rewrite Ht in Hrun. unfold tracked in Ho. destruct (objects t !! gvk) as [objs|]; [|done]. cbn in Ho.
  rewrite Ho in Hrun. destruct (scheme_Convert _ _) as [out|e]; injection Hrun as <- <-; split; [done| |done|].
  - right. by exists out.
  - left. by eexists.
Qed.
Lemma Update_next p c o r c' :
  scheme_GVKForObject (obj_body p) (obj_gvk p) = inl gvk → ObjectKeyFromObject p = key → holds c o →
  Update rg (Some p) c = Done r c' →
  (∃ e, r.2 = Some e ∧ holds c' o) ∨
  (r.2 = None ∧ GetResourceVersion o = GetResourceVersion p ∧
   holds c' (updated_object (time_Now (ticks c)) o (SetGroupVersionKind gvk p))).
Proof.
  intros Hgvk Hkey [Hwf (t & Ht & Ho)] Hrun. destruct r as [r e].
  assert (wf_cache c') as Hwf' by (by eapply update_wf).
  destruct (store_refines rg t gvk p true c) as (t' & o' & e' & n & k & Hrun' & Hspec); [by eapply Hwf| |].
  { split; [done|done| |done]. intros _. by rewrite <- Hkey in Hname. }
  unfold Update in Hrun. rewrite Hrun in Hrun'. injection Hrun' as -> -> ->.
  change (ObjectKeyFromObject p) with (ObjectKeyFromObject (SetGroupVersionKind gvk p)) in Hkey.
  assert (∀ x, tracked t' gvk key = Some x → holds (after_store rg t' n k c) x) as Hholds.
  { intros x Hx. split; [done|]. exists t'. split; [|done]. cbn. apply lookup_insert_eq. }
  inversion Hspec as [? ? Hv|?|?? Hv Hnone|? old Hv Hold Hrv [Heqv _]|?|? old Hv Hold Hrv [Hobjs _ _]]; subst.
  - left. eexists. split; [done|]. by apply Hholds.
  - congruence.
  - left. eexists. split; [done|]. apply Hholds. by rewrite Heqv.
  - right. rewrite Hkey in Hold. assert (old = o) as -> by congruence. split_and!; [done|done|].
    apply Hholds. rewrite Hobjs, Hkey. by apply decide_True.
Qed.

(** *** How far the goroutines are *)
Inductive progress (order : list nat) (o : Object) (i : nat) (job : Object * Patch)
  : client request answer (option APIError) → Prop :=
| is_fresh : i ∉ order → progress order o i job (Patch_client job.1 job.2)
| is_pending p o1 after :
    i ∉ order → object_wf gvk key o1 → gives job o1 p → after `suffix_of` order → composed after o1 o →
    progress order o i job (Ask (RequestUpdate (Some p)) (λ a, Return (answer_object a).2))
| is_done : i ∈ order → progress order o i job (Return None)
| is_refused e : i ∉ order → progress order o i job (Return (Some e)).

Record patching (o0 : Object) (a : cache H HS * list (client request answer (option APIError)))
    (order : list nat) (o : Object) : Prop := {
  pt_holds : holds a.1 o;
  pt_length : length a.2 = length jobs;
  pt_unique : NoDup order;
  pt_composed : composed order o0 o;
  pt_progress : ∀ i job, jobs !! i = Some job → ∃ k, a.2 !! i = Some k ∧ progress order o i job k }.

Lemma progress_snoc order o i job k j job' o' :
  jobs !! j = Some job' → patches job' o o' → i ≠ j →
  progress order o i job k → progress (order ++ [j]) o' i job k.
Proof.
  intros Hj Hp Hij Hprog. assert (i ∉ order → i ∉ order ++ [j]) as Hnot.
  { intros Hi [?|?%list_elem_of_singleton]%elem_of_app; done. }
  destruct Hprog as [|p o1 after Hi Hwf Hg Hsuf Hcomp|Hi|].
  - apply is_fresh. auto.
  - eapply is_pending; [by auto|done|done|by apply suffix_app|by eapply composed_snoc].
  - apply is_done, elem_of_app. by left.
  - apply is_refused. auto.
Qed.
(** A goroutine takes a step, and the object stays; or its patch is applied. *)
Lemma patching_stays o0 a order o i job c' k' :
  patching o0 a order o → jobs !! i = Some job → holds c' o → progress order o i job k' →
  patching o0 (c', <[i := k']> a.2) order o.
Proof.
  intros [Hh Hlen Hnd Hcomp Hprog] Hi Hc' Hk'. split; [done|by cbn; rewrite length_insert|done..|]. intros j job' Hj. destruct (decide (i = j)) as [<-|Hij].
  - exists k'. destruct (Hprog i job' Hj) as (k & Hk & _). split; [|congruence].
    apply list_lookup_insert_eq. by eapply lookup_lt_Some.
  - cbn. rewrite list_lookup_insert_ne by done. by apply Hprog.
Qed.
Lemma patching_applies o0 a order o i job c' o' :
  patching o0 a order o → jobs !! i = Some job → i ∉ order → holds c' o' → patches job o o' →
  patching o0 (c', <[i := Return None]> a.2) (order ++ [i]) o'.
Proof.
  intros [Hh Hlen Hnd Hcomp Hprog] Hi Hnot Hc' Hp. split; [done|by cbn; rewrite length_insert| |by eapply composed_snoc|].
  - apply list.NoDup_app. split; [done|]. split; [|apply NoDup_singleton]. by intros j Hj ->%list_elem_of_singleton.
  - intros j job' Hj. cbn. destruct (Hprog j job' Hj) as (k & Hk & Hpk). destruct (decide (i = j)) as [<-|Hij].
    + exists (Return None). split; [apply list_lookup_insert_eq; by eapply lookup_lt_Some|].
      apply is_done, elem_of_app. right. by apply list_elem_of_singleton.
    + exists k. rewrite list_lookup_insert_ne by done. split; [done|]. by eapply progress_snoc.
Qed.

Context (Hfits : Forall fits jobs) (Hfew : (Z.of_nat (length jobs) < 2 ^ 64)%Z).
Lemma order_few order o o' : composed order o o' → NoDup order → (Z.of_nat (length order) < 2 ^ 64)%Z.
Proof.
  intros Hcomp Hnd. assert (length order ≤ length (seq 0 (length jobs)))%nat as Hlen.
  { apply submseteq_length, NoDup_submseteq; [done|]. intros i Hi. apply elem_of_seq.
    pose proof (composed_numbers _ _ _ Hcomp) as Hall. rewrite list.Forall_forall in Hall. specialize (Hall i Hi). cbn in Hall. lia. }
  rewrite length_seq in Hlen. lia.
Qed.
(** The answer to Get, and the answer to the update. *)
Lemma asks_get order o i job c c' r :
  i ∉ order → fits job → holds c o →
  at_once (RequestGet (ObjectKeyFromObject job.1) (Some job.1)) c r c' →
  c' = c ∧ progress order o i job (Patch_update (answer_object r) job.2).
Proof.
  intros Hnot Hfit Hh Hrun. unfold answers_at_once in Hrun. cbn in Hrun. rewrite (fit_key _ Hfit) in Hrun.
  apply go_bind_Done_inv in Hrun as ([r1 e1] & c1 & Hget & [= <- <-]).
  destruct (Get_gives job c o _ _ Hfit Hh Hget) as [-> [[e He]|(out & Hconv & [= -> ->])]]; (split; [done|]); cbn in *.
  - subst e1. destruct r1; by apply is_refused.
  - destruct (patch_object _ _) as [p|e] eqn:Hpatch; [|by apply is_refused].
    apply (is_pending order o i job p o []); [done|by eapply holds_object_wf|by exists out|apply suffix_nil|done].
Qed.
Lemma asks_update o0 order o i job p o1 after c c' r :
  i ∉ order → fits job → holds c o → composed order o0 o → NoDup order →
  object_wf gvk key o1 → gives job o1 p → after `suffix_of` order → composed after o1 o →
  at_once (RequestUpdate (Some p)) c r c' →
  (holds c' o ∧ ∃ e, (answer_object r).2 = Some e) ∨
  ((answer_object r).2 = None ∧ ∃ o', holds c' o' ∧ patches job o o').
Proof.
  intros Hnot Hfit Hh Hcomp Hnd Hwf Hg Hsuf Hafter Hrun. unfold answers_at_once in Hrun.
  apply go_bind_Done_inv in Hrun as ([r1 e1] & c1 & Hupd & [= <- <-]).
  destruct (fit_patched _ Hfit o1 p Hwf Hg) as (Hgvk & Hkey & Hv).
  destruct (Update_next p c o _ _ Hgvk Hkey Hh Hupd) as [(e & He & Hh')|(He & Hrv & Hh')]; [left; by eauto|right].
  split; [done|]. eexists. split; [done|]. pose proof (order_few _ _ _ Hcomp Hnd) as Hlen.
  assert (o = o1) as ->.
  { apply (composed_same after o1 o); [done|by apply Hwf| |by rewrite Hrv].
    apply suffix_length in Hsuf. lia. }
  by exists p, (time_Now (ticks c)).
Qed.
Lemma asked_patching o0 a a' order o :
  patching o0 a order o → asked at_once a a' → ∃ order' o', patching o0 a' order' o'.
Proof.
  intros Hpt (i & k & d' & k' & Hk & Hans & ->).
  assert (is_Some (jobs !! i)) as [job Hi].
  { apply lookup_lt_is_Some. rewrite <- (pt_length _ _ _ _ Hpt). by eapply lookup_lt_Some. }
  destruct (pt_progress _ _ _ _ Hpt i job Hi) as (k1 & Hk1 & Hprog). rewrite Hk in Hk1. injection Hk1 as <-.
  assert (fits job) as Hfit by (by eapply Forall_lookup_1). pose proof (pt_holds _ _ _ _ Hpt) as Hh.
  destruct Hprog as [Hnot|p o1 after Hnot Hwf Hg Hsuf Hcomp|Hin|e Hnot];
    inversion_clear Hans as [? ? ? r ? Hrun].
  - destruct (asks_get order o i job _ _ r Hnot Hfit Hh Hrun) as [-> Hprog].
    exists order, o. by eapply patching_stays.
  - destruct (asks_update o0 order o i job p o1 after a.1 d' r) as [[Hh' [e ->]]|[-> (o' & Hh' & Hp)]];
      try done; [by apply Hpt|by apply Hpt| |].
    + exists order, o. eapply patching_stays; [done..|]. by apply is_refused.
    + exists (order ++ [i]), o'. by eapply patching_applies.
Qed.
Lemma answers_patching o0 a a' order o :
  rtc (asked at_once) a a' → patching o0 a order o → ∃ order' o', patching o0 a' order' o'.
Proof.
  intros Hrun. revert order o. induction Hrun as [a|a a1 a2 Hone _ IHa]; intros order o Hpt; [by exists order, o|].
  destruct (asked_patching o0 a a1 order o Hpt Hone) as (order1 & o1 & Hpt1). by eapply IHa.
Qed.
Lemma patching_starts o0 c : holds c o0 → patching o0 (c, job_client <$> (uncurry JobPatch <$> jobs)) [] o0.
Proof.
  intros Hh. split; [done|by cbn; rewrite !length_fmap|constructor|done|].
  intros i job Hi. exists (Patch_client job.1 job.2). split; [|apply is_fresh, not_elem_of_nil].
  cbn. rewrite !list_lookup_fmap, Hi. by destruct job.
Qed.

(** C5: concurrent patches of an object compose.  Goroutines (fewer than 2^64) patch one
    tracked object at once, each with its own patch, which leaves the kind, the name, the
    namespace and the resource version of what it is applied to as they are.  Then,
    however their Gets and their updates are interleaved, all of them return, and there
    is an order of those that succeed, in which each is applied to what the one before
    has made, and the cache ends with the last result: a patch whose caller is told it
    succeeded is not lost, and one whose caller gets an error has changed nothing.  (A
    patch that sets the resource version is outside the claim: the check of the update
    then compares the version it sets, so it can overwrite a patch it has not seen.) *)
Theorem patches_compose c o0 s :
  holds c o0 → reachable c (job_locks <$> (uncurry JobPatch <$> jobs)) s →
  completes s ∧ (finished s → ∃ order o, NoDup order ∧ composed order o0 o ∧ holds s.1 o ∧
    ∀ i job, jobs !! i = Some job → ∃ g e, s.2 !! i = Some g ∧ g_prog g = Ret e ∧ (e = None ↔ i ∈ order)).
Proof.
  intros Hh Hreach.
  assert (has_group rg c) as Hg by (destruct (holds_object _ _ Hh) as (t & Ht & _); by exists t).
  split.
  { eapply jobs_finish; [exact Hg| |exact Hreach]. apply stores_answered; [done|apply Hh|]. do 2 apply Forall_fmap.
    apply Forall_true. intros [obj patch]. apply Patch_asks. }
  intros Hfin. destruct (finished_refines at_once (TrackerLock (encode rg)) (has_group rg) (has_group rg) (λ _ Hd, Hd)
    c _ _ s Hg (jobs_follow _) Hreach Hfin) as (_ & ks & Hrun & Hlen & Hret).
  destruct (answers_patching o0 _ _ _ _ Hrun (patching_starts o0 c Hh)) as (order & o & [Hh' Hlen' Hnd Hcomp Hprog]).
  exists order, o. split_and!; [done..|]. intros i job Hi. destruct (Hprog i job Hi) as (k & Hk & Hpk). cbn in Hk.
  destruct (lookup_lt_is_Some_2 s.2 i) as [g Hg']; [rewrite <- Hlen; by eapply lookup_lt_Some|].
  destruct (Hret i g Hg') as (e & He & Hke). rewrite Hk in Hke. injection Hke as ->.
  exists g, e. split_and!; [done..|]. by inversion Hpk; subst; naive_solver.
Qed.
End patches.
End clients.

(** ** Concrete runs *)
From S2P Require Import TestEnv.
Section witnesses.
Let child_gvk := cloudv1_gvk "CloudMachine".
Let child_key := NN "" "child".

(** A patch of the child that labels it; both clients know it as unstructured. *)
Definition test_patch (label : string) : Object * Patch :=
  (mkObject child_gvk (named_meta "" "child") (Unstructured ""), RawPatch MergePatchType label).
Lemma test_patch_fits label : fits child_gvk child_key (test_patch label).
Proof.
  split; [done|done|]. intros old p [Hgvk Hkey _ _ _] (out & Hout & Hp). vm_compute in Hout. injection Hout as <-.
  destruct old as [g m b]. cbn in Hgvk. subst g. unfold ObjectKeyFromObject, GetName in Hkey. cbn in Hkey.
  assert (Hn : om_Name m = "child") by (by injection Hkey).
  unfold patch_object in Hp. cbn in Hp. rewrite decide_True in Hp by (by left).
  rewrite decide_False in Hp by (unfold GetName; cbn; by rewrite Hn). injection Hp as <-.
  split_and!; [done| |done]. by destruct m.
Qed.
Definition test_patches : list (Object * Patch) := [test_patch "a"; test_patch "b"].
Definition test_patched := round_robin 400 0
  (start test_family (job_locks "rg" 5 <$> (uncurry JobPatch <$> test_patches))).

Definition returned_nil {L D} (g : option (goroutine (L := L) (D := D) (A := option APIError))) : bool :=
  match g with Some g => match g_prog g with Ret None => true | _ => false end | None => false end.

Lemma patches_compose_witness : ∃ order o, order ≠ [] ∧
  composed child_gvk test_patches order (the_object "child" test_family) o ∧
  holds "rg" child_gvk child_key test_patched.1 o.
Proof.
  destruct (patches_compose "rg" 5 child_gvk child_key test_patches) with (c := test_family)
    (o0 := the_object "child" test_family) (s := test_patched) as [_ Hpatched].
  - discriminate.
  - discriminate.
  - apply Forall_cons_2; [apply test_patch_fits|]. apply Forall_cons_2; [apply test_patch_fits|]. by apply Forall_nil.
  - vm_compute. reflexivity.
  - split; [exact test_family_wf|]. exists (the_tracker test_family). split; vm_decide.
  - apply round_robin_steps.
  - destruct Hpatched as (order & o & _ & Hcomp & Hend & Hall); [apply all_returned_finished; vm_compute; reflexivity|].
    exists order, o. split; [|exact (conj Hcomp Hend)]. intros ->.
    destruct (Hall 0%nat (test_patch "a") eq_refl) as (g & e & Hg & He & Hin).
    assert (Hdone : returned_nil (test_patched.2 !! 0%nat) = true) by (vm_compute; reflexivity).
    rewrite Hg in Hdone. unfold returned_nil in Hdone. rewrite He in Hdone. destruct e; [discriminate|].
    by apply (not_elem_of_nil 0%nat), Hin.
Defined.

(** One client patches the child; another reads it and deletes it if it is there. *)
Definition test_jobs : list job :=
  [JobPatch (test_patch "a").1 (test_patch "a").2;
   JobClient (a ← ask (RequestGet child_key (Some (new_machine "child" [] [])));
              match (answer_object a).2 with
              | Some err => Return (Some err)
              | None =>
                  a ← ask (RequestTryDelete child_gvk child_key);
                  Return match a with AnswerDeleted r => r.2 | _ => None end
              end)].
Definition test_raced := round_robin 400 0 (start test_family (job_locks "rg" 5 <$> test_jobs)).

Lemma goroutines_refine_clients_witness : ∃ ks,
  rtc (asked (answers_at_once "rg" 5)) (test_family, job_client <$> test_jobs) (test_raced.1, ks).
Proof.
  destruct (goroutines_refine_clients "rg" 5 test_jobs test_family test_raced) as (_ & _ & Hfin).
  - exact test_family_reachable.
  - exists (the_tracker test_family). vm_decide.
  - apply round_robin_steps.
  - destruct Hfin as (ks & Hrun & _ & _); [apply all_returned_finished; vm_compute; reflexivity|].
    exists ks. exact Hrun.
Defined.
End witnesses.
