(* ===== verification/EventSource.v ===== *)
(** * Events, predicates, event handlers and the informer source

    The packages event, predicate, handler and source of internal/cloud/runtime:
    how a notification of the cache becomes requests in the queue of a controller.
    A controller's queue is a pointer, here its number in [queues]; the handlers of
    this file are the instance of [InformEventHandler] the program uses. *)

From stdpp Require Import prelude gmap strings list.
From Stdlib Require Import ZArith QArith_base.
From S2P Require Import Prelude GoStd GoTime Api Runtime Cache CacheFacts CacheStore.

(** ** reconcile.Request *)
Record Request := mkRequest { req_ResourceGroup : string; req_NamespacedName : NamespacedName }.

#[export] Instance Request_eq_dec : EqDecision Request.
Proof. solve_decision. Defined.

Definition Request_String (r : Request) : string :=
  if decide (req_ResourceGroup r = "") then NamespacedName_String (req_NamespacedName r)
  else req_ResourceGroup r +:+ "/" +:+ NamespacedName_String (req_NamespacedName r).

(** The queues of the controllers. *)
Abbreviation queue := (list (queue_call (any Request))).
Abbreviation queues := (gmap nat queue).

(** ** Package event: an object can be nil *)
Record CreateEvent := mkCreateEvent { ce_ResourceGroup : string; ce_Object : option Object }.
Record UpdateEvent := mkUpdateEvent {
  ue_ResourceGroup : string; ue_ObjectOld : option Object; ue_ObjectNew : option Object }.
Record DeleteEvent := mkDeleteEvent { de_ResourceGroup : string; de_Object : option Object }.
Record GenericEvent := mkGenericEvent { ge_ResourceGroup : string; ge_Object : option Object }.

(** ** Package predicate *)
Record Predicate := mkPredicate {
  p_Create : CreateEvent → bool;
  p_Update : UpdateEvent → bool;
  p_Delete : DeleteEvent → bool;
  p_Generic : GenericEvent → bool }.

(** ** Package handler *)
(** An event handler acts on the queue it is given. *)
Record EventHandler := mkEventHandler {
  eh_Create : CreateEvent → queue → queue;
  eh_Update : UpdateEvent → queue → queue;
  eh_Delete : DeleteEvent → queue → queue;
  eh_Generic : GenericEvent → queue → queue }.

Definition add_request (resourceGroup : string) (obj : Object) (q : queue) : queue :=
  q ++ [QAdd (Is (mkRequest resourceGroup (NN (GetNamespace obj) (GetName obj))))].

Definition EnqueueRequestForObject : EventHandler := {|
  eh_Create evt q :=
    match ce_Object evt with
    | None => q
    | Some obj => add_request (ce_ResourceGroup evt) obj q
    end;
  eh_Update evt q :=
    match ue_ObjectNew evt, ue_ObjectOld evt with
    | Some obj, _ => add_request (ue_ResourceGroup evt) obj q
    | None, Some obj => add_request (ue_ResourceGroup evt) obj q
    | None, None => q
    end;
  eh_Delete evt q :=
    match de_Object evt with
    | None => q
    | Some obj => add_request (de_ResourceGroup evt) obj q
    end;
  eh_Generic evt q :=
    match ge_Object evt with
    | None => q
    | Some obj => add_request (ge_ResourceGroup evt) obj q
    end |}.

(** ** Package source *)
Record informerEventHandler := mkInformerEventHandler {
  ieh_EventHandler : EventHandler;
  ieh_Queue : nat;
  ieh_Predicates : list Predicate }.

(** The loop over the predicates, which ends at the first that refuses. *)
Fixpoint all_pass {Ev} (p : Predicate → Ev → bool) (ps : list Predicate) (e : Ev) : bool :=
  match ps with
  | [] => true
  | pr :: ps => if negb (p pr e) then false else all_pass p ps e
  end.

#[export] Instance informer_event_handler : InformEventHandler informerEventHandler queues := {|
  OnCreate h resourceGroup obj qs :=
    let c := mkCreateEvent resourceGroup (Some obj) in
    if all_pass p_Create (ieh_Predicates h) c
    then alter (eh_Create (ieh_EventHandler h) c) (ieh_Queue h) qs else qs;
  OnUpdate h resourceGroup oldObj newObj qs :=
    let u := mkUpdateEvent resourceGroup (Some oldObj) (Some newObj) in
    if all_pass p_Update (ieh_Predicates h) u
    then alter (eh_Update (ieh_EventHandler h) u) (ieh_Queue h) qs else qs;
  OnDelete h resourceGroup obj qs :=
    let d := mkDeleteEvent resourceGroup (Some obj) in
    if all_pass p_Delete (ieh_Predicates h) d
    then alter (eh_Delete (ieh_EventHandler h) d) (ieh_Queue h) qs else qs;
  OnGeneric h resourceGroup obj qs :=
    let d := mkGenericEvent resourceGroup (Some obj) in
    if all_pass p_Generic (ieh_Predicates h) d
    then alter (eh_Generic (ieh_EventHandler h) d) (ieh_Queue h) qs else qs |}.

(** A source: an informer of the cache, by its kind, or nil. *)
Definition Source : Type := option GroupVersionKind.

Definition Source_Start {E : Env} (src : Source) (handler : EventHandler) (q : nat)
    (prct : list Predicate) : Go (cache informerEventHandler queues) (option string) :=
  match src with
  | None => mret (Some "must specify Informer.Informer")
  | Some gvk =>
      _ ← AddEventHandler gvk (mkInformerEventHandler handler q prct);
      mret None
  end.

(** ** What a notification does to a queue *)
Section notifications.
Context {E : Env}.
Implicit Types c : cache informerEventHandler queues.

(** The request for an object. *)
Definition request_of (rg : string) (o : Object) : Request := mkRequest rg (ObjectKeyFromObject o).

(** Does the handler let a notification through, and for which object? *)
Definition handler_passes (rg : string) (n : notification) (h : informerEventHandler) : bool :=
  match n with
  | Silent => false
  | NotifyCreate o => all_pass p_Create (ieh_Predicates h) (mkCreateEvent rg (Some o))
  | NotifyUpdate o o' => all_pass p_Update (ieh_Predicates h) (mkUpdateEvent rg (Some o) (Some o'))
  | NotifyDelete o => all_pass p_Delete (ieh_Predicates h) (mkDeleteEvent rg (Some o))
  | NotifySync o => all_pass p_Generic (ieh_Predicates h) (mkGenericEvent rg (Some o))
  end.

Definition notified_object (n : notification) : option Object :=
  match n with
  | Silent => None
  | NotifyCreate o | NotifyDelete o | NotifySync o | NotifyUpdate _ o => Some o
  end.

(** The requests queue [q] gets for a notification about an object: one for each
    handler of the kind that feeds [q] and whose predicates let it through. *)
Definition requests_for (rg : string) (n : notification) (q : nat) (hs : list informerEventHandler)
  : queue :=
  match notified_object n with
  | None => []
  | Some o =>
      (λ _, QAdd (Is (request_of rg o))) <$>
        filter (λ h, ieh_Queue h = q ∧ handler_passes rg n h = true) hs
  end.

(** Handlers that enqueue the object itself, as the builder sets up for For. *)
Definition enqueues_object (hs : list informerEventHandler) : Prop :=
  ∀ h, h ∈ hs → ieh_EventHandler h = EnqueueRequestForObject.

Lemma notify_queue rg n c o hs q calls :
  notified_object n = Some o → informers c !! obj_gvk o = Some hs → enqueues_object hs →
  handlerState c !! q = Some calls →
  handlerState (notify rg n c) !! q = Some (calls ++ requests_for rg n q hs).
Proof.
  intros Hn Hhs Henq Hq.
  assert (Hfold : ∀ (call : informerEventHandler → queues → queues) qs calls,
    (∀ h, h ∈ hs → ∀ qs, call h qs = if handler_passes rg n h
       then alter (add_request rg o) (ieh_Queue h) qs else qs) →
    qs !! q = Some calls →
    fold_left (λ s h, call h s) hs qs !! q = Some (calls ++ requests_for rg n q hs)).
  { clear Hhs Hq calls. intros call. unfold requests_for. rewrite Hn. revert Henq.
    induction hs as [|h hs IH]; intros Henq qs calls Hcall Hq; cbn [fold_left].
    { by rewrite filter_nil, app_nil_r. }
    assert (Henq' : enqueues_object hs) by (intros h' Hh'; apply Henq; by right).
    assert (Hcall' := λ h' (Hh' : h' ∈ hs), Hcall h' (list_elem_of_further _ _ _ Hh')).
    rewrite (Hcall h) by (by left). destruct (handler_passes rg n h) eqn:Hp.
    - destruct (decide (ieh_Queue h = q)) as [Heq|Hne].
      + rewrite filter_cons_True by done. cbn.
        erewrite IH; [|done..|by rewrite Heq, lookup_alter_eq, Hq].
        unfold add_request. by rewrite <- app_assoc.
      + rewrite filter_cons_False by tauto. apply IH; [done..|]. by rewrite lookup_alter_ne.
    - rewrite filter_cons_False by (rewrite Hp; naive_solver). by apply IH. }
  destruct n; simplify_eq/=; unfold notified; rewrite Hhs; cbn [handlerState set_handlerState];
    (apply Hfold; [|done]); intros h Hh qs; cbn; by rewrite (Henq h Hh).
Qed.
End notifications.

(** ** From the cache to the controllers *)
Section end_to_end.
Context {E : Env} {L : EnvLaws E}.
Implicit Types c : cache informerEventHandler queues.

(** C23: the chain from a client call to the controllers: when the handlers of a kind
    enqueue the object, a successful Create queues exactly one request for it per
    handler whose predicates let the event through; a successful Update that changes
    nothing queues none, and another one queues one request per handler that lets
    the update (or, when the deletion time was just set, the delete) through. *)
Theorem store_enqueues_requests rg obj (replace : bool) gvk t c stored c' hs q calls :
  wf_cache c → store_accepts rg obj replace gvk t c →
  store rg (Some obj) replace c = Done (Some stored, None) c' →
  informers c !! gvk = Some hs → enqueues_object hs → handlerState c !! q = Some calls →
  handlerState c' !! q = Some (calls ++
    match tracked t gvk (ObjectKeyFromObject obj) with
    | None => requests_for rg (NotifyCreate stored) q hs
    | Some old =>
        if decide (stored = old) then []
        else requests_for rg
          (if TimePtr_IsZero (GetDeletionTimestamp old) &&
              negb (TimePtr_IsZero (GetDeletionTimestamp stored))
           then NotifyDelete stored else NotifyUpdate old stored) q hs
    end).
Proof.
  intros Hwf Hacc Hrun Hhs Henq Hq.
  assert (Ht := acc_tracker _ _ _ _ _ _ Hacc).
  destruct (store_refines rg t gvk obj replace c (Hwf _ _ Ht) Hacc)
    as (t' & o' & e & n & k & Hrun' & Hspec).
  rewrite Hrun in Hrun'. simplify_eq. rewrite handlerState_after_store.
  inversion Hspec as [| | | |? _ Hnone|? old _ Hold _]; simplify_eq.
  - change (tracked t gvk (ObjectKeyFromObject obj) = None) in Hnone. rewrite Hnone.
    eapply notify_queue; [done|exact Hhs|done..].
  - change (tracked t gvk (ObjectKeyFromObject obj) = Some old) in Hold. rewrite Hold.
    destruct (proj1 (Hwf _ _ Ht) _ _ _ Hold) as [Hg Hk _ _ _].
    destruct (updated_object_basic (time_Now (ticks c)) old (SetGroupVersionKind gvk obj) Hg Hk)
      as (Hgvk & _).
    set (stored := updated_object _ _ _) in *. unfold update_notification.
    destruct (decide (stored = old)) as [->|Hne].
    + rewrite app_nil_r, DeepEqual_refl. destruct (TimePtr_IsZero _); by rewrite ?Hq.
    + rewrite (proj2 (DeepEqual_false _ _) Hne).
      destruct (_ && _); (eapply notify_queue; [done|by rewrite Hgvk|done..]).
Qed.
End end_to_end.
