(* ===== verification/Controller.v ===== *)
(** * Controllers, the manager and the builder

    The packages controller, manager, builder and resourcegroup of
    internal/cloud/runtime.  The builder and the manager hold pointers to the same
    controllers, so controllers live in a heap, [rt_heap], and a pointer is an
    index of it. *)

From stdpp Require Import prelude gmap strings list.
From Stdlib Require Import ZArith QArith_base.
From S2P Require Import Prelude GoStd GoTime Api Runtime Cache CacheFacts CacheStore EventSource TestEnv.
Local Open Scope Z_scope.

(** ** Data *)
Record Result := mkResult { res_Requeue : bool; res_RequeueAfter : Duration }.

(** The cache of the program: its handlers feed the queues of the controllers. *)
Abbreviation ccache := (cache informerEventHandler queues).

(** A reconciler acts on the cache; a Go error is its message. *)
Definition Reconciler : Type := Request → Go ccache (Result * option string).

Record Options := mkOptions { opt_Concurrency : Z; opt_Reconciler : option Reconciler }.

Record watchDescription := mkWatch {
  wd_src : Source; wd_handler : EventHandler; wd_predicates : list Predicate }.

Record controller := mkController {
  ct_name : string;
  ct_reconciler : Reconciler;
  ct_concurrency : Z;
  ct_cacheSyncTimeout : Duration;
  ct_queue : option nat;
  ct_startWatches : list watchDescription;
  ct_started : bool }.

Definition ct_set_queue v (c : controller) : controller :=
  mkController (ct_name c) (ct_reconciler c) (ct_concurrency c) (ct_cacheSyncTimeout c) v
    (ct_startWatches c) (ct_started c).
Definition ct_set_startWatches v (c : controller) : controller :=
  mkController (ct_name c) (ct_reconciler c) (ct_concurrency c) (ct_cacheSyncTimeout c) (ct_queue c)
    v (ct_started c).
Definition ct_set_started v (c : controller) : controller :=
  mkController (ct_name c) (ct_reconciler c) (ct_concurrency c) (ct_cacheSyncTimeout c) (ct_queue c)
    (ct_startWatches c) v.

Section ops.
Context {E : Env}.

(** ** controller.go: each method takes and gives back the controller it mutates *)
Definition New (name : string) (options : Options) : controller + string :=
  if decide (name = "") then inr "name cannot be empty" else
  match opt_Reconciler options with
  | None => inr "reconciler cannot be nil"
  | Some reconciler =>
      if opt_Concurrency options <? 1 then inr "concurrency cannot be less then 1"
      else inl (mkController name reconciler (opt_Concurrency options) (2 * Minute) None [] false)
  end.

Definition Watch (src : Source) (evthdler : EventHandler) (prct : list Predicate) (c : controller)
  : Go ccache (controller * option string) :=
  if negb (ct_started c) then
    mret (ct_set_startWatches (ct_startWatches c ++ [mkWatch src evthdler prct]) c, None)
  else
    match ct_queue c with
    | None => go_panic "nil queue"
    | Some q => err ← Source_Start src evthdler q prct; mret (c, err)
    end.

(** workqueue.NewRateLimitingQueue: the next queue. *)
Definition NewRateLimitingQueue : Go ccache nat :=
  c ← go_get;
  let q := size (handlerState c) in
  _ ← go_put (set_handlerState (<[q := []]> (handlerState c)) c);
  mret q.

(** The loop over the watches set up before Start. *)
Fixpoint start_watches (q : nat) (ws : list watchDescription) : Go ccache (option string) :=
  match ws with
  | [] => mret None
  | w :: ws =>
      err ← Source_Start (wd_src w) (wd_handler w) q (wd_predicates w);
      match err with
      | Some err => mret (Some err)
      | None => start_watches q ws
      end
  end.

(** [workersStarted]: do the workers come up before the poll times out. *)
Definition Controller_Start (ctxIsNil workersStarted : bool) (c : controller)
  : Go ccache (controller * option string) :=
  if ctxIsNil then mret (c, Some "context cannot be nil") else
  if ct_started c then mret (c, Some "controller started more than once") else
  q ← NewRateLimitingQueue;
  let c := ct_set_queue (Some q) c in
  err ← start_watches q (ct_startWatches c);
  match err with
  | Some err => mret (c, Some err)
  | None =>
      let c := ct_set_startWatches [] c in
      if workersStarted then mret (ct_set_started true c, None)
      else mret (c, Some "failed to start reconcile workers")
  end.

(** A call on the controller's queue. *)
Definition queue_op (c : controller) (x : queue_call (any Request)) : Go ccache () :=
  match ct_queue c with
  | None => go_panic "nil queue"
  | Some q => go_modify (λ w, set_handlerState (alter (λ calls, calls ++ [x]) q (handlerState w)) w)
  end.

Definition reconcileHandler (c : controller) (obj : any Request) : Go ccache () :=
  match obj with
  | IsNot => queue_op c (QForget obj)
  | Is req =>
      r ← ct_reconciler c req;
      match r with
      | (_, Some _) => queue_op c (QAddRateLimited (Is req))
      | (result, None) =>
          if 0 <? res_RequeueAfter result then
            _ ← queue_op c (QForget obj);
            queue_op c (QAddAfter (Is req) (res_RequeueAfter result))
          else if res_Requeue result then queue_op c (QAddRateLimited (Is req))
          else queue_op c (QForget obj)
      end
  end.

(** One iteration of a worker, given what Get of the queue returned. *)
Definition processNextWorkItem (c : controller) (got : any Request * bool) : Go ccache bool :=
  let '(obj, shutdown) := got in
  if shutdown : bool then mret false else
  _ ← reconcileHandler c obj;
  (* the deferred call *)
  _ ← queue_op c (QDone obj);
  mret true.
End ops.

(** ** manager.go *)
Record runtime := mkRuntime {
  rt_cache : ccache;
  rt_heap : list controller;
  rt_controllers : list nat;
  rt_started : bool }.

Definition rt_set_cache v (r : runtime) : runtime :=
  mkRuntime v (rt_heap r) (rt_controllers r) (rt_started r).
Definition rt_set_heap v (r : runtime) : runtime :=
  mkRuntime (rt_cache r) v (rt_controllers r) (rt_started r).
Definition rt_set_controllers v (r : runtime) : runtime :=
  mkRuntime (rt_cache r) (rt_heap r) v (rt_started r).
Definition rt_set_started v (r : runtime) : runtime :=
  mkRuntime (rt_cache r) (rt_heap r) (rt_controllers r) v.

(** A program on the cache, run within the runtime. *)
Definition on_cache {A} (m : Go ccache A) : Go runtime A := λ r,
  match m (rt_cache r) with
  | Done a c => Done a (rt_set_cache c r)
  | Panicked msg => Panicked msg
  | OutOfFuel => OutOfFuel
  end.

(** A method of the controller at a pointer. *)
Definition on_controller {A} (p : nat) (m : controller → Go ccache (controller * A)) : Go runtime A :=
  r ← go_get;
  match rt_heap r !! p with
  | None => go_panic "invalid controller"
  | Some c =>
      res ← on_cache (m c);
      _ ← go_modify (λ r, rt_set_heap (<[p := res.1]> (rt_heap r)) r);
      mret res.2
  end.

Section manager.
Context {E : Env}.

Definition Manager_New : runtime := mkRuntime (NewCache ∅) [] [] false.

Definition Manager_AddResourceGroup (name : string) : Go runtime () :=
  on_cache (AddResourceGroup name).
Definition Manager_DeleteResourceGroup (name : string) : Go runtime () :=
  on_cache (DeleteResourceGroup name).

Definition AddController (p : nat) : Go runtime (option string) :=
  r ← go_get;
  if rt_started r then mret (Some "cannot add controller to a manager already started")
  else _ ← go_put (rt_set_controllers (rt_controllers r ++ [p]) r); mret None.

(** [workers p]: do the workers of the controller at [p] come up in time. *)
Fixpoint start_controllers (workers : nat → bool) (ps : list nat) : Go runtime (option string) :=
  match ps with
  | [] => mret None
  | p :: ps =>
      err ← on_controller p (Controller_Start false (workers p));
      match err with
      | Some err => mret (Some ("failed to start controllers: " +:+ err))
      | None => start_controllers workers ps
      end
  end.

Definition Manager_Start (ctxIsNil gcWorkers syncLoop syncWorkers : bool) (workers : nat → bool)
  : Go runtime (option string) :=
  if ctxIsNil then mret (Some "context cannot be nil") else
  r ← go_get;
  if rt_started r then mret (Some "manager started more than once") else
  err ← on_cache (Start ctxIsNil gcWorkers syncLoop syncWorkers);
  match err with
  | Some err => mret (Some ("failed to start cache: " +:+ err))
  | None =>
      err ← start_controllers workers (rt_controllers r);
      match err with
      | Some err => mret (Some err)
      | None => _ ← go_modify (rt_set_started true); mret None
      end
  end.

(** ** resourcegroup: the client of a resource group *)
Record cachedClient := mkCachedClient { cc_resourceGroup : string }.
Definition GetResourceGroup (name : string) : cachedClient := mkCachedClient name.
Definition cachedClient_Get (cc : cachedClient) (key : NamespacedName) (obj : option Object)
  : Go ccache (option Object * option APIError) := Get (cc_resourceGroup cc) key obj.
Definition cachedClient_List (cc : cachedClient) (l : option ObjectList) (opts : list ListOption)
  : Go ccache (option ObjectList * option APIError) := List_ (cc_resourceGroup cc) l opts.
Definition cachedClient_Create (cc : cachedClient) (obj : option Object)
  : Go ccache (option Object * option APIError) := Create (cc_resourceGroup cc) obj.
Definition cachedClient_Delete (fuel : nat) (cc : cachedClient) (obj : option Object)
  : Go ccache (option Object * option APIError) := Delete fuel (cc_resourceGroup cc) obj.
Definition cachedClient_Update (cc : cachedClient) (obj : option Object)
  : Go ccache (option Object * option APIError) := Update (cc_resourceGroup cc) obj.
Definition cachedClient_Patch (cc : cachedClient) (obj : option Object) (patch : Patch)
  : Go ccache (option APIError) := Patch_ (cc_resourceGroup cc) obj patch.
End manager.

(** ** builder.go *)
Record ForInput := mkForInput {
  fi_object : option Object; fi_predicates : list Predicate; fi_err : option string }.
Record WatchesInput := mkWatchesInput {
  wi_src : Source; wi_eventhandler : EventHandler; wi_predicates : list Predicate }.

Record Builder := mkBuilder {
  b_forInput : ForInput;
  b_watchesInput : list WatchesInput;
  b_hasManager : bool;
  b_globalPredicates : list Predicate;
  b_ctrl : option nat;
  b_ctrlOptions : Options;
  b_name : string }.

(** options.go: an option is what it does to the input. *)
Definition WithPredicates_ApplyToFor (ps : list Predicate) (opts : ForInput) : ForInput :=
  mkForInput (fi_object opts) ps (fi_err opts).
Definition WithPredicates_ApplyToWatches (ps : list Predicate) (opts : WatchesInput) : WatchesInput :=
  mkWatchesInput (wi_src opts) (wi_eventhandler opts) ps.

Definition ControllerManagedBy (hasManager : bool) : Builder :=
  mkBuilder (mkForInput None [] None) [] hasManager [] None (mkOptions 0 None) "".

Definition For (object : option Object) (opts : list (ForInput → ForInput)) (b : Builder) : Builder :=
  match fi_object (b_forInput b) with
  | Some o =>
      mkBuilder (mkForInput (Some o) (fi_predicates (b_forInput b))
          (Some "method For(...) should only be called once, could not assign multiple objects for reconciliation"))
        (b_watchesInput b) (b_hasManager b) (b_globalPredicates b) (b_ctrl b) (b_ctrlOptions b) (b_name b)
  | None =>
      let input := fold_left (λ i f, f i) opts (mkForInput object [] None) in
      mkBuilder input (b_watchesInput b) (b_hasManager b) (b_globalPredicates b) (b_ctrl b)
        (b_ctrlOptions b) (b_name b)
  end.

Definition Watches (src : Source) (eventhandler : EventHandler)
    (opts : list (WatchesInput → WatchesInput)) (b : Builder) : Builder :=
  let input := fold_left (λ i f, f i) opts (mkWatchesInput src eventhandler []) in
  mkBuilder (b_forInput b) (b_watchesInput b ++ [input]) (b_hasManager b) (b_globalPredicates b)
    (b_ctrl b) (b_ctrlOptions b) (b_name b).

Definition WithEventFilter (p : Predicate) (b : Builder) : Builder :=
  mkBuilder (b_forInput b) (b_watchesInput b) (b_hasManager b) (b_globalPredicates b ++ [p])
    (b_ctrl b) (b_ctrlOptions b) (b_name b).
Definition WithOptions (options : Options) (b : Builder) : Builder :=
  mkBuilder (b_forInput b) (b_watchesInput b) (b_hasManager b) (b_globalPredicates b)
    (b_ctrl b) options (b_name b).
Definition Named (name : string) (b : Builder) : Builder :=
  mkBuilder (b_forInput b) (b_watchesInput b) (b_hasManager b) (b_globalPredicates b)
    (b_ctrl b) (b_ctrlOptions b) name.
Definition b_set_ctrl (p : nat) (b : Builder) : Builder :=
  mkBuilder (b_forInput b) (b_watchesInput b) (b_hasManager b) (b_globalPredicates b)
    (Some p) (b_ctrlOptions b) (b_name b).

Section builder.
Context {E : Env}.

Definition getControllerName (gvk : GroupVersionKind) (hasGVK : bool) (b : Builder) : string + string :=
  if negb (bool_decide (b_name b = "")) then inl (b_name b)
  else if negb hasGVK then inr "one of For() or Named() must be called"
  else inl (ToLower (gvk_Kind gvk)).

(** The kind of the object of For; none without one. *)
Definition for_gvk (b : Builder) : GroupVersionKind + string :=
  match fi_object (b_forInput b) with
  | None => inl (GVK "" "" "")
  | Some o => scheme_GVKForObject (obj_body o) (obj_gvk o)
  end.

Definition doController (r : Reconciler) (b : Builder) : Go runtime (Builder * option string) :=
  let reconciler := match opt_Reconciler (b_ctrlOptions b) with None => r | Some r => r end in
  let hasGVK := match fi_object (b_forInput b) with Some _ => true | None => false end in
  match for_gvk b with
  | inr err => mret (b, Some err)
  | inl gvk =>
  let concurrency :=
    if opt_Concurrency (b_ctrlOptions b) <=? 0 then 1 else opt_Concurrency (b_ctrlOptions b) in
  match getControllerName gvk hasGVK b with
  | inr err => mret (b, Some err)
  | inl controllerName =>
  match New controllerName (mkOptions concurrency (Some reconciler)) with
  | inr err => mret (b, Some err)
  | inl c =>
      w ← go_get;
      let p := length (rt_heap w) in
      _ ← go_put (rt_set_heap (rt_heap w ++ [c]) w);
      let b := b_set_ctrl p b in
      err ← AddController p;
      mret (b, err)
  end end end.

(** Watch on the controller of the builder. *)
Definition ctrl_Watch (b : Builder) (src : Source) (h : EventHandler) (ps : list Predicate)
  : Go runtime (option string) :=
  match b_ctrl b with
  | None => go_panic "nil pointer dereference: ctrl"
  | Some p => on_controller p (Watch src h ps)
  end.

Fixpoint doWatches (b : Builder) (ws : list WatchesInput) : Go runtime (option string) :=
  match ws with
  | [] => mret None
  | w :: ws =>
      err ← ctrl_Watch b (wi_src w) (wi_eventhandler w) (b_globalPredicates b ++ wi_predicates w);
      match err with
      | Some err => mret (Some err)
      | None => doWatches b ws
      end
  end.

Definition doWatch (b : Builder) : Go runtime (option string) :=
  err ← match fi_object (b_forInput b) with
        | None => mret None
        | Some o =>
            i ← on_cache (GetInformer o);
            match i with
            | inr err => mret (Some err)
            | inl gvk =>
                ctrl_Watch b (Some gvk) EnqueueRequestForObject
                  (b_globalPredicates b ++ fi_predicates (b_forInput b))
            end
        end;
  match err with
  | Some err => mret (Some err)
  | None =>
      match b_watchesInput b, fi_object (b_forInput b) with
      | [], None => mret (Some "there are no watches configured, controller will never get triggered. Use For(), Owns() or Watches() to set them up")
      | ws, _ => doWatches b ws
      end
  end.

(** The pointer to the controller, or an error. *)
Definition Build (r : option Reconciler) (b : Builder) : Go runtime (option nat * option string) :=
  match r with
  | None => mret (None, Some "must provide a non-nil Reconciler")
  | Some r =>
  if negb (b_hasManager b) then mret (None, Some "must provide a non-nil Manager") else
  match fi_err (b_forInput b) with
  | Some err => mret (None, Some err)
  | None =>
  res ← doController r b;
  match res with
  | (_, Some err) => mret (None, Some err)
  | (b, None) =>
  err ← doWatch b;
  match err with
  | Some err => mret (None, Some err)
  | None => mret (b_ctrl b, None)
  end end end end.

Definition Complete (r : option Reconciler) (b : Builder) : Go runtime (option string) :=
  res ← Build r b; mret res.2.
End builder.

(** ** Properties *)
Section properties.
Context {E : Env}.

(** The handlers that the watches of a kind register, in order. *)
Definition watch_handlers (q : nat) (gvk : GroupVersionKind) (ws : list watchDescription)
  : list informerEventHandler :=
  (λ w, mkInformerEventHandler (wd_handler w) q (wd_predicates w)) <$>
    filter (λ w, wd_src w = Some gvk) ws.

Definition with_informers (f : GroupVersionKind → list informerEventHandler) (c c' : ccache) : Prop :=
  ∀ gvk, informers c' !! gvk = (λ hs, hs ++ f gvk) <$> informers c !! gvk.

Lemma Source_Start_Some gvk h q ps (w : ccache) :
  Source_Start (Some gvk) h q ps w = Done None (set_informers
    (alter (λ hs, hs ++ [mkInformerEventHandler h q ps]) gvk (informers w)) w).
Proof. done. Qed.

Lemma start_watches_ok q ws (w : ccache) :
  (∀ x, x ∈ ws → wd_src x ≠ None) →
  ∃ w', start_watches q ws w = Done None w' ∧
    w' = set_informers (informers w') w ∧
    with_informers (λ gvk, watch_handlers q gvk ws) w w'.
Proof.
  revert w. induction ws as [|x ws IH]; intros w Hws.
  { exists w. split; [done|]. split; [by destruct w|]. intros gvk. unfold watch_handlers.
    rewrite filter_nil. cbn. destruct (informers w !! gvk); cbn; by rewrite ?app_nil_r. }
  destruct (wd_src x) as [gvk0|] eqn:Hsrc; [|by destruct (Hws x); [left|]].
  cbn [start_watches]. rewrite go_bind_eq, Hsrc, Source_Start_Some. cbn beta iota.
  destruct (IH (set_informers (alter (λ hs, hs ++ [mkInformerEventHandler (wd_handler x) q
    (wd_predicates x)]) gvk0 (informers w)) w)) as (w' & Hrun & Heq & Hinf).
  { intros y Hy. apply Hws. by right. }
  exists w'. split; [done|]. split; [by rewrite Heq|]. intros gvk. rewrite Hinf.
  cbn [informers set_informers]. unfold watch_handlers.
  destruct (decide (gvk0 = gvk)) as [<-|Hne].
  - rewrite filter_cons_True by done. rewrite lookup_alter_eq.
    destruct (informers w !! gvk0); [|done]. cbn. by rewrite <- app_assoc.
  - rewrite filter_cons_False by congruence. by rewrite lookup_alter_ne.
Qed.

Lemma start_watches_app q ws ws' (w w' : ccache) :
  start_watches q ws w = Done None w' → start_watches q (ws ++ ws') w = start_watches q ws' w'.
Proof.
  revert w. induction ws as [|x ws IH]; intros w; cbn [start_watches app]; [by intros [= <-]|].
  rewrite !go_bind_eq. destruct (Source_Start _ _ _ _ w) as [[e|] w1| |]; [done| |done..]. apply IH.
Qed.

(** A controller whose watches have informers starts, with a new empty queue of
    its own; each informer then has, after the handlers it had, one for each watch
    of its kind, in the order of the watches, that feeds the new queue. *)
Theorem controller_start_registers c (w : ccache) :
  ct_started c = false → (∀ x, x ∈ ct_startWatches c → wd_src x ≠ None) →
  let q := size (handlerState w) in
  ∃ c' w', Controller_Start false true c w = Done (c', None) w' ∧
    c' = ct_set_started true (ct_set_startWatches [] (ct_set_queue (Some q) c)) ∧
    with_informers (λ gvk, watch_handlers q gvk (ct_startWatches c)) w w' ∧
    handlerState w' = <[q := []]> (handlerState w) ∧ resourceGroups w' = resourceGroups w.
Proof.
  intros Hst Hws q. unfold Controller_Start. rewrite Hst. rewrite go_bind_eq.
  change (NewRateLimitingQueue w) with
    (Done (W := ccache) q (set_handlerState (<[q := []]> (handlerState w)) w)).
  cbn beta iota. rewrite go_bind_eq.
  destruct (start_watches_ok q (ct_startWatches c) (set_handlerState (<[q := []]> (handlerState w)) w) Hws)
    as (w' & Hrun & Heq & Hinf).
  cbn [ct_startWatches ct_set_queue]. rewrite Hrun. cbn beta iota.
  do 2 eexists. split; [done|]. split; [done|]. split; [exact Hinf|]. by rewrite Heq.
Qed.

(** It makes no difference whether a watch is set up before or after the start
    of a controller: the controller and the cache end up the same. *)
Theorem watch_before_or_after_start c gvk h ps (w : ccache) :
  ct_started c = false → (∀ x, x ∈ ct_startWatches c → wd_src x ≠ None) →
  (r ← Watch (Some gvk) h ps c; Controller_Start false true r.1) w =
  (r ← Controller_Start false true c; Watch (Some gvk) h ps r.1) w.
Proof.
  intros Hst Hws. rewrite !go_bind_eq. unfold Watch at 1. rewrite Hst. cbn [negb].
  cbn [mret go_ret fst]. unfold Controller_Start. cbn [ct_started ct_set_startWatches]. rewrite Hst.
  rewrite !go_bind_eq.
  set (q := size (handlerState w)).
  change (NewRateLimitingQueue w) with
    (Done (W := ccache) q (set_handlerState (<[q := []]> (handlerState w)) w)).
  cbn beta iota. rewrite !go_bind_eq. cbn [ct_startWatches ct_set_queue ct_set_startWatches].
  set (w0 := set_handlerState _ w).
  destruct (start_watches_ok q (ct_startWatches c) w0 Hws) as (w' & Hrun & _).
  rewrite (start_watches_app _ _ _ _ w' Hrun), Hrun. cbn. by destruct c.
Qed.

(** What a worker does with an item of its queue, after the reconciliation: a
    failed one is retried with rate limiting, a result with a delay is queued again
    after it, a result that asks for it is queued again with rate limiting, any
    other one is forgotten; and the item is done in every case. *)
Theorem controller_worker_outcome c q req (w w1 : ccache) result err calls :
  ct_queue c = Some q → ct_reconciler c req w = Done (result, err) w1 →
  handlerState w1 !! q = Some calls →
  ∃ w2, processNextWorkItem c (Is req, false) w = Done true w2 ∧
    resourceGroups w2 = resourceGroups w1 ∧
    handlerState w2 = <[q := calls ++
      (match err with
       | Some _ => [QAddRateLimited (Is req)]
       | None =>
           if 0 <? res_RequeueAfter result
           then [QForget (Is req); QAddAfter (Is req) (res_RequeueAfter result)]
           else if res_Requeue result then [QAddRateLimited (Is req)] else [QForget (Is req)]
       end) ++ [QDone (Is req)]]> (handlerState w1).
Proof.
  intros Hq Hrun Hcalls. unfold processNextWorkItem, reconcileHandler.
  assert (Hop : ∀ x (v : ccache), queue_op c x v =
    Done () (set_handlerState (alter (λ l, l ++ [x]) q (handlerState v)) v)).
  { intros. unfold queue_op. by rewrite Hq. }
  rewrite go_bind_eq, go_bind_eq, Hrun. cbn beta iota.
  destruct err as [e|]; [|destruct (0 <? res_RequeueAfter result); [|destruct (res_Requeue result)]];
    rewrite ?go_bind_eq, !Hop; cbn beta iota; rewrite ?go_bind_eq, ?Hop; cbn;
    (eexists; split; [done|split; [done|]]); cbn;
    apply map_eq; intros i; (destruct (decide (i = q)) as [->|Hne];
      [by rewrite lookup_insert_eq, !lookup_alter_eq, Hcalls; cbn; rewrite <- ?app_assoc
      |by rewrite lookup_insert_ne, !lookup_alter_ne]).
Qed.

(** ** The builder *)
Definition watch_of (b : Builder) (wi : WatchesInput) : watchDescription :=
  mkWatch (wi_src wi) (wi_eventhandler wi) (b_globalPredicates b ++ wi_predicates wi).

(** A watch on a controller of the heap that is not started. *)
Lemma ctrl_Watch_unstarted b p src h ps c (w : runtime) :
  b_ctrl b = Some p → rt_heap w !! p = Some c → ct_started c = false →
  ctrl_Watch b src h ps w = Done None (rt_set_heap
    (<[p := ct_set_startWatches (ct_startWatches c ++ [mkWatch src h ps]) c]> (rt_heap w)) w).
Proof.
  intros Hb Hp Hst. unfold ctrl_Watch. rewrite Hb. unfold on_controller.
  rewrite go_bind_eq. cbn [go_get]. rewrite Hp, go_bind_eq. unfold on_cache, Watch. rewrite Hst.
  cbn. by destruct w.
Qed.

Lemma doWatches_unstarted b p ws c (w : runtime) :
  b_ctrl b = Some p → rt_heap w !! p = Some c → ct_started c = false →
  doWatches b ws w = Done None (rt_set_heap
    (<[p := ct_set_startWatches (ct_startWatches c ++ (watch_of b <$> ws)) c]> (rt_heap w)) w).
Proof.
  revert c w. induction ws as [|wi ws IH]; intros c w Hb Hp Hst; cbn [doWatches].
  { cbn. rewrite app_nil_r. rewrite list_insert_id; [by destruct w|]. by rewrite Hp; destruct c. }
  rewrite go_bind_eq, (ctrl_Watch_unstarted b p _ _ _ c) by done. cbn beta iota.
  assert (Hlt := lookup_lt_Some _ _ _ Hp).
  rewrite (IH (ct_set_startWatches (ct_startWatches c ++ [watch_of b wi]) c)); [|done| |done].
  - cbn. rewrite list_insert_insert_eq, <- app_assoc. done.
  - cbn. by apply list_lookup_insert_eq.
Qed.

Lemma GetInformerForKind_ok gvk (c : ccache) :
  ∃ c', GetInformerForKind gvk c = Done gvk c' ∧ is_Some (informers c' !! gvk).
Proof.
  unfold GetInformerForKind. rewrite go_bind_eq. cbn [go_get].
  destruct (informers c !! gvk) eqn:Hi; cbn; (eexists; split; [done|]).
  - by rewrite Hi.
  - cbn. rewrite lookup_insert_eq. by eexists.
Qed.

(** Build of a builder with For, before the manager starts, makes one controller,
    which the manager gets: named as given, else after the kind in lower case, with
    at least one worker, the given reconciler unless the options have one, and
    watching first the object's own kind, which enqueues the object itself, then
    each of Watches, all with the global predicates before their own. *)
Theorem build_configures_controller b r o gvk (w : runtime) :
  b_hasManager b = true → b_forInput b = mkForInput (Some o) (fi_predicates (b_forInput b)) None →
  scheme_GVKForObject (obj_body o) (obj_gvk o) = inl gvk → rt_started w = false →
  let name := if decide (b_name b = "") then ToLower (gvk_Kind gvk) else b_name b in
  name ≠ "" →
  ∃ w' c, Build (Some r) b w = Done (Some (length (rt_heap w)), None) w' ∧
    rt_heap w' = rt_heap w ++ [c] ∧ rt_controllers w' = rt_controllers w ++ [length (rt_heap w)] ∧
    ct_name c = name ∧ 1 <= ct_concurrency c ∧
    (1 <= opt_Concurrency (b_ctrlOptions b) → ct_concurrency c = opt_Concurrency (b_ctrlOptions b)) ∧
    ct_reconciler c = default r (opt_Reconciler (b_ctrlOptions b)) ∧ ct_started c = false ∧
    ct_startWatches c =
      mkWatch (Some gvk) EnqueueRequestForObject (b_globalPredicates b ++ fi_predicates (b_forInput b))
      :: (watch_of b <$> b_watchesInput b) ∧
    is_Some (informers (rt_cache w') !! gvk).
Proof.
  intros Hm Hfor Hg Hst name Hname. unfold Build. rewrite Hm. cbn [negb]. rewrite Hfor.
  cbn [fi_err]. set (conc := if opt_Concurrency (b_ctrlOptions b) <=? 0 then 1
    else opt_Concurrency (b_ctrlOptions b)).
  assert (Hconc : 1 <= conc).
  { unfold conc. destruct (_ <=? 0) eqn:Hle; [lia|]. apply Z.leb_gt in Hle. lia. }
  set (c0 := mkController name (default r (opt_Reconciler (b_ctrlOptions b))) conc (2 * Minute)
    None [] false).
  assert (Hdo : doController r b w = Done (b_set_ctrl (length (rt_heap w)) b, None)
    (rt_set_controllers (rt_controllers w ++ [length (rt_heap w)]) (rt_set_heap (rt_heap w ++ [c0]) w))).
  { unfold doController, for_gvk. rewrite Hfor. cbn [fi_object]. rewrite Hg.
    assert (Hn : getControllerName gvk true b = inl name).
    { unfold getControllerName, name. by destruct (decide (b_name b = "")) as [->|?];
        [|rewrite bool_decide_eq_false_2 by done]. }
    rewrite Hn. unfold New. rewrite decide_False by done. cbn [opt_Reconciler opt_Concurrency].
    fold conc. replace (conc <? 1) with false by (symmetry; apply Z.ltb_ge; lia).
    do 3 go_step. unfold AddController. go_step. cbn [rt_started rt_set_heap]. rewrite Hst. go_step. unfold c0.
    by destruct (opt_Reconciler (b_ctrlOptions b)). }
  rewrite go_bind_eq, Hdo. cbn beta iota. clear Hdo. rewrite go_bind_eq. unfold doWatch.
  set (b' := b_set_ctrl _ b). set (w1 := rt_set_controllers _ _).
  change (b_forInput b') with (b_forInput b). rewrite Hfor. cbn [fi_object fi_predicates].
  rewrite go_bind_eq, go_bind_eq. unfold on_cache at 1, GetInformer. rewrite Hg.
  destruct (GetInformerForKind_ok gvk (rt_cache w1)) as (cc & Hinf & Hsome).
  rewrite go_bind_eq, Hinf. cbn [mret go_ret].
  set (w2 := rt_set_cache cc w1).
  assert (Hp : rt_heap w2 !! length (rt_heap w) = Some c0) by apply list_lookup_middle, eq_refl.
  rewrite (ctrl_Watch_unstarted b' (length (rt_heap w)) _ _ _ c0) by done. cbn beta iota.
  assert (Hlt := lookup_lt_Some _ _ _ Hp).
  change (b_watchesInput b') with (b_watchesInput b).
  replace (match b_watchesInput b with
           | [] => doWatches b' [] | wi :: ws => doWatches b' (wi :: ws)
           end) with (doWatches b' (b_watchesInput b)) by (by destruct (b_watchesInput b)).
  erewrite doWatches_unstarted; [|done|by apply list_lookup_insert_eq|done].
  do 2 eexists. split; [done|]. cbn [rt_heap rt_set_heap]. split.
  { rewrite list_insert_insert_eq. apply list_insert_last. }
  do 3 (split; [done|]). split.
  { cbn. unfold conc. intros. destruct (_ <=? 0) eqn:Hle; [apply Z.leb_le in Hle; lia|done]. }
  do 3 (split; [done|]). exact Hsome.
Qed.
End properties.

(** ** The manager *)
Section manager_properties.
Context {E : Env}.

Lemma start_watches_started q ws (w : ccache) r w' :
  start_watches q ws w = Done r w' → started w' = started w.
Proof.
  revert w. induction ws as [|x ws IH]; intros w; cbn [start_watches]; [by intros [= _ <-]|].
  rewrite go_bind_eq. destruct (wd_src x) as [gvk|]; [|by intros [= _ <-]].
  rewrite Source_Start_Some. cbn beta iota. intros Hrun. by rewrite (IH _ Hrun).
Qed.

Lemma Controller_Start_started ctx ok c (w : ccache) r w' :
  Controller_Start ctx ok c w = Done r w' → started w' = started w.
Proof.
  unfold Controller_Start. destruct ctx; [by intros [= _ <-]|].
  destruct (ct_started c); [by intros [= _ <-]|]. rewrite go_bind_eq.
  change (NewRateLimitingQueue w) with (Done (W := ccache) (size (handlerState w))
    (set_handlerState (<[size (handlerState w) := []]> (handlerState w)) w)).
  cbn beta iota. rewrite go_bind_eq.
  destruct (start_watches _ _ _) as [e w1| |] eqn:Hrun; [|done..].
  apply start_watches_started in Hrun. cbn in Hrun. rewrite <- Hrun.
  destruct e; [by intros [= _ <-]|]. by destruct ok; intros [= _ <-].
Qed.

Lemma start_controllers_started workers ps (w : runtime) r w' :
  start_controllers workers ps w = Done r w' →
  started (rt_cache w') = started (rt_cache w) ∧ rt_started w' = rt_started w.
Proof.
  revert w. induction ps as [|p ps IH]; intros w; cbn [start_controllers]; [by intros [= _ <-]|].
  rewrite go_bind_eq. unfold on_controller at 1. go_step.
  destruct (rt_heap w !! p) as [c|]; [|done]. rewrite go_bind_eq. unfold on_cache at 1.
  destruct (Controller_Start _ _ c (rt_cache w)) as [[c' e] cc| |] eqn:Hrun; [|done..].
  apply Controller_Start_started in Hrun. go_step. cbn [snd].
  destruct e; [by intros [= _ <-]|]. intros [Hc Hs]%IH. cbn in Hc, Hs. by rewrite Hc, Hs, Hrun.
Qed.

Lemma Start_ok (c : ccache) :
  started c = false →
  Start false true true true c =
    Done None (set_started true (set_syncQueue (Some []) (set_garbageCollectorQueue (Some []) c))).
Proof. intros Hs. unfold Start. rewrite go_bind_eq. cbn [go_get]. by rewrite Hs. Qed.

(** The manager starts at most once: after a Start that got the cache started,
    whether the controllers then came up or not, every further Start fails and
    changes nothing (so one that failed on a controller cannot be retried). *)
Theorem manager_start_is_final workers workers' (gc sl sw : bool) (w : runtime) r w' :
  started (rt_cache w) = false → rt_started w = false →
  Manager_Start false true true true workers w = Done r w' →
  ∃ e, Manager_Start false gc sl sw workers' w' = Done (Some e) w'.
Proof.
  intros Hcs Hs. unfold Manager_Start at 1. rewrite go_bind_eq. cbn [go_get]. rewrite Hs.
  rewrite go_bind_eq. unfold on_cache at 1. rewrite Start_ok by done. cbn beta iota.
  rewrite go_bind_eq. intros Hrun.
  assert (Hst : started (rt_cache w') = true).
  { destruct (start_controllers workers _ _) as [e w1| |] eqn:Hctl; [|done..].
    apply start_controllers_started in Hctl as [Hc _]. cbn in Hc.
    by destruct e; go_unfold_in Hrun; simplify_eq. }
  unfold Manager_Start. rewrite go_bind_eq. cbn [go_get].
  destruct (rt_started w'); [by eexists|]. rewrite go_bind_eq. unfold on_cache, Start.
  rewrite go_bind_eq. cbn [go_get]. rewrite Hst. eexists. cbn. by destruct w'.
Qed.
End manager_properties.

(** ** A concrete run *)
Section concrete.

Definition forgetful : Reconciler := λ _, mret (mkResult false 0, None).
Definition machine_builder : Builder :=
  For (Some (new_machine "" [] [])) [] (ControllerManagedBy true).

(** Build a controller of machines and start the manager. *)
Definition built : runtime :=
  match Build (Some forgetful) machine_builder Manager_New with Done _ w => w | _ => Manager_New end.
Definition running : runtime :=
  match (_ ← Manager_Start false true true true (λ _, true); Manager_AddResourceGroup "rg") built with
  | Done _ w => w | _ => Manager_New end.

Definition the_controller : controller :=
  default (mkController "" forgetful 1 0 None [] false) (rt_heap built !! 0%nat).

Lemma build_configures_controller_witness :
  ∃ w' c, Build (Some forgetful) machine_builder Manager_New = Done (Some 0%nat, None) w' ∧
    rt_heap w' = [c] ∧ ct_name c = "cloudmachine".
Proof.
  destruct (build_configures_controller machine_builder forgetful (new_machine "" [] [])
    (cloudv1_gvk "CloudMachine") Manager_New) as (w' & c & Hrun & Hheap & _ & Hname & _);
    [reflexivity|reflexivity|reflexivity|reflexivity|discriminate|].
  exists w', c. split; [exact Hrun|]. split; [exact Hheap|exact Hname].
Defined.

Lemma controller_start_registers_witness :
  ∃ c' w', Controller_Start false true the_controller (rt_cache built) = Done (c', None) w'.
Proof.
  destruct (controller_start_registers the_controller (rt_cache built))
    as (c' & w' & Hrun & _); [reflexivity| |exact (ex_intro _ c' (ex_intro _ w' Hrun))].
  intros x [->|Hx]%elem_of_cons; [discriminate|by apply elem_of_nil in Hx].
Defined.

Lemma watch_before_or_after_start_witness :
  (r ← Watch (Some (corev1_gvk "Pod")) EnqueueRequestForObject [] the_controller;
   Controller_Start false true r.1) (rt_cache built) =
  (r ← Controller_Start false true the_controller;
   Watch (Some (corev1_gvk "Pod")) EnqueueRequestForObject [] r.1) (rt_cache built).
Proof.
  apply (watch_before_or_after_start the_controller (corev1_gvk "Pod") EnqueueRequestForObject []
    (rt_cache built)); [reflexivity|].
  intros x [->|Hx]%elem_of_cons; [discriminate|by apply elem_of_nil in Hx].
Defined.

Definition started_controller : controller := ct_set_queue (Some 0%nat) the_controller.
Definition a_request : Request := mkRequest "rg" (NN "" "foo").

Lemma controller_worker_outcome_witness :
  ∃ w2, processNextWorkItem started_controller (Is a_request, false) (rt_cache running) =
    Done true w2.
Proof.
  destruct (controller_worker_outcome started_controller 0%nat a_request (rt_cache running)
    (rt_cache running) (mkResult false 0) None []) as (w2 & Hrun & _);
    [reflexivity|reflexivity|vm_compute; reflexivity|exact (ex_intro _ w2 Hrun)].
Defined.

Lemma manager_start_is_final_witness :
  ∃ r w' e, Manager_Start false true true true (λ _, false) built = Done r w' ∧
    Manager_Start false true true true (λ _, true) w' = Done (Some e) w'.
Proof.
  destruct (Manager_Start false true true true (λ _, false) built) as [r w'| |] eqn:Hrun.
  - destruct (manager_start_is_final (λ _, false) (λ _, true) true true true built r w')
      as [e He]; [reflexivity|reflexivity|exact Hrun|].
    exists r, w', e. split; [reflexivity|exact He].
  - vm_compute in Hrun. discriminate Hrun.
  - vm_compute in Hrun. discriminate Hrun.
Defined.

(** A machine created through the client of the group reaches the controller. *)
Definition created : ccache :=
  exec (cachedClient_Create (GetResourceGroup "rg") (Some (new_machine "foo" [] []))) (rt_cache running).
Definition created_machine : Object :=
  created_object (time_Now (ticks (rt_cache running)))
    (SetGroupVersionKind (cloudv1_gvk "CloudMachine") (new_machine "foo" [] [])).

Lemma running_wf : wf_cache (rt_cache running).
Proof.
  assert (Heq : resourceGroups (rt_cache running) = {[ "rg" := mkTracker ∅ ∅ ]}) by vm_decide.
  intros rg t. rewrite Heq. intros [<- <-]%lookup_singleton_Some.
  split; [by intros gvk key obj Ht|by intros r s Hs].
Qed.

Lemma store_enqueues_requests_witness :
  handlerState created !! 0%nat = Some [QAdd (Is a_request)].
Proof.
  assert (Hrun : Create "rg" (Some (new_machine "foo" [] [])) (rt_cache running) =
    Done (Some created_machine, None) created).
  { refine (run_exec_in (Create "rg" (Some (new_machine "foo" [] []))) (rt_cache running) _ _ _).
    vm_compute. reflexivity. }
  rewrite (store_enqueues_requests "rg" (new_machine "foo" [] []) false (cloudv1_gvk "CloudMachine")
    (mkTracker ∅ ∅) (rt_cache running) created_machine created
    [mkInformerEventHandler EnqueueRequestForObject 0 []] 0 []).
  - vm_compute. reflexivity.
  - exact running_wf.
  - split; [discriminate|reflexivity|discriminate|vm_decide].
  - exact Hrun.
  - vm_compute. reflexivity.
  - by intros h ->%list_elem_of_singleton.
  - vm_compute. reflexivity.
Defined.
End concrete.
