(* ===== verification/Mux.v ===== *)
(** * The multiplexer of workload clusters: internal/server

    mux.go, listener.go and certs.go: one listener per workload cluster, on a port
    of its own, with the certificates of its API server and etcd members.  The
    certificate library, the network and the serving loop are parameters; each
    method runs as one atomic step, under the lock of the mux. *)

From stdpp Require Import prelude gmap strings list.
From Stdlib Require Import ZArith Lia.
From S2P Require Import Prelude GoStd GoTime Api.
Local Open Scope Z_scope.

(** ** Certificates and the network *)
(** certs.Config; an IP address is its text. *)
Inductive ExtKeyUsage := ExtKeyUsageServerAuth | ExtKeyUsageClientAuth.
Record AltNames := mkAltNames { an_DNSNames : list string; an_IPs : list string }.
Record certs_Config := mkCertsConfig {
  cfg_CommonName : string;
  cfg_Organization : list string;
  cfg_AltNames : AltNames;
  cfg_Usages : list ExtKeyUsage }.

(** clientcmdapi.Config: the server and authority of each cluster, the user name,
    certificate and key of each user, the cluster and user of each context. *)
Record KubeConfig := mkKubeConfig {
  kc_Clusters : list (string * (string * string));
  kc_AuthInfos : list (string * (string * (string * string)));
  kc_Contexts : list (string * (string * string));
  kc_CurrentContext : string }.

(** What the code calls in crypto/x509, crypto/tls, cluster-api's certs and net.
    The [nat] numbers the calls whose outcome is not a function of the arguments. *)
Class Net := {
  Certificate : Type;
  PrivateKey : Type;
  TLSCertificate : Type;
  NetListener : Type;
  NewPrivateKey : nat → PrivateKey + string;
  NewSignedCert : certs_Config → PrivateKey → option Certificate → option PrivateKey →
    Certificate + string;
  EncodeCertPEM : Certificate → string;
  EncodePrivateKeyPEM : PrivateKey → string;
  X509KeyPair : string → string → TLSCertificate + string;
  net_Listen : nat → string → NetListener + string;
  (** the error of ServeTLS, if it is seen before AddAPIServer returns *)
  ServeTLS_error : nat → NetListener → option string;
  ParseIP : string → string;
  rest_Config : Type;
  clientcmd_Write : KubeConfig → string + string;
  RESTConfigFromKubeConfig : string → rest_Config + string
}.

Section mux.
Context {N : Net}.

(** ** State *)
Record WorkloadClusterListener := mkListener {
  wcl_host : string;
  wcl_port : Z;
  apiServers : gset string;
  apiServerCaCertificate : option Certificate;
  apiServerCaKey : option PrivateKey;
  apiServerServingCertificate : option TLSCertificate;
  adminCertificate : option Certificate;
  adminKey : option PrivateKey;
  etcdMembers : gset string;
  etcdServingCertificates : gmap string TLSCertificate;
  wcl_listener : option NetListener }.

(** [mx_draws] counts the calls of the environment. *)
Record WorkloadClustersMux := mkMux {
  mx_host : string;
  mx_minPort : Z;
  mx_maxPort : Z;
  mx_portIndex : Z;
  workloadClusterListeners : gmap string WorkloadClusterListener;
  workloadClusterNameByHost : gmap string string;
  mx_draws : nat }.

Definition mx_set_portIndex v (m : WorkloadClustersMux) : WorkloadClustersMux :=
  mkMux (mx_host m) (mx_minPort m) (mx_maxPort m) v (workloadClusterListeners m)
    (workloadClusterNameByHost m) (mx_draws m).
Definition mx_set_listeners v (m : WorkloadClustersMux) : WorkloadClustersMux :=
  mkMux (mx_host m) (mx_minPort m) (mx_maxPort m) (mx_portIndex m) v
    (workloadClusterNameByHost m) (mx_draws m).
Definition mx_set_byHost v (m : WorkloadClustersMux) : WorkloadClustersMux :=
  mkMux (mx_host m) (mx_minPort m) (mx_maxPort m) (mx_portIndex m) (workloadClusterListeners m) v
    (mx_draws m).
Definition mx_set_draws v (m : WorkloadClustersMux) : WorkloadClustersMux :=
  mkMux (mx_host m) (mx_minPort m) (mx_maxPort m) (mx_portIndex m) (workloadClusterListeners m)
    (workloadClusterNameByHost m) v.

Definition minPort : Z := 20000.
Definition maxPort : Z := 24000.
Definition debugPort : Z := 19000.

(** NewWorkloadClustersMux: the mux; for the goroutine of its debug server see
    [debugServer_Serve]. *)
Definition NewWorkloadClustersMux (host : string) : WorkloadClustersMux :=
  mkMux host minPort maxPort minPort ∅ ∅ 0.

(** The goroutine that serves the debug server, given what net.Listen returned for its
    address: the error is ignored, and Serve panics on the nil listener.  [Some] is the
    panic, which ends the program; a failure of Serve itself is ignored. *)
Definition debugServer_Serve (l : NetListener + string) : option string :=
  match l with
  | inl _ => None
  | inr _ => Some "invalid memory address or nil pointer dereference"
  end.

(** ** listener.go *)
Definition HostPort_of (host : string) (port : Z) : string := JoinHostPort host (Itoa port).
Definition HostPort (s : WorkloadClusterListener) : string := HostPort_of (wcl_host s) (wcl_port s).
Definition Address (s : WorkloadClusterListener) : string := "https://" +:+ HostPort s.

(** RESTConfig, through clientcmd; [None] is the panic of the encoders on a nil
    certificate or key. *)
Definition RESTConfig (s : WorkloadClusterListener) : option (rest_Config + string) :=
  match apiServerCaCertificate s, adminCertificate s, adminKey s with
  | Some ca, Some cert, Some key =>
      let kubeConfig := mkKubeConfig
        [("goofy", (Address s, EncodeCertPEM ca))]
        [("goofy", ("goofy", (EncodeCertPEM cert, EncodePrivateKeyPEM key)))]
        [("goofy", ("goofy", "goofy"))] "goofy" in
      Some (match clientcmd_Write kubeConfig with
            | inr err => inr err
            | inl b => RESTConfigFromKubeConfig b
            end)
  | _, _, _ => None
  end.

(** ** certs.go *)
Definition draw {A} (f : nat → A) : Go WorkloadClustersMux A :=
  m ← go_get; _ ← go_put (mx_set_draws (S (mx_draws m)) m); mret (f (mx_draws m)).

Definition newCertAndKey (caCert : option Certificate) (caKey : option PrivateKey)
    (config : certs_Config) : Go WorkloadClustersMux ((Certificate * PrivateKey) + string) :=
  k ← draw NewPrivateKey;
  match k with
  | inr err => mret (inr ("unable to create private key: " +:+ err))
  | inl key =>
      match NewSignedCert config key caCert caKey with
      | inr err => mret (inr ("unable to create certificate: " +:+ err))
      | inl cert => mret (inl (cert, key))
      end
  end.

Definition apiServerCertificateConfig (controlPlaneIP : string) : certs_Config :=
  mkCertsConfig "kube-apiserver" []
    (mkAltNames ["localhost"] ["127.0.0.1"; "::1"; ParseIP controlPlaneIP]) [ExtKeyUsageServerAuth].
Definition adminClientCertificateConfig : certs_Config :=
  mkCertsConfig "kubernetes-admin" ["system:masters"] (mkAltNames [] []) [ExtKeyUsageClientAuth].
Definition etcdServerCertificateConfig (podName podIP : string) : certs_Config :=
  mkCertsConfig podName [] (mkAltNames ["localhost"; podName] ["127.0.0.1"; "::1"; ParseIP podIP])
    [ExtKeyUsageServerAuth; ExtKeyUsageClientAuth].

(** ** mux.go *)
(** The closure resourceGroupResolver of mixedHandler. *)
Definition resourceGroupResolver (m : WorkloadClustersMux) (host : string) : string + string :=
  match workloadClusterNameByHost m !! host with
  | None => inr ("failed to get workloadClusterListener for host " +:+ host)
  | Some wclName => inl wclName
  end.

(** Which handler mixedHandler gives a request to. *)
Inductive MixedTarget := EtcdHandler | APIHandler.
Definition mixedHandler (protoMajor : Z) (contentType : string) : MixedTarget :=
  if (protoMajor =? 2) && HasPrefix contentType "application/grpc" then EtcdHandler else APIHandler.

(** getCertificate; a certificate that is not there is a nil pointer, with no error. *)
Definition getCertificate (localAddr serverName : string) (m : WorkloadClustersMux)
  : option TLSCertificate + string :=
  match workloadClusterNameByHost m !! localAddr with
  | None => inr ("failed to get listener name for workload cluster serving on " +:+ localAddr)
  | Some wclName =>
  match workloadClusterListeners m !! wclName with
  | None => inr ("failed to get listener with name " +:+ wclName +:+
      " for workload cluster serving on " +:+ localAddr)
  | Some wcl =>
      if decide (serverName ∈ etcdMembers wcl) then inl (etcdServingCertificates wcl !! serverName)
      else inl (apiServerServingCertificate wcl)
  end end.

Definition initWorkloadClusterListenerWithPortLocked (wclName : string) (port : Z)
  : Go WorkloadClustersMux WorkloadClusterListener :=
  m ← go_get;
  let wcl := mkListener (mx_host m) port ∅ None None None None None ∅ ∅ None in
  _ ← go_put (mx_set_byHost (<[HostPort wcl := wclName]> (workloadClusterNameByHost m))
        (mx_set_listeners (<[wclName := wcl]> (workloadClusterListeners m)) m));
  mret wcl.

(** The fields of a GoofyCluster (api/v1alpha1) that the program reads or writes. *)
Record APIEndpoint := mkAPIEndpoint { ep_Host : string; ep_Port : Z }.
Record GoofyCluster := mkGoofyCluster {
  gc_Meta : ObjectMeta; gc_ControlPlaneEndpoint : APIEndpoint; gc_Ready : bool }.
Definition ResourceGroupAnnotationName : string :=
  "goofycluster.infrastructure.cluster.x-k8s.io/resourceGroup".
Definition gc_annotation (c : GoofyCluster) : option string :=
  gomap_elems (om_Annotations (gc_Meta c)) !! ResourceGroupAnnotationName.

(** The loop of HotRestart: [ports] is the set declared before it, to which nothing
    is ever added; the result is the highest port, or the error. *)
Fixpoint hotRestartLoop (ports : gset Z) (clusters : list GoofyCluster) (maxPort : Z)
  : Go WorkloadClustersMux (Z * option string) :=
  match clusters with
  | [] => mret (maxPort, None)
  | c :: clusters =>
      let ep := gc_ControlPlaneEndpoint c in
      if decide (ep_Host ep = "") then hotRestartLoop ports clusters maxPort else
      m ← go_get;
      if negb (bool_decide (ep_Host ep = mx_host m)) then
        mret (maxPort, Some ("unable to restart the WorkloadClustersMux, the host address is changed from "
          +:+ ep_Host ep +:+ " to " +:+ mx_host m))
      else if decide (ep_Port ep ∈ ports) then
        mret (maxPort, Some ("unable to restart the WorkloadClustersMux, there are two or more clusters using port "
          +:+ Itoa (ep_Port ep)))
      else
      match gc_annotation c with
      | None => mret (maxPort, Some ("unable to restart the WorkloadClustersMux, cluster " +:+
          om_Namespace (gc_Meta c) +:+ "/" +:+ om_Name (gc_Meta c) +:+ " doesn't have the " +:+
          ResourceGroupAnnotationName +:+ " annotation"))
      | Some resourceGroup =>
          _ ← initWorkloadClusterListenerWithPortLocked resourceGroup (ep_Port ep);
          hotRestartLoop ports clusters (if maxPort <? ep_Port ep then ep_Port ep else maxPort)
      end
  end.

Definition HotRestart (clusters : list GoofyCluster) : Go WorkloadClustersMux (option string) :=
  match clusters with
  | [] => mret None
  | _ =>
  m ← go_get;
  if negb (bool_decide (workloadClusterListeners m = ∅)) then
    mret (Some "WorkloadClustersMux cannot be hot restarted when there are already initialized listeners")
  else
  r ← hotRestartLoop ∅ clusters (mx_minPort m - 1);
  match r with
  | (_, Some err) => mret (Some err)
  | (maxPort, None) => _ ← go_modify (mx_set_portIndex (wrap_int (maxPort + 1))); mret None
  end end.

(** getFreePortLocked: the port, or the error. *)
Definition getFreePortLocked : Go WorkloadClustersMux (Z + string) :=
  m ← go_get;
  let port := mx_portIndex m in
  if mx_maxPort m <? port then
    mret (inr ("no more free ports in the " +:+ Itoa (mx_minPort m) +:+ "-" +:+
      Itoa (mx_maxPort m) +:+ " range"))
  else _ ← go_put (mx_set_portIndex (wrap_int (mx_portIndex m + 1)) m); mret (inl port).

Definition InitWorkloadClusterListener (wclName : string)
  : Go WorkloadClustersMux (WorkloadClusterListener + string) :=
  m ← go_get;
  match workloadClusterListeners m !! wclName with
  | Some wcl => mret (inl wcl)
  | None =>
      p ← getFreePortLocked;
      match p with
      | inr err => mret (inr err)
      | inl port => wcl ← initWorkloadClusterListenerWithPortLocked wclName port; mret (inl wcl)
      end
  end.

(** Assignments through the pointer to a listener. *)
Definition put_listener (wclName : string) (wcl : WorkloadClusterListener) : Go WorkloadClustersMux () :=
  go_modify (λ m, mx_set_listeners (<[wclName := wcl]> (workloadClusterListeners m)) m).

Definition wcl_addAPIServer podName caCert caKey (w : WorkloadClusterListener) :=
  mkListener (wcl_host w) (wcl_port w) ({[podName]} ∪ apiServers w) caCert caKey
    (apiServerServingCertificate w) (adminCertificate w) (adminKey w) (etcdMembers w)
    (etcdServingCertificates w) (wcl_listener w).
Definition wcl_setServing v (w : WorkloadClusterListener) :=
  mkListener (wcl_host w) (wcl_port w) (apiServers w) (apiServerCaCertificate w) (apiServerCaKey w)
    v (adminCertificate w) (adminKey w) (etcdMembers w) (etcdServingCertificates w) (wcl_listener w).
Definition wcl_setAdmin cert key (w : WorkloadClusterListener) :=
  mkListener (wcl_host w) (wcl_port w) (apiServers w) (apiServerCaCertificate w) (apiServerCaKey w)
    (apiServerServingCertificate w) cert key (etcdMembers w) (etcdServingCertificates w) (wcl_listener w).
Definition wcl_setListener v (w : WorkloadClusterListener) :=
  mkListener (wcl_host w) (wcl_port w) (apiServers w) (apiServerCaCertificate w) (apiServerCaKey w)
    (apiServerServingCertificate w) (adminCertificate w) (adminKey w) (etcdMembers w)
    (etcdServingCertificates w) v.
Definition wcl_addEtcd podName (w : WorkloadClusterListener) :=
  mkListener (wcl_host w) (wcl_port w) (apiServers w) (apiServerCaCertificate w) (apiServerCaKey w)
    (apiServerServingCertificate w) (adminCertificate w) (adminKey w) ({[podName]} ∪ etcdMembers w)
    (etcdServingCertificates w) (wcl_listener w).
Definition wcl_setEtcdCert podName v (w : WorkloadClusterListener) :=
  mkListener (wcl_host w) (wcl_port w) (apiServers w) (apiServerCaCertificate w) (apiServerCaKey w)
    (apiServerServingCertificate w) (adminCertificate w) (adminKey w) (etcdMembers w)
    (<[podName := v]> (etcdServingCertificates w)) (wcl_listener w).

(** A step of AddAPIServer or AddEtcdMember on the listener: its new value, or the
    error it stops with. *)
Definition ListenerStep : Type :=
  WorkloadClusterListener → Go WorkloadClustersMux (WorkloadClusterListener * option string).

(** tls.X509KeyPair of a new certificate. *)
Definition newServingCertificate (caCert : option Certificate) (caKey : option PrivateKey)
    (config : certs_Config) (what podName : string) : Go WorkloadClustersMux (TLSCertificate + string) :=
  ck ← newCertAndKey caCert caKey config;
  match ck with
  | inr err => mret (inr ("failed to create serving certificate for " +:+ what +:+ " " +:+ podName
      +:+ ": " +:+ err))
  | inl (cert, key) =>
      match X509KeyPair (EncodeCertPEM cert) (EncodePrivateKeyPEM key) with
      | inr err => mret (inr ("failed to create X509KeyPair for " +:+ what +:+ " " +:+ podName
          +:+ ": " +:+ err))
      | inl certificate => mret (inl certificate)
      end
  end.

Definition addServingCertificate podName caCert caKey : ListenerStep := λ wcl,
  match apiServerServingCertificate wcl with
  | Some _ => mret (wcl, None)
  | None =>
      c ← newServingCertificate caCert caKey (apiServerCertificateConfig (wcl_host wcl))
            "API server" podName;
      match c with
      | inr err => mret (wcl, Some err)
      | inl certificate => mret (wcl_setServing (Some certificate) wcl, None)
      end
  end.

Definition addAdminCertificate (podName : string) caCert caKey : ListenerStep := λ wcl,
  match adminCertificate wcl with
  | Some _ => mret (wcl, None)
  | None =>
      ck ← newCertAndKey caCert caKey adminClientCertificateConfig;
      match ck with
      | inr err => mret (wcl, Some ("failed to create admin certificate for API server " +:+ podName
          +:+ ": " +:+ err))
      | inl (cert, key) => mret (wcl_setAdmin (Some cert) (Some key) wcl, None)
      end
  end.

Definition startListener (wclName : string) : ListenerStep := λ wcl,
  match wcl_listener wcl with
  | Some _ => mret (wcl, None)
  | None =>
      l ← draw (λ n, net_Listen n (HostPort wcl));
      match l with
      | inr err => mret (wcl, Some ("failed to start WorkloadClusterListener " +:+ wclName +:+ ", "
          +:+ HostPort wcl +:+ ": " +:+ err))
      | inl l =>
          startErr ← draw (λ n, ServeTLS_error n l);
          mret (wcl_setListener (Some l) wcl, startErr)
      end
  end.

(** One step after the other, up to the first error. *)
Definition andThen (s1 s2 : ListenerStep) : ListenerStep := λ wcl,
  r ← s1 wcl;
  match r with
  | (wcl, Some err) => mret (wcl, Some err)
  | (wcl, None) => s2 wcl
  end.

Definition AddAPIServer (wclName podName : string) (caCert : option Certificate)
    (caKey : option PrivateKey) : Go WorkloadClustersMux (option string) :=
  m ← go_get;
  match workloadClusterListeners m !! wclName with
  | None => mret (Some ("workloadClusterListener with name " +:+ wclName +:+
      " must be initialized before adding an APIserver"))
  | Some wcl =>
      let wcl := wcl_addAPIServer podName caCert caKey wcl in
      r ← andThen (addServingCertificate podName caCert caKey)
            (andThen (addAdminCertificate podName caCert caKey) (startListener wclName)) wcl;
      _ ← put_listener wclName r.1;
      mret r.2
  end.

Definition HasAPIServer (wclName podName : string) (m : WorkloadClustersMux) : bool :=
  match workloadClusterListeners m !! wclName with
  | None => false
  | Some wcl => bool_decide (podName ∈ apiServers wcl)
  end.

Definition addEtcdCertificate podName caCert caKey : ListenerStep := λ wcl,
  match etcdServingCertificates wcl !! podName with
  | Some _ => mret (wcl, None)
  | None =>
      c ← newServingCertificate caCert caKey (etcdServerCertificateConfig podName (wcl_host wcl))
            "etcd member" podName;
      match c with
      | inr err => mret (wcl, Some err)
      | inl certificate => mret (wcl_setEtcdCert podName certificate wcl, None)
      end
  end.

Definition AddEtcdMember (wclName podName : string) (caCert : option Certificate)
    (caKey : option PrivateKey) : Go WorkloadClustersMux (option string) :=
  m ← go_get;
  match workloadClusterListeners m !! wclName with
  | None => mret (Some ("workloadClusterListener with name " +:+ wclName +:+
      " must be initialized before adding an APIserver"))
  | Some wcl =>
      r ← addEtcdCertificate podName caCert caKey (wcl_addEtcd podName wcl);
      _ ← put_listener wclName r.1;
      mret r.2
  end.

Definition HasEtcdMember (wclName podName : string) (m : WorkloadClustersMux) : bool :=
  match workloadClusterListeners m !! wclName with
  | None => false
  | Some wcl => bool_decide (podName ∈ etcdMembers wcl)
  end.

Definition ListListeners (m : WorkloadClustersMux) : gmap string string :=
  Address <$> workloadClusterListeners m.

(** Shutdown, given what the shutdowns of the two servers return. *)
Definition Shutdown (debugErr muxErr : option string) : option string :=
  match debugErr with
  | Some err => Some ("failed to shutdown the debug server: " +:+ err)
  | None =>
      match muxErr with
      | Some err => Some ("failed to shutdown the mux server: " +:+ err)
      | None => None
      end
  end.
End mux.
