(* ===== verification/MuxFacts.v ===== *)
(** * Properties of the multiplexer

    The invariant that each workload cluster has a port of its own and is found
    under it, what the calls that add servers do, the loop of a hot restart, and the
    mux as a transition system of these calls and hot restarts. *)

From stdpp Require Import prelude gmap strings list relations.
From Stdlib Require Import ZArith Lia.
From S2P Require Import Prelude GoStd GoTime Api Runtime Cache TestEnv Mux.
Local Open Scope Z_scope.

Section facts.
Context {N : Net}.
Implicit Types m : WorkloadClustersMux.
Implicit Types w : WorkloadClusterListener.

(** ** The invariant *)
Record mux_ok m : Prop := {
  ok_listener : ∀ n w, workloadClusterListeners m !! n = Some w →
    wcl_host w = mx_host m ∧ wcl_port w < mx_portIndex m;
  ok_unique : ∀ n1 n2 w1 w2, workloadClusterListeners m !! n1 = Some w1 →
    workloadClusterListeners m !! n2 = Some w2 → wcl_port w1 = wcl_port w2 → n1 = n2;
  ok_byHost : ∀ h n, workloadClusterNameByHost m !! h = Some n ↔
    ∃ w, workloadClusterListeners m !! n = Some w ∧ HostPort w = h;
  ok_range : int_min <= mx_portIndex m ∧ mx_maxPort m < int_max }.

Lemma HostPort_of_inj host p q : HostPort_of host p = HostPort_of host q → p = q.
Proof. unfold HostPort_of. by intros ?%JoinHostPort_inj%Itoa_inj. Qed.

Lemma NewWorkloadClustersMux_ok host : mux_ok (NewWorkloadClustersMux host).
Proof.
  split.
  - by intros n w Hw.
  - by intros n1 n2 w1 w2 Hw.
  - intros h n. split; [by intros Hh|]. by intros (w & Hw & _).
  - unfold NewWorkloadClustersMux, minPort, maxPort, int_min, int_max. cbn. lia.
Qed.

(** A new listener on a port that is not used yet. *)
Definition new_listener (port : Z) m : WorkloadClusterListener :=
  mkListener (mx_host m) port ∅ None None None None None ∅ ∅ None.
Definition with_listener (n : string) (port : Z) m : WorkloadClustersMux :=
  let wcl := new_listener port m in
  mx_set_byHost (<[HostPort wcl := n]> (workloadClusterNameByHost m))
    (mx_set_listeners (<[n := wcl]> (workloadClusterListeners m)) m).

Lemma initWithPort_eq n port m :
  initWorkloadClusterListenerWithPortLocked n port m =
    Done (new_listener port m) (with_listener n port m).
Proof. done. Qed.

Lemma with_listener_ok n port m :
  mux_ok m → workloadClusterListeners m !! n = None → port < mx_portIndex m →
  (∀ n' w, workloadClusterListeners m !! n' = Some w → wcl_port w ≠ port) →
  mux_ok (with_listener n port m).
Proof.
  intros [Hl Hu Hb Hr] Hnew Hlt Hfree. split; [..|exact Hr].
  - intros n' w. cbn. intros [[<- <-]|[_ ?]]%lookup_insert_Some; [done|by eapply Hl].
  - intros n1 n2 w1 w2. cbn. rewrite !lookup_insert_Some.
    intros [[<- <-]|[? H1]] [[<- <-]|[? H2]] Heq; cbn in Heq; try done; [..|by eapply Hu].
    + by apply (Hfree n2 w2) in H2.
    + by apply (Hfree n1 w1) in H1.
  - intros h n'. cbn. rewrite lookup_insert_Some. split.
    + intros [[<- <-]|[Hne Hh]].
      * eexists. by rewrite lookup_insert_eq.
      * apply Hb in Hh as (w & Hw & Hhw). exists w. rewrite lookup_insert_ne; [done|].
        intros ->. congruence.
    + intros (w & [[<- <-]|[Hne Hw]]%lookup_insert_Some & <-); [by left|]. right.
      split; [|apply Hb; by exists w]. intros Heq. apply (Hfree n' w Hw).
      destruct (Hl n' w Hw) as [Hhost _]. unfold HostPort in Heq. rewrite Hhost in Heq. symmetry.
      by apply HostPort_of_inj in Heq.
Qed.

(** Changing a listener but its address keeps the invariant. *)
Definition same_address w w' : Prop := wcl_host w' = wcl_host w ∧ wcl_port w' = wcl_port w.

Lemma set_listener_ok n w w' m :
  mux_ok m → workloadClusterListeners m !! n = Some w → same_address w w' →
  mux_ok (mx_set_listeners (<[n := w']> (workloadClusterListeners m)) m).
Proof.
  intros [Hl Hu Hb Hr] Hw [Hhost Hport]. split; [..|exact Hr].
  - intros n' v. cbn. intros [[<- <-]|[_ ?]]%lookup_insert_Some; [|by eapply Hl].
    rewrite Hhost, Hport. by eapply Hl.
  - intros n1 n2 w1 w2. cbn. rewrite !lookup_insert_Some.
    intros [[<- <-]|[? H1]] [[<- <-]|[? H2]] Heq; try done; rewrite ?Hport in Heq; by eapply Hu.
  - intros h n'. cbn. rewrite Hb. split.
    + intros (v & Hv & Hh). destruct (decide (n = n')) as [<-|Hne].
      * exists w'. rewrite lookup_insert_eq. split; [done|]. unfold HostPort.
        rewrite Hhost, Hport. by simplify_eq.
      * exists v. by rewrite lookup_insert_ne.
    + intros (v & [[<- <-]|[_ Hv]]%lookup_insert_Some & Hh); [|by exists v].
      exists w. split; [done|]. unfold HostPort in Hh. by rewrite Hhost, Hport in Hh.
Qed.

Lemma mux_ok_draws k m : mux_ok m → mux_ok (mx_set_draws k m).
Proof. by intros [? ? ? ?]. Qed.

(** ** InitWorkloadClusterListener *)
Inductive init_outcome n m : WorkloadClusterListener + string → WorkloadClustersMux → Prop :=
| init_known w : workloadClusterListeners m !! n = Some w → init_outcome n m (inl w) m
| init_full err : workloadClusterListeners m !! n = None → mx_maxPort m < mx_portIndex m →
    init_outcome n m (inr err) m
| init_new : workloadClusterListeners m !! n = None → mx_portIndex m <= mx_maxPort m →
    init_outcome n m (inl (new_listener (mx_portIndex m) m))
      (with_listener n (mx_portIndex m) (mx_set_portIndex (wrap_int (mx_portIndex m + 1)) m)).

Lemma InitWorkloadClusterListener_outcome n m :
  ∃ r m', InitWorkloadClusterListener n m = Done r m' ∧ init_outcome n m r m'.
Proof.
  unfold InitWorkloadClusterListener. rewrite go_bind_eq. cbn [go_get].
  destruct (workloadClusterListeners m !! n) as [w|] eqn:Hn.
  { do 2 eexists. split; [done|]. by constructor. }
  rewrite go_bind_eq. unfold getFreePortLocked. rewrite go_bind_eq. cbn [go_get].
  destruct (mx_maxPort m <? mx_portIndex m) eqn:Hfull.
  { do 2 eexists. split; [done|]. constructor; [done|]. by apply Z.ltb_lt. }
  apply Z.ltb_ge in Hfull. rewrite go_bind_eq. cbn [go_put mret go_ret].
  rewrite go_bind_eq, initWithPort_eq. do 2 eexists. split; [done|]. exact (init_new n m Hn Hfull).
Qed.

Lemma wrap_portIndex m : mux_ok m → mx_portIndex m <= mx_maxPort m →
  wrap_int (mx_portIndex m + 1) = mx_portIndex m + 1.
Proof.
  intros [_ _ _ [Hr Hr']] Hle. apply wrap_int_id. unfold is_int, int_min, int_max in *. lia.
Qed.

Lemma init_outcome_ok n m r m' : mux_ok m → init_outcome n m r m' → mux_ok m'.
Proof.
  intros Hok [w Hn|err Hn Hfull|Hn Hle]; [done..|].
  rewrite wrap_portIndex by done. apply with_listener_ok; cbn; [|done|lia|].
  - destruct Hok as [Hl Hu Hb Hr]. split; [..|exact Hu|exact Hb|].
    + intros n' w' Hw'. cbn. destruct (Hl n' w' Hw') as [? ?]. split; [done|lia].
    + cbn. lia.
  - intros n' w' Hw'. destruct (ok_listener _ Hok n' w' Hw'). lia.
Qed.

(** ** The steps of AddAPIServer and AddEtcdMember *)
(** Nothing that a listener has goes away. *)
Definition keeps_Some {A} (a b : option A) : Prop := is_Some a → b = a.
Record grows w w' : Prop := {
  gr_address : same_address w w';
  gr_apiServers : apiServers w' = apiServers w;
  gr_etcdMembers : etcdMembers w' = etcdMembers w;
  gr_ca : apiServerCaCertificate w' = apiServerCaCertificate w ∧ apiServerCaKey w' = apiServerCaKey w;
  gr_serving : keeps_Some (apiServerServingCertificate w) (apiServerServingCertificate w');
  gr_admin : keeps_Some (adminCertificate w) (adminCertificate w') ∧
    (is_Some (adminCertificate w) → adminKey w' = adminKey w);
  gr_etcd : etcdServingCertificates w' = etcdServingCertificates w;
  gr_listener : keeps_Some (wcl_listener w) (wcl_listener w') }.

#[local] Instance grows_preorder : PreOrder grows.
Proof.
  unfold same_address, keeps_Some. split; [by intros w; split|].
  intros w1 w2 w3 [[? ?] ? ? [? ?] Hs [Ha Hk] He Hl] [[? ?] ? ? [? ?] Hs' [Ha' Hk'] He' Hl'].
  split; try (split; congruence); try congruence.
  - intros Hi. rewrite <- (Hs Hi). apply Hs'. by rewrite (Hs Hi).
  - split; [intros Hi; rewrite <- (Ha Hi); apply Ha'; by rewrite (Ha Hi)|].
    intros Hi. rewrite <- (Hk Hi). apply Hk'. by rewrite (Ha Hi).
  - intros Hi. rewrite <- (Hl Hi). apply Hl'. by rewrite (Hl Hi).
Qed.

(** A step returns, draws at most, lets the listener grow, and without an error
    reaches its goal. *)
Definition step_ok (s : ListenerStep) (goal : WorkloadClusterListener → Prop) : Prop :=
  ∀ w m, ∃ w' e k, s w m = Done (w', e) (mx_set_draws k m) ∧ grows w w' ∧ (e = None → goal w').

Lemma mx_set_draws_id m : mx_set_draws (mx_draws m) m = m.
Proof. by destruct m. Qed.

Lemma draw_eq {A} (f : nat → A) m :
  draw f m = Done (f (mx_draws m)) (mx_set_draws (S (mx_draws m)) m).
Proof. done. Qed.

Lemma newCertAndKey_eq ca key cfg m :
  ∃ r k, newCertAndKey ca key cfg m = Done r (mx_set_draws k m).
Proof.
  unfold newCertAndKey. rewrite go_bind_eq, draw_eq.
  destruct (NewPrivateKey (mx_draws m)) as [k|]; [destruct (NewSignedCert cfg k ca key)|];
    eexists _, (S (mx_draws m)); reflexivity.
Qed.

(** A serving certificate of a configuration: it is signed by the CA, with the private
    key drawn in that state. *)
Definition serving_certificate m (ca : option Certificate) (key : option PrivateKey) (cfg : certs_Config)
    (certificate : TLSCertificate) : Prop :=
  ∃ k cert, NewPrivateKey (mx_draws m) = inl k ∧ NewSignedCert cfg k ca key = inl cert ∧
    X509KeyPair (EncodeCertPEM cert) (EncodePrivateKeyPEM k) = inl certificate.

Lemma newServingCertificate_eq ca key cfg what p m :
  ∃ r k, newServingCertificate ca key cfg what p m = Done r (mx_set_draws k m) ∧
    ∀ c, r = inl c → serving_certificate m ca key cfg c.
Proof.
  unfold newServingCertificate, newCertAndKey. rewrite !go_bind_eq, draw_eq.
  destruct (NewPrivateKey (mx_draws m)) as [k|] eqn:Hk; [|by eexists _, (S (mx_draws m))].
  destruct (NewSignedCert cfg k ca key) as [cert|] eqn:Hs; [|by eexists _, (S (mx_draws m))].
  cbn [mret go_ret]. destruct (X509KeyPair _ _) as [c|] eqn:Hx; [|by eexists _, (S (mx_draws m))].
  eexists (inl c), (S (mx_draws m)). split; [done|]. intros ? [= <-]. by exists k, cert.
Qed.

Lemma andThen_ok s1 s2 g1 g2 :
  step_ok s1 g1 → step_ok s2 g2 → (∀ w w', grows w w' → g1 w → g1 w') →
  step_ok (andThen s1 s2) (λ w, g1 w ∧ g2 w).
Proof.
  intros H1 H2 Hmono w m. destruct (H1 w m) as (w1 & e1 & k1 & Hr1 & Hg1 & Hgoal1).
  unfold andThen. rewrite go_bind_eq, Hr1. destruct e1 as [e1|]; [by exists w1, (Some e1), k1|].
  destruct (H2 w1 (mx_set_draws k1 m)) as (w2 & e2 & k2 & Hr2 & Hg2 & Hgoal2).
  exists w2, e2, k2. split; [exact Hr2|]. split; [by etrans|]. intros He. split; [|by apply Hgoal2].
  eapply Hmono; [done|]. by apply Hgoal1.
Qed.

Lemma step_nop w m (goal : WorkloadClusterListener → Prop) : goal w →
  ∃ w' (e : option string) k, Done (w, None) m = Done (W := WorkloadClustersMux) (w', e) (mx_set_draws k m) ∧
    grows w w' ∧ (e = None → goal w').
Proof. intros Hg. exists w, None, (mx_draws m). by rewrite mx_set_draws_id. Qed.

Lemma addServingCertificate_ok p ca key :
  step_ok (addServingCertificate p ca key) (λ w, is_Some (apiServerServingCertificate w)).
Proof.
  intros w m. unfold addServingCertificate. destruct (apiServerServingCertificate w) eqn:Hc.
  { apply step_nop. by rewrite Hc. }
  rewrite go_bind_eq.
  edestruct newServingCertificate_eq as (r & k & -> & _). destruct r as [c|e].
  - exists (wcl_setServing (Some c) w), None, k. split; [done|]. split; [|by eexists].
    split; try done; [|by split..]. rewrite Hc. by intros [].
  - exists w, (Some e), k. by split.
Qed.

Lemma addAdminCertificate_ok p ca key :
  step_ok (addAdminCertificate p ca key) (λ w, is_Some (adminCertificate w)).
Proof.
  intros w m. unfold addAdminCertificate. destruct (adminCertificate w) eqn:Hc.
  { apply step_nop. by rewrite Hc. }
  rewrite go_bind_eq. edestruct newCertAndKey_eq as (r & k & ->). destruct r as [[c ky]|e].
  - exists (wcl_setAdmin (Some c) (Some ky) w), None, k. split; [done|]. split; [|by eexists].
    split; try done; [by split..|]. rewrite Hc. split; by intros [].
  - eexists w, (Some _), k. by split.
Qed.

Lemma startListener_ok n : step_ok (startListener n) (λ w, is_Some (wcl_listener w)).
Proof.
  intros w m. unfold startListener. destruct (wcl_listener w) eqn:Hc.
  { apply step_nop. by rewrite Hc. }
  rewrite go_bind_eq, draw_eq. destruct (net_Listen (mx_draws m) (HostPort w)) as [l|e].
  - rewrite go_bind_eq, draw_eq. eexists (wcl_setListener (Some l) w), _, _. split; [done|].
    split; [|by eexists]. split; try done; [by split..|]. rewrite Hc. by intros [].
  - eexists w, (Some _), _. by split.
Qed.

(** What AddAPIServer leaves. *)
Record server_added w w' p ca key : Prop := {
  sa_address : same_address w w';
  sa_apiServers : apiServers w' = {[p]} ∪ apiServers w;
  sa_etcdMembers : etcdMembers w' = etcdMembers w;
  sa_ca : apiServerCaCertificate w' = ca ∧ apiServerCaKey w' = key;
  sa_serving : keeps_Some (apiServerServingCertificate w) (apiServerServingCertificate w');
  sa_admin : keeps_Some (adminCertificate w) (adminCertificate w');
  sa_listener : keeps_Some (wcl_listener w) (wcl_listener w');
  sa_etcd : etcdServingCertificates w' = etcdServingCertificates w }.

Lemma AddAPIServer_outcome n p ca key w m :
  workloadClusterListeners m !! n = Some w →
  ∃ w' e k, AddAPIServer n p ca key m = Done e
      (mx_set_listeners (<[n := w']> (workloadClusterListeners m)) (mx_set_draws k m)) ∧
    server_added w w' p ca key ∧
    (e = None → is_Some (apiServerServingCertificate w') ∧ is_Some (adminCertificate w') ∧
       is_Some (wcl_listener w')).
Proof.
  intros Hw. unfold AddAPIServer. rewrite go_bind_eq. cbn [go_get]. rewrite Hw, go_bind_eq.
  assert (Hsteps : step_ok (andThen (addServingCertificate p ca key)
    (andThen (addAdminCertificate p ca key) (startListener n)))
    (λ w, is_Some (apiServerServingCertificate w) ∧ is_Some (adminCertificate w) ∧
       is_Some (wcl_listener w))).
  { apply andThen_ok; [apply addServingCertificate_ok| |].
    - apply andThen_ok; [apply addAdminCertificate_ok|apply startListener_ok|].
      intros w1 w2 [_ _ _ _ _ [Ha _] _ _] Hi. by rewrite (Ha Hi).
    - intros w1 w2 [_ _ _ _ Hs _ _ _] Hi. by rewrite (Hs Hi). }
  destruct (Hsteps (wcl_addAPIServer p ca key w) m) as (w' & e & k & -> & Hg & Hgoal).
  exists w', e, k. split; [done|]. split; [|done].
  destruct Hg as [? ? ? [? ?] ? [? _] ? ?]. by split.
Qed.

Lemma AddEtcdMember_outcome n p ca key w m :
  workloadClusterListeners m !! n = Some w →
  ∃ w' e k, AddEtcdMember n p ca key m = Done e
      (mx_set_listeners (<[n := w']> (workloadClusterListeners m)) (mx_set_draws k m)) ∧
    same_address w w' ∧ etcdMembers w' = {[p]} ∪ etcdMembers w ∧ apiServers w' = apiServers w ∧
    apiServerServingCertificate w' = apiServerServingCertificate w ∧
    (∀ q, q ≠ p → etcdServingCertificates w' !! q = etcdServingCertificates w !! q) ∧
    (is_Some e → etcdServingCertificates w' = etcdServingCertificates w) ∧
    (e = None → ∃ cert, etcdServingCertificates w' !! p = Some cert ∧
       match etcdServingCertificates w !! p with
       | Some old => cert = old
       | None => serving_certificate m ca key (etcdServerCertificateConfig p (wcl_host w)) cert
       end) ∧
    wcl_listener w' = wcl_listener w.
Proof.
  intros Hw. unfold AddEtcdMember. rewrite go_bind_eq. cbn [go_get]. rewrite Hw, go_bind_eq.
  unfold addEtcdCertificate. change (etcdServingCertificates (wcl_addEtcd p w) !! p)
    with (etcdServingCertificates w !! p).
  destruct (etcdServingCertificates w !! p) eqn:Hc.
  { eexists (wcl_addEtcd p w), None, (mx_draws m). rewrite mx_set_draws_id.
    do 6 (split; [done|]). split; [by intros []|]. split; [|done]. intros _. by eexists. }
  rewrite go_bind_eq. edestruct newServingCertificate_eq as (r & k & -> & Hnew). destruct r as [c|e].
  - exists (wcl_setEtcdCert p c (wcl_addEtcd p w)), None, k. do 5 (split; [done|]). split.
    + intros q Hq. cbn. by rewrite lookup_insert_ne.
    + split; [by intros []|]. split; [|done]. intros _. exists c. cbn. rewrite lookup_insert_eq.
      split; [done|]. by apply Hnew.
  - exists (wcl_addEtcd p w), (Some e), k. by do 8 (split; [done|]).
Qed.

(** ** The start of a listener *)
(** The listener of a cluster was started: net.Listen gave it for the address of the
    cluster, and ServeTLS on it reported no error. *)
Definition serving w : Prop :=
  ∃ l i j, wcl_listener w = Some l ∧ net_Listen i (HostPort w) = inl l ∧ ServeTLS_error j l = None.

(** A step that leaves the listener of the network as it is. *)
Definition quiet (s : ListenerStep) : Prop :=
  ∀ w m, ∃ w' e k, s w m = Done (w', e) (mx_set_draws k m) ∧ wcl_listener w' = wcl_listener w.

Lemma quiet_steps p ca key : quiet (addServingCertificate p ca key) ∧ quiet (addAdminCertificate p ca key).
Proof.
  split; intros w m.
  - unfold addServingCertificate. destruct (apiServerServingCertificate w).
    { exists w, None, (mx_draws m). by rewrite mx_set_draws_id. }
    rewrite go_bind_eq. edestruct newServingCertificate_eq as (r & k & -> & _).
    destruct r; do 2 eexists; exists k; by split.
  - unfold addAdminCertificate. destruct (adminCertificate w).
    { exists w, None, (mx_draws m). by rewrite mx_set_draws_id. }
    rewrite go_bind_eq. edestruct newCertAndKey_eq as (r & k & ->).
    destruct r as [[]|]; do 2 eexists; exists k; by split.
Qed.

Lemma startListener_serving n w m w' m' :
  wcl_listener w = None → startListener n w m = Done (w', None) m' → serving w'.
Proof.
  intros Hnone. unfold startListener. rewrite Hnone, go_bind_eq, draw_eq.
  destruct (net_Listen (mx_draws m) (HostPort w)) as [l|e] eqn:Hl; [|done].
  rewrite go_bind_eq, draw_eq. destruct (ServeTLS_error _ l) eqn:Hs; [done|].
  intros [= <- <-]. exists l, (mx_draws m). eexists. split; [done|]. by split.
Qed.

(** The first API server of a cluster starts its listener, unless there is an error. *)
Lemma AddAPIServer_serving n p ca key w m m' :
  workloadClusterListeners m !! n = Some w → wcl_listener w = None →
  AddAPIServer n p ca key m = Done None m' →
  ∃ w', workloadClusterListeners m' !! n = Some w' ∧ serving w'.
Proof.
  intros Hw Hnone. unfold AddAPIServer. rewrite go_bind_eq. cbn [go_get]. rewrite Hw, go_bind_eq.
  destruct (quiet_steps p ca key) as [Hq1 Hq2]. unfold andThen. rewrite go_bind_eq.
  destruct (Hq1 (wcl_addAPIServer p ca key w) m) as (w1 & e1 & k1 & -> & Hl1).
  destruct e1; [by intros [=]|]. rewrite go_bind_eq.
  destruct (Hq2 w1 (mx_set_draws k1 m)) as (w2 & e2 & k2 & -> & Hl2). destruct e2; [by intros [=]|].
  assert (Hl : wcl_listener w2 = None) by (rewrite Hl2, Hl1; exact Hnone).
  destruct (startListener n w2 (mx_set_draws k2 (mx_set_draws k1 m))) as [[w3 e3] m3| |] eqn:Hrun; [|done..].
  intros [= -> <-]. exists w3. split; [apply lookup_insert_eq|]. by eapply startListener_serving.
Qed.
End facts.

(** ** The loop of HotRestart *)
Section restart.
Context {N : Net}.
Implicit Types m : WorkloadClustersMux.

Definition hr_host (c : GoofyCluster) : string := ep_Host (gc_ControlPlaneEndpoint c).
Definition hr_port (c : GoofyCluster) : Z := ep_Port (gc_ControlPlaneEndpoint c).

(** The clusters HotRestart does not skip. *)
Definition restored (clusters : list GoofyCluster) : list GoofyCluster :=
  filter (λ c, hr_host c ≠ "") clusters.

Lemma restored_cons c clusters :
  restored (c :: clusters) = if decide (hr_host c = "") then restored clusters else c :: restored clusters.
Proof. unfold restored. rewrite filter_cons. by repeat case_decide. Qed.

Lemma restored_all clusters : (∀ c, c ∈ clusters → hr_host c ≠ "") → restored clusters = clusters.
Proof.
  induction clusters as [|c clusters IH]; intros Hall; [done|]. rewrite restored_cons.
  rewrite decide_False by (apply Hall; by left). f_equal. apply IH. intros d Hd. apply Hall. by right.
Qed.

Definition restorable (host : string) (c : GoofyCluster) : Prop :=
  hr_host c = host ∧ minPort <= hr_port c <= maxPort ∧ is_Some (gc_annotation c).

(** The invariant of the loop: the mux, were its next port the one after the highest. *)
Definition loop_ok (mp : Z) m : Prop :=
  mux_ok (mx_set_portIndex (mp + 1) m) ∧ mp <= maxPort ∧ mx_maxPort m = maxPort.

(** A cluster takes neither the name nor the port of a listener. *)
Definition unclaimed m (c : GoofyCluster) : Prop :=
  ∀ n w, workloadClusterListeners m !! n = Some w → wcl_port w ≠ hr_port c ∧ gc_annotation c ≠ Some n.

Lemma mux_ok_raise m p q :
  mux_ok (mx_set_portIndex p m) → p <= q → mux_ok (mx_set_portIndex q m).
Proof.
  intros [Hl Hu Hb [Hr Hr']] Hle. split; [|exact Hu|exact Hb|].
  - intros n w Hw. destruct (Hl n w Hw) as [? Hp]. split; [done|]. cbn in *. lia.
  - cbn in *. lia.
Qed.

(** One more cluster. *)
Lemma loop_ok_step mp m n c :
  loop_ok mp m → gc_annotation c = Some n → hr_port c <= maxPort → unclaimed m c →
  loop_ok (mp `max` hr_port c) (with_listener n (hr_port c) m).
Proof.
  intros (Hok & Hmp & Hmax) Ha Hp Hun. split; [|split; [lia|done]].
  change (mx_set_portIndex ?p (with_listener n (hr_port c) m))
    with (with_listener n (hr_port c) (mx_set_portIndex p m)).
  apply with_listener_ok.
  - eapply mux_ok_raise; [done|lia].
  - cbn. destruct (workloadClusterListeners m !! n) as [w|] eqn:Hw; [|done].
    by destruct (Hun n w Hw) as [_ []].
  - cbn. lia.
  - cbn. intros n' w Hw. by apply (Hun n' w Hw).
Qed.

Lemma unclaimed_step m n c d :
  unclaimed m d → gc_annotation c = Some n → gc_annotation c ≠ gc_annotation d →
  hr_port c ≠ hr_port d → unclaimed (with_listener n (hr_port c) m) d.
Proof.
  intros Hun Ha Hne Hp n' w. cbn. intros [[<- <-]|[_ Hw]]%lookup_insert_Some; [|by apply (Hun n' w)].
  split; [done|]. rewrite <- Ha. by apply not_eq_sym.
Qed.

(** The listener a cluster is restored to. *)
Definition restored_at m (c : GoofyCluster) : Prop :=
  ∃ n w, gc_annotation c = Some n ∧ workloadClusterListeners m !! n = Some w ∧
    wcl_host w = mx_host m ∧ wcl_port w = hr_port c.

Definition highest_port (mp : Z) (clusters : list GoofyCluster) : Z :=
  foldl Z.max mp (hr_port <$> restored clusters).

(** Clusters that agree with a mux: those with an endpoint have it on its host and in
    its range, and share neither a port nor a resource group. *)
Record consistent (host : string) (clusters : list GoofyCluster) : Prop := {
  cons_restorable : ∀ c, c ∈ restored clusters → restorable host c;
  cons_ports : NoDup (hr_port <$> restored clusters);
  cons_groups : NoDup (gc_annotation <$> restored clusters) }.

(** What the loop leaves, from the mux it starts with. *)
Record loop_result (clusters : list GoofyCluster) (mp : Z) m m' : Prop := {
  lr_ok : loop_ok (highest_port mp clusters) m';
  lr_host : mx_host m' = mx_host m;
  lr_min : mx_minPort m' = mx_minPort m;
  lr_listeners : workloadClusterListeners m ⊆ workloadClusterListeners m';
  lr_size : size (workloadClusterListeners m') =
    (size (workloadClusterListeners m) + length (restored clusters))%nat;
  lr_restored : ∀ c, c ∈ restored clusters → restored_at m' c;
  lr_only : ∀ n w, workloadClusterListeners m' !! n = Some w → workloadClusterListeners m !! n = Some w ∨
    ∃ c, c ∈ restored clusters ∧ wcl_port w = hr_port c }.

Lemma loop_result_step c n clusters mp m m' :
  hr_host c ≠ "" → gc_annotation c = Some n → hr_host c = mx_host m → unclaimed m c →
  loop_result clusters (mp `max` hr_port c) (with_listener n (hr_port c) m) m' →
  loop_result (c :: clusters) mp m m'.
Proof.
  intros He Hn Hh Hun [Hok Hhost Hmin Hsub Hsize Hrest Honly].
  assert (Hc : restored (c :: clusters) = c :: restored clusters)
    by (rewrite restored_cons; by rewrite decide_False).
  assert (Hnew : workloadClusterListeners m !! n = None).
  { destruct (workloadClusterListeners m !! n) as [w|] eqn:Hw; [|done].
    by destruct (Hun n w Hw) as [_ []]. }
  split; unfold highest_port; rewrite ?Hc; [done|by rewrite Hhost|done|..].
  - etrans; [by apply insert_subseteq|exact Hsub].
  - rewrite Hsize. cbn. rewrite map_size_insert_None by done. lia.
  - intros d [->|Hd]%elem_of_cons; [|by apply Hrest].
    eexists n, _. split; [done|]. split; [eapply lookup_weaken, Hsub; by apply lookup_insert_eq|].
    by rewrite Hhost.
  - intros n' w Hw. destruct (Honly n' w Hw) as [Hw'|(d & Hd & Hp)].
    + cbn in Hw'. apply lookup_insert_Some in Hw' as [[_ <-]|[_ ?]]; [|by left].
      right. exists c. split; [by left|done].
    + right. exists d. split; [by right|done].
Qed.

Lemma hotRestartLoop_ok clusters : ∀ mp m,
  loop_ok mp m → consistent (mx_host m) clusters → (∀ c, c ∈ restored clusters → unclaimed m c) →
  ∃ m', hotRestartLoop ∅ clusters mp m = Done (highest_port mp clusters, None) m' ∧
    loop_result clusters mp m m'.
Proof.
  induction clusters as [|c clusters IH]; intros mp m Hok Hcons Hall.
  { exists m. split; [done|]. split; try done; [by intros c ?%elem_of_nil|by left]. }
  cbn [hotRestartLoop]. fold (hr_host c).
  destruct (decide (hr_host c = "")) as [He|He].
  { assert (Hr : restored (c :: clusters) = restored clusters) by (rewrite restored_cons; by case_decide).
    destruct Hcons as [H1 H2 H3]. rewrite Hr in H1, H2, H3, Hall.
    destruct (IH mp m Hok) as (m' & Hrun & Hres); [by split|done|].
    unfold highest_port. rewrite Hr. exists m'. split; [done|].
    destruct Hres as [L1 L2 L3 L4 L5 L6 L7]. unfold highest_port in L1. split; unfold highest_port; by rewrite ?Hr. }
  assert (Hr : restored (c :: clusters) = c :: restored clusters)
    by (rewrite restored_cons; by rewrite decide_False).
  destruct Hcons as [Hres Hports Hnames]. rewrite Hr in Hres, Hports, Hnames, Hall.
  destruct (Hres c) as (Hh & Hrange & [n Hn]); [by left|].
  assert (Hun : unclaimed m c) by (apply Hall; by left).
  rewrite go_bind_eq. cbn [go_get]. rewrite bool_decide_true by done. cbn [negb].
  rewrite decide_False by set_solver. rewrite Hn, go_bind_eq, initWithPort_eq.
  fold (hr_port c). cbn [fmap list_fmap] in Hports, Hnames.
  apply NoDup_cons in Hports as [Hp Hports], Hnames as [Hname Hnames].
  replace (if mp <? hr_port c then hr_port c else mp) with (mp `max` hr_port c)
    by (destruct (Z.ltb_spec mp (hr_port c)); lia).
  destruct (IH (mp `max` hr_port c) (with_listener n (hr_port c) m)) as (m' & Hrun & Hlr).
  - apply loop_ok_step; [done|done|lia|done].
  - split; [|done..]. intros d Hd. apply Hres. by right.
  - intros d Hd. apply unclaimed_step; [apply Hall; by right|done|..]; intros Heq.
    + apply Hname. rewrite Heq. by apply list_elem_of_fmap_2.
    + apply Hp. rewrite Heq. by apply list_elem_of_fmap_2.
  - exists m'. split; [|by apply (loop_result_step c n)].
    unfold highest_port at 1. rewrite Hr. exact Hrun.
Qed.

(** HotRestart on a mux without listeners, and on one with listeners. *)
Lemma HotRestart_unused m clusters :
  mux_ok m → mx_minPort m = minPort → mx_maxPort m = maxPort → workloadClusterListeners m = ∅ →
  consistent (mx_host m) clusters → clusters ≠ [] →
  ∃ m', HotRestart clusters m =
      Done None (mx_set_portIndex (highest_port (minPort - 1) clusters + 1) m') ∧
    loop_result clusters (minPort - 1) m m' ∧ minPort - 1 <= highest_port (minPort - 1) clusters <= maxPort.
Proof.
  intros Hok Hmin Hmax Hnone Hcons Hne.
  destruct (hotRestartLoop_ok clusters (minPort - 1) m) as (m' & Hrun & Hlr); [|done|..].
  { split; [|by split]. destruct Hok as [_ _ Hb Hr]. split; [..|done|].
    - intros n w. cbn. by rewrite Hnone.
    - intros n1 n2 w1 w2. cbn. by rewrite Hnone.
    - cbn. rewrite Hmax. unfold minPort, maxPort, int_min, int_max. lia. }
  { intros c Hc n w. by rewrite Hnone. }
  assert (Hle : ∀ l mp, mp <= foldl Z.max mp l).
  { induction l as [|p l IHl]; intros mp; cbn; [lia|]. specialize (IHl (mp `max` p)). lia. }
  assert (Hh := Hle (hr_port <$> restored clusters) (minPort - 1)).
  fold (highest_port (minPort - 1) clusters) in Hh. destruct (lr_ok _ _ _ _ Hlr) as (_ & Hhi & _).
  exists m'. split; [|done].
  destruct clusters as [|c clusters]; [done|]. unfold HotRestart. rewrite go_bind_eq. cbn [go_get].
  rewrite bool_decide_true by done. cbn [negb]. rewrite go_bind_eq, Hmin, Hrun, go_bind_eq.
  cbn [go_modify]. rewrite wrap_int_id; [done|].
  unfold is_int, int_min, int_max, minPort, maxPort in *. lia.
Qed.

(** With listeners, the mux refuses to restart. *)
Definition already_initialized : string :=
  "WorkloadClustersMux cannot be hot restarted when there are already initialized listeners".

Lemma HotRestart_refused clusters m :
  clusters ≠ [] → workloadClusterListeners m ≠ ∅ →
  HotRestart clusters m = Done (Some already_initialized) m.
Proof.
  intros Hc Hne. destruct clusters; [done|]. unfold HotRestart. rewrite go_bind_eq. cbn [go_get].
  by rewrite bool_decide_false.
Qed.
End restart.

(** ** The multiplexer as a transition system *)
Section system.
Context {N : Net}.
Implicit Types m : WorkloadClustersMux.
Implicit Types w : WorkloadClusterListener.

(** The calls of the reconcilers. *)
Inductive mux_call m : WorkloadClustersMux → Prop :=
| step_init n r m' : InitWorkloadClusterListener n m = Done r m' → mux_call m m'
| step_api n p ca key e m' : AddAPIServer n p ca key m = Done e m' → mux_call m m'
| step_etcd n p ca key e m' : AddEtcdMember n p ca key m = Done e m' → mux_call m m'.

(** A call, or a hot restart from clusters that agree with the mux: HotRestart itself
    checks neither the range of the ports nor that they differ. *)
Inductive mux_step m : WorkloadClustersMux → Prop :=
| step_call m' : mux_call m m' → mux_step m m'
| step_restart clusters e m' : consistent (mx_host m) clusters →
    HotRestart clusters m = Done e m' → mux_step m m'.

Definition mux_reachable host m : Prop := rtc mux_step (NewWorkloadClustersMux host) m.

(** The states of a mux that was never restarted. *)
Definition mux_started host m : Prop := rtc mux_call (NewWorkloadClustersMux host) m.

Record mux_fresh host m : Prop := {
  fr_ok : mux_ok m;
  fr_host : mx_host m = host;
  fr_min : mx_minPort m = minPort;
  fr_max : mx_maxPort m = maxPort;
  fr_index : minPort <= mx_portIndex m <= maxPort + 1;
  fr_ports : ∀ n w, workloadClusterListeners m !! n = Some w → minPort <= wcl_port w <= maxPort }.

Lemma set_listener_fresh host n w w' k m :
  mux_fresh host m → workloadClusterListeners m !! n = Some w → same_address w w' →
  mux_fresh host (mx_set_listeners (<[n := w']> (workloadClusterListeners m)) (mx_set_draws k m)).
Proof.
  intros [Hok Hh Hmin Hmax Hi Hp] Hw Hsame. split; try done.
  - apply (set_listener_ok n w w' (mx_set_draws k m)); [by apply mux_ok_draws|done..].
  - intros n' v. cbn. intros [[<- <-]|[_ ?]]%lookup_insert_Some; [|by eapply Hp].
    destruct Hsame as [_ ->]. by eapply Hp.
Qed.

Lemma mux_call_fresh host m m' : mux_fresh host m → mux_call m m' → mux_fresh host m'.
Proof.
  intros Hf [n r m1 Hrun|n p ca key e m1 Hrun|n p ca key e m1 Hrun].
  - destruct (InitWorkloadClusterListener_outcome n m) as (r' & m2 & Hrun' & Hout).
    rewrite Hrun in Hrun'. simplify_eq. assert (Hok := init_outcome_ok _ _ _ _ (fr_ok _ _ Hf) Hout).
    destruct Hf as [Hok0 Hh Hmin Hmax Hi Hp]. destruct Hout as [| |Hn Hle]; [done..|].
    split; try done.
    + cbn. rewrite wrap_portIndex by done. lia.
    + intros n' v. cbn. intros [[<- <-]|[_ ?]]%lookup_insert_Some; [|by eapply Hp]. cbn. lia.
  - destruct (workloadClusterListeners m !! n) as [w|] eqn:Hw.
    + destruct (AddAPIServer_outcome n p ca key w m Hw) as (w' & e' & k & Hrun' & Hadd & _).
      rewrite Hrun in Hrun'. simplify_eq. eapply set_listener_fresh; [done..|]. apply Hadd.
    + unfold AddAPIServer in Hrun. rewrite go_bind_eq in Hrun. cbn [go_get] in Hrun.
      rewrite Hw in Hrun. go_unfold_in Hrun. by simplify_eq.
  - destruct (workloadClusterListeners m !! n) as [w|] eqn:Hw.
    + destruct (AddEtcdMember_outcome n p ca key w m Hw) as (w' & e' & k & Hrun' & Hadd & _).
      rewrite Hrun in Hrun'. simplify_eq. by eapply set_listener_fresh.
    + unfold AddEtcdMember in Hrun. rewrite go_bind_eq in Hrun. cbn [go_get] in Hrun.
      rewrite Hw in Hrun. go_unfold_in Hrun. by simplify_eq.
Qed.

Lemma mux_restart_fresh host m clusters e m' :
  mux_fresh host m → consistent (mx_host m) clusters → HotRestart clusters m = Done e m' →
  mux_fresh host m'.
Proof.
  intros Hf Hcons Hrun. destruct (decide (clusters = [])) as [->|Hne].
  { unfold HotRestart in Hrun. go_unfold_in Hrun. by simplify_eq. }
  destruct (decide (workloadClusterListeners m = ∅)) as [He|Hsome].
  2: { rewrite HotRestart_refused in Hrun by done. by simplify_eq. }
  destruct Hf as [Hok Hh Hmin Hmax Hi Hp].
  destruct (HotRestart_unused m clusters Hok Hmin Hmax He Hcons Hne) as (m1 & Hrun' & Hlr & Hrange).
  rewrite Hrun in Hrun'. simplify_eq. destruct Hlr as [(Hok1 & _ & Hmax1) Hh1 Hmin1 _ _ _ Honly].
  split; cbn; [exact Hok1|done|congruence|done|lia|].
  intros n w Hw. destruct (Honly n w Hw) as [Hold|(c & Hc & ->)]; [by rewrite He in Hold|].
  by destruct (cons_restorable _ _ Hcons c Hc) as (_ & ? & _).
Qed.

Lemma mux_step_fresh host m m' : mux_fresh host m → mux_step m m' → mux_fresh host m'.
Proof. intros Hf [m1 Hcall|clusters e m1 Hc Hrun]; [by eapply mux_call_fresh|by eapply mux_restart_fresh]. Qed.

Lemma mux_new_fresh host : mux_fresh host (NewWorkloadClustersMux host).
Proof. split; try done. apply NewWorkloadClustersMux_ok. Qed.

Lemma mux_reachable_fresh host m : mux_reachable host m → mux_fresh host m.
Proof.
  intros Hsteps. assert (Hf := mux_new_fresh host).
  revert Hf. unfold mux_reachable in Hsteps.
  induction Hsteps as [m|m1 m2 m3 Hstep _ IH]; [done|]. intros Hf. by eapply IH, mux_step_fresh.
Qed.

Lemma mux_reachable_call host m m' : mux_reachable host m → mux_call m m' → mux_reachable host m'.
Proof. intros Hr Hc. eapply rtc_r; [exact Hr|by apply step_call]. Qed.

Lemma mux_started_reachable host m : mux_started host m → mux_reachable host m.
Proof. intros Hs. eapply rtc_subrel; [|exact Hs]. intros a b Hc. by apply step_call. Qed.

(** Without a hot restart, ports are handed out one after the other. *)
Lemma mux_started_index host m : mux_started host m →
  mux_fresh host m ∧ mx_portIndex m = minPort + Z.of_nat (size (workloadClusterListeners m)).
Proof.
  intros Hsteps. assert (H0 : mux_fresh host (NewWorkloadClustersMux host) ∧
    mx_portIndex (NewWorkloadClustersMux host) =
      minPort + Z.of_nat (size (workloadClusterListeners (NewWorkloadClustersMux host))))
    by (split; [apply mux_new_fresh|done]).
  revert H0. unfold mux_started in Hsteps.
  induction Hsteps as [m|m1 m2 m3 Hstep _ IH]; [done|]. intros [Hf Hi]. apply IH. clear IH m3.
  split; [by eapply mux_call_fresh|].
  destruct Hstep as [n r m2 Hrun|n p ca key e m2 Hrun|n p ca key e m2 Hrun].
  - destruct (InitWorkloadClusterListener_outcome n m1) as (r' & m3 & Hrun' & Hout).
    rewrite Hrun in Hrun'. simplify_eq. destruct Hout as [| |Hn Hle]; [done..|]. cbn.
    rewrite wrap_portIndex by (done || apply Hf). rewrite map_size_insert_None by done. lia.
  - destruct (workloadClusterListeners m1 !! n) as [w|] eqn:Hw.
    + destruct (AddAPIServer_outcome n p ca key w m1 Hw) as (w' & e' & k & Hrun' & _).
      rewrite Hrun in Hrun'. simplify_eq. cbn. by rewrite map_size_insert_Some by (by eexists).
    + unfold AddAPIServer in Hrun. rewrite go_bind_eq in Hrun. cbn [go_get] in Hrun.
      rewrite Hw in Hrun. go_unfold_in Hrun. by simplify_eq.
  - destruct (workloadClusterListeners m1 !! n) as [w|] eqn:Hw.
    + destruct (AddEtcdMember_outcome n p ca key w m1 Hw) as (w' & e' & k & Hrun' & _).
      rewrite Hrun in Hrun'. simplify_eq. cbn. by rewrite map_size_insert_Some by (by eexists).
    + unfold AddEtcdMember in Hrun. rewrite go_bind_eq in Hrun. cbn [go_get] in Hrun.
      rewrite Hw in Hrun. go_unfold_in Hrun. by simplify_eq.
Qed.

(** C24: in every state the calls that set up listeners, API servers and etcd members
    and the hot restarts lead to from a new mux, where each hot restart is from
    clusters that, as far as they have an endpoint, have it on the host of the mux, in
    20000-24000, and the annotation with a resource group, and that share neither a port
    nor a resource group, each workload cluster has a port of its
    own within 20000-24000, on the host of the mux, and the host name resolver finds
    exactly it under the address of its listener, and nothing under any other
    address.  (HotRestart does not check those ports itself.) *)
Theorem mux_listeners_separate host m :
  mux_reachable host m →
  (∀ n w, workloadClusterListeners m !! n = Some w →
     wcl_host w = host ∧ 20000 <= wcl_port w <= 24000 ∧ resourceGroupResolver m (HostPort w) = inl n) ∧
  (∀ n1 n2 w1 w2, workloadClusterListeners m !! n1 = Some w1 →
     workloadClusterListeners m !! n2 = Some w2 → n1 ≠ n2 →
     wcl_port w1 ≠ wcl_port w2 ∧ HostPort w1 ≠ HostPort w2) ∧
  (∀ h n, resourceGroupResolver m h = inl n →
     ∃ w, workloadClusterListeners m !! n = Some w ∧ HostPort w = h).
Proof.
  intros Hreach. destruct (mux_reachable_fresh _ _ Hreach) as [[Hl Hu Hb Hr] <- Hmin Hmax Hi Hp].
  split; [|split].
  - intros n w Hw. split; [by eapply Hl|]. split; [by eapply Hp|]. unfold resourceGroupResolver.
    by rewrite (proj2 (Hb (HostPort w) n) (ex_intro _ w (conj Hw eq_refl))).
  - intros n1 n2 w1 w2 H1 H2 Hne. split; [by intros ?; eapply Hne, Hu|]. intros Heq.
    apply Hne. eapply Hu; [done..|]. unfold HostPort in Heq.
    rewrite (proj1 (Hl _ _ H1)), (proj1 (Hl _ _ H2)) in Heq. by apply HostPort_of_inj in Heq.
  - intros h n. unfold resourceGroupResolver. destruct (workloadClusterNameByHost m !! h) eqn:Hh; [|done].
    intros [= <-]. by apply Hb.
Qed.

(** A cluster gets a listener while there are ports left. *)
Lemma init_listener_free host m n :
  mux_reachable host m → mx_portIndex m <= maxPort →
  ∃ w m', InitWorkloadClusterListener n m = Done (inl w) m' ∧
    InitWorkloadClusterListener n m' = Done (inl w) m' ∧ workloadClusterListeners m' !! n = Some w ∧
    workloadClusterListeners m ⊆ workloadClusterListeners m' ∧
    (workloadClusterListeners m !! n = None → wcl_listener w = None ∧ apiServers w = ∅) ∧
    mx_portIndex m' <= mx_portIndex m + 1.
Proof.
  intros Hreach Hleft. destruct (mux_reachable_fresh _ _ Hreach) as [Hok Hh Hmin Hmax Hi Hp].
  assert (Hknown : ∀ m' w, workloadClusterListeners m' !! n = Some w →
    InitWorkloadClusterListener n m' = Done (inl w) m').
  { intros m' w Hw. unfold InitWorkloadClusterListener. rewrite go_bind_eq. cbn [go_get]. by rewrite Hw. }
  destruct (workloadClusterListeners m !! n) as [w|] eqn:Hn; [exists w, m; rewrite !(Hknown m w Hn); do 4 (split; [done|]); split; [done|lia]|].
  destruct (InitWorkloadClusterListener_outcome n m) as (r & m' & Hrun & Hout).
  destruct Hout as [w Hw|err _ Hfull|_ Hle]; [congruence|lia|].
  assert (Hl := lookup_insert_eq (workloadClusterListeners m) n (new_listener (mx_portIndex m) m)).
  do 2 eexists. split; [exact Hrun|]. split; [by apply Hknown, Hl|]. split; [exact Hl|].
  split; [by apply insert_subseteq|]. split; [done|]. cbn. rewrite wrap_portIndex by done. lia.
Qed.


(** AddAPIServer on an initialised listener registers the server, and without an
    error leaves the listener with a serving and an admin certificate and listening;
    what the listener had is kept, so later servers share its certificates.  With
    an error too the server counts as added: HasAPIServer then says so. *)
Theorem add_api_server_outcome n p ca key w m :
  workloadClusterListeners m !! n = Some w →
  ∃ e m' w', AddAPIServer n p ca key m = Done e m' ∧
    workloadClusterListeners m' = <[n := w']> (workloadClusterListeners m) ∧
    HasAPIServer n p m' = true ∧ (∀ q, HasAPIServer n q m = true → HasAPIServer n q m' = true) ∧
    HostPort w' = HostPort w ∧
    (is_Some (apiServerServingCertificate w) →
       apiServerServingCertificate w' = apiServerServingCertificate w) ∧
    (is_Some (wcl_listener w) → wcl_listener w' = wcl_listener w) ∧
    (e = None → is_Some (apiServerServingCertificate w') ∧ is_Some (adminCertificate w') ∧
       is_Some (wcl_listener w')).
Proof.
  intros Hw. destruct (AddAPIServer_outcome n p ca key w m Hw) as (w' & e & k & Hrun & Hadd & He).
  do 2 eexists. exists w'. split; [exact Hrun|]. split; [done|].
  destruct Hadd as [[Hh Hp] Hapi _ _ Hs _ Hl _]. unfold HasAPIServer. cbn.
  rewrite lookup_insert_eq, Hw, Hapi. split; [apply bool_decide_eq_true; set_solver|]. split.
  { intros q. rewrite !bool_decide_eq_true. set_solver. }
  split; [unfold HostPort; by rewrite Hh, Hp|]. done.
Qed.

(** C29: TLS selection, in every state that calls on the mux lead to (as in the claim on
    its listeners, hot restarts included): after AddEtcdMember has succeeded, a client
    that dials the listener of the cluster with the member's name gets the certificate
    of that member: the one it had, if the mux has one, and else a new one that the
    given CA has signed for the configuration of an etcd server with the name of the
    member and the host of the cluster.  One that uses the name of no member gets the
    certificate of the API server, if there is one, and an address that is no listener's gets an error. *)
Theorem certificate_selection host n p ca key w m e m' :
  mux_reachable host m → workloadClusterListeners m !! n = Some w →
  AddEtcdMember n p ca key m = Done e m' →
  (e = None → ∃ cert, getCertificate (HostPort w) p m' = inl (Some cert) ∧
     match etcdServingCertificates w !! p with
     | Some old => cert = old
     | None => serving_certificate m ca key (etcdServerCertificateConfig p host) cert
     end) ∧
  (∀ name, name ≠ p → name ∉ etcdMembers w →
     getCertificate (HostPort w) name m' = inl (apiServerServingCertificate w)) ∧
  (∀ addr name, (∀ n' w', workloadClusterListeners m' !! n' = Some w' → HostPort w' ≠ addr) →
     ∃ err, getCertificate addr name m' = inr err).
Proof.
  intros Hreach Hw Hrun. assert (Hf0 := mux_reachable_fresh _ _ Hreach).
  assert (Hf : mux_fresh host m') by (eapply mux_step_fresh; [exact Hf0|by eapply step_call, step_etcd]).
  assert (Hhost : wcl_host w = host).
  { rewrite (proj1 (ok_listener _ (fr_ok _ _ Hf0) _ _ Hw)). apply Hf0. }
  destruct (AddEtcdMember_outcome n p ca key w m Hw) as (w' & e' & k & Hrun' & Haddr & Hm & _ & Hs & _ & _ & He & _).
  rewrite Hrun in Hrun'. simplify_eq. set (m' := mx_set_listeners _ _) in *.
  assert (Hw' : workloadClusterListeners m' !! n = Some w') by (cbn; by rewrite lookup_insert_eq).
  assert (Hhp : HostPort w' = HostPort w) by (unfold HostPort; by destruct Haddr as [-> ->]).
  assert (Hby : workloadClusterNameByHost m' !! HostPort w = Some n).
  { apply (ok_byHost _ (fr_ok _ _ Hf)). by exists w'. }
  unfold getCertificate. rewrite Hby, Hw', Hm. split; [|split].
  - intros He'. rewrite decide_True by set_solver. destruct (He He') as (cert & -> & Hcert). by exists cert.
  - intros name Hne Hnot. rewrite decide_False by set_solver. by rewrite Hs.
  - intros addr name Hnone. destruct (workloadClusterNameByHost m' !! addr) as [n'|] eqn:Ha; [|by eexists].
    apply (ok_byHost _ (fr_ok _ _ Hf)) in Ha as (v & Hv & <-). by destruct (Hnone _ _ Hv).
Qed.
End system.

(** ** A concrete network, on which the definitions evaluate *)
#[export] Instance test_net : Net := {|
  Certificate := string;
  PrivateKey := string;
  TLSCertificate := string;
  NetListener := string;
  NewPrivateKey n := inl ("key" +:+ Itoa (Z.of_nat n));
  NewSignedCert cfg key _ _ := inl (cfg_CommonName cfg +:+ " with " +:+ key);
  EncodeCertPEM c := c;
  EncodePrivateKeyPEM k := k;
  X509KeyPair c k := inl (c +:+ "/" +:+ k);
  net_Listen _ addr := inl addr;
  ServeTLS_error _ _ := None;
  ParseIP s := s;
  rest_Config := string;
  clientcmd_Write k := inl (kc_CurrentContext k);
  RESTConfigFromKubeConfig b := inl b
|}.

(** A mux on which two clusters are initialised, the first with an API server. *)
Definition run_mux {N : Net} {A} (f : Go WorkloadClustersMux A) (m : WorkloadClustersMux) : WorkloadClustersMux :=
  match f m with Done _ m' => m' | _ => m end.
Definition test_mux1 := run_mux (InitWorkloadClusterListener "a") (NewWorkloadClustersMux "10.0.0.1").
Definition test_mux2 := run_mux (InitWorkloadClusterListener "b") test_mux1.
Definition test_ca : option Certificate := Some "ca".
Definition test_ca_key : option PrivateKey := Some "ca-key".
Definition test_mux3 := run_mux (AddAPIServer "a" "api-0" test_ca test_ca_key) test_mux2.
Definition test_etcd := AddEtcdMember "a" "etcd-0" test_ca test_ca_key.

Lemma run_mux_Done {N : Net} {A} (f : Go WorkloadClustersMux A) (check : A → bool) m :
  match f m with Done a _ => check a | _ => false end = true →
  ∃ a, f m = Done a (run_mux f m) ∧ check a = true.
Proof. unfold run_mux. destruct (f m) as [a m'| |]; [|done..]. intros Ha. by exists a. Qed.

Lemma test_mux_started : mux_started "10.0.0.1" test_mux3.
Proof.
  destruct (run_mux_Done (InitWorkloadClusterListener "a") (λ _, true)
    (NewWorkloadClustersMux "10.0.0.1")) as (r1 & H1 & _); [by vm_compute|].
  destruct (run_mux_Done (InitWorkloadClusterListener "b") (λ _, true) test_mux1)
    as (r2 & H2 & _); [by vm_compute|].
  destruct (run_mux_Done (AddAPIServer "a" "api-0" test_ca test_ca_key) (λ _, true) test_mux2)
    as (r3 & H3 & _); [by vm_compute|].
  eapply rtc_l; [by eapply step_init|]. eapply rtc_l; [by eapply step_init|].
  by eapply rtc_once, step_api.
Qed.
Lemma test_mux_reachable : mux_reachable "10.0.0.1" test_mux3.
Proof. apply mux_started_reachable, test_mux_started. Qed.

Lemma test_mux_port : mx_portIndex test_mux3 <= maxPort.
Proof. assert (Hp : mx_portIndex test_mux3 = 20002) by vm_decide. rewrite Hp. done. Qed.

Lemma test_mux_listener n :
  is_Some (workloadClusterListeners test_mux3 !! n) →
  ∃ w, workloadClusterListeners test_mux3 !! n = Some w.
Proof. by intros [w Hw]; exists w. Qed.

Lemma mux_listeners_separate_witness :
  ∃ n1 n2 w1 w2, n1 ≠ n2 ∧ workloadClusterListeners test_mux3 !! n1 = Some w1 ∧
    workloadClusterListeners test_mux3 !! n2 = Some w2 ∧ HostPort w1 ≠ HostPort w2.
Proof.
  destruct (test_mux_listener "a") as [w1 H1]; [vm_decide|].
  destruct (test_mux_listener "b") as [w2 H2]; [vm_decide|].
  exists "a", "b", w1, w2. do 3 (split; [done|]).
  by apply (proj1 (proj2 (mux_listeners_separate _ _ test_mux_reachable)) _ _ _ _ H1 H2).
Defined.


Lemma add_api_server_outcome_witness :
  ∃ m' w', AddAPIServer "a" "api-1" test_ca test_ca_key test_mux3 = Done None m' ∧
    workloadClusterListeners m' !! "a" = Some w' ∧ is_Some (wcl_listener w').
Proof.
  destruct (test_mux_listener "a") as [w H]; [vm_decide|].
  destruct (run_mux_Done (AddAPIServer "a" "api-1" test_ca test_ca_key)
    (λ e, bool_decide (e = None)) test_mux3) as (e0 & Hrun & He0%bool_decide_eq_true); [by vm_compute|].
  destruct (add_api_server_outcome "a" "api-1" test_ca test_ca_key w test_mux3 H)
    as (e & m' & w' & Hrun' & Hl & _ & _ & _ & _ & _ & Hok).
  rewrite Hrun in Hrun'. injection Hrun' as <- <-. do 2 eexists. split; [by rewrite Hrun, He0|].
  split; [rewrite Hl; by rewrite lookup_insert_eq|]. by apply Hok.
Defined.

Lemma certificate_selection_witness :
  ∃ w m' cert, workloadClusterListeners test_mux3 !! "a" = Some w ∧
    test_etcd test_mux3 = Done None m' ∧ getCertificate (HostPort w) "etcd-0" m' = inl (Some cert) ∧
    serving_certificate test_mux3 test_ca test_ca_key (etcdServerCertificateConfig "etcd-0" "10.0.0.1") cert.
Proof.
  destruct (test_mux_listener "a") as [w H]; [vm_decide|].
  destruct (run_mux_Done test_etcd (λ e, bool_decide (e = None)) test_mux3)
    as (e & Hrun & He%bool_decide_eq_true); [by vm_compute|].
  destruct (certificate_selection _ _ _ test_ca test_ca_key _ _ _ _ test_mux_reachable H Hrun) as [Hcert _].
  assert (Hc : (etcdServingCertificates <$> workloadClusterListeners test_mux3 !! "a") = Some ∅) by vm_decide.
  rewrite H in Hc. injection Hc as Hc. rewrite Hc, lookup_empty in Hcert.
  destruct (Hcert He) as (cert & Hg & Hs).
  exists w, (run_mux test_etcd test_mux3), cert. rewrite <- He. by split_and!.
Defined.
