(* ===== verification/MuxRestart.v ===== *)
(** * The hot restart of the multiplexer

    What HotRestart of mux.go rebuilds from the clusters of the management cluster:
    the restore when no two of them share a port, and what it does otherwise. *)

From stdpp Require Import prelude gmap strings list relations.
From Stdlib Require Import ZArith Lia.
From S2P Require Import Prelude GoStd GoTime Api Runtime Cache TestEnv Mux MuxFacts.
Local Open Scope Z_scope.

Section restart.
Context {N : Net}.
Implicit Types m : WorkloadClustersMux.

(** The loop takes no listener away. *)
Lemma hotRestartLoop_grows clusters : ∀ mp m r m',
  hotRestartLoop ∅ clusters mp m = Done r m' → ∀ n,
  is_Some (workloadClusterListeners m !! n) → is_Some (workloadClusterListeners m' !! n).
Proof.
  induction clusters as [|c clusters IH]; intros mp m r m' Hrun n Hn; cbn [hotRestartLoop] in Hrun.
  { go_unfold_in Hrun. by simplify_eq. }
  case_decide; [by eapply IH|]. rewrite go_bind_eq in Hrun. cbn [go_get] in Hrun.
  destruct (negb _); [go_unfold_in Hrun; by simplify_eq|].
  rewrite decide_False in Hrun by set_solver.
  destruct (gc_annotation c) as [g|]; [|go_unfold_in Hrun; by simplify_eq].
  rewrite go_bind_eq, initWithPort_eq in Hrun. eapply IH; [done|]. cbn. rewrite lookup_insert.
  by case_decide.
Qed.

(** What a hot restart establishes. *)
Record restart_ok (clusters : list GoofyCluster) m : Prop := {
  ro_ok : mux_ok m;
  ro_size : size (workloadClusterListeners m) = length (restored clusters);
  ro_resolves : ∀ c, c ∈ restored clusters → ∃ n, gc_annotation c = Some n ∧
    resourceGroupResolver m (HostPort_of (hr_host c) (hr_port c)) = inl n;
  ro_free : ∀ n w m', InitWorkloadClusterListener n m = Done (inl w) m' →
    workloadClusterListeners m !! n = None → ∀ c, c ∈ restored clusters → wcl_port w ≠ hr_port c }.

Lemma HotRestart_ok host clusters :
  consistent host clusters →
  ∃ m, HotRestart clusters (NewWorkloadClustersMux host) = Done None m ∧ restart_ok clusters m.
Proof.
  intros Hcons. set (m0 := NewWorkloadClustersMux host).
  destruct (decide (clusters = [])) as [->|Hne].
  { exists m0. split; [done|]. split; [apply NewWorkloadClustersMux_ok|done|..]; by intros; set_solver. }
  destruct (HotRestart_unused m0 clusters (NewWorkloadClustersMux_ok host) eq_refl eq_refl eq_refl Hcons Hne)
    as (m & Hrun & [(Hok & _ & _) Hh _ _ Hsize Hrest _] & _).
  set (m1 := mx_set_portIndex _ m) in *. exists m1. split; [done|].
  assert (Hres : ∀ c, c ∈ restored clusters → ∃ n w, gc_annotation c = Some n ∧
    workloadClusterListeners m1 !! n = Some w ∧ HostPort w = HostPort_of (hr_host c) (hr_port c) ∧
    wcl_port w = hr_port c).
  { intros c Hc. destruct (Hrest c Hc) as (n & w & Hn & Hl & Hwh & Hwp). exists n, w.
    do 2 (split; [done|]). split; [|done]. unfold HostPort. rewrite Hwh, Hwp, Hh.
    by destruct (cons_restorable _ _ Hcons c Hc) as [-> _]. }
  split; [done|done|..].
  - intros c Hc. destruct (Hres c Hc) as (n & w & Hn & Hl & Hhp & _). exists n. split; [done|].
    unfold resourceGroupResolver. by rewrite (proj2 (ok_byHost _ Hok _ n) (ex_intro _ w (conj Hl Hhp))).
  - intros n w m' Hinit Hnew c Hc. destruct (Hres c Hc) as (n' & w' & _ & Hl & _ & <-).
    destruct (InitWorkloadClusterListener_outcome n m1) as (r & m2 & Hinit' & Hout).
    rewrite Hinit in Hinit'. injection Hinit' as <- <-.
    inversion Hout as [v Hv| |_ _]; subst; [congruence|]. cbn [wcl_port new_listener].
    destruct (ok_listener _ Hok n' w' Hl) as [_ Hlt]. intros Heq. rewrite <- Heq in Hlt. by apply Z.lt_irrefl in Hlt.
Qed.

(** Hot restart: if the clusters of the management cluster that have an endpoint
    have it on the host of the mux, in its range, and share no port and no resource
    group, then HotRestart of a new mux gives each of them the listener it had: the
    resolver maps its endpoint to its resource group.  A cluster that is created
    afterwards gets a port that none of them uses. *)
Theorem hot_restart_restores host clusters :
  consistent host clusters →
  ∃ m, HotRestart clusters (NewWorkloadClustersMux host) = Done None m ∧ mux_ok m ∧
    size (workloadClusterListeners m) = length (restored clusters) ∧
    (∀ c, c ∈ restored clusters → ∃ n, gc_annotation c = Some n ∧
       resourceGroupResolver m (HostPort_of (hr_host c) (hr_port c)) = inl n) ∧
    ∀ n w m', InitWorkloadClusterListener n m = Done (inl w) m' →
      workloadClusterListeners m !! n = None → ∀ c, c ∈ restored clusters → wcl_port w ≠ hr_port c.
Proof.
  intros Hcons. destruct (HotRestart_ok host clusters Hcons) as (m & Hrun & [Hok Hs Hr Hf]).
  by exists m.
Qed.

(** HotRestart does not see that two clusters share a port (the set [ports] stays
    empty): it reports success, both resource groups have a listener with the same
    address, and requests to it all go to the resource group of the last. *)
Theorem hot_restart_misses_duplicate_port host c1 c2 n1 n2 :
  host ≠ "" → restorable host c1 → restorable host c2 → hr_port c1 = hr_port c2 →
  gc_annotation c1 = Some n1 → gc_annotation c2 = Some n2 → n1 ≠ n2 →
  ∃ m w1 w2, HotRestart [c1; c2] (NewWorkloadClustersMux host) = Done None m ∧
    workloadClusterListeners m !! n1 = Some w1 ∧ workloadClusterListeners m !! n2 = Some w2 ∧
    HostPort w1 = HostPort w2 ∧ resourceGroupResolver m (HostPort w1) = inl n2.
Proof.
  intros Hhost [Hh1 _] [Hh2 _] Hp Hn1 Hn2 Hne. unfold hr_host, hr_port in *. unfold HotRestart.
  rewrite go_bind_eq. cbn [go_get]. rewrite bool_decide_true by done. cbn [negb].
  cbn [hotRestartLoop]. rewrite go_bind_eq, Hh1, Hh2, Hn1, Hn2.
  rewrite !(decide_False (P := host = "")) by done.
  rewrite go_bind_eq. cbn [go_get]. rewrite bool_decide_true by done. cbn [negb].
  rewrite !decide_False by set_solver. rewrite go_bind_eq, initWithPort_eq, go_bind_eq. cbn [go_get].
  rewrite bool_decide_true by done. cbn [negb]. rewrite go_bind_eq, initWithPort_eq.
  cbn [mret go_ret]. rewrite go_bind_eq. cbn [go_modify]. do 3 eexists. split; [reflexivity|]. cbn.
  split; [by rewrite lookup_insert_ne, lookup_insert_eq|]. split; [by rewrite lookup_insert_eq|].
  unfold HostPort, resourceGroupResolver. cbn. rewrite Hp. split; [done|]. by rewrite lookup_insert_eq.
Qed.

(** A restart that fails after it has restored a cluster leaves listeners. *)
Lemma HotRestart_failed host c clusters e m :
  HotRestart (c :: clusters) (NewWorkloadClustersMux host) = Done (Some e) m →
  restorable host c → host ≠ "" → workloadClusterListeners m ≠ ∅.
Proof.
  intros Hrun (Hh & _ & [n Hn]) Hhost.
  unfold HotRestart in Hrun. rewrite go_bind_eq in Hrun. cbn [go_get] in Hrun.
  rewrite bool_decide_true in Hrun by done. cbn [negb] in Hrun.
  rewrite go_bind_eq in Hrun. cbn [hotRestartLoop] in Hrun. fold (hr_host c) in Hrun.
  rewrite Hh, decide_False in Hrun by done. rewrite go_bind_eq in Hrun. cbn [go_get] in Hrun.
  rewrite bool_decide_true in Hrun by done. cbn [negb] in Hrun.
  rewrite decide_False in Hrun by set_solver. rewrite Hn, go_bind_eq, initWithPort_eq in Hrun.
  destruct (hotRestartLoop ∅ clusters _ _) as [[mp [e'|]] m'| |] eqn:Hloop; [|done..].
  go_unfold_in Hrun. injection Hrun as _ <-. intros Hempty.
  destruct (hotRestartLoop_grows _ _ _ _ _ Hloop n) as [w Hw]; [cbn; by rewrite lookup_insert_eq|].
  by rewrite Hempty in Hw.
Qed.

(** A hot restart that fails cannot be retried once it has restored a cluster: each
    later HotRestart with a cluster fails with the same message and changes nothing. *)
Theorem hot_restart_failure_is_final host c clusters e m :
  HotRestart (c :: clusters) (NewWorkloadClustersMux host) = Done (Some e) m →
  restorable host c → host ≠ "" →
  ∀ retry, retry ≠ [] → HotRestart retry m =
    Done (Some "WorkloadClustersMux cannot be hot restarted when there are already initialized listeners") m.
Proof.
  intros Hrun Hc Hhost retry Hretry. apply HotRestart_refused; [done|]. by eapply HotRestart_failed.
Qed.
End restart.

(** ** Concrete clusters *)
Definition test_cluster (name host : string) (port : Z) (group : option string) : GoofyCluster :=
  mkGoofyCluster (mkObjectMeta name "default" None
      (option_map (λ g, {[ResourceGroupAnnotationName := g]}) group) None None "" 0 None "")
    (mkAPIEndpoint host port) true.
Definition cluster_a := test_cluster "a" "10.0.0.1" 20000 (Some "default/a").
Definition cluster_b := test_cluster "b" "10.0.0.1" 20003 (Some "default/b").
Definition cluster_new := test_cluster "new" "" 0 None.
Definition cluster_twin := test_cluster "twin" "10.0.0.1" 20000 (Some "default/twin").
Definition cluster_bare := test_cluster "bare" "10.0.0.1" 20001 None.

Lemma restorable_a : restorable "10.0.0.1" cluster_a.
Proof. split; [done|]. split; [done|]. vm_decide. Qed.
Lemma restorable_b : restorable "10.0.0.1" cluster_b.
Proof. split; [done|]. split; [done|]. vm_decide. Qed.
Lemma restorable_twin : restorable "10.0.0.1" cluster_twin.
Proof. split; [done|]. split; [done|]. vm_decide. Qed.

Lemma hot_restart_restores_witness :
  ∃ m, HotRestart [cluster_new; cluster_a; cluster_b] (NewWorkloadClustersMux "10.0.0.1") = Done None m ∧
    resourceGroupResolver m "10.0.0.1:20003" = inl "default/b".
Proof.
  destruct (hot_restart_restores "10.0.0.1" [cluster_new; cluster_a; cluster_b])
    as (m & Hrun & _ & _ & Hres & _); [split|].
  - intros c Hc. change (restored _) with [cluster_a; cluster_b] in Hc.
    apply elem_of_cons in Hc as [->|Hc%list_elem_of_singleton]; [exact restorable_a|].
    rewrite Hc. exact restorable_b.
  - vm_decide.
  - vm_decide.
  - exists m. split; [done|]. destruct (Hres cluster_b) as (n & Hn & Hr); [vm_compute; right; left|].
    assert (Hb : gc_annotation cluster_b = Some "default/b") by vm_decide.
    rewrite Hb in Hn. injection Hn as <-. exact Hr.
Defined.

Lemma hot_restart_misses_duplicate_port_witness :
  ∃ m, HotRestart [cluster_a; cluster_twin] (NewWorkloadClustersMux "10.0.0.1") = Done None m ∧
    ∃ h, resourceGroupResolver m h = inl "default/twin".
Proof.
  destruct (hot_restart_misses_duplicate_port "10.0.0.1" cluster_a cluster_twin "default/a" "default/twin")
    as (m & w1 & w2 & Hrun & _ & _ & _ & Hres); [done|exact restorable_a|exact restorable_twin|done|..].
  - vm_decide.
  - vm_decide.
  - done.
  - exists m. split; [done|]. by eexists.
Defined.

Lemma hot_restart_failure_is_final_witness :
  ∃ e m, HotRestart [cluster_a; cluster_bare] (NewWorkloadClustersMux "10.0.0.1") = Done (Some e) m ∧
    HotRestart [cluster_a] m = Done (Some
      "WorkloadClustersMux cannot be hot restarted when there are already initialized listeners") m.
Proof.
  destruct (run_mux_Done (HotRestart [cluster_a; cluster_bare])
    (λ e, match e with Some _ => true | None => false end) (NewWorkloadClustersMux "10.0.0.1"))
    as (e & Hrun & He); [by vm_compute|].
  destruct e as [e|]; [|done]. exists e. eexists. split; [exact Hrun|].
  apply (hot_restart_failure_is_final _ _ _ _ _ Hrun); [exact restorable_a|done|done].
Defined.
