(* ===== verification/Management.v ===== *)
(** * What the reconcilers of the provider share

    The management cluster, seen through the libraries of Cluster API and of
    controller-runtime, is a parameter: the class [Management] has one field for
    each library function the reconcilers call.  The state they share is a [world]:
    the cloud manager, the multiplexer, and what was sent to the management
    cluster. *)

From stdpp Require Import prelude gmap strings list.
From Stdlib Require Import ZArith Lia.
From S2P Require Import Prelude GoStd GoTime Api Runtime Cache EventSource Controller Mux MuxFacts.
Local Open Scope Z_scope.

(** ** Objects of the management cluster: the fields the program reads or writes *)
Record GoofyMachine := mkGoofyMachine {
  gm_Meta : ObjectMeta; gm_ProviderID : option string; gm_Ready : bool }.

(** clusterv1.Cluster and clusterv1.Machine; [cl_rest] and [ma_rest] stand for what
    only the libraries read. *)
Record Cluster := mkCluster {
  cl_Meta : ObjectMeta;
  cl_InfrastructureRef : option string;
  cl_InfrastructureReady : bool;
  cl_rest : string }.
Record Machine := mkMachine {
  ma_Meta : ObjectMeta;
  ma_DataSecretName : option string;
  ma_InfrastructureRefName : string;
  ma_rest : string }.

(** An error of a reconciler: one of a client, a message, or errors.Wrap. *)
Inductive GoError :=
| FromAPI (e : APIError)
| Message (msg : string)
| Wrap (e : GoError) (msg : string).

(** crypto.Signer *)
Inductive Signer (K : Type) := RSAKey (k : K) | OtherKey.
Arguments RSAKey {K} k.
Arguments OtherKey {K}.

(** The libraries.  As in [Net], a [nat] numbers the calls whose outcome is not a
    function of the arguments. *)
Class Management (N : Net) := {
  client_Get_GoofyCluster : nat → NamespacedName → GoofyCluster + APIError;
  client_Get_GoofyMachine : nat → NamespacedName → GoofyMachine + APIError;
  client_List_GoofyClusters : nat → list GoofyCluster + APIError;
  (** the machines of a namespace with a label *)
  client_List_Machines : nat → string → string * string → list Machine + APIError;
  util_GetOwnerCluster : nat → ObjectMeta → option Cluster + APIError;
  util_GetOwnerMachine : nat → ObjectMeta → option Machine + APIError;
  util_GetClusterFromMetadata : nat → ObjectMeta → option Cluster + APIError;
  util_IsControlPlaneMachine : Machine → bool;
  conditions_IsTrue : Cluster → string → bool;
  annotations_IsPaused : Cluster → ObjectMeta → bool;
  clog_AddOwners : nat → GoofyMachine → option APIError;
  patch_NewHelper : nat → option APIError;
  patch_Patch : nat → option APIError;
  ContainsFinalizer : ObjectMeta → string → bool;
  AddFinalizer : ObjectMeta → string → ObjectMeta;
  RemoveFinalizer : ObjectMeta → string → ObjectMeta;
  (** secret.Get: the data of the secret of a cluster with a purpose *)
  secret_Get : nat → NamespacedName → string → gmap string string + APIError;
  DecodeCertPEM : string → Certificate + string;
  DecodePrivateKeyPEM : string → Signer PrivateKey + string;
  rand_Uint32 : nat → Z;
  (** the offset of the local time zone, in minutes *)
  local_offset : Z
}.

(** ** The world of the reconcilers *)
Section world.
Context {E : Env} {N : Net} {M : Management N}.

(** An object as it is handed to the patch helper. *)
Inductive Patched := PatchedCluster (c : GoofyCluster) | PatchedMachine (m : GoofyMachine).

Record world := mkWorld {
  w_CloudManager : runtime;
  w_APIServerMux : WorkloadClustersMux;
  w_hotRestartDone : bool;
  w_patches : list Patched;
  w_calls : nat }.

Definition w_set_CloudManager v (w : world) : world :=
  mkWorld v (w_APIServerMux w) (w_hotRestartDone w) (w_patches w) (w_calls w).
Definition w_set_APIServerMux v (w : world) : world :=
  mkWorld (w_CloudManager w) v (w_hotRestartDone w) (w_patches w) (w_calls w).
Definition w_set_hotRestartDone v (w : world) : world :=
  mkWorld (w_CloudManager w) (w_APIServerMux w) v (w_patches w) (w_calls w).
Definition w_set_patches v (w : world) : world :=
  mkWorld (w_CloudManager w) (w_APIServerMux w) (w_hotRestartDone w) v (w_calls w).
Definition w_set_calls v (w : world) : world :=
  mkWorld (w_CloudManager w) (w_APIServerMux w) (w_hotRestartDone w) (w_patches w) v.

(** The cache of the cloud manager. *)
Definition w_cache (w : world) : ccache := rt_cache (w_CloudManager w).

(** Programs on a part of the world. *)
Definition on_part {W A} (get : world → W) (set : W → world → world) (m : Go W A) : Go world A := λ w,
  match m (get w) with
  | Done a v => Done a (set v w)
  | Panicked msg => Panicked msg
  | OutOfFuel => OutOfFuel
  end.
Definition on_manager {A} (m : Go runtime A) : Go world A := on_part w_CloudManager w_set_CloudManager m.
Definition on_mux {A} (m : Go WorkloadClustersMux A) : Go world A :=
  on_part w_APIServerMux w_set_APIServerMux m.
(** A call of the client of a resource group. *)
Definition on_cloud {A} (m : Go ccache A) : Go world A := on_manager (on_cache m).

(** A call of a library. *)
Definition ext {A} (f : nat → A) : Go world A :=
  w ← go_get; _ ← go_put (w_set_calls (S (w_calls w)) w); mret (f (w_calls w)).

(** klog.KObj(obj).String() *)
Definition KObj_String (m : ObjectMeta) : string :=
  if decide (om_Namespace m = "") then om_Name m
  else om_Namespace m +:+ "/" +:+ om_Name m.

Definition zeroResult : Result := mkResult false 0.
Definition Result_IsZero (r : Result) : bool := negb (res_Requeue r) && (res_RequeueAfter r =? 0).

(** The deferred patch of both Reconcile methods: the object is sent in any case, and
    an error of it counts only when there is no other. *)
Definition deferredPatch (p : Patched) (r : Result * option GoError) : Go world (Result * option GoError) :=
  _ ← go_modify (λ w, w_set_patches (w_patches w ++ [p]) w);
  err ← ext patch_Patch;
  match err, r.2 with
  | Some err, None => mret (r.1, Some (FromAPI err))
  | _, _ => mret r
  end.

(** Steps that can fail, one after the other, up to the first error. *)
Definition andNext (s1 s2 : Go world (option GoError)) : Go world (option GoError) :=
  err ← s1;
  match err with
  | Some err => mret (Some err)
  | None => s2
  end.
End world.
Declare Scope goofy_scope.
Notation "s1 '>>' s2" := (andNext s1 s2) (at level 60, right associativity) : goofy_scope.

(** ** Lemmas *)
Section lemmas.
Context {E : Env} {N : Net} {M : Management N}.
Implicit Types w : world.

Lemma ext_eq {A} (f : nat → A) w : ext f w = Done (f (w_calls w)) (w_set_calls (S (w_calls w)) w).
Proof. done. Qed.

Lemma on_cloud_Done {A} (m : Go ccache A) w a c :
  m (w_cache w) = Done a c →
  on_cloud m w = Done a (w_set_CloudManager (rt_set_cache c (w_CloudManager w)) w).
Proof.
  intros Hm. unfold on_cloud, on_manager, on_part, on_cache. unfold w_cache in Hm. by rewrite Hm.
Qed.

Lemma on_mux_Done {A} (m : Go WorkloadClustersMux A) w a x :
  m (w_APIServerMux w) = Done a x → on_mux m w = Done a (w_set_APIServerMux x w).
Proof. intros Hm. unfold on_mux, on_part. by rewrite Hm. Qed.

Lemma andNext_eq (s1 s2 : Go world (option GoError)) w :
  andNext s1 s2 w = match s1 w with
    | Done (Some err) w' => Done (Some err) w'
    | Done None w' => s2 w'
    | Panicked msg => Panicked msg
    | OutOfFuel => OutOfFuel
    end.
Proof. unfold andNext. rewrite go_bind_eq. by destruct (s1 w) as [[e|] w'| |]. Qed.

(** The deferred patch sends the object, and changes nothing else but the number of
    calls; an error stays. *)
Lemma deferredPatch_eq p r w :
  ∃ e, deferredPatch p r w = Done (r.1, e)
      (w_set_calls (S (w_calls w)) (w_set_patches (w_patches w ++ [p]) w)) ∧
    (is_Some (r.2) → e = r.2) ∧ (patch_Patch (w_calls w) = None → e = r.2).
Proof.
  unfold deferredPatch. rewrite go_bind_eq. cbn [go_modify]. rewrite go_bind_eq, ext_eq.
  destruct r as [r [e|]]; cbn [fst snd w_calls w_set_patches].
  - exists (Some e). split; [by destruct (patch_Patch _)|]. by split.
  - destruct (patch_Patch (w_calls w)) as [e|]; cbn.
    + exists (Some (FromAPI e)). split; [done|]. split; [by intros []|done].
    + exists None. by split.
Qed.

Lemma KObj_String_nonempty m : om_Name m ≠ "" → KObj_String m ≠ "".
Proof.
  unfold KObj_String. intros Hn. case_decide as Hns; [done|]. destruct (om_Namespace m); [done|].
  by rewrite string_cons_app.
Qed.
End lemmas.

(** ** A concrete management cluster *)
(** It has the given GoofyClusters and machines; each is owned by a Cluster or a
    Machine of the same name, and CAs decode. *)
Definition owner_cluster (m : ObjectMeta) : Cluster := mkCluster m (Some (om_Name m)) true "".

Definition meta_is (req : NamespacedName) (m : ObjectMeta) : bool :=
  bool_decide (NN (om_Namespace m) (om_Name m) = req).
Definition find_meta {A} (meta : A → ObjectMeta) (req : NamespacedName) (kind : string) (l : list A)
  : A + APIError :=
  match List.find (λ a, meta_is req (meta a)) l with
  | Some a => inl a
  | None => inr (NotFound (mkGroupResource "infrastructure" kind) (NamespacedName_String req))
  end.

Definition test_secret : gmap string string := {["tls.crt" := "ca"; "tls.key" := "ca-key"]}.

Definition test_management (clusters : list GoofyCluster) (machines : list GoofyMachine)
    (controlPlane : bool) : Management test_net := {|
  client_Get_GoofyCluster _ req := find_meta gc_Meta req "goofyclusters" clusters;
  client_Get_GoofyMachine _ req := find_meta gm_Meta req "goofymachines" machines;
  client_List_GoofyClusters _ := inl clusters;
  client_List_Machines _ _ _ := inl [];
  util_GetOwnerCluster _ m := inl (Some (owner_cluster m));
  util_GetOwnerMachine _ m := inl (Some (mkMachine m (Some "bootstrap") (om_Name m) ""));
  util_GetClusterFromMetadata _ m := inl (Some (owner_cluster m));
  util_IsControlPlaneMachine _ := controlPlane;
  conditions_IsTrue _ _ := true;
  annotations_IsPaused _ _ := false;
  clog_AddOwners _ _ := None;
  patch_NewHelper _ := None;
  patch_Patch _ := None;
  ContainsFinalizer m f := bool_decide (f ∈ goslice_elems (om_Finalizers m));
  AddFinalizer m f := obj_meta (SetFinalizers (Some (goslice_elems (om_Finalizers m) ++ [f]))
    (mkObject (GVK "" "" "") m ConfigMap));
  RemoveFinalizer m f := obj_meta (SetFinalizers
    (Some (filter (λ g, g ≠ f) (goslice_elems (om_Finalizers m)))) (mkObject (GVK "" "" "") m ConfigMap));
  secret_Get _ _ _ := inl test_secret;
  DecodeCertPEM s := inl s;
  DecodePrivateKeyPEM s := inl (RSAKey s);
  rand_Uint32 n := Z.of_nat n mod 2 ^ 32;
  local_offset := 120
|}.
