(* ===== verification/ClusterController.v ===== *)
(** * The GoofyCluster controller: internal/controllers/goofycluster_controller.go

    Reconcile and its parts on the [world] of Management.v, and what a
    reconciliation establishes: the endpoint of a cluster, and its survival over a
    restart of the program. *)

From stdpp Require Import prelude gmap strings list relations.
From Stdlib Require Import ZArith Lia.
From S2P Require Import Prelude GoStd GoTime Api Runtime Cache TestEnv EventSource Controller Mux MuxFacts MuxRestart Management.
Local Open Scope Z_scope.

Definition ClusterFinalizer : string := "goofycluster.infrastructure.cluster.x-k8s.io".

Definition gc_set_Meta (m : ObjectMeta) (c : GoofyCluster) : GoofyCluster :=
  mkGoofyCluster m (gc_ControlPlaneEndpoint c) (gc_Ready c).
Definition gc_set_Endpoint (ep : APIEndpoint) (c : GoofyCluster) : GoofyCluster :=
  mkGoofyCluster (gc_Meta c) ep (gc_Ready c).
Definition gc_set_Ready (b : bool) (c : GoofyCluster) : GoofyCluster :=
  mkGoofyCluster (gc_Meta c) (gc_ControlPlaneEndpoint c) b.
Definition meta_set_Annotations (a : gomap string) (m : ObjectMeta) : ObjectMeta :=
  mkObjectMeta (om_Name m) (om_Namespace m) (om_Labels m) a (om_OwnerReferences m) (om_Finalizers m)
    (om_ResourceVersion m) (om_CreationTimestamp m) (om_DeletionTimestamp m) (om_rest m).

Section controller.
Context {E : Env} {N : Net} {M : Management N}.

(** ** The reconciler; each part gives back the object as it leaves it *)
Definition reconcileHotRestart : Go world (Result * option GoError) :=
  w ← go_get;
  if w_hotRestartDone w then mret (zeroResult, None) else
  l ← ext client_List_GoofyClusters;
  match l with
  | inr err => mret (zeroResult, Some (FromAPI err))
  | inl goofyClusterList =>
      err ← on_mux (HotRestart goofyClusterList);
      match err with
      | Some err => mret (zeroResult, Some (Message err))
      | None => _ ← go_modify (w_set_hotRestartDone true); mret (zeroResult, None)
      end
  end.

(** The assignment to an entry of a nil map of annotations panics. *)
Definition cluster_reconcileNormal (cluster : Cluster) (goofyCluster : GoofyCluster)
  : Go world (GoofyCluster * (Result * option GoError)) :=
  let resourceGroup := KObj_String (cl_Meta cluster) in
  match om_Annotations (gc_Meta goofyCluster) with
  | None => go_panic "assignment to entry in nil map"
  | Some annotations =>
  let goofyCluster := gc_set_Meta (meta_set_Annotations
    (Some (<[ResourceGroupAnnotationName := resourceGroup]> annotations)) (gc_Meta goofyCluster))
    goofyCluster in
  _ ← on_manager (Manager_AddResourceGroup resourceGroup);
  r ← on_mux (InitWorkloadClusterListener resourceGroup);
  match r with
  | inr err => mret (goofyCluster, (zeroResult,
      Some (Wrap (Message err) "failed to init the listener for the workload cluster")))
  | inl listener =>
      let goofyCluster :=
        if decide (ep_Host (gc_ControlPlaneEndpoint goofyCluster) = "")
        then gc_set_Endpoint (mkAPIEndpoint (wcl_host listener) (wcl_port listener)) goofyCluster
        else goofyCluster in
      mret (gc_set_Ready true goofyCluster, (zeroResult, None))
  end end.

Definition cluster_reconcileDelete (goofyCluster : GoofyCluster)
  : Go world (GoofyCluster * (Result * option GoError)) :=
  mret (gc_set_Meta (RemoveFinalizer (gc_Meta goofyCluster) ClusterFinalizer) goofyCluster,
        (zeroResult, None)).

(** What Reconcile does between the registration of the deferred patch and the patch. *)
Definition cluster_reconcileBody (cluster : Cluster) (goofyCluster : GoofyCluster)
  : Go world (GoofyCluster * (Result * option GoError)) :=
  if negb (ContainsFinalizer (gc_Meta goofyCluster) ClusterFinalizer) then
    mret (gc_set_Meta (AddFinalizer (gc_Meta goofyCluster) ClusterFinalizer) goofyCluster,
          (zeroResult, None))
  else if negb (TimePtr_IsZero (om_DeletionTimestamp (gc_Meta goofyCluster))) then
    cluster_reconcileDelete goofyCluster
  else cluster_reconcileNormal cluster goofyCluster.

Definition cluster_Reconcile (req : NamespacedName) : Go world (Result * option GoError) :=
  r ← ext (λ n, client_Get_GoofyCluster n req);
  match r with
  | inr err => mret (zeroResult, if IsNotFound err then None else Some (FromAPI err))
  | inl goofyCluster =>
  r ← ext (λ n, util_GetOwnerCluster n (gc_Meta goofyCluster));
  match r with
  | inr err => mret (zeroResult, Some (FromAPI err))
  | inl None => mret (zeroResult, None)
  | inl (Some cluster) =>
  err ← ext patch_NewHelper;
  match err with
  | Some err => mret (zeroResult, Some (FromAPI err))
  | None =>
  r ← reconcileHotRestart;
  if negb (Result_IsZero r.1) || bool_decide (is_Some r.2) then mret r else
  r ← cluster_reconcileBody cluster goofyCluster;
  deferredPatch (PatchedCluster r.1) r.2
  end end end.
End controller.

(** ** What a reconciliation establishes *)
Section facts.
Context {E : Env} {N : Net} {M : Management N}.
Implicit Types w : world.

Lemma AddResourceGroup_is_Some rg (c : ccache) :
  ∃ c', AddResourceGroup rg c = Done () c' ∧ is_Some (resourceGroups c' !! rg) ∧
    ∀ rg', is_Some (resourceGroups c !! rg') → resourceGroups c' !! rg' = resourceGroups c !! rg'.
Proof.
  unfold AddResourceGroup. rewrite go_bind_eq. cbn [go_get].
  destruct (resourceGroups c !! rg) as [t|] eqn:Ht.
  - exists c. rewrite Ht. by split.
  - eexists. split; [done|]. cbn. split; [rewrite lookup_insert_eq; by eexists|].
    intros rg' Hrg'. apply lookup_insert_ne. intros <-. rewrite Ht in Hrg'. by destruct Hrg'.
Qed.

(** The endpoint of a cluster after a reconciliation with a listener. *)
Definition endpoint_of (wcl : WorkloadClusterListener) (c : GoofyCluster) : APIEndpoint :=
  if decide (hr_host c = "") then mkAPIEndpoint (wcl_host wcl) (wcl_port wcl)
  else gc_ControlPlaneEndpoint c.

Lemma cluster_reconcileNormal_eq cluster c annotations w wcl m' :
  let rg := KObj_String (cl_Meta cluster) in
  om_Annotations (gc_Meta c) = Some annotations →
  InitWorkloadClusterListener rg (w_APIServerMux w) = Done (inl wcl) m' →
  ∃ w', cluster_reconcileNormal cluster c w =
      Done (mkGoofyCluster (meta_set_Annotations (Some (<[ResourceGroupAnnotationName := rg]> annotations))
          (gc_Meta c)) (endpoint_of wcl c) true, (zeroResult, None)) w' ∧
    w_APIServerMux w' = m' ∧ is_Some (resourceGroups (w_cache w') !! rg) ∧
    ∀ rg', is_Some (resourceGroups (w_cache w) !! rg') →
      resourceGroups (w_cache w') !! rg' = resourceGroups (w_cache w) !! rg'.
Proof.
  intros rg Ha Hinit. unfold cluster_reconcileNormal. rewrite Ha. fold rg.
  destruct (AddResourceGroup_is_Some rg (w_cache w)) as (c' & Hadd & Hrg & Hother).
  change (on_manager (Manager_AddResourceGroup rg)) with (on_cloud (AddResourceGroup rg)).
  rewrite go_bind_eq, (on_cloud_Done _ w () c' Hadd), go_bind_eq.
  erewrite on_mux_Done by exact Hinit.
  exists (w_set_APIServerMux m' (w_set_CloudManager (rt_set_cache c' (w_CloudManager w)) w)).
  split; [|done]. cbn. unfold endpoint_of, hr_host. by case_decide.
Qed.

(** One reconciliation of a new cluster, on a mux with a port left. *)
Lemma cluster_reconcileNormal_new host cluster c annotations w :
  let rg := KObj_String (cl_Meta cluster) in
  mux_reachable host (w_APIServerMux w) → om_Annotations (gc_Meta c) = Some annotations →
  hr_host c = "" → mx_portIndex (w_APIServerMux w) <= maxPort →
  ∃ c' w' wcl, cluster_reconcileNormal cluster c w = Done (c', (zeroResult, None)) w' ∧
    c' = mkGoofyCluster (meta_set_Annotations (Some (<[ResourceGroupAnnotationName := rg]> annotations))
          (gc_Meta c)) (mkAPIEndpoint host (wcl_port wcl)) true ∧
    is_Some (resourceGroups (w_cache w') !! rg) ∧ restorable host c' ∧ gc_annotation c' = Some rg ∧
    mux_reachable host (w_APIServerMux w') ∧
    workloadClusterListeners (w_APIServerMux w') !! rg = Some wcl ∧ wcl_host wcl = host ∧
    InitWorkloadClusterListener rg (w_APIServerMux w') = Done (inl wcl) (w_APIServerMux w') ∧
    workloadClusterListeners (w_APIServerMux w) ⊆ workloadClusterListeners (w_APIServerMux w') ∧
    (workloadClusterListeners (w_APIServerMux w) !! rg = None → wcl_listener wcl = None ∧ apiServers wcl = ∅) ∧
    mx_portIndex (w_APIServerMux w') <= mx_portIndex (w_APIServerMux w) + 1.
Proof.
  intros rg Hreach Ha Hnew Hsize.
  destruct (init_listener_free host _ rg Hreach Hsize) as (wcl & m' & Hinit & Hagain & Hl & Hsub & Hs).
  destruct (cluster_reconcileNormal_eq cluster c annotations w wcl m' Ha Hinit)
    as (w' & Hrun & <- & Hgroup & _).
  assert (Hreach' : mux_reachable host (w_APIServerMux w'))
    by (eapply mux_reachable_call; [exact Hreach|by eapply step_init]).
  destruct (mux_reachable_fresh _ _ Hreach') as [[Hok _ _ _] Hh _ _ _ Hp].
  destruct (Hok _ _ Hl) as [Hwh _]. rewrite Hh in Hwh.
  assert (Hep : endpoint_of wcl c = mkAPIEndpoint host (wcl_port wcl)).
  { unfold endpoint_of. by rewrite Hnew, Hwh. }
  rewrite Hep in Hrun. do 2 eexists. exists wcl. split; [exact Hrun|].
  assert (Hann : gc_annotation (mkGoofyCluster (meta_set_Annotations
    (Some (<[ResourceGroupAnnotationName := rg]> annotations)) (gc_Meta c))
    (mkAPIEndpoint host (wcl_port wcl)) true) = Some rg) by apply lookup_insert_eq.
  split; [done|]. split; [done|]. split; [|done]. split; [done|].
  split; [by eapply Hp|]. eexists. exact Hann.
Qed.

(** Reconciling a cluster gives it its infrastructure: on a mux in any reachable
    state with a port left, a GoofyCluster with a map of annotations and without an
    endpoint gets the resource group of its Cluster, in the annotation and in the
    cache, the address of a listener of its own as endpoint, and is ready; doing it
    again gives the same object and changes neither the mux nor a resource group. *)
Theorem cluster_reconciled_once host cluster c annotations w :
  let rg := KObj_String (cl_Meta cluster) in
  mux_reachable host (w_APIServerMux w) → host ≠ "" →
  om_Annotations (gc_Meta c) = Some annotations → hr_host c = "" →
  mx_portIndex (w_APIServerMux w) <= maxPort →
  ∃ c' w', cluster_reconcileNormal cluster c w = Done (c', (zeroResult, None)) w' ∧
    gc_Ready c' = true ∧ gc_annotation c' = Some rg ∧
    is_Some (resourceGroups (w_cache w') !! rg) ∧
    restorable host c' ∧ mux_reachable host (w_APIServerMux w') ∧
    resourceGroupResolver (w_APIServerMux w') (HostPort_of (hr_host c') (hr_port c')) = inl rg ∧
    ∃ w'', cluster_reconcileNormal cluster c' w' = Done (c', (zeroResult, None)) w'' ∧
      w_APIServerMux w'' = w_APIServerMux w' ∧
      ∀ rg', is_Some (resourceGroups (w_cache w') !! rg') →
        resourceGroups (w_cache w'') !! rg' = resourceGroups (w_cache w') !! rg'.
Proof.
  intros rg Hreach Hhost Ha Hnew Hsize.
  destruct (cluster_reconcileNormal_new host cluster c annotations w Hreach Ha Hnew Hsize)
    as (c' & w' & wcl & Hrun & Hc' & Hgroup & Hrest & Hann & Hreach' & Hl & Hwh & Hagain & _).
  exists c', w'. split; [exact Hrun|]. split; [by rewrite Hc'|]. do 4 (split; [done|]). split.
  - destruct (mux_reachable_fresh _ _ Hreach') as [[_ _ Hb _] _ _ _ _ _].
    unfold resourceGroupResolver, hr_host, hr_port. rewrite Hc'. cbn.
    assert (Hhp : HostPort wcl = HostPort_of host (wcl_port wcl)) by (unfold HostPort; by rewrite Hwh).
    by rewrite (proj2 (Hb _ rg) (ex_intro _ wcl (conj Hl Hhp))).
  - destruct (cluster_reconcileNormal_eq cluster c' (<[ResourceGroupAnnotationName := rg]> annotations)
      w' wcl (w_APIServerMux w')) as (w'' & Hrun' & Hm'' & _ & Hsame); [by rewrite Hc'|exact Hagain|].
    assert (Hsame_ep : endpoint_of wcl c' = gc_ControlPlaneEndpoint c').
    { unfold endpoint_of, hr_host. rewrite Hc'. by apply decide_False. }
    rewrite Hsame_ep, insert_insert_eq in Hrun'. exists w''. split; [|by rewrite Hm''].
    rewrite Hrun'. by rewrite Hc'.
Qed.

(** New clusters reconciled one after the other. *)
Fixpoint cluster_reconcileAll (l : list (Cluster * GoofyCluster)) : Go world (list GoofyCluster) :=
  match l with
  | [] => mret []
  | (cluster, c) :: l =>
      r ← cluster_reconcileNormal cluster c;
      cs ← cluster_reconcileAll l;
      mret (r.1 :: cs)
  end.

Definition new_cluster (p : Cluster * GoofyCluster) : Prop :=
  is_Some (om_Annotations (gc_Meta p.2)) ∧ hr_host p.2 = "".
Definition group_of (p : Cluster * GoofyCluster) : string := KObj_String (cl_Meta p.1).

(** What a reconciled cluster says is what the mux has. *)
Definition served host m (p : Cluster * GoofyCluster) (c' : GoofyCluster) : Prop :=
  restorable host c' ∧ gc_annotation c' = Some (group_of p) ∧
  ∃ wcl, workloadClusterListeners m !! group_of p = Some wcl ∧ wcl_port wcl = hr_port c'.

Lemma served_weaken host m m' p c' :
  workloadClusterListeners m ⊆ workloadClusterListeners m' → served host m p c' → served host m' p c'.
Proof.
  intros Hsub (Hr & Ha & wcl & Hl & Hp). do 2 (split; [done|]). exists wcl. split; [|done].
  by eapply lookup_weaken.
Qed.

Lemma cluster_reconcileAll_ok host l : ∀ w,
  mux_reachable host (w_APIServerMux w) → (∀ p, p ∈ l → new_cluster p) →
  mx_portIndex (w_APIServerMux w) + Z.of_nat (length l) <= maxPort + 1 →
  ∃ cs w', cluster_reconcileAll l w = Done cs w' ∧ mux_reachable host (w_APIServerMux w') ∧
    workloadClusterListeners (w_APIServerMux w) ⊆ workloadClusterListeners (w_APIServerMux w') ∧
    Forall2 (served host (w_APIServerMux w')) l cs.
Proof.
  induction l as [|[cluster c] l IH]; intros w Hreach Hnew Hsize.
  { exists [], w. split; [done|]. split; [done|]. split; [done|constructor]. }
  destruct (Hnew (cluster, c)) as [[annotations Ha] Hh]; [by left|]. cbn [length] in Hsize.
  destruct (cluster_reconcileNormal_new host cluster c annotations w Hreach Ha Hh)
    as (c' & w1 & wcl & Hrun & Hc' & _ & Hrest & Hann & Hreach1 & Hl & _ & _ & Hsub & _ & Hs); [lia|].
  destruct (IH w1 Hreach1) as (cs & w2 & Hrun2 & Hreach2 & Hsub2 & Hall); [by intros; apply Hnew; right|lia|].
  exists (c' :: cs), w2. cbn [cluster_reconcileAll]. rewrite go_bind_eq, Hrun, go_bind_eq, Hrun2.
  split; [done|]. split; [done|]. split; [by etrans|]. constructor; [|done].
  eapply served_weaken; [exact Hsub2|]. split; [done|]. split; [done|]. exists wcl. split; [done|].
  by rewrite Hc'.
Qed.

(** Served clusters of different groups have different ports and annotations. *)
Lemma served_NoDup host m l cs :
  mux_ok m → Forall2 (served host m) l cs → NoDup (group_of <$> l) →
  NoDup (hr_port <$> cs) ∧ NoDup (gc_annotation <$> cs).
Proof.
  intros Hok Hall. induction Hall as [|p c l cs (Hr & Ha & wcl & Hl & Hp) Hall IH]; intros Hnd.
  { split; constructor. }
  cbn in Hnd. apply NoDup_cons in Hnd as [Hnot Hnd]. destruct (IH Hnd) as [IH1 IH2].
  assert (Hother : ∀ d, d ∈ cs → ∃ g wcl', g ≠ group_of p ∧ gc_annotation d = Some g ∧
    workloadClusterListeners m !! g = Some wcl' ∧ wcl_port wcl' = hr_port d).
  { intros d (i & Hd)%list_elem_of_lookup. destruct (Forall2_lookup_r _ _ _ _ _ Hall Hd)
      as (q & Hq & _ & Hdg & wcl' & Hl' & Hp'). exists (group_of q), wcl'. split; [|done].
    intros Heq. apply Hnot. rewrite <- Heq. by eapply list_elem_of_fmap_2, list_elem_of_lookup_2. }
  split; rewrite fmap_cons; apply NoDup_cons; (split; [|done]); intros (d & Heq & Hd)%list_elem_of_fmap;
    destruct (Hother d Hd) as (g & wcl' & Hne & Hdg & Hl' & Hp').
  - apply Hne. eapply (ok_unique _ Hok); [done..|]. by rewrite Hp', Hp.
  - apply Hne. rewrite Hdg, Ha in Heq. by injection Heq.
Qed.

(** C30: endpoints survive a restart of the program: after the reconciliations of any
    number of new clusters with different resource groups, in the range of ports, a
    hot restart of a new mux from the GoofyClusters they left succeeds and maps the
    endpoint of each to the resource group it had. *)
Theorem restart_restores_reconciled host l w :
  host ≠ "" → w_APIServerMux w = NewWorkloadClustersMux host → (length l <= 4001)%nat →
  (∀ p, p ∈ l → new_cluster p) → NoDup (group_of <$> l) →
  ∃ cs w' m, cluster_reconcileAll l w = Done cs w' ∧
    HotRestart cs (NewWorkloadClustersMux host) = Done None m ∧
    size (workloadClusterListeners m) = length l ∧
    Forall2 (λ p c, gc_annotation c = Some (group_of p) ∧
      resourceGroupResolver (w_APIServerMux w') (HostPort_of (hr_host c) (hr_port c)) = inl (group_of p) ∧
      resourceGroupResolver m (HostPort_of (hr_host c) (hr_port c)) = inl (group_of p)) l cs.
Proof.
  intros Hhost Hw Hlen Hnew Hnd.
  destruct (cluster_reconcileAll_ok host l w) as (cs & w' & Hrun & Hreach & _ & Hall);
    [by rewrite Hw; apply rtc_refl|done|by rewrite Hw; cbn; unfold minPort, maxPort; lia|].
  destruct (mux_reachable_fresh _ _ Hreach) as [Hok Hh _ _ _ _].
  destruct (served_NoDup _ _ _ _ Hok Hall Hnd) as [Hports Hanns].
  assert (Hserved : ∀ c, c ∈ cs → restorable host c).
  { intros c (i & Hc)%list_elem_of_lookup.
    by destruct (Forall2_lookup_r _ _ _ _ _ Hall Hc) as (p & _ & Hr & _). }
  assert (Hkept : restored cs = cs).
  { apply restored_all. intros c Hc. destruct (Hserved c Hc) as [-> _]. done. }
  destruct (HotRestart_ok host cs) as (m & Hm & [_ Hsize Hres _]); [split; by rewrite Hkept|].
  exists cs, w', m. split; [done|]. split; [done|].
  split; [by rewrite Hsize, Hkept, (Forall2_length _ _ _ Hall)|].
  apply Forall2_same_length_lookup. split; [by eapply Forall2_length|].
  intros i p c Hp Hc. destruct (Forall2_lookup_lr _ _ _ _ _ _ Hall Hp Hc) as ((Hch & _) & Ha & wcl & Hl & Hwp).
  split; [done|]. destruct (Hres c) as (n & Hn & Hr); [rewrite Hkept; by eapply list_elem_of_lookup_2|].
  rewrite Ha in Hn. injection Hn as <-. split; [|done]. unfold resourceGroupResolver.
  rewrite (proj2 (ok_byHost _ Hok _ (group_of p))); [done|]. exists wcl. split; [done|].
  unfold HostPort. by rewrite (proj1 (ok_listener _ Hok _ _ Hl)), Hh, Hwp, Hch.
Qed.

(** ** Reconcile after a hot restart that failed *)
(** No hot restart done, and listeners that stop every further one. *)
Definition blocked w : Prop :=
  w_hotRestartDone w = false ∧ workloadClusterListeners (w_APIServerMux w) ≠ ∅.

(** Nothing but calls of libraries. *)
Definition untouched w w' : Prop :=
  w_CloudManager w' = w_CloudManager w ∧ w_APIServerMux w' = w_APIServerMux w ∧
  w_hotRestartDone w' = w_hotRestartDone w ∧ w_patches w' = w_patches w.

#[local] Instance untouched_preorder : PreOrder untouched.
Proof.
  split; [by intros w|]. unfold untouched. intros w1 w2 w3 (? & ? & ? & ?) (? & ? & ? & ?).
  repeat split; congruence.
Qed.

Lemma untouched_ext n w : untouched w (w_set_calls n w).
Proof. done. Qed.

Lemma blocked_untouched w w' : untouched w w' → blocked w → blocked w'.
Proof. intros (_ & Hm & Hd & _) [Hdone Hne]. split; congruence. Qed.

Lemma reconcileHotRestart_blocked w :
  blocked w → (∀ n, client_List_GoofyClusters n ≠ inl []) →
  ∃ e w', reconcileHotRestart w = Done (zeroResult, Some e) w' ∧ untouched w w'.
Proof.
  intros [Hdone Hne] Hlist. unfold reconcileHotRestart. rewrite go_bind_eq. cbn [go_get]. rewrite Hdone.
  rewrite go_bind_eq, ext_eq. destruct (client_List_GoofyClusters (w_calls w)) as [l|e] eqn:Hl.
  - rewrite go_bind_eq. erewrite on_mux_Done.
    2: { apply (HotRestart_refused l); [intros ->; by apply (Hlist (w_calls w))|exact Hne]. }
    do 2 eexists. split; [done|]. by destruct w.
  - do 2 eexists. split; [done|]. by apply untouched_ext.
Qed.

Lemma reconcileHotRestart_zero w r e w' : reconcileHotRestart w = Done (r, e) w' → r = zeroResult.
Proof.
  unfold reconcileHotRestart. rewrite go_bind_eq. cbn [go_get].
  destruct (w_hotRestartDone w); [by intros [= <-]|]. rewrite go_bind_eq, ext_eq.
  destruct (client_List_GoofyClusters _) as [l|]; [|by intros [= <-]]. rewrite go_bind_eq.
  by destruct (on_mux _ _) as [[e'|] w1| |]; intros [= <-].
Qed.

(** A Reconcile of a blocked reconciler does nothing, and fails where the cluster is
    there and has an owner. *)
Lemma cluster_Reconcile_blocked req w :
  blocked w → (∀ n, client_List_GoofyClusters n ≠ inl []) →
  ∃ r w', cluster_Reconcile req w = Done r w' ∧ untouched w w' ∧
    (∀ c cluster, client_Get_GoofyCluster (w_calls w) req = inl c →
       util_GetOwnerCluster (S (w_calls w)) (gc_Meta c) = inl (Some cluster) → is_Some r.2).
Proof.
  intros Hb Hlist. unfold cluster_Reconcile. rewrite go_bind_eq, ext_eq.
  destruct (client_Get_GoofyCluster (w_calls w) req) as [c|e] eqn:Hget.
  2: { do 2 eexists. split; [done|]. by split. }
  rewrite go_bind_eq, ext_eq. cbn [w_calls w_set_calls].
  destruct (util_GetOwnerCluster _ _) as [[cluster|]|e] eqn:Howner; cycle 1.
  { do 2 eexists. split; [done|]. split; [done|]. intros c' cl [= <-]. congruence. }
  { do 2 eexists. split; [done|]. split; [done|]. intros c' cl [= <-]. congruence. }
  rewrite go_bind_eq, ext_eq. destruct (patch_NewHelper _) as [e|].
  { do 2 eexists. split; [done|]. split; [done|]. intros. by eexists. }
  rewrite go_bind_eq. set (w1 := w_set_calls _ _).
  assert (Hw1 : untouched w w1) by done.
  destruct (reconcileHotRestart_blocked w1 (blocked_untouched _ _ Hw1 Hb) Hlist) as (e & w2 & -> & Hw2).
  cbn. do 2 eexists. split; [done|]. split; [by etrans|]. intros. by eexists.
Qed.

(** A hot restart that fails after it has restored a cluster stops the program's
    clusters for good: as long as there is any GoofyCluster, no later reconciliation
    patches a cluster, creates a resource group or a listener, and each one of a
    cluster that exists and has an owner fails. *)
Theorem failed_hot_restart_blocks host c clusters w w1 err :
  w_hotRestartDone w = false → w_APIServerMux w = NewWorkloadClustersMux host →
  host ≠ "" → restorable host c → client_List_GoofyClusters (w_calls w) = inl (c :: clusters) →
  (∀ n, client_List_GoofyClusters n ≠ inl []) →
  reconcileHotRestart w = Done (zeroResult, Some err) w1 →
  ∀ w2, rtc (λ a b, ∃ req r, cluster_Reconcile req a = Done r b) w1 w2 →
    w_patches w2 = w_patches w ∧ w_CloudManager w2 = w_CloudManager w ∧
    w_APIServerMux w2 = w_APIServerMux w1 ∧
    ∀ req, ∃ r w3, cluster_Reconcile req w2 = Done r w3 ∧ untouched w2 w3 ∧
      (∀ c' cluster, client_Get_GoofyCluster (w_calls w2) req = inl c' →
         util_GetOwnerCluster (S (w_calls w2)) (gc_Meta c') = inl (Some cluster) → is_Some r.2).
Proof.
  intros Hdone Hm Hhost Hc Hl Hlist Hrun.
  assert (Hb : blocked w1 ∧ w_patches w1 = w_patches w ∧ w_CloudManager w1 = w_CloudManager w).
  { unfold reconcileHotRestart in Hrun. rewrite go_bind_eq in Hrun. cbn [go_get] in Hrun.
    rewrite Hdone, go_bind_eq, ext_eq, Hl, go_bind_eq in Hrun.
    unfold on_mux, on_part in Hrun. cbn [w_APIServerMux w_set_calls] in Hrun. rewrite Hm in Hrun.
    destruct (HotRestart (c :: clusters) (NewWorkloadClustersMux host)) as [[e|] m| |] eqn:Hhr; [|done..].
    injection Hrun as _ <-. split; [|done]. split; [done|]. by eapply HotRestart_failed. }
  destruct Hb as (Hb & Hp & Hcm). intros w2 Hsteps.
  assert (Hun : untouched w1 w2).
  { clear Hp Hcm Hrun. induction Hsteps as [w1|w1 w1' w2 (req & r & Hstep) _ IH]; [done|].
    destruct (cluster_Reconcile_blocked req w1 Hb Hlist) as (r' & w' & Hrun' & Hun & _).
    rewrite Hstep in Hrun'. injection Hrun' as <- <-. etrans; [exact Hun|].
    apply IH. by eapply blocked_untouched. }
  destruct (Hun) as (Hu1 & Hu2 & _ & Hu4). split; [congruence|]. split; [congruence|]. split; [done|].
  intros req. apply cluster_Reconcile_blocked; [by eapply blocked_untouched|done].
Qed.
End facts.

(** ** Concrete clusters and worlds *)
Definition test_world (m : WorkloadClustersMux) : world := mkWorld Manager_New m false [] 0.
Definition annotated_meta (name : string) : ObjectMeta :=
  mkObjectMeta name "default" None (Some ∅) None None "" 0 None "".
Definition unreconciled (name : string) : Cluster * GoofyCluster :=
  (owner_cluster (annotated_meta name), mkGoofyCluster (annotated_meta name) (mkAPIEndpoint "" 0) false).

Section witnesses.
Let N : Net := test_net.
Let M : Management test_net := test_management [] [] true.
Local Existing Instance M.

Lemma cluster_reconciled_once_witness :
  ∃ c' w', cluster_reconcileNormal (unreconciled "c").1 (unreconciled "c").2 (test_world test_mux3) =
    Done (c', (zeroResult, None)) w' ∧ gc_Ready c' = true.
Proof.
  destruct (cluster_reconciled_once "10.0.0.1" (unreconciled "c").1 (unreconciled "c").2 ∅
    (test_world test_mux3) test_mux_reachable) as (c' & w' & Hrun & Hready & _).
  - done.
  - reflexivity.
  - reflexivity.
  - exact test_mux_port.
  - by exists c', w'.
Defined.

Lemma restart_restores_reconciled_witness :
  ∃ cs m, HotRestart cs (NewWorkloadClustersMux "10.0.0.1") = Done None m ∧
    size (workloadClusterListeners m) = 2%nat.
Proof.
  destruct (restart_restores_reconciled "10.0.0.1" [unreconciled "a"; unreconciled "b"]
    (test_world (NewWorkloadClustersMux "10.0.0.1"))) as (cs & w' & m & _ & Hm & Hs & _).
  - done.
  - done.
  - cbn. lia.
  - intros p Hp. apply elem_of_cons in Hp as [->|Hp%list_elem_of_singleton]; [|rewrite Hp];
      (split; [by eexists|reflexivity]).
  - vm_decide.
  - by exists cs, m.
Defined.
End witnesses.

Section blocked_witness.
Let N : Net := test_net.
Let M : Management test_net := test_management [cluster_a; cluster_bare] [] true.
Local Existing Instance M.
Let w0 := test_world (NewWorkloadClustersMux "10.0.0.1").

Lemma failed_hot_restart_blocks_witness :
  ∃ err w1 r w2, reconcileHotRestart w0 = Done (zeroResult, Some err) w1 ∧
    cluster_Reconcile (NN "default" "a") w1 = Done r w2 ∧ is_Some r.2.
Proof.
  destruct (reconcileHotRestart w0) as [[r [err|]] w1| |] eqn:Hrun.
  2, 3, 4: exfalso; assert (Hok : match reconcileHotRestart w0 with
      Done (_, Some _) _ => true | _ => false end = true) by (by vm_compute); by rewrite Hrun in Hok.
  assert (Hr := reconcileHotRestart_zero _ _ _ _ Hrun). cbn in Hr.
  destruct (failed_hot_restart_blocks "10.0.0.1" cluster_a [cluster_bare] w0 w1 err)
    with (w2 := w1) as (_ & _ & _ & Hall); [done|done|done|exact restorable_a|done|done|by rewrite Hrun, Hr|done|].
  destruct (Hall (NN "default" "a")) as (r' & w2 & Hrun' & _ & Herr).
  exists err, w1, r', w2. split; [by rewrite Hr|]. split; [done|]. by eapply Herr.
Defined.
End blocked_witness.
