(* ===== verification/RestartLock.v ===== *)
(** * Concurrent hot restarts: reconcileHotRestart with its locks

    The reconciler of clusters runs as several goroutines, which share hotRestartDone
    and the multiplexer.  Here reconcileHotRestart is the program of goofycluster_controller.go
    with its double check under hotRestartLock; goroutines that run it at once do what
    [reconcileHotRestart] of ClusterController.v does one after the other. *)

From stdpp Require Import prelude gmap strings list relations.
From Stdlib Require Import ZArith Lia.
From S2P Require Import Prelude GoStd GoTime Api Runtime Cache TestEnv EventSource Controller Mux MuxFacts MuxRestart Management.
From S2P Require Import ClusterController Sync SyncSerial LockOrder.

Section restart.
Context {E : Env} {N : Net} {M : Management N}.
Implicit Types w : world.
Abbreviation outcome := (Result * option GoError)%type.
Abbreviation program A := (prog LockId world A).

(** A call of a Go function that returns, in one step. *)
Definition calls_go {A} (m : Go world A) (otherwise : A) : program A :=
  Do (λ w, match m w with Done _ w' => w' | _ => w end)
     (λ w, Ret match m w with Done a _ => a | _ => otherwise end).

(** HotRestart, with the lock of the multiplexer. *)
Definition HotRestart_locked (clusters : list GoofyCluster) : program (option string) :=
  match clusters with
  | [] => mret None
  | _ => locked MuxLock (calls_go (on_mux (HotRestart clusters)) None)
  end.

(** The write lock is taken after the read lock was given back, so the flag is read
    again. *)
Definition reconcileHotRestart_locked : program outcome :=
  finished ← rlocked HotRestartLock (reads w_hotRestartDone);
  if finished : bool then mret (zeroResult, None) else
  locked HotRestartLock (
    finished ← reads w_hotRestartDone;
    if finished : bool then mret (zeroResult, None) else
    l ← calls_go (ext client_List_GoofyClusters) (inl []);
    match l with
    | inr err => mret (zeroResult, Some (FromAPI err))
    | inl goofyClusterList =>
        err ← HotRestart_locked goofyClusterList;
        match err with
        | Some err => mret (zeroResult, Some (Message err))
        | None => _ ← does (w_set_hotRestartDone true); mret (zeroResult, None)
        end
    end).

(** ** They return *)
Lemma hotRestartLoop_returns clusters : ∀ mp m, ∃ r m', hotRestartLoop ∅ clusters mp m = Done r m'.
Proof.
  induction clusters as [|c clusters IH]; intros mp m; cbn [hotRestartLoop]; [by do 2 eexists|].
  case_decide; [apply IH|]. rewrite go_bind_eq. cbn [go_get].
  destruct (negb _); [by do 2 eexists|]. rewrite decide_False by set_solver.
  destruct (gc_annotation c) as [g|]; [|by do 2 eexists]. rewrite go_bind_eq, initWithPort_eq. apply IH.
Qed.
Lemma HotRestart_returns clusters m : ∃ r m', HotRestart clusters m = Done r m'.
Proof.
  destruct clusters as [|c clusters]; [by do 2 eexists|]. unfold HotRestart. rewrite go_bind_eq. cbn [go_get].
  destruct (negb _); [by do 2 eexists|]. rewrite go_bind_eq.
  destruct (hotRestartLoop_returns (c :: clusters) (mx_minPort m - 1)%Z m) as ([mp [e|]] & m' & ->); by do 2 eexists.
Qed.
Lemma on_mux_HotRestart_returns clusters w : ∃ r m', on_mux (HotRestart clusters) w = Done r (w_set_APIServerMux m' w).
Proof.
  destruct (HotRestart_returns clusters (w_APIServerMux w)) as (r & m' & H). exists r, m'. by apply on_mux_Done.
Qed.

(** One call, at once. *)
Definition restarts (w : world) (r : outcome) (w' : world) : Prop := reconcileHotRestart w = Done r w'.
Lemma restarts_done w : w_hotRestartDone w = true → restarts w (zeroResult, None) w.
Proof. intros Hdone. unfold restarts, reconcileHotRestart. rewrite go_bind_eq. cbn [go_get]. by rewrite Hdone. Qed.
Lemma restarts_error w e : w_hotRestartDone w = false → client_List_GoofyClusters (w_calls w) = inr e →
  restarts w (zeroResult, Some (FromAPI e)) (w_set_calls (S (w_calls w)) w).
Proof.
  intros Hdone Hl. unfold restarts, reconcileHotRestart. rewrite go_bind_eq. cbn [go_get].
  by rewrite Hdone, go_bind_eq, ext_eq, Hl.
Qed.
Lemma restarts_restart w l r w2 :
  w_hotRestartDone w = false → client_List_GoofyClusters (w_calls w) = inl l →
  on_mux (HotRestart l) (w_set_calls (S (w_calls w)) w) = Done r w2 →
  match r with
  | Some e => restarts w (zeroResult, Some (Message e)) w2
  | None => restarts w (zeroResult, None) (w_set_hotRestartDone true w2)
  end.
Proof.
  intros Hdone Hl Hr. unfold restarts, reconcileHotRestart. rewrite go_bind_eq. cbn [go_get].
  rewrite Hdone, go_bind_eq, ext_eq, Hl, go_bind_eq, Hr. by destruct r.
Qed.

(** The program does what the function does. *)
Definition restarts_once (_ : ()) (w : world) (r : outcome) (w' : world) : Prop := restarts w r w'.
Abbreviation obeys := (follows (A := outcome) restarts_once HotRestartLock (λ _, True) (λ _, True)).
Abbreviation restart_client := (ask tt : client () outcome outcome).
Lemma returns_follow r : obeys (Return r) Between (Ret r).
Proof. split; [done|]. intros w _. reflexivity. Qed.
Lemma restarts_answers w r w' : restarts w r w' → rtc (answered restarts_once) (w, restart_client) (w', Return r).
Proof. intros Hr. by apply (answers_once restarts_once). Qed.
Lemma HotRestart_locked_follows w w1 l (k1 k2 : _ → program outcome) :
  (∀ r w2, on_mux (HotRestart l) w1 = Done r w2 → obeys restart_client (Writes w w2) (k1 r ≫= k2)) →
  obeys restart_client (Writes w w1) ((HotRestart_locked l ≫= k1) ≫= k2).
Proof.
  intros Hk. destruct l as [|c l].
  - apply Hk. unfold on_mux, on_part. cbn. by destruct w1.
  - destruct (on_mux_HotRestart_returns (c :: l) w1) as (r & m' & Hr).
    unfold HotRestart_locked, locked, calls_go. cbn -[HotRestart on_mux]. rewrite Hr. split; [done|]. by apply Hk.
Qed.
Lemma reconcileHotRestart_follows : obeys restart_client Between reconcileHotRestart_locked.
Proof.
  cbn. intros w _. split; [done|]. exists w. destruct (w_hotRestartDone w) eqn:Hdone; cbn.
  { exists (Return (zeroResult, None)). split; [done|]. split; [by apply restarts_answers, restarts_done|by apply returns_follow]. }
  exists restart_client. split; [done|]. split; [reflexivity|].
  clear w Hdone. intros w _. split; [done|]. destruct (w_hotRestartDone w) eqn:Hdone; cbn.
  { exists w, w, (Return (zeroResult, None)).
    split; [done|]. split; [by apply restarts_answers, restarts_done|]. split; [done|by apply returns_follow]. }
  split; [done|]. rewrite !ext_eq. destruct (client_List_GoofyClusters (w_calls w)) as [l|e] eqn:Hl.
  - apply HotRestart_locked_follows. intros r w2 Hr. pose proof (restarts_restart _ _ _ _ Hdone Hl Hr) as Ha.
    destruct r as [e|]; cbn; [|split; [done|]]; do 3 eexists;
      (split; [reflexivity|]; split; [by apply restarts_answers, Ha|]; split; [done|by apply returns_follow]).
  - exists w, (w_set_calls (S (w_calls w)) w), (Return (zeroResult, Some (FromAPI e))).
    split; [done|]. split; [by apply restarts_answers, restarts_error|]. split; [done|by apply returns_follow].
Qed.
Lemma reconcileHotRestart_ordered : ordered lock_rank (lock_ro false) once [] reconcileHotRestart_locked.
Proof.
  apply neutral_bind; [by apply neutral_rlocked|]. intros []; [by apply neutral_ret|].
  apply neutral_locked; [done..|]. apply neutral_bind; [easy|]. intros []; [easy|].
  apply neutral_bind; [easy|]. intros [l|e]; [|easy].
  apply neutral_bind; [|by intros []]. destruct l; [easy|]. by apply neutral_locked.
Qed.

(** *** Properties *)
(** What goroutines that reconcile the hot restart do one after the other. *)
Fixpoint one_by_one w (log : list (nat * outcome)) w' : Prop :=
  match log with
  | [] => w = w'
  | (_, r) :: log => ∃ w1, reconcileHotRestart w = Done r w1 ∧ one_by_one w1 log w'
  end.
Lemma replays_one_by_one qs w log w' : replays restarts_once qs w log w' → one_by_one w log w'.
Proof. revert w. induction log as [|[i r] log IH]; [done|]. intros w (q & w1 & _ & Hr & Hlog). exists w1. auto. Qed.
(** Done once, it stays done, and nothing changes any more. *)
Lemma one_by_one_done w log w' :
  w_hotRestartDone w = true → one_by_one w log w' → w' = w ∧ ∀ i r, (i, r) ∈ log → r = (zeroResult, None).
Proof.
  intros Hdone. induction log as [|[i r] log IH]; cbn.
  - intros <-. split; [done|]. intros i r Hin. by apply not_elem_of_nil in Hin.
  - intros (w1 & Hr & Hlog). unfold reconcileHotRestart in Hr. rewrite go_bind_eq in Hr. cbn [go_get] in Hr.
    rewrite Hdone in Hr. injection Hr as <- <-. destruct (IH Hlog) as [-> Hall]. split; [done|].
    intros j r [[= -> ->]|Hin]%elem_of_cons; [done|by eapply Hall].
Qed.
Lemma reconcileHotRestart_ok w w1 : reconcileHotRestart w = Done (zeroResult, None) w1 → w_hotRestartDone w1 = true.
Proof.
  unfold reconcileHotRestart. rewrite go_bind_eq. cbn [go_get].
  destruct (w_hotRestartDone w) eqn:Hdone; [by intros [= <-]|]. rewrite go_bind_eq, ext_eq.
  destruct (client_List_GoofyClusters _) as [l|]; [|done]. rewrite go_bind_eq.
  destruct (on_mux_HotRestart_returns l (w_set_calls (S (w_calls w)) w)) as ([e|] & m' & ->); [done|].
  by intros [= <-].
Qed.
Lemma one_by_one_ok w l1 i l2 w' :
  one_by_one w (l1 ++ (i, (zeroResult, None)) :: l2) w' →
  one_by_one w (l1 ++ [(i, (zeroResult, None))]) w' ∧ w_hotRestartDone w' = true ∧
  ∀ j r, (j, r) ∈ l2 → r = (zeroResult, None).
Proof.
  revert w. induction l1 as [|[j r] l1 IH]; cbn; intros w (w1 & Hr & Hlog).
  - pose proof (reconcileHotRestart_ok _ _ Hr) as Hdone. destruct (one_by_one_done _ _ _ Hdone Hlog) as [-> Hall].
    split; [by exists w1|done].
  - destruct (IH w1 Hlog) as (H1 & H2 & H3). split; [by exists w1|done].
Qed.

(** C11: concurrent hot restarts are one after the other.  However the goroutines of the
    cluster reconciler that run reconcileHotRestart at once are interleaved, they
    can all return; when they have, there is an order in which
    the same calls, each as one atomic step, give each goroutine its result and lead
    to the same mux and flag; the first that returns without an error is the last that
    changes anything, and leaves the flag set. *)
Theorem hot_restarts_serialize w n s :
  reachable w (replicate n reconcileHotRestart_locked) s →
  (∃ s', rtc steps s s' ∧ finished s') ∧
  (finished s → ∃ log, log.*1 ≡ₚ seq 0 n ∧ one_by_one w log s.1 ∧
     (∀ i r, (i, r) ∈ log → ∃ g, s.2 !! i = Some g ∧ g_prog g = Ret r) ∧
     (∀ l1 i l2, log = l1 ++ (i, (zeroResult, None)) :: l2 →
        one_by_one w (l1 ++ [(i, (zeroResult, None))]) s.1 ∧ w_hotRestartDone s.1 = true ∧
        ∀ j r, (j, r) ∈ l2 → r = (zeroResult, None))).
Proof.
  intros Hreach. split.
  - eapply orderly_completes; [eapply reachable_all_orderly; [|exact Hreach]|intros s' _; by apply once_none_lost].
    apply Forall_replicate. exact reconcileHotRestart_ordered.
  - intros Hfin. destruct (runs_serialize restarts_once HotRestartLock (λ _, True) (λ _, True) w (replicate n ())
      (replicate n reconcileHotRestart_locked) s) as (log & Hperm & Hrep & _ & Hret); [done|done| |done|done|].
    { unfold all_follow. rewrite fmap_replicate. apply Forall2_replicate. exact reconcileHotRestart_follows. }
    rewrite length_replicate in Hperm. apply replays_one_by_one in Hrep. exists log. split_and!; [done..|].
    intros l1 i l2 ->. by apply one_by_one_ok.
Qed.
End restart.

Section witness.
Let N : Net := test_net.
Let M : Management test_net := test_management [cluster_a; cluster_b] [] true.
Local Existing Instance M.
Let w0 := test_world (NewWorkloadClustersMux "10.0.0.1").

Lemma hot_restarts_serialize_witness :
  ∃ s, reachable w0 (replicate 2 reconcileHotRestart_locked) s ∧ finished s ∧ w_hotRestartDone s.1 = true.
Proof.
  destruct (hot_restarts_serialize w0 2 (start w0 (replicate 2 reconcileHotRestart_locked)) (rtc_refl _ _))
    as ((s & Hreach & Hfin) & _).
  exists s. split; [exact Hreach|]. split; [exact Hfin|].
  destruct (proj2 (hot_restarts_serialize w0 2 s Hreach) Hfin) as (log & Hperm & Hlog & _ & Hok).
  destruct log as [|[i r] log]; [by apply Permutation_nil_cons in Hperm|].
  assert (r = (zeroResult, None)) as ->.
  { destruct Hlog as (w1 & Hr & _).
    assert (match reconcileHotRestart w0 with Done r _ => Some r | _ => None end = Some (zeroResult, None)) as Hc
      by (vm_compute; reflexivity).
    rewrite Hr in Hc. by injection Hc. }
  exact (proj1 (proj2 (Hok [] i log eq_refl))).
Defined.
End witness.
