(* ===== verification/MachineController.v ===== *)
(** * The GoofyMachine controller: internal/controllers/goofymachine_controller.go

    Reconcile and its parts on the [world] of Management.v, and what the
    provisioning of a machine leaves in its resource group and in the mux. *)

From stdpp Require Import prelude gmap strings list relations.
From Stdlib Require Import ZArith Lia.
From S2P Require Import Prelude GoStd GoTime Api Runtime Cache CacheFacts CacheStore TestEnv EventSource Controller Mux MuxFacts Management.
Local Open Scope Z_scope.

Definition MachineFinalizer : string := "goofymachine.infrastructure.cluster.x-k8s.io".
(** Constants of the libraries. *)
Definition NamespaceSystem : string := "kube-system".
Definition ClusterNameLabel : string := "cluster.x-k8s.io/cluster-name".
Definition ControlPlaneInitializedCondition : string := "ControlPlaneInitialized".
Definition EtcdCA : string := "etcd".
Definition ClusterCA : string := "ca".
Definition TLSCrtDataName : string := "tls.crt".
Definition TLSKeyDataName : string := "tls.key".

Definition gm_set_Meta (m : ObjectMeta) (g : GoofyMachine) : GoofyMachine :=
  mkGoofyMachine m (gm_ProviderID g) (gm_Ready g).

(** ** The objects the controller creates *)
Definition labelled_meta (namespace name : string) (labels : gomap string) : ObjectMeta :=
  mkObjectMeta name namespace labels None None None "" 0 None "".

Definition cloudMachine_of (name : string) : Object :=
  mkObject (GVK "" "" "") (named_meta "" name) CloudMachine.

Definition node_of (name : string) (controlPlane : bool) : Object :=
  mkObject (GVK "" "" "")
    (labelled_meta "" name
       (if controlPlane then Some {["node-role.kubernetes.io/control-plane" := ""]} else None))
    (Node ("goofy://" +:+ name) [mkCondition "Ready" "True"]).

Definition running_pod : Body := Pod "Running" [mkCondition "Ready" "True"].

Definition etcdMember_of (name : string) : string := "etcd-" +:+ name.
Definition apiServer_of (name : string) : string := "kube-apiserver-" +:+ name.

Definition etcdPod_of (name : string) : Object :=
  mkObject (GVK "" "" "") (named_meta NamespaceSystem (etcdMember_of name)) running_pod.

(** The pods of the API server, the scheduler and the controller manager. *)
Definition componentPod (component name : string) : Object :=
  mkObject (GVK "" "" "")
    (labelled_meta NamespaceSystem (component +:+ "-" +:+ name)
       (Some {["component" := component; "tier" := "control-plane"]}))
    running_pod.

Definition get_nodes_role : Object :=
  mkObject (GVK "" "" "") (named_meta "" "kubeadm:get-nodes")
    (ClusterRole [mkPolicyRule ["get"] [""] ["nodes"]]).
Definition get_nodes_roleBinding : Object :=
  mkObject (GVK "" "" "") (named_meta "" "kubeadm:get-nodes")
    (ClusterRoleBinding (mkRoleRef "rbac.authorization.k8s.io" "ClusterRole" "kubeadm:get-nodes")
       [mkSubject "Group" "system:bootstrappers:kubeadm:default-node-token"]).
Definition kubeadm_config : Object :=
  mkObject (GVK "" "" "") (named_meta NamespaceSystem "kubeadm-config") ConfigMap.

Section controller.
Context {E : Env} {N : Net} {M : Management N}.
Local Open Scope goofy_scope.

(** ** The steps of reconcileNormal *)
(** Create, where an object that exists already is not an error. *)
Definition createIfNotExists (resourceGroup : string) (obj : Object) (what : string)
  : Go world (option GoError) :=
  r ← on_cloud (cachedClient_Create (GetResourceGroup resourceGroup) (Some obj));
  match r.2 with
  | Some err =>
      if negb (IsAlreadyExists err) then mret (Some (Wrap (FromAPI err) ("failed to create " +:+ what)))
      else mret None
  | None => mret None
  end.

(** The certificate and the key of a CA, for etcd or for the cluster. *)
Definition getCA (cluster : Cluster) (purpose name : string)
  : Go world ((Certificate * Signer PrivateKey) + GoError) :=
  s ← ext (λ n, secret_Get n (NN (om_Namespace (cl_Meta cluster)) (om_Name (cl_Meta cluster))) purpose);
  match s with
  | inr err => mret (inr (Wrap (FromAPI err) ("failed to get " +:+ name +:+ " CA")))
  | inl data =>
  match data !! TLSCrtDataName with
  | None => mret (inr (Message ("invalid " +:+ name +:+ " CA: missing data for " +:+ TLSCrtDataName)))
  | Some certData =>
  match DecodeCertPEM certData with
  | inr err => mret (inr (Wrap (Message err) ("invalid " +:+ name +:+ " CA: invalid " +:+ TLSCrtDataName)))
  | inl cert =>
  match data !! TLSKeyDataName with
  | None => mret (inr (Message ("invalid " +:+ name +:+ " CA: missing data for " +:+ TLSKeyDataName)))
  | Some keyData =>
  match DecodePrivateKeyPEM keyData with
  | inr err => mret (inr (Wrap (Message err) ("invalid " +:+ name +:+ " CA: invalid " +:+ TLSKeyDataName)))
  | inl key => mret (inl (cert, key))
  end end end end end.

(** A call of AddEtcdMember or AddAPIServer; the type assertion panics on a key that
    is no RSA key. *)
Definition addWithCA (ca : Certificate * Signer PrivateKey)
    (add : option Certificate → option PrivateKey → Go WorkloadClustersMux (option string))
    (what : string) : Go world (option GoError) :=
  match ca.2 with
  | OtherKey => go_panic "interface conversion: key is not *rsa.PrivateKey"
  | RSAKey key =>
      err ← on_mux (add (Some ca.1) (Some key));
      match err with
      | Some err => mret (Some (Wrap (Message err) what))
      | None => mret None
      end
  end.

Definition ensureEtcdMember (cluster : Cluster) (resourceGroup etcdMember : string)
  : Go world (option GoError) :=
  w ← go_get;
  if HasEtcdMember resourceGroup etcdMember (w_APIServerMux w) then mret None else
  ca ← getCA cluster EtcdCA "etcd";
  match ca with
  | inr err => mret (Some err)
  | inl ca => addWithCA ca (AddEtcdMember resourceGroup etcdMember) "failed to start etcd member"
  end.

Definition ensureAPIServer (cluster : Cluster) (resourceGroup apiServer : string)
  : Go world (option GoError) :=
  w ← go_get;
  if HasAPIServer resourceGroup apiServer (w_APIServerMux w) then mret None else
  ca ← getCA cluster ClusterCA "cluster";
  match ca with
  | inr err => mret (Some err)
  | inl ca => addWithCA ca (AddAPIServer resourceGroup apiServer) "failed to start API server"
  end.

(** The etcd pod is looked up first: its identity is drawn only once. *)
Definition ensureEtcdPod (resourceGroup name : string) : Go world (option GoError) :=
  let etcdPod := etcdPod_of name in
  r ← on_cloud (cachedClient_Get (GetResourceGroup resourceGroup) (ObjectKeyFromObject etcdPod) (Some etcdPod));
  match r with
  | (_, None) => mret None
  | (None, Some err) => mret (Some (Wrap (FromAPI err) "failed to get etcdPod Pod"))
  | (Some etcdPod, Some err) =>
      if negb (IsNotFound err) then mret (Some (Wrap (FromAPI err) "failed to get etcdPod Pod")) else
      let etcdPod := SetLabels (Some {["component" := "etcd"; "tier" := "control-plane"]}) etcdPod in
      clusterID ← ext rand_Uint32;
      memberID ← ext rand_Uint32;
      now ← on_cloud Now;
      let etcdPod := SetAnnotations (Some {[
        "etcd.internal.goofy.cluster.x-k8s.io/cluster-id" := Itoa clusterID;
        "etcd.internal.goofy.cluster.x-k8s.io/member-id" := Itoa memberID;
        "etcd.internal.goofy.cluster.x-k8s.io/leader-from" := Format now local_offset]}) etcdPod in
      createIfNotExists resourceGroup etcdPod "etcdPod Pod"
  end.

(** What a control plane machine needs after its VM and its node. *)
Definition provisionControlPlane (cluster : Cluster) (resourceGroup name : string)
  : Go world (option GoError) :=
  ensureEtcdMember cluster resourceGroup (etcdMember_of name) >>
  ensureAPIServer cluster resourceGroup (apiServer_of name) >>
  ensureEtcdPod resourceGroup name >>
  createIfNotExists resourceGroup (componentPod "kube-apiserver" name) "apiServer Pod" >>
  createIfNotExists resourceGroup (componentPod "kube-scheduler" name) "scheduler Pod" >>
  createIfNotExists resourceGroup (componentPod "kube-controller-manager" name)
    "controller manager Pod" >>
  createIfNotExists resourceGroup get_nodes_role "kubeadm:get-nodes ClusterRole" >>
  createIfNotExists resourceGroup get_nodes_roleBinding "kubeadm:get-nodes ClusterRoleBinding" >>
  createIfNotExists resourceGroup kubeadm_config "ubeadm-config ConfigMap".

Definition machine_reconcileNormal (cluster : Cluster) (machine : Machine) (goofyMachine : GoofyMachine)
  : Go world (GoofyMachine * (Result * option GoError)) :=
  let resourceGroup := KObj_String (cl_Meta cluster) in
  if negb (cl_InfrastructureReady cluster) then mret (goofyMachine, (zeroResult, None)) else
  match ma_DataSecretName machine with
  | None =>
      (* both branches only log *)
      if negb (util_IsControlPlaneMachine machine)
         && negb (conditions_IsTrue cluster ControlPlaneInitializedCondition)
      then mret (goofyMachine, (zeroResult, None))
      else mret (goofyMachine, (zeroResult, None))
  | Some _ =>
  let name := om_Name (gm_Meta goofyMachine) in
  let controlPlane := util_IsControlPlaneMachine machine in
  err ← createIfNotExists resourceGroup (cloudMachine_of name) "CloudMachine"
        >> createIfNotExists resourceGroup (node_of name controlPlane) "Node";
  match err with
  | Some err => mret (goofyMachine, (zeroResult, Some err))
  | None =>
      let goofyMachine := mkGoofyMachine (gm_Meta goofyMachine) (Some ("goofy://" +:+ name)) true in
      if negb controlPlane then mret (goofyMachine, (zeroResult, None))
      else
        err ← provisionControlPlane cluster resourceGroup name;
        mret (goofyMachine, (zeroResult, err))
  end end.

Definition machine_reconcileDelete (goofyMachine : GoofyMachine)
  : Go world (GoofyMachine * (Result * option GoError)) :=
  mret (gm_set_Meta (RemoveFinalizer (gm_Meta goofyMachine) MachineFinalizer) goofyMachine,
        (zeroResult, None)).

(** ** Reconcile *)
Definition machine_reconcileBody (cluster : Cluster) (machine : Machine) (goofyMachine : GoofyMachine)
  : Go world (GoofyMachine * (Result * option GoError)) :=
  if negb (ContainsFinalizer (gm_Meta goofyMachine) MachineFinalizer) then
    mret (gm_set_Meta (AddFinalizer (gm_Meta goofyMachine) MachineFinalizer) goofyMachine,
          (zeroResult, None))
  else if negb (TimePtr_IsZero (om_DeletionTimestamp (gm_Meta goofyMachine))) then
    machine_reconcileDelete goofyMachine
  else machine_reconcileNormal cluster machine goofyMachine.

Definition machine_Reconcile (req : NamespacedName) : Go world (Result * option GoError) :=
  r ← ext (λ n, client_Get_GoofyMachine n req);
  match r with
  | inr err => mret (zeroResult, if IsNotFound err then None else Some (FromAPI err))
  | inl goofyMachine =>
  err ← ext (λ n, clog_AddOwners n goofyMachine);
  match err with
  | Some err => mret (zeroResult, Some (FromAPI err))
  | None =>
  r ← ext (λ n, util_GetOwnerMachine n (gm_Meta goofyMachine));
  match r with
  | inr err => mret (zeroResult, Some (FromAPI err))
  | inl None => mret (zeroResult, None)
  | inl (Some machine) =>
  r ← ext (λ n, util_GetClusterFromMetadata n (ma_Meta machine));
  match r with
  | inr err => mret (zeroResult, Some (FromAPI err))
  | inl None => mret (zeroResult, None)
  | inl (Some cluster) =>
  if annotations_IsPaused cluster (gm_Meta goofyMachine) then mret (zeroResult, None) else
  match cl_InfrastructureRef cluster with
  | None => go_panic "nil pointer dereference: InfrastructureRef"
  | Some infraRef =>
  r ← ext (λ n, client_Get_GoofyCluster n (NN (om_Namespace (gm_Meta goofyMachine)) infraRef));
  match r with
  | inr _ => mret (zeroResult, None)
  | inl _ =>
  err ← ext patch_NewHelper;
  match err with
  | Some err => mret (zeroResult, Some (FromAPI err))
  | None =>
      r ← machine_reconcileBody cluster machine goofyMachine;
      deferredPatch (PatchedMachine r.1) r.2
  end end end end end end end.

(** GoofyClusterToGoofyMachines: the requests for the machines of a cluster; a nil
    slice and an empty one are both no request. *)
Definition GoofyClusterToGoofyMachines (c : GoofyCluster) : Go world (list NamespacedName) :=
  r ← ext (λ n, util_GetOwnerCluster n (gc_Meta c));
  match r with
  | inr _ | inl None => mret []
  | inl (Some cluster) =>
  r ← ext (λ n, client_List_Machines n (om_Namespace (gc_Meta c))
        (ClusterNameLabel, om_Name (cl_Meta cluster)));
  match r with
  | inr _ => mret []
  | inl machines =>
      mret ((λ m, NN (om_Namespace (ma_Meta m)) (om_Name (ma_Meta m))) <$>
        filter (λ m, ma_InfrastructureRefName m ≠ "") machines)
  end end.
End controller.
