(* ===== verification/MachineFacts.v ===== *)
(** * Properties of the GoofyMachine controller

    What provisioning creates and keeps, that it can be repeated, and that a failure
    to add an etcd member is never repaired. *)

From stdpp Require Import prelude gmap strings list relations.
From Stdlib Require Import ZArith Lia.
From S2P Require Import Prelude GoStd GoTime Api Runtime Cache CacheFacts CacheStore TestEnv EventSource Controller Mux MuxFacts MuxRestart Management ClusterController MachineController.
Local Open Scope Z_scope.

(** The scheme of the cloud manager knows the types that main.go adds to it. *)
Definition program_gvk (b : Body) : option GroupVersionKind :=
  match b with
  | CloudMachine => Some (cloudv1_gvk "CloudMachine")
  | Node _ _ => Some (corev1_gvk "Node")
  | Pod _ _ => Some (corev1_gvk "Pod")
  | ConfigMap => Some (corev1_gvk "ConfigMap")
  | ClusterRole _ => Some (rbacv1_gvk "ClusterRole")
  | ClusterRoleBinding _ _ => Some (rbacv1_gvk "ClusterRoleBinding")
  | Unstructured _ | OtherType _ _ => None
  end.
Class CloudScheme (E : Env) : Prop :=
  scheme_knows : ∀ b g gvk, program_gvk b = Some gvk → scheme_GVKForObject b g = inl gvk.
#[export] Instance test_env_scheme : CloudScheme test_env.
Proof. intros [] g gvk; cbn; congruence. Qed.

Section facts.
Context {E : Env} {L : EnvLaws E} {CS : CloudScheme E} {N : Net} {M : Management N}.
Implicit Types w : world.

(** ** One object *)
(** The tracker of a resource group holds an object. *)
Definition tracked_in (c : ccache) rg gvk key (o : Object) : Prop :=
  ∃ t, resourceGroups c !! rg = Some t ∧ tracked t gvk key = Some o.
Definition present (c : ccache) rg gvk key : Prop := ∃ o, tracked_in c rg gvk key o.
Definition keeps_objects (c c' : ccache) : Prop :=
  ∀ rg gvk key o, tracked_in c rg gvk key o → tracked_in c' rg gvk key o.
Definition group_ok rg (c : ccache) : Prop := rg ≠ "" ∧ wf_cache c ∧ is_Some (resourceGroups c !! rg).

#[export] Instance keeps_objects_preorder : PreOrder keeps_objects.
Proof. split; [by intros c rg|]. intros c1 c2 c3 H1 H2 rg gvk key o Ho. by apply H2, H1. Qed.

Lemma present_keeps c c' rg gvk key : keeps_objects c c' → present c rg gvk key → present c' rg gvk key.
Proof. intros Hk [o Ho]. exists o. by apply Hk. Qed.

Definition with_cache (c : ccache) w : world :=
  w_set_CloudManager (rt_set_cache c (w_CloudManager w)) w.

(** Creating an object without owners, in a resource group that is there. *)
Lemma Create_ok rg obj gvk (c : ccache) :
  group_ok rg c → program_gvk (obj_body obj) = Some gvk → GetOwnerReferences obj = [] →
  ∃ r e c', Create rg (Some obj) c = Done (r, e) c' ∧ group_ok rg c' ∧ keeps_objects c c' ∧
    present c' rg gvk (ObjectKeyFromObject obj) ∧
    (e = None ∨ ∃ err, e = Some err ∧ IsAlreadyExists err = true) ∧
    (present c rg gvk (ObjectKeyFromObject obj) → cache_eqv c c').
Proof.
  intros (Hrg & Hwf & [t Ht]) Hgvk Howners.
  assert (Hacc : store_accepts rg obj false gvk t c) by (split; [done|by apply scheme_knows|done..]).
  destruct (store_refines rg t gvk obj false c (Hwf _ _ Ht) Hacc) as (t' & o' & e & n & k & Hrun & Hspec).
  assert (Hwf' := Hspec). apply store_spec_wf in Hwf'; [|by apply (Hwf _ _ Ht)|done].
  exists (Some o'), e, (after_store rg t' n k c). split; [exact Hrun|].
  assert (Ht' : resourceGroups (after_store rg t' n k c) !! rg = Some t') by apply lookup_insert_eq.
  assert (Hkeep : (∀ gvk key o, tracked t gvk key = Some o → tracked t' gvk key = Some o) →
    keeps_objects c (after_store rg t' n k c)).
  { intros Hsub rg' gvk' key o (u & Hu & Ho). unfold tracked_in. unfold after_store. cbn.
    destruct (decide (rg = rg')) as [<-|Hne].
    - exists t'. rewrite lookup_insert_eq. split; [done|]. rewrite Ht in Hu. injection Hu as <-. by apply Hsub.
    - exists u. by rewrite lookup_insert_ne. }
  split; [split; [done|split; [by eapply wf_cache_insert|by rewrite Ht']]|].
  change (GetNamespace (SetGroupVersionKind gvk obj)) with (GetNamespace obj) in Hspec.
  inversion Hspec as [? err Hv|? old Hv Hold Heqv| | |? Hv Hnone Hset|]; subst; cycle 1.
  - change (tracked t gvk (ObjectKeyFromObject obj) = Some old) in Hold. split.
    { apply Hkeep. intros gvk' key o. by rewrite (proj1 Heqv). }
    split; [exists old, t'; split; [done|by rewrite (proj1 Heqv)]|].
    split; [right; by eexists|]. intros _. by apply (after_store_silent rg t).
  - change (tracked t gvk (ObjectKeyFromObject obj) = None) in Hnone. split.
    { apply Hkeep. intros gvk' key o Ho. rewrite (set_objects _ _ _ _ _ _ Hset).
      rewrite decide_False; [done|]. intros [<- <-].
      change (tracked t gvk (ObjectKeyFromObject obj) = Some o) in Ho. congruence. }
    split; [eexists _, t'; split; [done|]; rewrite (set_objects _ _ _ _ _ _ Hset); by rewrite decide_True|].
    split; [by left|]. intros (o & u & Hu & Ho). congruence.
  - exfalso. change (GetOwnerReferences (SetGroupVersionKind gvk obj)) with (GetOwnerReferences obj) in Hv.
    by rewrite Howners in Hv.
Qed.

Lemma createIfNotExists_ok rg obj gvk what w :
  group_ok rg (w_cache w) → program_gvk (obj_body obj) = Some gvk → GetOwnerReferences obj = [] →
  ∃ c', createIfNotExists rg obj what w = Done None (with_cache c' w) ∧ group_ok rg c' ∧
    keeps_objects (w_cache w) c' ∧ present c' rg gvk (ObjectKeyFromObject obj) ∧
    (present (w_cache w) rg gvk (ObjectKeyFromObject obj) → cache_eqv (w_cache w) c').
Proof.
  intros Hok Hgvk Howners.
  destruct (Create_ok rg obj gvk (w_cache w) Hok Hgvk Howners)
    as (r & e & c' & Hrun & Hok' & Hkeep & Hp & He & Heqv).
  exists c'. split; [|done]. unfold createIfNotExists. rewrite go_bind_eq.
  erewrite on_cloud_Done by exact Hrun.
  destruct He as [->|(err & -> & Herr)]; [done|]. cbn [snd]. by rewrite Herr.
Qed.

(** ** Steps *)
(** The certificate the mux has for an etcd member. *)
Definition etcd_cert n p (m : WorkloadClustersMux) : option TLSCertificate :=
  workloadClusterListeners m !! n ≫= λ wcl, etcdServingCertificates wcl !! p.

(** What never goes back in a mux that has listeners; the certificate of a member that
    was added stays, even if there is none. *)
Record mux_later (m m' : WorkloadClustersMux) : Prop := {
  ml_reachable : ∀ host, mux_reachable host m → mux_reachable host m';
  ml_address : ∀ n wcl, workloadClusterListeners m !! n = Some wcl →
    ∃ wcl', workloadClusterListeners m' !! n = Some wcl' ∧ same_address wcl wcl';
  ml_etcd : ∀ n p, HasEtcdMember n p m = true →
    HasEtcdMember n p m' = true ∧ etcd_cert n p m' = etcd_cert n p m;
  ml_api : ∀ n p, HasAPIServer n p m = true → HasAPIServer n p m' = true }.

#[export] Instance mux_later_preorder : PreOrder mux_later.
Proof.
  unfold same_address. split.
  - intros m. split; [done| |done|done]. intros n wcl Hl. by exists wcl.
  - intros m1 m2 m3 [R1 A1 E1 P1] [R2 A2 E2 P2]. split.
    + eauto.
    + intros n wcl Hl. destruct (A1 n wcl Hl) as (wcl2 & Hl2 & Hh2 & Hp2).
      destruct (A2 n wcl2 Hl2) as (wcl3 & Hl3 & Hh3 & Hp3). exists wcl3. split; [done|]. split; congruence.
    + intros n p Hh. destruct (E1 n p Hh) as [Hh2 Hc2], (E2 n p Hh2) as [Hh3 Hc3].
      split; [done|congruence].
    + eauto.
Qed.

(** What never goes back while machines are provisioned. *)
Record later w w' : Prop := {
  la_objects : keeps_objects (w_cache w) (w_cache w');
  la_mux : mux_later (w_APIServerMux w) (w_APIServerMux w') }.

#[export] Instance later_preorder : PreOrder later.
Proof.
  split; [intros w; split; done|]. intros w1 w2 w3 [O1 M1] [O2 M2]. split; by etrans.
Qed.

Lemma later_mux_same w w' :
  w_APIServerMux w' = w_APIServerMux w → keeps_objects (w_cache w) (w_cache w') → later w w'.
Proof. intros Hm Hk. split; [done|]. by rewrite Hm. Qed.

(** ** What programs do to the mux *)
(** Every run that returns relates the mux before and after it. *)
Definition preserves {A} (R : relation WorkloadClustersMux) (s : Go world A) : Prop :=
  ∀ w a w', s w = Done a w' → R (w_APIServerMux w) (w_APIServerMux w').

Section preserves.
Context (R : relation WorkloadClustersMux) `{!PreOrder R}.

Lemma preserves_ret {A} (a : A) : preserves R (mret a).
Proof. by intros w a' w' [= <- <-]. Qed.
Lemma preserves_panic {A} msg : preserves R (go_panic (A := A) msg).
Proof. done. Qed.
Lemma preserves_get : preserves R go_get.
Proof. by intros w a' w' [= <- <-]. Qed.
Lemma preserves_bind {A B} (s : Go world A) (k : A → Go world B) :
  preserves R s → (∀ a, preserves R (k a)) → preserves R (s ≫= k).
Proof.
  intros Hs Hk w b w' (a & w1 & Hrun1 & Hrun2)%go_bind_Done_inv. etrans; [by eapply Hs|by eapply Hk].
Qed.
Lemma preserves_ext {A} (f : nat → A) : preserves R (ext f).
Proof. intros w a w'. rewrite ext_eq. by intros [= <- <-]. Qed.
Lemma preserves_on_manager {A} (m : Go runtime A) : preserves R (on_manager m).
Proof. intros w a w'. unfold on_manager, on_part. by destruct (m _); intros [= <- <-]. Qed.
Lemma preserves_on_cloud {A} (m : Go ccache A) : preserves R (on_cloud m).
Proof. apply preserves_on_manager. Qed.
Lemma preserves_modify f : (∀ w, w_APIServerMux (f w) = w_APIServerMux w) → preserves R (go_modify f).
Proof. intros Hf w a w' [= <- <-]. by rewrite Hf. Qed.
Lemma preserves_on_mux {A} (m : Go WorkloadClustersMux A) :
  (∀ x a x', m x = Done a x' → R x x') → preserves R (on_mux m).
Proof.
  intros Hm w a w'. unfold on_mux, on_part. destruct (m _) as [b x| |] eqn:Hrun; [|done..].
  intros [= <- <-]. by eapply Hm.
Qed.
Lemma preserves_andNext s1 s2 : preserves R s1 → preserves R s2 → preserves R (andNext s1 s2).
Proof. intros H1 H2. apply preserves_bind; [done|]. intros [e|]; [apply preserves_ret|done]. Qed.
End preserves.

(** Follow a program. *)
Ltac preserve :=
  repeat match goal with
  | |- preserves _ (_ ≫= _) => apply preserves_bind; [apply _| |intros ?]
  | |- preserves _ (andNext _ _) => apply preserves_andNext; [apply _|..]
  | |- preserves _ (mret _) => apply preserves_ret, _
  | |- preserves _ (go_panic _) => apply preserves_panic
  | |- preserves _ go_get => apply preserves_get, _
  | |- preserves _ (ext _) => apply preserves_ext, _
  | |- preserves _ (on_cloud _) => apply preserves_on_cloud, _
  | |- preserves _ (on_manager _) => apply preserves_on_manager, _
  | |- preserves _ (go_modify _) => apply preserves_modify; [apply _|done]
  | |- preserves _ (match ?x with _ => _ end) => destruct x
  end.

Lemma createIfNotExists_preserves R `{!PreOrder R} rg obj what : preserves R (createIfNotExists rg obj what).
Proof. unfold createIfNotExists. preserve. Qed.
Lemma ensureEtcdPod_preserves R `{!PreOrder R} rg name : preserves R (ensureEtcdPod rg name).
Proof. unfold ensureEtcdPod. preserve; by apply createIfNotExists_preserves. Qed.
Lemma getCA_preserves R `{!PreOrder R} cluster purpose name : preserves R (getCA cluster purpose name).
Proof. unfold getCA. preserve. Qed.
Lemma addWithCA_preserves R `{!PreOrder R} ca add what :
  (∀ cert key x a x', add cert key x = Done a x' → R x x') → preserves R (addWithCA ca add what).
Proof. intros Hadd. unfold addWithCA. preserve. apply preserves_on_mux. apply Hadd. Qed.

(** A step returns, and without an error reaches its goal. *)
Definition returns rg (s : Go world (option GoError)) (goal : world → Prop) w : Prop :=
  ∃ e w', s w = Done e w' ∧ group_ok rg (w_cache w') ∧ later w w' ∧ (e = None → goal w').

(** The key of a CA of a cluster decodes, to a key that is not an RSA key. *)
Definition not_rsa (cluster : Cluster) : Prop := ∃ n purpose data pem,
  secret_Get n (NN (om_Namespace (cl_Meta cluster)) (om_Name (cl_Meta cluster))) purpose = inl data ∧
  (purpose = EtcdCA ∨ purpose = ClusterCA) ∧
  data !! TLSKeyDataName = Some pem ∧ DecodePrivateKeyPEM pem = inl OtherKey.

(** A step panics because of such a key. *)
Definition panics_not_rsa {A} (cluster : Cluster) (s : Go world A) w : Prop :=
  (∃ msg, s w = Panicked msg) ∧ not_rsa cluster.

Definition goes cluster rg (s : Go world (option GoError)) (goal : world → Prop) : Prop :=
  ∀ w, group_ok rg (w_cache w) → returns rg s goal w ∨ panics_not_rsa cluster s w.

Lemma andNext_goes cluster rg s1 s2 (g1 g2 : world → Prop) :
  goes cluster rg s1 g1 → goes cluster rg s2 g2 → (∀ w w', later w w' → g1 w → g1 w') →
  goes cluster rg (andNext s1 s2) (λ w, g1 w ∧ g2 w).
Proof.
  intros H1 H2 Hmono w Hok. unfold returns, panics_not_rsa. rewrite andNext_eq.
  destruct (H1 w Hok) as [(e1 & w1 & Hr1 & Hok1 & Hl1 & Hg1)|[[msg Hr1] Hkey]]; rewrite Hr1; [|by right; eauto].
  destruct e1 as [e1|]; [by left; exists (Some e1), w1|].
  destruct (H2 w1 Hok1) as [(e2 & w2 & -> & Hok2 & Hl2 & Hg2)|[[msg Hr2] Hkey]]; [left|by right; rewrite Hr2; eauto].
  exists e2, w2. split; [done|]. split; [done|]. split; [by etrans|]. intros He. split; [|by apply Hg2].
  eapply Hmono; [exact Hl2|]. by apply Hg1.
Qed.

Lemma create_returns rg obj gvk what w :
  program_gvk (obj_body obj) = Some gvk → GetOwnerReferences obj = [] → group_ok rg (w_cache w) →
  returns rg (createIfNotExists rg obj what) (λ w, present (w_cache w) rg gvk (ObjectKeyFromObject obj)) w.
Proof.
  intros Hgvk Howners Hok.
  destruct (createIfNotExists_ok rg obj gvk what w Hok Hgvk Howners) as (c' & Hrun & Hok' & Hk & Hp & _).
  exists None, (with_cache c' w). split; [done|]. split; [done|]. split; [by apply later_mux_same|done].
Qed.
Lemma create_goes cluster rg obj gvk what :
  program_gvk (obj_body obj) = Some gvk → GetOwnerReferences obj = [] →
  goes cluster rg (createIfNotExists rg obj what) (λ w, present (w_cache w) rg gvk (ObjectKeyFromObject obj)).
Proof. intros Hgvk Howners w Hok. left. by apply create_returns. Qed.

Lemma present_later rg gvk key w w' :
  later w w' → present (w_cache w) rg gvk key → present (w_cache w') rg gvk key.
Proof. intros Hl. apply present_keeps, Hl. Qed.

Lemma getCA_eq cluster purpose name w :
  ∃ r, getCA cluster purpose name w = Done r (w_set_calls (Datatypes.S (w_calls w)) w) ∧
    ∀ ca, r = inl ca → ca.2 = OtherKey → (purpose = EtcdCA ∨ purpose = ClusterCA) → not_rsa cluster.
Proof.
  unfold getCA. rewrite go_bind_eq, ext_eq.
  destruct (secret_Get _ _ _) as [data|e] eqn:Hdata; [|by eexists].
  destruct (data !! TLSCrtDataName); [|by eexists].
  destruct (DecodeCertPEM _); [|by eexists]. destruct (data !! TLSKeyDataName) as [pem|] eqn:Hpem; [|by eexists].
  destruct (DecodePrivateKeyPEM _) as [key|] eqn:Hkey; [|by eexists].
  eexists. split; [done|]. intros ca [= <-] Hother Hpurpose. cbn in Hother. subst key.
  by exists (w_calls w), purpose, data, pem.
Qed.

(** ** The mux after the calls of the reconcilers *)
Lemma AddEtcdMember_later rg p ca key m :
  HasEtcdMember rg p m = false →
  ∃ e m', AddEtcdMember rg p ca key m = Done e m' ∧ mux_later m m' ∧
    (e = None → HasEtcdMember rg p m' = true).
Proof.
  intros Hnot. destruct (workloadClusterListeners m !! rg) as [wcl|] eqn:Hl.
  2: { eexists _, m. split; [unfold AddEtcdMember; rewrite go_bind_eq; cbn [go_get]; by rewrite Hl|]. by split. }
  destruct (AddEtcdMember_outcome rg p ca key wcl m Hl)
    as (wcl' & e & k & Hrun & Haddr & Hmem & Hapi & _ & Hcert & _ & _).
  exists e. eexists. split; [exact Hrun|]. unfold HasEtcdMember in Hnot |- *. rewrite Hl in Hnot.
  apply bool_decide_eq_false in Hnot. split.
  - split; unfold HasEtcdMember, HasAPIServer, etcd_cert; cbn.
    + intros host Hr. eapply mux_reachable_call; [exact Hr|by eapply step_etcd].
    + intros n v Hv. destruct (decide (rg = n)) as [<-|Hne].
      * exists wcl'. rewrite lookup_insert_eq. split; [done|]. by simplify_eq.
      * exists v. by rewrite lookup_insert_ne.
    + intros n q Hh. destruct (decide (rg = n)) as [<-|Hne]; [|by rewrite !lookup_insert_ne].
      rewrite lookup_insert_eq, Hl in *. apply bool_decide_eq_true in Hh. rewrite Hmem.
      split; [apply bool_decide_eq_true; set_solver|]. cbn. apply Hcert. by intros ->.
    + intros n q Hh. destruct (decide (rg = n)) as [<-|Hne]; [|by rewrite !lookup_insert_ne].
      rewrite lookup_insert_eq, Hl in *. by rewrite Hapi.
  - intros _. cbn. rewrite lookup_insert_eq, Hmem. apply bool_decide_eq_true. set_solver.
Qed.

Lemma AddAPIServer_later rg p ca key m :
  ∃ e m', AddAPIServer rg p ca key m = Done e m' ∧ mux_later m m' ∧
    (e = None → HasAPIServer rg p m' = true).
Proof.
  destruct (workloadClusterListeners m !! rg) as [wcl|] eqn:Hl.
  2: { eexists _, m. split; [unfold AddAPIServer; rewrite go_bind_eq; cbn [go_get]; by rewrite Hl|]. by split. }
  destruct (AddAPIServer_outcome rg p ca key wcl m Hl)
    as (wcl' & e & k & Hrun & [Haddr Hapi Hmem _ _ _ _ Hcert] & _).
  exists e. eexists. split; [exact Hrun|]. split.
  - split; unfold HasEtcdMember, HasAPIServer, etcd_cert; cbn.
    + intros host Hr. eapply mux_reachable_call; [exact Hr|by eapply step_api].
    + intros n v Hv. destruct (decide (rg = n)) as [<-|Hne].
      * exists wcl'. rewrite lookup_insert_eq. split; [done|]. by simplify_eq.
      * exists v. by rewrite lookup_insert_ne.
    + intros n q Hh. destruct (decide (rg = n)) as [<-|Hne]; [|by rewrite !lookup_insert_ne].
      rewrite lookup_insert_eq, Hl in *. rewrite Hmem. cbn. by rewrite Hcert.
    + intros n q Hh. destruct (decide (rg = n)) as [<-|Hne]; [|by rewrite !lookup_insert_ne].
      rewrite lookup_insert_eq, Hl in *. rewrite Hapi. apply bool_decide_eq_true.
      apply bool_decide_eq_true in Hh. set_solver.
  - intros _. unfold HasAPIServer. cbn. rewrite lookup_insert_eq, Hapi. apply bool_decide_eq_true. set_solver.
Qed.

(** A call of AddEtcdMember or AddAPIServer with a CA of the cluster. *)
Lemma with_ca_goes cluster rg purpose name what add (goal : world → Prop) w :
  purpose = EtcdCA ∨ purpose = ClusterCA → group_ok rg (w_cache w) →
  (∀ cert key, ∃ e m', add cert key (w_APIServerMux w) = Done e m' ∧ mux_later (w_APIServerMux w) m' ∧
     (e = None → ∀ w', w_APIServerMux w' = m' → goal w')) →
  let s := ca ← getCA cluster purpose name;
    match ca with
    | inr err => mret (Some err)
    | inl ca => addWithCA ca add what
    end in
  returns rg s goal w ∨ panics_not_rsa cluster s w.
Proof.
  intros Hpurpose Hok Hadd. destruct (getCA_eq cluster purpose name w) as (r & Hca & Hkey).
  unfold returns, panics_not_rsa. rewrite go_bind_eq, Hca. destruct r as [ca|err].
  2: { left. do 2 eexists. split; [done|]. split; [done|]. split; [by apply later_mux_same|done]. }
  unfold addWithCA. destruct ca as [cert [key|]]; cbn [fst snd].
  2: { right. split; [by eexists|]. by eapply Hkey. }
  left. destruct (Hadd (Some cert) (Some key)) as (e & m' & Hrun & Hl & Hg). rewrite go_bind_eq.
  erewrite on_mux_Done by exact Hrun.
  destruct e as [e|]; do 2 eexists; (split; [done|]); (split; [done|]); (split; [by split|]); [done|].
  intros _. by apply Hg.
Qed.

Lemma ensureEtcdMember_goes cluster rg p :
  goes cluster rg (ensureEtcdMember cluster rg p) (λ w, HasEtcdMember rg p (w_APIServerMux w) = true).
Proof.
  intros w Hok. unfold ensureEtcdMember, returns, panics_not_rsa. rewrite go_bind_eq. cbn [go_get].
  destruct (HasEtcdMember rg p (w_APIServerMux w)) eqn:Hh; [left; by exists None, w|].
  apply with_ca_goes; [by left|done|]. intros cert key.
  destruct (AddEtcdMember_later rg p cert key (w_APIServerMux w) Hh) as (e & m' & Hrun & Hl & Hg).
  exists e, m'. split; [done|]. split; [done|]. intros He w' ->. by apply Hg.
Qed.

Lemma ensureAPIServer_goes cluster rg p :
  goes cluster rg (ensureAPIServer cluster rg p) (λ w, HasAPIServer rg p (w_APIServerMux w) = true).
Proof.
  intros w Hok. unfold ensureAPIServer, returns, panics_not_rsa. rewrite go_bind_eq. cbn [go_get].
  destruct (HasAPIServer rg p (w_APIServerMux w)) eqn:Hh; [left; by exists None, w|].
  apply with_ca_goes; [by right|done|]. intros cert key.
  destruct (AddAPIServer_later rg p cert key (w_APIServerMux w)) as (e & m' & Hrun & Hl & Hg).
  exists e, m'. split; [done|]. split; [done|]. intros He w' ->. by apply Hg.
Qed.

(** Get of an object of a kind the scheme knows, in a resource group that is there. *)
Lemma Get_ok rg key obj gvk (c : ccache) :
  group_ok rg c → nn_Name key ≠ "" → program_gvk (obj_body obj) = Some gvk →
  (present c rg gvk key ∧ ∃ r e, Get rg key (Some obj) c = Done (r, e) c ∧
     ∀ err, e = Some err → IsNotFound err = false) ∨
  ∃ err, Get rg key (Some obj) c = Done (Some (SetGroupVersionKind gvk obj), Some err) c ∧
    IsNotFound err = true.
Proof.
  intros (Hrg & Hwf & [t Ht]) Hname Hgvk. unfold Get. rewrite !decide_False by done.
  unfold gvkGetAndSet. rewrite (scheme_knows _ _ _ Hgvk), go_bind_eq. cbn [go_get]. unfold get_tracker.
  rewrite Ht. destruct (objects t !! gvk) as [objs|] eqn:Hobjs; [|right; by eexists].
  destruct (objs !! key) as [o|] eqn:Ho; [|right; by eexists]. left. split.
  { exists o, t. split; [done|]. unfold tracked. by rewrite Hobjs. }
  destruct (scheme_Convert o _); do 2 eexists; (split; [done|]); [by intros|]. by intros ? [= <-].
Qed.

Lemma ensureEtcdPod_goes cluster rg name :
  goes cluster rg (ensureEtcdPod rg name)
    (λ w, present (w_cache w) rg (corev1_gvk "Pod") (NN NamespaceSystem (etcdMember_of name))).
Proof.
  intros w Hok. left. unfold returns, ensureEtcdPod. set (obj := etcdPod_of name).
  destruct (Get_ok rg (ObjectKeyFromObject obj) obj (corev1_gvk "Pod") (w_cache w) Hok)
    as [[Hp (r & e & Hget & He)]|(err & Hget & Herr)]; [done..| |];
    rewrite go_bind_eq; erewrite on_cloud_Done by exact Hget.
  - set (w1 := w_set_CloudManager _ w). assert (Hl : later w w1) by (by apply later_mux_same).
    destruct e as [e|]; [|destruct r as [o|]; by exists None, w1].
    destruct r as [o|]; [rewrite (He _ eq_refl)|]; eexists _, w1; (split; [done|]); by split.
  - cbn beta iota. rewrite Herr. cbn [negb]. set (w1 := w_set_CloudManager _ w).
    rewrite go_bind_eq, ext_eq, go_bind_eq, ext_eq. set (w2 := w_set_calls _ (w_set_calls _ w1)).
    rewrite go_bind_eq. erewrite on_cloud_Done by reflexivity.
    set (w3 := w_set_CloudManager _ w2). set (pod := SetAnnotations _ _).
    assert (Hl : later w w3) by (apply later_mux_same; [done|intros rg' gvk key o Ho; exact Ho]).
    destruct (create_returns rg pod (corev1_gvk "Pod") "etcdPod Pod" w3 eq_refl eq_refl Hok)
      as (e & w4 & Hrun & Hok4 & Hl4 & Hg).
    exists e, w4. split; [exact Hrun|]. split; [done|]. split; [by etrans|exact Hg].
Qed.

(** ** Provisioning *)
(** What a control plane machine has, in its resource group and in the mux. *)
Definition pod_present w rg (name : string) : Prop :=
  present (w_cache w) rg (corev1_gvk "Pod") (NN NamespaceSystem name).
Definition control_plane_provisioned rg name w : Prop :=
  HasEtcdMember rg (etcdMember_of name) (w_APIServerMux w) = true ∧
  HasAPIServer rg (apiServer_of name) (w_APIServerMux w) = true ∧
  pod_present w rg (etcdMember_of name) ∧
  pod_present w rg ("kube-apiserver-" +:+ name) ∧
  pod_present w rg ("kube-scheduler-" +:+ name) ∧
  pod_present w rg ("kube-controller-manager-" +:+ name) ∧
  present (w_cache w) rg (rbacv1_gvk "ClusterRole") (NN "" "kubeadm:get-nodes") ∧
  present (w_cache w) rg (rbacv1_gvk "ClusterRoleBinding") (NN "" "kubeadm:get-nodes") ∧
  present (w_cache w) rg (corev1_gvk "ConfigMap") (NN NamespaceSystem "kubeadm-config").

Lemma provisionControlPlane_goes cluster rg name :
  goes cluster rg (provisionControlPlane cluster rg name) (control_plane_provisioned rg name).
Proof.
  unfold provisionControlPlane, control_plane_provisioned, pod_present.
  apply andNext_goes; [apply ensureEtcdMember_goes| |intros w w' [_ Hl]; apply (ml_etcd _ _ Hl)].
  apply andNext_goes; [apply ensureAPIServer_goes| |intros w w' [_ Hl]; apply (ml_api _ _ Hl)].
  apply andNext_goes; [apply ensureEtcdPod_goes| |intros w w'; apply present_later].
  do 5 (apply andNext_goes; [by apply create_goes| |intros w w'; apply present_later]).
  by apply create_goes.
Qed.

(** The VM and the node of a machine. *)
Definition machine_present rg name w : Prop :=
  present (w_cache w) rg (cloudv1_gvk "CloudMachine") (NN "" name) ∧
  present (w_cache w) rg (corev1_gvk "Node") (NN "" name).

Lemma create_machine_ok rg name cp w :
  group_ok rg (w_cache w) →
  ∃ c', andNext (createIfNotExists rg (cloudMachine_of name) "CloudMachine")
      (createIfNotExists rg (node_of name cp) "Node") w = Done None (with_cache c' w) ∧
    group_ok rg c' ∧ keeps_objects (w_cache w) c' ∧ machine_present rg name (with_cache c' w) ∧
    (machine_present rg name w → cache_eqv (w_cache w) c').
Proof.
  intros Hok. destruct (createIfNotExists_ok rg (cloudMachine_of name) (cloudv1_gvk "CloudMachine")
    "CloudMachine" w Hok eq_refl eq_refl) as (c1 & Hr1 & Hok1 & Hk1 & Hp1 & He1).
  destruct (createIfNotExists_ok rg (node_of name cp) (corev1_gvk "Node") "Node" (with_cache c1 w)
    Hok1 eq_refl eq_refl) as (c2 & Hr2 & Hok2 & Hk2 & Hp2 & He2).
  exists c2. rewrite andNext_eq, Hr1, Hr2. split; [done|]. split; [done|]. split; [by etrans|].
  split; [split; [by eapply present_keeps|done]|]. intros [Hm Hn].
  eapply cache_eqv_trans; [by apply He1|]. apply He2. by eapply present_keeps.
Qed.

Definition provisioned_machine (gm : GoofyMachine) : GoofyMachine :=
  mkGoofyMachine (gm_Meta gm) (Some ("goofy://" +:+ om_Name (gm_Meta gm))) true.

(** The machine waits for nothing. *)
Definition can_provision (cluster : Cluster) (machine : Machine) : Prop :=
  cl_InfrastructureReady cluster = true ∧ is_Some (ma_DataSecretName machine).

Lemma machine_reconcileNormal_eq cluster machine gm w :
  let rg := KObj_String (cl_Meta cluster) in
  let name := om_Name (gm_Meta gm) in
  can_provision cluster machine → group_ok rg (w_cache w) →
  ∃ c1, let w1 := with_cache c1 w in
    group_ok rg c1 ∧ keeps_objects (w_cache w) c1 ∧ machine_present rg name w1 ∧
    (machine_present rg name w → cache_eqv (w_cache w) c1) ∧
    machine_reconcileNormal cluster machine gm w =
      if negb (util_IsControlPlaneMachine machine)
      then Done (provisioned_machine gm, (zeroResult, None)) w1
      else (err ← provisionControlPlane cluster rg name;
            mret (provisioned_machine gm, (zeroResult, err))) w1.
Proof.
  intros rg name [Hready [s Hs]] Hok.
  destruct (create_machine_ok rg name (util_IsControlPlaneMachine machine) w Hok)
    as (c1 & Hrun & Hok1 & Hk & Hp & He).
  exists c1. do 4 (split; [done|]). unfold machine_reconcileNormal. fold rg. rewrite Hready, Hs.
  cbn [negb]. fold name. rewrite go_bind_eq, Hrun. cbn [negb].
  by destruct (util_IsControlPlaneMachine machine).
Qed.

(** A control plane machine, with the resource group. *)
Lemma control_plane_outcome cluster machine gm w :
  let rg := KObj_String (cl_Meta cluster) in
  let name := om_Name (gm_Meta gm) in
  can_provision cluster machine → util_IsControlPlaneMachine machine = true →
  group_ok rg (w_cache w) →
  (∃ err w', machine_reconcileNormal cluster machine gm w = Done (provisioned_machine gm, (zeroResult, err)) w' ∧
     group_ok rg (w_cache w') ∧ later w w' ∧ machine_present rg name w' ∧
     (err = None → control_plane_provisioned rg name w')) ∨
  panics_not_rsa cluster (machine_reconcileNormal cluster machine gm) w.
Proof.
  intros rg name Hcan Hcp Hok. unfold panics_not_rsa.
  destruct (machine_reconcileNormal_eq cluster machine gm w Hcan Hok) as (c1 & Hok1 & Hk & [Hp1 Hp2] & _ & Hrun).
  assert (Hl1 : later w (with_cache c1 w)) by by apply later_mux_same.
  rewrite Hcp in Hrun. cbn [negb] in Hrun. rewrite go_bind_eq in Hrun. fold rg name in Hrun.
  destruct (provisionControlPlane_goes cluster rg name (with_cache c1 w) Hok1)
    as [(err & w' & Hrun' & Hok' & Hl & Hg)|[[msg Hrun'] Hkey]]; rewrite Hrun' in Hrun.
  - left. exists err, w'. split; [exact Hrun|]. split; [done|]. split; [by etrans|].
    split; [split; eapply present_later; done|done].
  - right. split; [by exists msg|done].
Qed.

(** A worker machine is provisioned: once its cluster has infrastructure and its
    bootstrap data is there, a reconciliation succeeds, leaves a CloudMachine and a
    Node of its name in the resource group of the cluster and every object that was
    there as it was, and makes the machine ready with the provider id of the node;
    the mux is not touched, and doing it again changes nothing that can be seen. *)
Theorem worker_machine_provisioned cluster machine gm w :
  let rg := KObj_String (cl_Meta cluster) in
  let name := om_Name (gm_Meta gm) in
  can_provision cluster machine → util_IsControlPlaneMachine machine = false →
  group_ok rg (w_cache w) →
  ∃ w1, machine_reconcileNormal cluster machine gm w =
      Done (provisioned_machine gm, (zeroResult, None)) w1 ∧
    machine_present rg name w1 ∧ keeps_objects (w_cache w) (w_cache w1) ∧
    w_APIServerMux w1 = w_APIServerMux w ∧
    ∃ w2, machine_reconcileNormal cluster machine (provisioned_machine gm) w1 =
        Done (provisioned_machine gm, (zeroResult, None)) w2 ∧
      cache_eqv (w_cache w1) (w_cache w2) ∧ w_APIServerMux w2 = w_APIServerMux w1.
Proof.
  intros rg name Hcan Hworker Hok.
  destruct (machine_reconcileNormal_eq cluster machine gm w Hcan Hok) as (c1 & Hok1 & Hk & Hp & _ & Hrun).
  destruct (machine_reconcileNormal_eq cluster machine (provisioned_machine gm) (with_cache c1 w) Hcan Hok1)
    as (c2 & _ & _ & _ & He & Hrun2).
  rewrite Hworker in Hrun, Hrun2. exists (with_cache c1 w). split; [exact Hrun|]. do 3 (split; [done|]).
  exists (with_cache c2 (with_cache c1 w)). split; [exact Hrun2|]. split; [|done]. by apply He.
Qed.


(** ** The reconciliations of the program *)
(** What a mux that has listeners keeps. *)
Definition live_later (m m' : WorkloadClustersMux) : Prop :=
  workloadClusterListeners m ≠ ∅ → mux_later m m'.

#[export] Instance live_later_preorder : PreOrder live_later.
Proof.
  split; [by intros m _|]. intros m1 m2 m3 H1 H2 Hne. assert (Hl := H1 Hne). etrans; [exact Hl|].
  apply H2. intros Hempty. apply map_choose in Hne as (n & wcl & Hn).
  destruct (ml_address _ _ Hl n wcl Hn) as (wcl' & Hn' & _). by rewrite Hempty in Hn'.
Qed.

Lemma preserves_weaken {A} (R R' : relation WorkloadClustersMux) (s : Go world A) :
  (∀ m m', R m m' → R' m m') → preserves R s → preserves R' s.
Proof. intros HR Hs w a w' Hrun. apply HR. by eapply Hs. Qed.

Lemma Init_later n m r m' : InitWorkloadClusterListener n m = Done r m' → mux_later m m'.
Proof.
  intros Hrun. destruct (InitWorkloadClusterListener_outcome n m) as (r' & m1 & Hrun' & Hout).
  rewrite Hrun in Hrun'. injection Hrun' as <- <-.
  assert (Hreach : ∀ host, mux_reachable host m → mux_reachable host m')
    by (intros host Hr; eapply mux_reachable_call; [exact Hr|by eapply step_init]).
  destruct Hout as [w Hn|err Hn _|Hn _]; [done..|].
  assert (Hne : ∀ q wcl, workloadClusterListeners m !! q = Some wcl → n ≠ q) by (intros q wcl Hq ->; congruence).
  split; [done|..]; unfold HasEtcdMember, HasAPIServer, etcd_cert; cbn.
  - intros q wcl Hq. exists wcl. by rewrite lookup_insert_ne by (by eapply Hne).
  - intros q p. destruct (workloadClusterListeners m !! q) as [wcl|] eqn:Hq; [|done].
    rewrite lookup_insert_ne by (by eapply Hne). by rewrite Hq.
  - intros q p. destruct (workloadClusterListeners m !! q) as [wcl|] eqn:Hq; [|done].
    rewrite lookup_insert_ne by (by eapply Hne). by rewrite Hq.
Qed.

Lemma HotRestart_later l m e m' : HotRestart l m = Done e m' → live_later m m'.
Proof.
  intros Hrun Hne. destruct (decide (l = [])) as [->|Hl].
  - unfold HotRestart in Hrun. go_unfold_in Hrun. by simplify_eq.
  - rewrite HotRestart_refused in Hrun by done. by simplify_eq.
Qed.

Lemma ensureEtcdMember_later cluster rg p : preserves mux_later (ensureEtcdMember cluster rg p).
Proof.
  intros w e w'. unfold ensureEtcdMember. rewrite go_bind_eq. cbn [go_get].
  destruct (HasEtcdMember rg p (w_APIServerMux w)) eqn:Hh; [by intros [= <- <-]|].
  intros (r & w1 & Hca & Hrun)%go_bind_Done_inv. apply (getCA_preserves eq) in Hca. rewrite Hca in Hh |- *.
  destruct r as [[cert [key|]]|err]; [|done|by injection Hrun as <- <-].
  unfold addWithCA in Hrun. cbn [fst snd] in Hrun.
  destruct (AddEtcdMember_later rg p (Some cert) (Some key) _ Hh) as (e' & m' & Hadd & Hl & _).
  rewrite go_bind_eq in Hrun. rewrite (on_mux_Done _ _ _ _ Hadd) in Hrun. destruct e'; by injection Hrun as <- <-.
Qed.

Lemma ensureAPIServer_later cluster rg p : preserves mux_later (ensureAPIServer cluster rg p).
Proof.
  unfold ensureAPIServer. preserve; [apply getCA_preserves, _|].
  apply addWithCA_preserves; [apply _|]. intros cert key m e m' Hrun.
  destruct (AddAPIServer_later rg p cert key m) as (e' & m'' & Hadd & Hl & _).
  rewrite Hrun in Hadd. by injection Hadd as _ ->.
Qed.

Lemma machine_Reconcile_later req : preserves mux_later (machine_Reconcile req).
Proof.
  unfold machine_Reconcile, deferredPatch, machine_reconcileBody, machine_reconcileDelete,
    machine_reconcileNormal, provisionControlPlane. preserve;
    first [apply createIfNotExists_preserves, _|apply ensureEtcdMember_later
          |apply ensureAPIServer_later|apply ensureEtcdPod_preserves, _].
Qed.

Lemma cluster_Reconcile_later req : preserves live_later (cluster_Reconcile req).
Proof.
  unfold cluster_Reconcile, deferredPatch, cluster_reconcileBody, cluster_reconcileDelete,
    cluster_reconcileNormal, reconcileHotRestart. cbn zeta. preserve; apply preserves_on_mux.
  - intros m e m'. apply HotRestart_later.
  - intros m r m' Hrun _. by eapply Init_later.
Qed.

(** A reconciliation of a machine or of a cluster. *)
Definition reconciles w w' : Prop :=
  (∃ req r, machine_Reconcile req w = Done r w') ∨ (∃ req r, cluster_Reconcile req w = Done r w').

Lemma reconciles_later w w' : rtc reconciles w w' → live_later (w_APIServerMux w) (w_APIServerMux w').
Proof.
  induction 1 as [w|w1 w2 w3 [(req & r & Hrun)|(req & r & Hrun)] _ IH]; [done|etrans; [|exact IH]..].
  - intros _. by eapply machine_Reconcile_later.
  - by eapply cluster_Reconcile_later.
Qed.

(** C33: a failure to add an etcd member is never repaired.  After AddEtcdMember has
    failed for a member that had no certificate, and after any number of reconciliations
    of machines and clusters, with and without errors, the member still counts as added;
    the step of a reconciliation that would add it does nothing and reports no error; and
    clients that dial the member are given no certificate. *)
Theorem failed_etcd_member_never_retried host rg member m0 wcl ca key err w w' :
  mux_reachable host m0 →
  workloadClusterListeners m0 !! rg = Some wcl → etcdServingCertificates wcl !! member = None →
  AddEtcdMember rg member ca key m0 = Done (Some err) (w_APIServerMux w) →
  rtc reconciles w w' →
  HasEtcdMember rg member (w_APIServerMux w') = true ∧
  (∀ cluster, ensureEtcdMember cluster rg member w' = Done None w') ∧
  getCertificate (HostPort wcl) member (w_APIServerMux w') = inl None.
Proof.
  intros Hreach Hl Hnone Hadd Hsteps.
  destruct (AddEtcdMember_outcome rg member ca key wcl m0 Hl)
    as (wcl1 & e & k & Hrun1 & Haddr1 & Hmem & _ & _ & _ & Hkeep & _).
  rewrite Hadd in Hrun1. injection Hrun1 as <- Hm.
  assert (Hl1 : workloadClusterListeners (w_APIServerMux w) !! rg = Some wcl1)
    by (rewrite Hm; apply lookup_insert_eq).
  assert (Hlater : mux_later (w_APIServerMux w) (w_APIServerMux w')).
  { apply (reconciles_later _ _ Hsteps). intros He. by rewrite He in Hl1. }
  destruct (ml_etcd _ _ Hlater rg member) as [Hhas Hcert].
  { unfold HasEtcdMember. rewrite Hl1, Hmem. apply bool_decide_eq_true. set_solver. }
  split; [done|]. split.
  { intros cluster. unfold ensureEtcdMember. rewrite go_bind_eq. cbn [go_get]. by rewrite Hhas. }
  destruct (ml_address _ _ Hlater rg wcl1 Hl1) as (wcl' & Hl' & Haddr').
  assert (Hhp : HostPort wcl' = HostPort wcl).
  { unfold HostPort. destruct Haddr' as [-> ->], Haddr1 as [-> ->]. done. }
  assert (Hr : mux_reachable host (w_APIServerMux w')).
  { apply (ml_reachable _ _ Hlater). eapply mux_reachable_call; [exact Hreach|]. by eapply step_etcd. }
  destruct (mux_reachable_fresh _ _ Hr) as [[_ _ Hb _] _ _ _ _ _].
  unfold getCertificate. rewrite (proj2 (Hb (HostPort wcl) rg)) by (by exists wcl'). rewrite Hl'.
  unfold HasEtcdMember in Hhas. rewrite Hl' in Hhas. apply bool_decide_eq_true in Hhas.
  rewrite decide_True by done. unfold etcd_cert in Hcert. cbn in Hcert. rewrite Hl', Hl1 in Hcert.
  change (etcdServingCertificates wcl' !! member = etcdServingCertificates wcl1 !! member) in Hcert.
  f_equal. rewrite Hcert, Hkeep by (by eexists). exact Hnone.
Qed.

(** ** The start of the listener of a cluster *)
(** The cluster has a listener without API servers, which was not started; it was. *)
Definition idle rg (m : WorkloadClustersMux) : Prop := ∃ wcl,
  workloadClusterListeners m !! rg = Some wcl ∧ wcl_listener wcl = None ∧ apiServers wcl = ∅.
Definition up rg (m : WorkloadClustersMux) : Prop := ∃ wcl,
  workloadClusterListeners m !! rg = Some wcl ∧ serving wcl.
Definition keeps_idle rg (m m' : WorkloadClustersMux) : Prop := idle rg m → idle rg m'.
#[export] Instance keeps_idle_preorder rg : PreOrder (keeps_idle rg).
Proof. split; [by intros m H|]. intros m1 m2 m3 H1 H2 H. by apply H2, H1. Qed.

Lemma ensureEtcdMember_idle cluster rg p : preserves (keeps_idle rg) (ensureEtcdMember cluster rg p).
Proof.
  unfold ensureEtcdMember. preserve; [apply getCA_preserves, _|].
  apply addWithCA_preserves; [apply _|]. intros cert key m e m' Hrun (wcl & Hl & Hnone & Hapi).
  destruct (AddEtcdMember_outcome rg p cert key wcl m Hl) as (wcl' & e' & k & Hadd & _ & _ & Ha & _ & _ & _ & _ & Hk).
  rewrite Hrun in Hadd. injection Hadd as _ ->. exists wcl'. rewrite Hk, Ha. split; [apply lookup_insert_eq|done].
Qed.

Lemma ensureAPIServer_up cluster rg p w w' :
  ensureAPIServer cluster rg p w = Done None w' → idle rg (w_APIServerMux w) → up rg (w_APIServerMux w').
Proof.
  intros Hrun (wcl & Hl & Hnone & Hapi). unfold ensureAPIServer in Hrun. rewrite go_bind_eq in Hrun.
  cbn [go_get] in Hrun. unfold HasAPIServer in Hrun. rewrite Hl, Hapi, bool_decide_false in Hrun by set_solver.
  apply go_bind_Done_inv in Hrun as (r & w1 & Hca & Hrun). apply (getCA_preserves eq) in Hca.
  rewrite Hca in Hl. destruct r as [[cert [key|]]|err]; [|done..]. unfold addWithCA in Hrun. cbn [fst snd] in Hrun.
  apply go_bind_Done_inv in Hrun as (e & w2 & Hadd & Hrun). destruct e as [e|]; [done|]. injection Hrun as <-.
  unfold on_mux, on_part in Hadd. destruct (AddAPIServer _ _ _ _ _) as [e m'| |] eqn:Hm; [|done..].
  injection Hadd as -> <-. exact (AddAPIServer_serving _ _ _ _ _ _ _ Hl Hnone Hm).
Qed.

Lemma provisionControlPlane_up cluster rg name w w' :
  provisionControlPlane cluster rg name w = Done None w' → idle rg (w_APIServerMux w) → up rg (w_APIServerMux w').
Proof.
  unfold provisionControlPlane. set (pods := andNext (ensureEtcdPod rg name) _).
  assert (Hpods : preserves eq pods)
    by (unfold pods; preserve; first [apply ensureEtcdPod_preserves, _|apply createIfNotExists_preserves, _]).
  clearbody pods. rewrite andNext_eq. destruct (ensureEtcdMember _ _ _ w) as [[e|] w1| |] eqn:H1; [done| |done..].
  rewrite andNext_eq. destruct (ensureAPIServer _ _ _ w1) as [[e|] w2| |] eqn:H2; [done| |done..].
  intros H3 Hidle. apply Hpods in H3. rewrite <- H3. eapply ensureAPIServer_up; [exact H2|].
  by eapply ensureEtcdMember_idle.
Qed.

(** A machine waits: without infrastructure or without bootstrap data a
    reconciliation changes nothing and reports no error. *)
Lemma machine_waits cluster machine gm w :
  ¬ can_provision cluster machine →
  machine_reconcileNormal cluster machine gm w = Done (gm, (zeroResult, None)) w.
Proof.
  unfold can_provision, machine_reconcileNormal. intros Hno.
  destruct (cl_InfrastructureReady cluster); [|done]. destruct (ma_DataSecretName machine); [|].
  - destruct Hno. by split.
  - cbn [negb]. by destruct (_ && _).
Qed.
End facts.

(** ** Concrete machines *)
Definition test_machine (name : string) : GoofyMachine :=
  mkGoofyMachine (named_meta "default" name) None false.
Definition test_owner_machine (name : string) : Machine :=
  mkMachine (named_meta "default" name) (Some "bootstrap") name "".
Definition group_a : Cluster := owner_cluster (named_meta "" "a").

(** A world with the resource group "a", served by a mux. *)
Definition machine_world {N : Net} (m : WorkloadClustersMux) : world :=
  mkWorld (exec (Manager_AddResourceGroup "a") Manager_New) m true [] 0.

Lemma machine_world_ok {N : Net} m : group_ok "a" (w_cache (machine_world m)).
Proof.
  split; [done|]. split; [|vm_decide]. intros rg t Ht.
  assert (Hg : resourceGroups (w_cache (machine_world m)) = {["a" := mkTracker ∅ ∅]}) by vm_decide.
  rewrite Hg in Ht. apply lookup_singleton_Some in Ht as [_ <-].
  split; [by intros gvk key obj Htr|by intros r s Hs].
Qed.

Section worker_witness.
Let N : Net := test_net.
Let M : Management test_net := test_management [] [] false.
Local Existing Instance M.

Lemma worker_machine_provisioned_witness :
  ∃ w1, machine_reconcileNormal group_a (test_owner_machine "m") (test_machine "m")
      (machine_world test_mux3) = Done (provisioned_machine (test_machine "m"), (zeroResult, None)) w1 ∧
    present (w_cache w1) "a" (corev1_gvk "Node") (NN "" "m").
Proof.
  destruct (worker_machine_provisioned group_a (test_owner_machine "m") (test_machine "m")
    (machine_world test_mux3)) as (w1 & Hrun & [_ Hnode] & _).
  - split; [done|by eexists].
  - reflexivity.
  - exact (machine_world_ok test_mux3).
  - exists w1. by split.
Defined.
End worker_witness.

Section control_plane_witness.
Let N : Net := test_net.
Let M : Management test_net := test_management [] [] true.
Local Existing Instance M.

End control_plane_witness.

(** A network on which no certificate can be made. *)
Definition broken_net : Net := {|
  Certificate := string;
  PrivateKey := string;
  TLSCertificate := string;
  NetListener := string;
  NewPrivateKey _ := inr "no entropy";
  NewSignedCert _ _ _ _ := inr "no key";
  EncodeCertPEM c := c;
  EncodePrivateKeyPEM k := k;
  X509KeyPair c k := inl (c +:+ "/" +:+ k);
  net_Listen _ addr := inl addr;
  ServeTLS_error _ _ := None;
  ParseIP s := s;
  rest_Config := string;
  clientcmd_Write k := inl (kc_CurrentContext k);
  RESTConfigFromKubeConfig b := inl b
|}.

Section failed_witness.
Let N : Net := broken_net.
Local Existing Instance N.
Definition broken_management : Management broken_net :=
  let T := test_management [] [test_machine "m"] true in {|
    client_Get_GoofyCluster := client_Get_GoofyCluster;
    client_Get_GoofyMachine := client_Get_GoofyMachine;
    client_List_GoofyClusters := client_List_GoofyClusters;
    client_List_Machines := client_List_Machines;
    util_GetOwnerCluster := util_GetOwnerCluster;
    util_GetOwnerMachine := util_GetOwnerMachine;
    util_GetClusterFromMetadata := util_GetClusterFromMetadata;
    util_IsControlPlaneMachine := util_IsControlPlaneMachine;
    conditions_IsTrue := conditions_IsTrue;
    annotations_IsPaused := annotations_IsPaused;
    clog_AddOwners := clog_AddOwners;
    patch_NewHelper := patch_NewHelper;
    patch_Patch := patch_Patch;
    ContainsFinalizer := ContainsFinalizer;
    AddFinalizer := AddFinalizer;
    RemoveFinalizer := RemoveFinalizer;
    secret_Get := secret_Get;
    DecodeCertPEM s := inl s;
    DecodePrivateKeyPEM s := inl (RSAKey s);
    rand_Uint32 := rand_Uint32;
    local_offset := local_offset |}.
Local Existing Instance broken_management.

Definition broken_mux1 : WorkloadClustersMux :=
  run_mux (InitWorkloadClusterListener "a") (NewWorkloadClustersMux "10.0.0.1").
Definition broken_add : Go WorkloadClustersMux (option string) :=
  AddEtcdMember "a" "etcd-m" None None.
Definition broken_mux2 : WorkloadClustersMux := run_mux broken_add broken_mux1.

Lemma run_Done {W A} (f : Go W A) w :
  match f w with Done _ _ => true | _ => false end = true → ∃ a w', f w = Done a w'.
Proof. destruct (f w); [by eauto|done..]. Qed.

(** Two reconciliations of the machine, after the failed call. *)
Definition broken_run : Go world (Result * option GoError) :=
  _ ← machine_Reconcile (NN "default" "m"); machine_Reconcile (NN "default" "m").

Lemma failed_etcd_member_never_retried_witness :
  ∃ r w1 addr, broken_run (machine_world broken_mux2) = Done r w1 ∧
    HasEtcdMember "a" "etcd-m" (w_APIServerMux w1) = true ∧
    getCertificate addr "etcd-m" (w_APIServerMux w1) = inl None.
Proof.
  destruct (run_mux_Done (InitWorkloadClusterListener "a") (λ _, true)
    (NewWorkloadClustersMux "10.0.0.1")) as (r & Hinit & _); [by vm_compute|].
  destruct (run_mux_Done broken_add (λ e, bool_decide (is_Some e)) broken_mux1)
    as (e & Hadd & He%bool_decide_eq_true); [by vm_compute|]. destruct He as [err ->].
  destruct (workloadClusterListeners broken_mux1 !! "a") as [wcl|] eqn:Hl.
  2: { assert (Hs : is_Some (workloadClusterListeners broken_mux1 !! "a")) by vm_decide.
       rewrite Hl in Hs. by destruct Hs. }
  destruct (run_Done broken_run (machine_world broken_mux2)) as (r2 & w2 & Hrun); [by vm_compute|].
  assert (Hsteps : rtc reconciles (machine_world broken_mux2) w2).
  { apply go_bind_Done_inv in Hrun as (r1 & w1 & H1 & H2).
    eapply rtc_l; [left; by do 2 eexists|]. apply rtc_once. left. by do 2 eexists. }
  destruct (failed_etcd_member_never_retried "10.0.0.1" "a" "etcd-m" broken_mux1 wcl None None err
    (machine_world broken_mux2) w2) as (Hhas & _ & Hcert).
  - apply mux_started_reachable, rtc_once. by eapply step_init.
  - exact Hl.
  - assert (Hc : (etcdServingCertificates <$> workloadClusterListeners broken_mux1 !! "a") = Some ∅)
      by vm_decide.
    rewrite Hl in Hc. injection Hc as ->. apply lookup_empty.
  - exact Hadd.
  - exact Hsteps.
  - by exists r2, w2, (HostPort wcl).
Defined.
End failed_witness.
