(* ===== verification/MachineClients.v ===== *)
(** * Concurrent reconciliations of worker machines

    The workers of the GoofyMachine controller reconcile the machines of a cluster at
    once, and each creates the VM and the node of its machine in one resource group.
    Here the reconciliation of a worker machine is a client of the cache that creates
    objects in turn and goes on when one exists already. *)

From stdpp Require Import prelude gmap strings list relations countable.
From Stdlib Require Import ZArith Lia.
From S2P Require Import Prelude GoStd GoTime Api Runtime Cache CacheFacts CacheStore CacheSystem EventSource Controller Mux Management.
From S2P Require Import TestEnv MuxFacts MachineController MachineFacts Sync SyncSerial LockOrder CacheLocks CacheSerial CacheClients.

(** ** What a reconciliation creates, in order *)
Fixpoint createAll (objs : list Object) : client request answer (option APIError) :=
  match objs with
  | [] => Return None
  | obj :: objs =>
      Ask (RequestCreate (Some obj)) (λ a,
        match (answer_object a).2 with
        | Some err => if negb (IsAlreadyExists err) then Return (Some err) else createAll objs
        | None => createAll objs
        end)
  end.

(** reconcileNormal of a worker machine: the VM, then the node. *)
Definition worker_objects (name : string) : list Object := [cloudMachine_of name; node_of name false].
Definition worker_client (gm : GoofyMachine) : client request answer (option APIError) :=
  createAll (worker_objects (om_Name (gm_Meta gm))).

Section facts.
Context {E : Env} {L : EnvLaws E} {CS : CloudScheme E} {N : Net} {M : Management N} (rg : string) (fuel : nat).
Implicit Types c : ccache.
Abbreviation at_once := (answers_at_once rg fuel).

(** An object the scheme knows, without owners. *)
Definition creatable (obj : Object) : Prop := is_Some (program_gvk (obj_body obj)) ∧ GetOwnerReferences obj = [].
Lemma worker_objects_creatable name : Forall creatable (worker_objects name).
Proof. repeat apply Forall_cons_2; try apply Forall_nil; (split; [by eexists|done]). Qed.

(** What is in the resource group was there, or was created from an object. *)
Definition comes_from (objs : list Object) c c' : Prop := ∀ gvk key o, tracked_in c' rg gvk key o →
  tracked_in c rg gvk key o ∨ ∃ obj now, obj ∈ objs ∧ program_gvk (obj_body obj) = Some gvk ∧
    ObjectKeyFromObject obj = key ∧ o = created_object now (SetGroupVersionKind gvk obj).
Lemma comes_from_trans objs c1 c2 c3 : comes_from objs c1 c2 → comes_from objs c2 c3 → comes_from objs c1 c3.
Proof. intros H12 H23 gvk key o Ho. destruct (H23 gvk key o Ho) as [Ho2|?]; [by apply H12|by right]. Qed.

Lemma Create_comes_from objs obj r e c c' :
  group_ok rg c → creatable obj → obj ∈ objs → Create rg (Some obj) c = Done (r, e) c' → comes_from objs c c'.
Proof.
  intros (Hrg & Hwf & [t Ht]) [[gvk Hgvk] Howners] Hin Hrun.
  assert (Hacc : store_accepts rg obj false gvk t c) by (split; [done|by apply scheme_knows|done..]).
  destruct (store_refines rg t gvk obj false c (Hwf _ _ Ht) Hacc) as (t' & o' & e' & n & k & Hrun' & Hspec).
  unfold Create in Hrun. rewrite Hrun in Hrun'. injection Hrun' as -> -> ->.
  intros gvk' key o (u & Hu & Ho). cbn in Hu. rewrite lookup_insert_eq in Hu. injection Hu as <-.
  inversion Hspec as [|? old Hv Hold [Heqv _]| | |? Hv Hnone [Hobjs _ _]|]; subst.
  - left. by exists t'.
  - left. exists t. by rewrite <- Heqv.
  - rewrite Hobjs in Ho. case_decide as Hk; [|left; by exists t]. destruct Hk as [-> <-]. injection Ho as <-.
    right. by exists obj, (time_Now (ticks c)).
Qed.

(** ** Clients that create *)
Section jobs.
Context (jobs : list (list Object)) (c0 : ccache) (Hjobs : Forall (Forall creatable) jobs).

Record creating (a : ccache * list (client request answer (option APIError))) : Prop := {
  cr_group : group_ok rg a.1;
  cr_keeps : keeps_objects c0 a.1;
  cr_from : comes_from (concat jobs) c0 a.1;
  cr_length : length a.2 = length jobs;
  cr_progress : ∀ i objs, jobs !! i = Some objs → ∃ before after,
    objs = before ++ after ∧ a.2 !! i = Some (createAll after) ∧
    ∀ obj gvk, obj ∈ before → program_gvk (obj_body obj) = Some gvk → present a.1 rg gvk (ObjectKeyFromObject obj) }.

Lemma asked_creating a a' : creating a → asked at_once a a' → creating a'.
Proof.
  intros [Hg Hk Hf Hlen Hprog] (i & k & c' & k' & Hi & Hans & ->).
  destruct (lookup_lt_is_Some_2 jobs i) as [objs Hobjs]; [rewrite <- Hlen; by eapply lookup_lt_Some|].
  destruct (Hprog i objs Hobjs) as (before & after & -> & Hafter & Hbefore). rewrite Hi in Hafter. injection Hafter as ->.
  destruct after as [|obj after]; inversion Hans as [? ? ? r ? Hrun]; subst.
  assert (creatable obj) as Hobj.
  { pose proof (Forall_lookup_1 _ _ _ _ Hjobs Hobjs) as Hall. 
    apply (Forall_lookup_1 _ _ (length before) _ Hall). by apply list_lookup_middle. }
  unfold answers_at_once in Hrun. cbn in Hrun. apply go_bind_Done_inv in Hrun as ([r1 e1] & c1 & Hrun & [= <- <-]).
  pose proof Hobj as [[gvk Hgvk] Howners].
  destruct (Create_ok rg obj gvk a.1 Hg Hgvk Howners) as (r2 & e2 & c2 & Hrun2 & Hg2 & Hk2 & Hp2 & He2 & _).
  rewrite Hrun2 in Hrun. injection Hrun as <- <- <-.
  assert (obj ∈ concat jobs) as Hin.
  { apply list_elem_of_In, in_concat. exists (before ++ obj :: after). split; apply list_elem_of_In.
    - by eapply list_elem_of_lookup_2.
    - apply elem_of_app. right. by left. }
  split; cbn [fst snd]; [done|intros ? ? ? ? Ho; by apply Hk2, Hk| |by rewrite length_insert|].
  { eapply comes_from_trans; [exact Hf|]. by eapply (Create_comes_from (concat jobs) obj). }
  intros j objs Hj. destruct (decide (i = j)) as [<-|Hij].
  - rewrite Hobjs in Hj. injection Hj as <-. exists (before ++ [obj]), after. split; [by rewrite <- app_assoc|]. split.
    + rewrite list_lookup_insert_eq by (by eapply lookup_lt_Some). f_equal. cbn.
      destruct He2 as [->|(err & -> & ->)]; done.
    + intros x gvk' [Hx| ->%list_elem_of_singleton]%elem_of_app Hgvk'; [|congruence].
      eapply present_keeps; [exact Hk2|by eapply Hbefore].
  - destruct (Hprog j objs Hj) as (b & af & Heq & Haf & Hb). exists b, af. split; [done|].
    rewrite list_lookup_insert_ne by done. split; [done|]. intros x gvk' Hx Hgvk'. eapply present_keeps; [exact Hk2|by eapply Hb].
Qed.
Lemma answers_creating a a' : rtc (asked at_once) a a' → creating a → creating a'.
Proof. induction 1 as [|a a1 a2 Hone _ IHa]; [done|]. intros Ha. by eapply IHa, asked_creating. Qed.
Lemma creating_starts : group_ok rg c0 → creating (c0, job_client <$> (JobClient ∘ createAll <$> jobs)).
Proof.
  intros Hg. split; cbn; [done|by intros ????|by intros ????; left|by rewrite !length_fmap|].
  intros i objs Hi. exists [], objs. split; [done|]. rewrite !list_lookup_fmap, Hi. split; [done|].
  intros obj gvk Hin. by apply not_elem_of_nil in Hin.
Qed.
Lemma createAll_asks objs : asks_only is_store_or_read (createAll objs).
Proof.
  induction objs as [|obj objs IHobjs]; [done|]. split; [done|]. intros a. destruct (answer_object a).2 as [e|]; [|done].
  by destruct (negb _).
Qed.

Lemma creations_succeed s :
  group_ok rg c0 → Sync.reachable c0 (job_locks rg fuel <$> (JobClient ∘ createAll <$> jobs)) s →
  completes s ∧ (finished s → group_ok rg s.1 ∧ keeps_objects c0 s.1 ∧ comes_from (concat jobs) c0 s.1 ∧
    ∀ i objs, jobs !! i = Some objs → (∃ g, s.2 !! i = Some g ∧ g_prog g = Ret None) ∧
      ∀ obj gvk, obj ∈ objs → program_gvk (obj_body obj) = Some gvk → present s.1 rg gvk (ObjectKeyFromObject obj)).
Proof.
  intros Hg Hreach. pose proof Hg as (_ & Hwf & Ht). split.
  { eapply jobs_finish; [exact Ht| |exact Hreach]. apply stores_answered; [done|done|]. do 2 apply Forall_fmap.
    apply Forall_true. intros objs. apply createAll_asks. }
  intros Hfin. destruct (finished_refines at_once (TrackerLock (encode rg)) (has_group rg) (has_group rg) (λ _ Hd, Hd)
    c0 _ _ s Ht (jobs_follow rg fuel _) Hreach Hfin) as (_ & ks & Hrun & Hlen & Hret).
  destruct (answers_creating _ _ Hrun (creating_starts Hg)) as [Hg' Hk Hf Hlen' Hprog]. split_and!; [done..|].
  intros i objs Hi. destruct (Hprog i objs Hi) as (before & after & -> & Hki & Hb).
  destruct (lookup_lt_is_Some_2 s.2 i) as [g Hg1]; [rewrite <- Hlen; by eapply lookup_lt_Some|].
  destruct (Hret i g Hg1) as (e & He & Hke). cbn in Hki. rewrite Hki in Hke.
  destruct after as [|obj after]; [|discriminate]. injection Hke as <-. rewrite app_nil_r. split; [by exists g|done].
Qed.
End jobs.

(** ** Reconciliations *)
(** Alone, the client does what the calls of reconcileNormal do. *)
Lemma createIfNotExists_answered obj objs what w :
  group_ok rg (w_cache w) → creatable obj →
  ∃ c', createIfNotExists rg obj what w = Done None (with_cache c' w) ∧ group_ok rg c' ∧
    rtc (answered at_once) (w_cache w, createAll (obj :: objs)) (c', createAll objs).
Proof.
  intros Hg [[gvk Hgvk] Howners].
  destruct (Create_ok rg obj gvk (w_cache w) Hg Hgvk Howners) as (r & e & c' & Hrun & Hg' & _ & _ & He & _).
  exists c'. split; [|split; [done|]].
  - unfold createIfNotExists. rewrite go_bind_eq. erewrite on_cloud_Done by exact Hrun.
    destruct He as [->|(err & -> & Herr)]; [done|]. cbn [snd]. by rewrite Herr.
  - apply rtc_once. cbn [createAll].
    lazymatch goal with |- answered _ (_, Ask _ ?f) _ => set (k := f) end.
    assert (createAll objs = k (AnswerObject (r, e))) as -> by (destruct He as [->|(err & -> & Herr)]; cbn; by rewrite ?Herr).
    apply answered_intro. unfold answers_at_once. cbn. by rewrite go_bind_eq, Hrun.
Qed.
Lemma worker_reconciles_as_client cluster machine gm w :
  rg = KObj_String (cl_Meta cluster) → can_provision cluster machine →
  util_IsControlPlaneMachine machine = false → group_ok rg (w_cache w) →
  ∃ c', machine_reconcileNormal cluster machine gm w =
      Done (provisioned_machine gm, (zeroResult, None)) (with_cache c' w) ∧
    rtc (answered at_once) (w_cache w, worker_client gm) (c', Return None).
Proof.
  intros Heq [Hready [data Hdata]] Hworker Hg. pose proof (worker_objects_creatable (om_Name (gm_Meta gm))) as Hall.
  apply Forall_cons_1 in Hall as [Hvm Hall]. apply Forall_cons_1 in Hall as [Hnode _].
  destruct (createIfNotExists_answered _ [node_of (om_Name (gm_Meta gm)) false] "CloudMachine" w Hg Hvm)
    as (c1 & Hrun1 & Hg1 & Ha1).
  destruct (createIfNotExists_answered _ [] "Node" (with_cache c1 w) Hg1 Hnode) as (c2 & Hrun2 & _ & Ha2).
  exists c2. split; [|etrans; [exact Ha1|exact Ha2]].
  unfold machine_reconcileNormal. rewrite <- Heq, Hready, Hdata, Hworker. cbn [negb].
  rewrite go_bind_eq, andNext_eq, Hrun1, Hrun2. done.
Qed.

(** The goroutine that reconciles a machine. *)
Definition worker_job (p : Machine * GoofyMachine) : job := JobClient (worker_client p.2).

(** C31: the worker machines of a cluster are provisioned at once.  As many goroutines
    reconcile worker machines of a cluster, which has its resource group, in
    a well-formed cache, and its infrastructure, and whose bootstrap data is there.  The reconciliation of each makes
    the calls of the cloud that its goroutine makes here: alone, from any world with the
    resource group, it does what this client does, and reports no error.  However the
    calls of the goroutines are interleaved, lock by lock, all return, and without an
    error; then the VM and the node of every machine are in the resource group, what was
    there before is as it was, and all else was created for one of the machines. *)
Theorem machines_provisioned_concurrently cluster (machines : list (Machine * GoofyMachine)) c s :
  rg = KObj_String (cl_Meta cluster) →
  (∀ p, p ∈ machines → can_provision cluster p.1 ∧ util_IsControlPlaneMachine p.1 = false) →
  group_ok rg c → Sync.reachable c (job_locks rg fuel <$> (worker_job <$> machines)) s →
  (∀ p w, p ∈ machines → group_ok rg (w_cache w) →
     ∃ c', machine_reconcileNormal cluster p.1 p.2 w =
         Done (provisioned_machine p.2, (zeroResult, None)) (with_cache c' w) ∧
       rtc (answered at_once) (w_cache w, worker_client p.2) (c', Return None)) ∧
  completes s ∧ (finished s →
    (∀ i p, machines !! i = Some p → (∃ g, s.2 !! i = Some g ∧ g_prog g = Ret None) ∧
       present s.1 rg (cloudv1_gvk "CloudMachine") (NN "" (om_Name (gm_Meta p.2))) ∧
       present s.1 rg (corev1_gvk "Node") (NN "" (om_Name (gm_Meta p.2)))) ∧
    keeps_objects c s.1 ∧ comes_from (concat ((λ p, worker_objects (om_Name (gm_Meta p.2))) <$> machines)) c s.1).
Proof.
  intros Heq Hall Hg Hreach. split.
  { intros p w Hp Hw. destruct (Hall p Hp). by apply worker_reconciles_as_client. }
  set (jobs := (λ p, worker_objects (om_Name (gm_Meta p.2))) <$> machines).
  assert (worker_job <$> machines = JobClient ∘ createAll <$> jobs) as Hjobs by (unfold jobs; by rewrite <- list_fmap_compose).
  rewrite Hjobs in Hreach. destruct (creations_succeed jobs c) with (s := s) as [Hends Hfin]; [|done|done|].
  { apply Forall_fmap, Forall_true. intros p. apply worker_objects_creatable. }
  split; [done|]. intros Hs. destruct (Hfin Hs) as (_ & Hk & Hf & Hpresent). split; [|done].
  intros i p Hi. set (name := om_Name (gm_Meta p.2)).
  destruct (Hpresent i (worker_objects name)) as [Hret Hobjs]; [unfold jobs; by rewrite list_lookup_fmap, Hi|].
  split; [done|]. split; [apply (Hobjs (cloudMachine_of name)); [left|done]|].
  apply (Hobjs (node_of name false)); [right; left|done].
Qed.
End facts.

(** ** A concrete run: three workers, two of them of one name *)
Section witnesses.
Let N : Net := test_net.
Let M : Management test_net := test_management [] [] false.
Local Existing Instance M.
Definition test_machines : list (Machine * GoofyMachine) :=
  (λ name, (test_owner_machine name, test_machine name)) <$> ["m1"; "m2"; "m1"].
Definition test_provisioned := round_robin 1500 0
  (start (w_cache (machine_world (N := test_net) test_mux3)) (job_locks "a" 0 <$> (worker_job <$> test_machines))).

Lemma machines_provisioned_concurrently_witness :
  present test_provisioned.1 "a" (corev1_gvk "Node") (NN "" "m1") ∧
  present test_provisioned.1 "a" (cloudv1_gvk "CloudMachine") (NN "" "m2").
Proof.
  destruct (machines_provisioned_concurrently "a" 0 group_a test_machines
    (w_cache (machine_world (N := test_net) test_mux3)) test_provisioned) as (_ & _ & Hfin).
  - reflexivity.
  - intros p Hp. unfold test_machines in Hp. apply list_elem_of_fmap in Hp as (name & -> & _).
    split; [|reflexivity]. split; [reflexivity|by eexists].
  - exact (machine_world_ok _).
  - apply round_robin_steps.
  - destruct Hfin as (Hall & _ & _); [apply all_returned_finished; vm_compute; reflexivity|]. split.
    + exact (proj2 (proj2 (Hall 0%nat _ eq_refl))).
    + exact (proj1 (proj2 (Hall 1%nat _ eq_refl))).
Defined.
End witnesses.
