(* ===== verification/EtcdServer.v ===== *)
(** * The fake etcd server: internal/server/etcd/handler.go

    The gRPC handlers read the etcd pods of a resource group: which members there are,
    and which one leads.  The theorems say what they answer on every tracker, and that
    they serve what the machine controller writes ([ensureEtcdPod]). *)

From stdpp Require Import prelude gmap strings list.
From Stdlib Require Import ZArith Lia.
From S2P Require Import Prelude GoStd GoTime Api Runtime Cache CacheFacts CacheStore TestEnv EventSource Controller Mux MuxFacts Management MachineController MachineFacts.
Local Open Scope Z_scope.

(** ** Data: the messages of etcdserverpb, and the context of a request *)
Record ResponseHeader := mkResponseHeader { rh_ClusterId : Z; rh_MemberId : Z }.
Record Member := mkMember { mb_ID : Z; mb_Name : string }.
Record MemberListResponse := mkMemberListResponse {
  mlr_Header : option ResponseHeader; mlr_Members : list Member }.
Record StatusResponse := mkStatusResponse { sr_Header : option ResponseHeader; sr_Leader : Z }.
Inductive AlarmResponse := mkAlarmResponse.

(** The local address of the connection, and the metadata of the request. *)
Record Context := mkContext {
  ctx_LocalAddr : string; ctx_Metadata : option (gmap string (list string)) }.

(** The errors, before they are rendered. *)
Inductive EtcdError :=
| ResolverFailed (msg : string)
| MetadataMissing (resourceGroup : string)
| ListFailed (e : APIError)
| ClusterIDUnreadable (e : NumError) (podName : string)
| MemberIDUnreadable (e : NumError) (podName : string).

Definition ClusterIDAnnotation : string := "etcd.internal.goofy.cluster.x-k8s.io/cluster-id".
Definition MemberIDAnnotation : string := "etcd.internal.goofy.cluster.x-k8s.io/member-id".
Definition LeaderFromAnnotation : string := "etcd.internal.goofy.cluster.x-k8s.io/leader-from".

(** pod.Annotations[key], which is "" when the key is not there. *)
Definition annotation (pod : Object) (key : string) : string :=
  default "" (gomap_elems (GetAnnotations pod) !! key).

(** controller-runtime: client.MatchingLabels as a list option. *)
Class MatchLabels := MatchingLabels : gmap string string → ListOption.

Section server.
Context {E : Env} {ML : MatchLabels}.

(** The struct baseServer; its manager is the state. *)
Record baseServer := mkBaseServer { bs_resourceGroupResolver : string → string + string }.
Implicit Types b : baseServer.

Definition getResourceGroupAndMember b (ctx : Context) : (string * string) + EtcdError :=
  match bs_resourceGroupResolver b (ctx_LocalAddr ctx) with
  | inr err => inr (ResolverFailed err)
  | inl resourceGroup =>
  match ctx_Metadata ctx with
  | None => inr (MetadataMissing resourceGroup)
  | Some md =>
      inl (resourceGroup, TrimPrefix (Join (default [] (md !! ":authority")) ",") "etcd-")
  end end.

(** The variables of inspectEtcd. *)
Record inspection := mkInspection {
  in_memberList : MemberListResponse;
  in_statusHeader : option ResponseHeader;
  in_leaderID : Z;
  in_leaderFrom : Time }.

Definition etcd_labels : gmap string string := {["component" := "etcd"; "tier" := "control-plane"]}.

(** The body of the loop. *)
Definition inspectPod (etcdMember : string) (s : inspection) (pod : Object) : inspection + EtcdError :=
  match Atoi (annotation pod ClusterIDAnnotation) with
  | (_, Some err) => inr (ClusterIDUnreadable err (GetName pod))
  | (clusterID, None) =>
  match Atoi (annotation pod MemberIDAnnotation) with
  | (_, Some err) => inr (MemberIDUnreadable err (GetName pod))
  | (memberID, None) =>
      let '(leaderID, leaderFrom) :=
        match Parse (annotation pod LeaderFromAnnotation) with
        | Some t => if in_leaderFrom s <? t then (memberID, t) else (in_leaderID s, in_leaderFrom s)
        | None => (in_leaderID s, in_leaderFrom s)
        end in
      let '(header, statusHeader) :=
        if decide (GetName pod = etcdMember) then
          let h := Some (mkResponseHeader (to_uint64 clusterID) (to_uint64 memberID)) in (h, h)
        else (mlr_Header (in_memberList s), in_statusHeader s) in
      inl (mkInspection
             (mkMemberListResponse header
                (mlr_Members (in_memberList s) ++
                   [mkMember (to_uint64 memberID) (TrimPrefix (GetName pod) "etcd-")]))
             statusHeader leaderID leaderFrom)
  end end.

Fixpoint inspectPods (etcdMember : string) (s : inspection) (pods : list Object) : inspection + EtcdError :=
  match pods with
  | [] => inl s
  | pod :: pods =>
      match inspectPod etcdMember s pod with
      | inr err => inr err
      | inl s => inspectPods etcdMember s pods
      end
  end.

Definition empty_PodList : ObjectList := mkObjectList (GVK "" "" "") (TypedList "PodList") [].

Definition inspectEtcd (cloudClient : cachedClient) (etcdMember : string)
  : Go ccache ((MemberListResponse * StatusResponse) + EtcdError) :=
  r ← cachedClient_List cloudClient (Some empty_PodList)
        [InNamespace NamespaceSystem; MatchingLabels etcd_labels];
  match r with
  | (_, Some err) => mret (inr (ListFailed err))
  | (etcdPods, None) =>
      let start := mkInspection (mkMemberListResponse None []) None 0 0 in
      match inspectPods etcdMember start (from_option list_items [] etcdPods) with
      | inr err => mret (inr err)
      | inl s =>
          mret (inl (in_memberList s, mkStatusResponse (in_statusHeader s) (to_uint64 (in_leaderID s))))
      end
  end.

(** ** The Maintenance server *)
Definition Alarm b (ctx : Context) : Go ccache (AlarmResponse + EtcdError) :=
  match getResourceGroupAndMember b ctx with
  | inr err => mret (inr err)
  | inl _ => mret (inl mkAlarmResponse)
  end.

Definition Status b (ctx : Context) : Go ccache (StatusResponse + EtcdError) :=
  match getResourceGroupAndMember b ctx with
  | inr err => mret (inr err)
  | inl (resourceGroup, etcdMember) =>
      r ← inspectEtcd (GetResourceGroup resourceGroup) etcdMember;
      match r with
      | inr err => mret (inr err)
      | inl (_, statusResponse) => mret (inl statusResponse)
      end
  end.

(** The other calls: Defragment, Hash, HashKV, Snapshot, MoveLeader, Downgrade. *)
Definition maintenance_unimplemented {A} : Go ccache A := go_panic "implement me".

(** ** The Cluster server *)
Definition MemberList b (ctx : Context) : Go ccache (MemberListResponse + EtcdError) :=
  match getResourceGroupAndMember b ctx with
  | inr err => mret (inr err)
  | inl (resourceGroup, etcdMember) =>
      r ← inspectEtcd (GetResourceGroup resourceGroup) etcdMember;
      match r with
      | inr err => mret (inr err)
      | inl (memberList, _) => mret (inl memberList)
      end
  end.

(** The other calls: MemberAdd, MemberRemove, MemberUpdate, MemberPromote. *)
Definition cluster_unimplemented {A} : Go ccache A := go_panic "implement me".
End server.

(** ** What the handlers rely on, and what they compute *)
Definition is_pod (o : Object) : Prop :=
  match obj_body o with Pod _ _ => True | _ => False end.
#[export] Instance is_pod_dec o : Decision (is_pod o).
Proof. unfold is_pod. destruct (obj_body o); apply _. Defined.

(** The scheme knows PodList, meta.SetList puts pods in it, and a selector made of
    labels matches what has them all. *)
Class PodListLaws (E : Env) (ML : MatchLabels) : Prop := {
  pl_gvk : ∀ g, scheme_GVKForList (TypedList "PodList") g = inl (corev1_gvk "PodList");
  pl_SetList : ∀ g items, Forall is_pod items →
    meta_SetList (mkObjectList g (TypedList "PodList") []) items =
      inl (mkObjectList g (TypedList "PodList") items);
  pl_namespace : ∀ ls o, lo_Namespace (MatchingLabels ls o) = lo_Namespace o;
  pl_selector : ∀ ls o, lo_LabelSelector o = None → ∃ sel,
    lo_LabelSelector (MatchingLabels ls o) = Some sel ∧ sel_Empty sel = bool_decide (ls = ∅) ∧
    ∀ labels, sel_Matches sel labels = bool_decide (ls ⊆ labels) }.

(** The etcd pods of a tracker, and what is read in one. *)
Definition is_etcd_pod (o : Object) : Prop :=
  GetNamespace o = NamespaceSystem ∧ etcd_labels ⊆ gomap_elems (GetLabels o).
#[export] Instance is_etcd_pod_dec o : Decision (is_etcd_pod o).
Proof. unfold is_etcd_pod. apply _. Defined.
Definition pods_of (t : resourceGroupTracker) : gmap NamespacedName Object :=
  default ∅ (objects t !! corev1_gvk "Pod").
Definition etcd_pods (t : resourceGroupTracker) : list Object := filter is_etcd_pod (map_to_list (pods_of t)).*2.

Definition identity (pod : Object) : option (Z * Z) :=
  match Atoi (annotation pod ClusterIDAnnotation), Atoi (annotation pod MemberIDAnnotation) with
  | (clusterID, None), (memberID, None) => Some (clusterID, memberID)
  | _, _ => None
  end.
Definition cluster_id (pod : Object) : Z := from_option fst 0 (identity pod).
Definition member_id (pod : Object) : Z := from_option snd 0 (identity pod).
Definition header_of (pod : Object) : ResponseHeader :=
  mkResponseHeader (to_uint64 (cluster_id pod)) (to_uint64 (member_id pod)).
Definition member_of (pod : Object) : Member :=
  mkMember (to_uint64 (member_id pod)) (TrimPrefix (GetName pod) "etcd-").
Definition leader_time (pod : Object) : option Time := Parse (annotation pod LeaderFromAnnotation).

(** The header of an answer to [m]: the identity of the pod with that very name. *)
Definition header_for (m : string) (pods : list Object) (h : option ResponseHeader) : Prop :=
  (∃ pod, pod ∈ pods ∧ GetName pod = m ∧ h = Some (header_of pod)) ∨
  ((∀ pod, pod ∈ pods → GetName pod ≠ m) ∧ h = None).

(** The leader among pods: one with the latest time, or 0 when none has a time. *)
Definition leader_among (pods : list Object) (l : Z) : Prop :=
  (l = 0 ∧ ∀ pod t, pod ∈ pods → leader_time pod = Some t → t ≤ 0) ∨
  ∃ pod t, pod ∈ pods ∧ leader_time pod = Some t ∧ 0 < t ∧ l = to_uint64 (member_id pod) ∧
    ∀ pod' t', pod' ∈ pods → leader_time pod' = Some t' → t' ≤ t.

(** ** The loop *)
(** What the loop leaves in its variables, from [s] on. *)
Record inspected (m : string) (s : inspection) (pods : list Object) (s' : inspection) : Prop := {
  ins_members : mlr_Members (in_memberList s') = mlr_Members (in_memberList s) ++ (member_of <$> pods);
  ins_header : (∃ pod, pod ∈ pods ∧ GetName pod = m ∧
      mlr_Header (in_memberList s') = Some (header_of pod) ∧ in_statusHeader s' = Some (header_of pod)) ∨
    ((∀ pod, pod ∈ pods → GetName pod ≠ m) ∧
      mlr_Header (in_memberList s') = mlr_Header (in_memberList s) ∧ in_statusHeader s' = in_statusHeader s);
  ins_later : in_leaderFrom s ≤ in_leaderFrom s';
  ins_latest : ∀ pod t, pod ∈ pods → leader_time pod = Some t → t ≤ in_leaderFrom s';
  ins_leader : (in_leaderID s' = in_leaderID s ∧ in_leaderFrom s' = in_leaderFrom s) ∨
    ∃ pod, pod ∈ pods ∧ leader_time pod = Some (in_leaderFrom s') ∧
      in_leaderFrom s < in_leaderFrom s' ∧ in_leaderID s' = member_id pod }.

Lemma inspectPod_ok m s pod :
  is_Some (identity pod) → ∃ s', inspectPod m s pod = inl s' ∧ inspected m s [pod] s'.
Proof.
  intros [[cid mid] Hid]. assert (Hm : member_id pod = mid) by (unfold member_id; by rewrite Hid).
  assert (Hc : cluster_id pod = cid) by (unfold cluster_id; by rewrite Hid).
  unfold inspectPod. unfold identity in Hid.
  destruct (Atoi (annotation pod ClusterIDAnnotation)) as [cid' [?|]]; [done|].
  destruct (Atoi (annotation pod MemberIDAnnotation)) as [mid' [?|]]; [done|]. injection Hid as -> ->.
  fold (leader_time pod).
  destruct (match leader_time pod with Some _ => _ | None => _ end) as [lid lfrom] eqn:Hlead.
  destruct (if decide (GetName pod = m) then _ else _) as [h sh] eqn:Hh.
  eexists. split; [reflexivity|].
  split; cbn [in_memberList in_statusHeader in_leaderID in_leaderFrom mlr_Header mlr_Members].
  - cbn. unfold member_of. by rewrite Hm.
  - case_decide as Hn; injection Hh as <- <-.
    + left. exists pod. unfold header_of. rewrite Hc, Hm. by rewrite list_elem_of_singleton.
    + right. split; [|done]. by intros ? ->%list_elem_of_singleton.
  - destruct (leader_time pod) as [t|]; [destruct (Z.ltb_spec (in_leaderFrom s) t)|];
      injection Hlead as <- <-; lia.
  - intros ? t ->%list_elem_of_singleton Ht. rewrite Ht in Hlead.
    destruct (Z.ltb_spec (in_leaderFrom s) t); injection Hlead as <- <-; lia.
  - destruct (leader_time pod) as [t|] eqn:Ht; [destruct (Z.ltb_spec (in_leaderFrom s) t)|];
      injection Hlead as <- <-; [right|by left..].
    exists pod. by rewrite list_elem_of_singleton.
Qed.

Lemma inspectPod_error m s pod :
  identity pod = None → ∃ err e, inspectPod m s pod = inr err ∧
    (err = ClusterIDUnreadable e (GetName pod) ∨ err = MemberIDUnreadable e (GetName pod)).
Proof.
  unfold identity, inspectPod. destruct (Atoi (annotation pod ClusterIDAnnotation)) as [cid [e|]].
  { intros _. do 2 eexists. split; [done|]. by left. }
  destruct (Atoi (annotation pod MemberIDAnnotation)) as [mid [e|]]; [|done].
  intros _. do 2 eexists. split; [done|]. by right.
Qed.

Lemma inspected_app m s1 s2 s3 pods pods' :
  inspected m s1 pods s2 → inspected m s2 pods' s3 → inspected m s1 (pods ++ pods') s3.
Proof.
  intros [M1 H1 T1 L1 D1] [M2 H2 T2 L2 D2]. split.
  - by rewrite M2, M1, fmap_app, app_assoc.
  - destruct H2 as [(pod & Hin & Hn & Hh & Hs)|(Hno & Hh & Hs)].
    { left. exists pod. rewrite elem_of_app. by auto. }
    destruct H1 as [(pod & Hin & Hn & Hh1 & Hs1)|(Hno1 & Hh1 & Hs1)].
    { left. exists pod. rewrite elem_of_app, Hh, Hs. by auto. }
    right. split; [|by rewrite Hh, Hs]. intros pod. rewrite elem_of_app. naive_solver.
  - lia.
  - intros pod t. rewrite elem_of_app. intros [Hin|Hin] Ht; [|by eapply L2].
    specialize (L1 pod t Hin Ht). lia.
  - destruct D2 as [[-> ->]|(pod & Hin & Ht & Hlt & Hid)].
    + destruct D1 as [?|(pod & Hin & Ht & Hlt & Hid)]; [by left|]. right. exists pod.
      rewrite elem_of_app. by auto.
    + right. exists pod. rewrite elem_of_app. split; [by auto|]. split; [done|]. split; [lia|done].
Qed.

(** The loop ends well when all pods can be read, and at the first that cannot. *)
Lemma inspectPods_outcome m pods : ∀ s,
  (Forall (λ pod, is_Some (identity pod)) pods ∧
     ∃ s', inspectPods m s pods = inl s' ∧ inspected m s pods s') ∨
  ∃ pod err e, pod ∈ pods ∧ identity pod = None ∧ inspectPods m s pods = inr err ∧
    (err = ClusterIDUnreadable e (GetName pod) ∨ err = MemberIDUnreadable e (GetName pod)).
Proof.
  induction pods as [|pod pods IH]; intros s.
  - left. split; [done|]. exists s. split; [done|]. split; [by rewrite app_nil_r|..].
    + right. split; [|done]. by intros ? ?%elem_of_nil.
    + lia.
    + by intros ? ? ?%elem_of_nil.
    + by left.
  - destruct (identity pod) as [id|] eqn:Hid.
    + assert (His : is_Some (identity pod)) by (by rewrite Hid).
      destruct (inspectPod_ok m s pod His) as (s1 & Hs1 & Hi1). cbn. rewrite Hs1.
      destruct (IH s1) as [[Hall (s2 & Hs2 & Hi2)]|(p & err & e & Hin & Hp & Hrun & Herr)].
      * left. split; [by constructor|]. exists s2. split; [done|].
        by apply (inspected_app m s s1 s2 [pod] pods).
      * right. exists p, err, e. split; [by apply list_elem_of_further|]. by auto.
    + right. destruct (inspectPod_error m s pod Hid) as (err & e & Hrun & Herr). cbn. rewrite Hrun.
      exists pod, err, e. split; [by apply list_elem_of_here|]. by auto.
Qed.

(** ** The answers *)
Section answers.
Context {E : Env} {L : EnvLaws E} {ML : MatchLabels} {PL : PodListLaws E ML}.
Implicit Types (b : baseServer) (c : ccache).

(** A server that resolves the address of [ctx] to a resource group of the cache; the
    request is for the member [m]. *)
Record serves b (ctx : Context) (rg m : string) (t : resourceGroupTracker) c : Prop := {
  sv_request : getResourceGroupAndMember b ctx = inl (rg, m);
  sv_named : rg ≠ "";
  sv_tracker : resourceGroups c !! rg = Some t;
  sv_pods : ∀ key o, tracked t (corev1_gvk "Pod") key = Some o → is_pod o }.

Lemma elem_of_pods_of t o : o ∈ (map_to_list (pods_of t)).*2 ↔ ∃ key, tracked t (corev1_gvk "Pod") key = Some o.
Proof.
  rewrite list_elem_of_fmap. unfold pods_of, tracked. split.
  - intros ([key o'] & -> & Hin). apply elem_of_map_to_list in Hin. exists key.
    by destruct (objects t !! _).
  - intros [key Hk]. exists (key, o). split; [done|]. apply elem_of_map_to_list.
    by destruct (objects t !! _).
Qed.

Lemma etcd_selects o :
  list_selects (ApplyOptions (mkListOptions "" None) [InNamespace NamespaceSystem; MatchingLabels etcd_labels]) o
    ↔ is_etcd_pod o.
Proof.
  set (lo := ApplyOptions _ _).
  assert (Hns : lo_Namespace lo = NamespaceSystem) by apply pl_namespace.
  destruct (pl_selector etcd_labels (InNamespace NamespaceSystem (mkListOptions "" None)) eq_refl)
    as (sel & Hsel & Hempty & Hmatch).
  change (lo_LabelSelector lo = Some sel) in Hsel.
  unfold list_selects, is_etcd_pod. rewrite Hns, Hsel, Hempty, Hmatch, (bool_decide_eq_false_2 (etcd_labels = ∅)).
  2: { by intros ?%(f_equal (.!! "tier")). }
  rewrite Is_true_true, andb_true_iff. cbn [orb]. rewrite bool_decide_eq_true. cbn [bool_decide negb andb].
  rewrite negb_true_iff, andb_false_iff, !negb_false_iff, !bool_decide_eq_true. naive_solver.
Qed.

Lemma inspectEtcd_eq b ctx rg m t c :
  serves b ctx rg m t c →
  ∃ pods, pods ≡ₚ etcd_pods t ∧ inspectEtcd (GetResourceGroup rg) m c =
    Done (match inspectPods m (mkInspection (mkMemberListResponse None []) None 0 0) pods with
          | inr err => inr err
          | inl s => inl (in_memberList s, mkStatusResponse (in_statusHeader s) (to_uint64 (in_leaderID s)))
          end) c.
Proof.
  intros [_ Hrg Ht Hpods].
  destruct (List_typed_ok rg "PodList" (GVK "" "" "") (corev1_gvk "PodList")
    [InNamespace NamespaceSystem; MatchingLabels etcd_labels] t c Hrg (pl_gvk _) Ht)
    as (items & Hrun & Hperm & Hin).
  change (unsafeGuessObjectKindFromList (corev1_gvk "PodList")) with (corev1_gvk "Pod") in *.
  exists items. split.
  - rewrite Hperm. unfold etcd_pods, pods_of. by rewrite (list_filter_iff _ _ _ etcd_selects).
  - unfold inspectEtcd. rewrite go_bind_eq. unfold cachedClient_List, empty_PodList.
    cbn [cc_resourceGroup GetResourceGroup].
    rewrite Hrun, pl_SetList; [by destruct (inspectPods _ _ _)|].
    apply Forall_forall. intros o Ho. apply Hin in Ho as [[key Hk] _]. by eapply Hpods.
Qed.

Lemma header_for_perm m pods pods' h : pods ≡ₚ pods' → header_for m pods h → header_for m pods' h.
Proof. intros Hp. unfold header_for. by setoid_rewrite Hp. Qed.
Lemma leader_among_perm pods pods' l : pods ≡ₚ pods' → leader_among pods l → leader_among pods' l.
Proof. intros Hp. unfold leader_among. by setoid_rewrite Hp. Qed.

(** What inspectEtcd finds when each etcd pod can be read, and the error otherwise. *)
Lemma inspectEtcd_outcome b ctx rg m t c :
  serves b ctx rg m t c →
  (Forall (λ pod, is_Some (identity pod)) (etcd_pods t) ∧
   ∃ ml st, inspectEtcd (GetResourceGroup rg) m c = Done (inl (ml, st)) c ∧
     mlr_Members ml ≡ₚ member_of <$> etcd_pods t ∧ header_for m (etcd_pods t) (mlr_Header ml) ∧
     sr_Header st = mlr_Header ml ∧ leader_among (etcd_pods t) (sr_Leader st)) ∨
  ∃ pod err e, pod ∈ etcd_pods t ∧ identity pod = None ∧
    inspectEtcd (GetResourceGroup rg) m c = Done (inr err) c ∧
    (err = ClusterIDUnreadable e (GetName pod) ∨ err = MemberIDUnreadable e (GetName pod)).
Proof.
  intros Hs. destruct (inspectEtcd_eq b ctx rg m t c Hs) as (pods & Hperm & Hrun).
  set (s0 := mkInspection (mkMemberListResponse None []) None 0 0) in Hrun.
  destruct (inspectPods_outcome m pods s0) as [[Hall (s' & Hrun' & Hi)]|(pod & err & e & Hin & Hid & Hrun' & Herr)];
    rewrite Hrun' in Hrun.
  2: { right. exists pod, err, e. by rewrite <- Hperm. }
  left. split; [by rewrite <- Hperm|]. do 2 eexists. split; [exact Hrun|]. destruct Hi as [M H T La D].
  split; [rewrite M; by apply fmap_Permutation|].
  assert (Hh : header_for m pods (mlr_Header (in_memberList s')) ∧
    in_statusHeader s' = mlr_Header (in_memberList s')).
  { destruct H as [(pod & Hin & Hn & Hh & Hsh)|(Hno & Hh & Hsh)]; rewrite Hsh, Hh.
    - split; [|done]. left. by exists pod.
    - split; [|done]. by right. }
  split; [by apply (header_for_perm m pods); [|apply Hh]|]. split; [apply Hh|]. cbn [sr_Leader].
  apply (leader_among_perm pods); [done|].
  destruct D as [[Hid Hfrom]|(pod & Hin & Ht & Hlt & Hid)]; rewrite Hid.
  - left. split; [done|]. change (in_leaderFrom s' = 0) in Hfrom. rewrite <- Hfrom. apply La.
  - right. exists pod, (in_leaderFrom s'). by auto.
Qed.

(** MemberList changes nothing, and lists exactly the etcd pods of the resource
    group the address resolves to, each once, with the id in its annotation and the
    name without "etcd-"; the header is the identity of the pod that has the name asked
    for.  It fails if, and only if, an annotation is not an int, and says of which pod. *)
Theorem member_list_is_etcd_pods b ctx rg m t c :
  serves b ctx rg m t c →
  ∃ r, MemberList b ctx c = Done r c ∧
    match r with
    | inl resp => Forall (λ pod, is_Some (identity pod)) (etcd_pods t) ∧
        mlr_Members resp ≡ₚ member_of <$> etcd_pods t ∧ header_for m (etcd_pods t) (mlr_Header resp)
    | inr err => ∃ pod e, pod ∈ etcd_pods t ∧ identity pod = None ∧
        (err = ClusterIDUnreadable e (GetName pod) ∨ err = MemberIDUnreadable e (GetName pod))
    end.
Proof.
  intros Hs. unfold MemberList. rewrite (sv_request _ _ _ _ _ _ Hs), go_bind_eq.
  destruct (inspectEtcd_outcome b ctx rg m t c Hs)
    as [(Hall & ml & st & -> & Hm & Hh & _)|(pod & err & e & Hin & Hid & -> & Herr)].
  - by exists (inl ml).
  - exists (inr err). split; [done|]. by exists pod, e.
Qed.

(** C28: Status reports as leader a member with the latest leader-from time, to the
    second, and 0 when no member has one. *)
Theorem status_reports_latest_leader b ctx rg m t c :
  serves b ctx rg m t c → Forall (λ pod, is_Some (identity pod)) (etcd_pods t) →
  ∃ resp, Status b ctx c = Done (inl resp) c ∧ leader_among (etcd_pods t) (sr_Leader resp).
Proof.
  intros Hs Hall. unfold Status. rewrite (sv_request _ _ _ _ _ _ Hs), go_bind_eq.
  destruct (inspectEtcd_outcome b ctx rg m t c Hs)
    as [(_ & ml & st & -> & _ & _ & _ & Hl)|(pod & err & e & Hin & Hid & _)].
  - by exists st.
  - rewrite Forall_forall in Hall. destruct (Hall _ Hin). congruence.
Qed.
End answers.

(** ** With the machine controller *)
(** rand.Uint32 returns a uint32. *)
Class RandUint32 {N : Net} (M : Management N) : Prop :=
  rand_Uint32_range : ∀ n, 0 ≤ rand_Uint32 n < 2 ^ 32.

Section machines.
Context {E : Env} {L : EnvLaws E} {CS : CloudScheme E} {ML : MatchLabels} {PL : PodListLaws E ML}.
Context {N : Net} {M : Management N} {RU : RandUint32 M}.
Implicit Types (b : baseServer) (w : world).

Definition etcd_key (name : string) : NamespacedName := NN NamespaceSystem (etcdMember_of name).

(** A time as an RFC 3339 string keeps it. *)
Definition to_second (t : Time) : Time := t / Second * Second.

Lemma pods_of_set t t' key o :
  tracker_set t t' (corev1_gvk "Pod") key None o → pods_of t' = <[key := o]> (pods_of t).
Proof.
  intros Hset. apply map_eq. intros k.
  assert (Hl : ∀ u, pods_of u !! k = tracked u (corev1_gvk "Pod") k).
  { intros u. unfold pods_of, tracked. by destruct (objects u !! _). }
  rewrite Hl, (set_objects _ _ _ _ _ _ Hset). destruct (decide (key = k)) as [->|Hne].
  - by rewrite decide_True, lookup_insert_eq.
  - by rewrite decide_False, lookup_insert_ne, Hl by naive_solver.
Qed.

Lemma etcd_pods_set t t' key o :
  tracked t (corev1_gvk "Pod") key = None → tracker_set t t' (corev1_gvk "Pod") key None o →
  is_etcd_pod o → etcd_pods t' ≡ₚ o :: etcd_pods t.
Proof.
  intros Hno Hset Ho. unfold etcd_pods. rewrite (pods_of_set _ _ _ _ Hset), map_to_list_insert.
  - by rewrite fmap_cons, filter_cons_True.
  - unfold pods_of, tracked in *. by destruct (objects t !! _).
Qed.

(** The pod ensureEtcdPod sends, with what it draws and the time it reads. *)
Definition drawn_pod (name : string) (clusterID memberID : Z) (now : Time) : Object :=
  SetAnnotations (Some {[ClusterIDAnnotation := Itoa clusterID; MemberIDAnnotation := Itoa memberID;
                         LeaderFromAnnotation := Format now local_offset]})
    (SetLabels (Some etcd_labels) (SetGroupVersionKind (corev1_gvk "Pod") (etcdPod_of name))).

Lemma drawn_annotations (a b c : string) :
  let m : gmap string string :=
    {[ClusterIDAnnotation := a; MemberIDAnnotation := b; LeaderFromAnnotation := c]} in
  m !! ClusterIDAnnotation = Some a ∧ m !! MemberIDAnnotation = Some b ∧ m !! LeaderFromAnnotation = Some c.
Proof. done. Qed.

(** What a handler reads in it once it is stored. *)
Lemma drawn_pod_read name n1 n2 now created :
  let pod := created_object created (drawn_pod name (rand_Uint32 n1) (rand_Uint32 n2) now) in
  is_etcd_pod pod ∧ is_pod pod ∧ GetName pod = etcdMember_of name ∧
  identity pod = Some (rand_Uint32 n1, rand_Uint32 n2) ∧
  leader_time pod = Parse (Format now local_offset).
Proof.
  intros pod. pose proof (rand_Uint32_range n1) as H1. pose proof (rand_Uint32_range n2) as H2.
  split; [by split|]. split; [done|]. split; [done|].
  assert (Hann : ∀ k, k ≠ lastSyncTimeAnnotation → annotation pod k =
    annotation (drawn_pod name (rand_Uint32 n1) (rand_Uint32 n2) now) k).
  { intros k Hk. unfold annotation, pod, created_object. apply (f_equal (default "")).
    set (o := SetCreationTimestamp created (drawn_pod _ _ _ _)).
    by apply (lookup_appendAnnotations_ne o). }
  unfold identity, leader_time. rewrite !Hann by done.
  destruct (drawn_annotations (Itoa (rand_Uint32 n1)) (Itoa (rand_Uint32 n2)) (Format now local_offset))
    as (Hc & Hm & Hl).
  unfold annotation, drawn_pod.
  change (GetAnnotations (SetAnnotations ?a ?o)) with a.
  change (gomap_elems (Some ?a)) with a. rewrite Hc, Hm, Hl.
  cbn [from_option id]. rewrite !Atoi_Itoa by (unfold is_int, int_min, int_max; lia). done.
Qed.

(** Creating a pod that is not there: the object stored, and the tracker after it. *)
Lemma createIfNotExists_new rg obj gvk what t w :
  rg ≠ "" → wf_tracker t → resourceGroups (w_cache w) !! rg = Some t →
  program_gvk (obj_body obj) = Some gvk → GetOwnerReferences obj = [] →
  tracked t gvk (ObjectKeyFromObject obj) = None →
  ∃ w' t', createIfNotExists rg obj what w = Done None w' ∧
    resourceGroups (w_cache w') !! rg = Some t' ∧
    tracker_set t t' gvk (ObjectKeyFromObject obj) None
      (created_object (time_Now (ticks (w_cache w))) (SetGroupVersionKind gvk obj)).
Proof.
  intros Hrg Hwf Ht Hgvk Howners Hno.
  assert (Hacc : store_accepts rg obj false gvk t (w_cache w))
    by (split; [done|by apply scheme_knows|done..]).
  destruct (Create_new rg t gvk obj (w_cache w) Hwf Hacc Hno) as (t' & k & Hrun & Hset);
    [by rewrite Howners|].
  do 2 eexists. split; [|split; [|exact Hset]].
  - unfold createIfNotExists. rewrite go_bind_eq. by erewrite on_cloud_Done by exact Hrun.
  - cbn. apply lookup_insert_eq.
Qed.

Lemma ensureEtcdPod_new rg name t w :
  rg ≠ "" → wf_tracker t → resourceGroups (w_cache w) !! rg = Some t →
  tracked t (corev1_gvk "Pod") (etcd_key name) = None →
  ∃ w' t' created, ensureEtcdPod rg name w = Done None w' ∧
    resourceGroups (w_cache w') !! rg = Some t' ∧
    tracker_set t t' (corev1_gvk "Pod") (etcd_key name) None
      (created_object created (drawn_pod name (rand_Uint32 (w_calls w)) (rand_Uint32 (S (w_calls w)))
         (time_Now (ticks (w_cache w))))).
Proof.
  intros Hrg Hwf Ht Hno. set (obj := etcdPod_of name).
  assert (Hget : Get rg (etcd_key name) (Some obj) (w_cache w) =
    Done (Some (SetGroupVersionKind (corev1_gvk "Pod") obj), Some (notFound (corev1_gvk "Pod") (etcd_key name)))
      (w_cache w)).
  { apply (Get_untracked rg t); try done. by apply scheme_knows. }
  unfold ensureEtcdPod. rewrite go_bind_eq. erewrite on_cloud_Done by exact Hget.
  cbn beta iota. change (IsNotFound (notFound _ _)) with true. cbn [negb].
  set (w1 := w_set_CloudManager _ w).
  rewrite go_bind_eq, ext_eq, go_bind_eq, ext_eq. set (w2 := w_set_calls _ (w_set_calls _ w1)).
  rewrite go_bind_eq. erewrite on_cloud_Done by reflexivity. set (w3 := w_set_CloudManager _ w2).
  destruct (createIfNotExists_new rg (drawn_pod name (rand_Uint32 (w_calls w)) (rand_Uint32 (S (w_calls w)))
    (time_Now (ticks (w_cache w)))) (corev1_gvk "Pod") "etcdPod Pod" t w3) as (w4 & t' & Hrun & Ht' & Hset); [done..|].
  do 3 eexists. split; [exact Hrun|]. split; [exact Ht'|]. exact Hset.
Qed.

(** C22: the etcd pod of a new control plane machine is served: MemberList has one
    member more, with the name of the machine and the id drawn for it; and Status
    reports it as leader, unless another member was created in the same second or
    later. *)
Theorem etcd_pod_is_served b ctx rg m name t w :
  serves b ctx rg m t (w_cache w) → wf_tracker t →
  tracked t (corev1_gvk "Pod") (etcd_key name) = None →
  Forall (λ pod, is_Some (identity pod)) (etcd_pods t) →
  let id := rand_Uint32 (S (w_calls w)) in
  let now := time_Now (ticks (w_cache w)) in
  ∃ w' ml st, ensureEtcdPod rg name w = Done None w' ∧
    MemberList b ctx (w_cache w') = Done (inl ml) (w_cache w') ∧
    mlr_Members ml ≡ₚ mkMember id name :: (member_of <$> etcd_pods t) ∧
    Status b ctx (w_cache w') = Done (inl st) (w_cache w') ∧
    (-1440 < local_offset < 1440 → 0 ≤ now / Second + 60 * local_offset < 315537897600 →
     0 < to_second now →
     (∀ pod from, pod ∈ etcd_pods t → leader_time pod = Some from → from < to_second now) →
     sr_Leader st = id).
Proof.
  intros Hs Hwf Hno Hall id now. destruct Hs as [Hreq Hrg Ht Hpods].
  destruct (ensureEtcdPod_new rg name t w Hrg Hwf Ht Hno) as (w' & t' & created & Hrun & Ht' & Hset).
  fold now in Hset. set (pod := created_object created _) in Hset.
  destruct (drawn_pod_read name (w_calls w) (S (w_calls w)) now created) as (Hetcd & Hpod & Hname & Hid & Hlead).
  fold pod in Hetcd, Hpod, Hname, Hid, Hlead.
  assert (Hperm : etcd_pods t' ≡ₚ pod :: etcd_pods t) by by eapply etcd_pods_set.
  assert (Hs' : serves b ctx rg m t' (w_cache w')).
  { split; [done..|]. intros key o. rewrite (set_objects _ _ _ _ _ _ Hset).
    case_decide; [by intros [= <-]|apply Hpods]. }
  assert (Hmid : to_uint64 (member_id pod) = id).
  { unfold member_id. rewrite Hid. pose proof (rand_Uint32_range (S (w_calls w))). apply to_uint64_id. cbn. lia. }
  destruct (inspectEtcd_outcome b ctx rg m t' (w_cache w') Hs')
    as [(_ & ml & st & Hrun' & Hm & _ & _ & Hl)|(p & err & e & Hin & Hp & _)]; cycle 1.
  { rewrite Hperm in Hin. apply elem_of_cons in Hin as [->|Hin]; [congruence|].
    rewrite Forall_forall in Hall. destruct (Hall _ Hin). congruence. }
  exists w', ml, st. split; [done|]. unfold MemberList, Status. rewrite Hreq, !go_bind_eq, Hrun'.
  split; [done|]. split; [|split; [done|]].
  { rewrite Hm, Hperm, fmap_cons. unfold member_of at 1. rewrite Hname, Hmid.
    unfold etcdMember_of. by rewrite TrimPrefix_app. }
  intros Hoff Hnow Hpos Hnewest. rewrite (Parse_Format now local_offset Hnow Hoff) in Hlead.
  fold (to_second now) in Hlead. apply (leader_among_perm _ _ _ Hperm) in Hl.
  assert (Hpod_in : pod ∈ pod :: etcd_pods t) by apply list_elem_of_here.
  destruct Hl as [[_ Hnone]|(p & from & Hin & Hfrom & _ & -> & Hmax)].
  { specialize (Hnone pod _ Hpod_in Hlead). lia. }
  specialize (Hmax pod _ Hpod_in Hlead). apply elem_of_cons in Hin as [->|Hin]; [done|].
  specialize (Hnewest p from Hin Hfrom). lia.
Qed.

(** No answer has a header when a member is addressed by the name of its pod, as
    clients do: the "etcd-" of the name is trimmed, and what is left compared with the
    whole names of the pods, which all start with "etcd-". *)
Theorem member_header_never_set b ctx rg md t name (c : ccache) :
  bs_resourceGroupResolver b (ctx_LocalAddr ctx) = inl rg →
  ctx_Metadata ctx = Some md → md !! ":authority" = Some [etcdMember_of name] →
  rg ≠ "" → resourceGroups c !! rg = Some t →
  (∀ key o, tracked t (corev1_gvk "Pod") key = Some o → is_pod o) →
  Forall (λ pod, is_Some (identity pod)) (etcd_pods t) →
  Forall (λ pod, HasPrefix (GetName pod) "etcd-") (etcd_pods t) → HasPrefix name "etcd-" = false →
  ∃ ml st, MemberList b ctx c = Done (inl ml) c ∧ Status b ctx c = Done (inl st) c ∧
    mlr_Header ml = None ∧ sr_Header st = None.
Proof.
  intros Hres Hmd Hauth Hrg Ht Hpods Hall Hnames Hname.
  assert (Hs : serves b ctx rg name t c).
  { split; [|done..]. unfold getResourceGroupAndMember. rewrite Hres, Hmd, Hauth. cbn [from_option id Join].
    unfold etcdMember_of. by rewrite TrimPrefix_app. }
  destruct (inspectEtcd_outcome b ctx rg name t c Hs)
    as [(_ & ml & st & Hrun & _ & Hh & Hst & _)|(p & err & e & Hin & Hp & _)]; cycle 1.
  { rewrite Forall_forall in Hall. destruct (Hall _ Hin). congruence. }
  exists ml, st. unfold MemberList, Status. rewrite (sv_request _ _ _ _ _ _ Hs), !go_bind_eq, Hrun.
  split; [done|]. split; [done|]. rewrite Hst.
  destruct Hh as [(pod & Hin & Hn & _)|[_ ->]]; [|done].
  rewrite Forall_forall in Hnames. specialize (Hnames _ Hin). cbn beta in Hnames. rewrite Hn, Hname in Hnames. done.
Qed.
End machines.

(** ** Witnesses *)
#[export] Instance test_match_labels : MatchLabels := λ ls o,
  mkListOptions (lo_Namespace o) (Some (match lo_LabelSelector o with
    | None => mkSelector (bool_decide (ls = ∅)) (λ labels, bool_decide (ls ⊆ labels))
    | Some sel => mkSelector (bool_decide (ls = ∅) && sel_Empty sel)
        (λ labels, bool_decide (ls ⊆ labels) && sel_Matches sel labels)
    end)).
#[export] Instance test_pod_list_laws : PodListLaws test_env test_match_labels.
Proof. split; [done..|]. intros ls o Ho. eexists. split; [done|]. by rewrite Ho. Qed.

Section witnesses.
Let N : Net := test_net.
Let M : Management test_net := test_management [] [] true.
Local Existing Instance M.

#[local] Instance test_rand : RandUint32 M.
Proof. intros n. cbn. apply Z.mod_pos_bound. lia. Qed.

(** A server behind the listener of the cluster "a", and a request for the member
    "etcd-m" of it, before and after the machine "m" got its etcd pod. *)
Definition test_server : baseServer := mkBaseServer (resourceGroupResolver test_mux3).
Definition test_context : Context :=
  mkContext "10.0.0.1:20000" (Some {[":authority" := ["etcd-m"]]}).
Definition etcd_world0 : world := machine_world test_mux3.
Definition etcd_world1 : world := exec (ensureEtcdPod "a" "m") etcd_world0.
Definition group_tracker (w : world) : resourceGroupTracker :=
  default (mkTracker ∅ ∅) (resourceGroups (w_cache w) !! "a").

Lemma test_serves w :
  bool_decide (resourceGroups (w_cache w) !! "a" = Some (group_tracker w)) &&
    bool_decide (map_Forall (λ _ o, is_pod o) (pods_of (group_tracker w))) = true →
  serves test_server test_context "a" "m" (group_tracker w) (w_cache w).
Proof.
  intros [Ht%bool_decide_eq_true Hp%bool_decide_eq_true]%andb_prop.
  split; [vm_compute; reflexivity|done|exact Ht|].
  intros key o Ho. apply (Hp key). unfold tracked, pods_of in *. by destruct (objects (group_tracker w) !! _).
Qed.

Lemma member_list_is_etcd_pods_witness :
  ∃ resp, MemberList test_server test_context (w_cache etcd_world1) = Done resp (w_cache etcd_world1) ∧
    length (etcd_pods (group_tracker etcd_world1)) = 1%nat.
Proof.
  destruct (member_list_is_etcd_pods test_server test_context "a" "m" (group_tracker etcd_world1)
    (w_cache etcd_world1)) as (r & Hr & _).
  - apply test_serves. vm_compute. reflexivity.
  - exists r. split; [exact Hr|vm_compute; reflexivity].
Defined.

Lemma test_pods_readable : Forall (λ pod, is_Some (identity pod)) (etcd_pods (group_tracker etcd_world1)).
Proof. vm_decide. Qed.

Lemma status_reports_latest_leader_witness :
  ∃ resp, Status test_server test_context (w_cache etcd_world1) = Done (inl resp) (w_cache etcd_world1) ∧
    leader_among (etcd_pods (group_tracker etcd_world1)) (sr_Leader resp).
Proof.
  apply (status_reports_latest_leader test_server test_context "a" "m").
  - apply test_serves. vm_compute. reflexivity.
  - exact test_pods_readable.
Defined.

Lemma etcd_pod_is_served_witness :
  ∃ w' ml, ensureEtcdPod "a" "m" etcd_world0 = Done None w' ∧
    MemberList test_server test_context (w_cache w') = Done (inl ml) (w_cache w') ∧
    mlr_Members ml ≡ₚ [mkMember 1 "m"].
Proof.
  destruct (etcd_pod_is_served test_server test_context "a" "m" "m" (group_tracker etcd_world0) etcd_world0)
    as (w' & ml & st & Hrun & Hml & Hperm & _).
  - apply test_serves. vm_compute. reflexivity.
  - apply (machine_world_ok test_mux3 : group_ok "a" (w_cache etcd_world0)) with (rg := "a"). vm_decide.
  - vm_decide.
  - vm_decide.
  - exists w', ml. split; [exact Hrun|]. split; [exact Hml|exact Hperm].
Defined.

Lemma member_header_never_set_witness :
  ∃ ml, MemberList test_server test_context (w_cache etcd_world1) = Done (inl ml) (w_cache etcd_world1) ∧
    mlr_Header ml = None.
Proof.
  destruct (member_header_never_set test_server test_context "a" {[":authority" := ["etcd-m"]]}
    (group_tracker etcd_world1) "m" (w_cache etcd_world1)) as (ml & st & Hml & _ & Hh & _).
  - vm_compute. reflexivity.
  - reflexivity.
  - vm_decide.
  - done.
  - vm_decide.
  - assert (Hs : serves test_server test_context "a" "m" (group_tracker etcd_world1) (w_cache etcd_world1))
      by (apply test_serves; vm_compute; reflexivity).
    apply Hs.
  - exact test_pods_readable.
  - vm_decide.
  - vm_compute. reflexivity.
  - exists ml. by split.
Defined.
End witnesses.
