(* ===== verification/CacheIsolation.v ===== *)
(** * Resource groups do not interfere

    A call on a resource group leaves the trackers of all other groups as they are:
    [confined] is closed under the constructs of Go programs, so that it holds of each
    operation of the cache by following its code. *)

From stdpp Require Import prelude gmap strings list.
From Stdlib Require Import ZArith QArith_base Lia.
From S2P Require Import Prelude GoStd GoTime Api Runtime Cache CacheFacts CacheStore.

Section confined.
Context {H HS : Type} {E : Env} {Hhandler : InformEventHandler H HS}.
Implicit Types c : cache H HS.

(** [c'] differs from [c] at most in the tracker of [rg]. *)
Definition same_elsewhere (rg : string) c c' : Prop :=
  ∀ rg', rg' ≠ rg → resourceGroups c' !! rg' = resourceGroups c !! rg'.

Definition confined (rg : string) {A} (m : Go (cache H HS) A) : Prop :=
  ∀ c a c', m c = Done a c' → same_elsewhere rg c c'.

#[export] Instance same_elsewhere_preorder rg : PreOrder (same_elsewhere rg).
Proof. split; [by intros c rg'|]. intros c1 c2 c3 H1 H2 rg' Hne. by rewrite H2, H1. Qed.

(** ** Closure *)
Lemma confined_ret rg {A} (a : A) : confined rg (mret a).
Proof. by intros c a' c' [= <- <-]. Qed.

Lemma confined_bind rg {A B} (m : Go (cache H HS) A) (k : A → Go (cache H HS) B) :
  confined rg m → (∀ a, confined rg (k a)) → confined rg (m ≫= k).
Proof.
  intros Hm Hk c b c' (a & c1 & Hrun1 & Hrun2)%go_bind_Done_inv.
  etrans; [by eapply Hm|by eapply Hk].
Qed.

Lemma confined_for rg {A S Er} (body : A → S → Go (cache H HS) (S * option Er)) l : ∀ s,
  (∀ a s, confined rg (body a s)) → confined rg (go_for body l s).
Proof.
  induction l as [|a l IH]; intros s Hbody; cbn; [apply confined_ret|].
  apply confined_bind; [apply Hbody|]. intros [s' [e|]]; [apply confined_ret|by apply IH].
Qed.

Lemma confined_get rg : confined rg go_get.
Proof. by intros c a c' [= <- <-]. Qed.

Lemma confined_put rg t : confined rg (put_tracker rg t).
Proof. intros c a c' [= <- <-] rg' Hne. cbn. by rewrite lookup_insert_ne. Qed.

Lemma confined_Now rg : confined rg Now.
Proof. by intros c a c' [= <- <-]. Qed.

Lemma confined_gcQueue_call rg x : confined rg (gcQueue_call x).
Proof.
  unfold gcQueue_call. intros c a c'. rewrite go_bind_eq. cbn [go_get].
  destruct (garbageCollectorQueue c); [|done]. by intros [= <- <-].
Qed.

Lemma confined_inform rg f gvk : confined rg (inform f gvk).
Proof. intros c a c' [= <- <-] rg' _. cbn beta. by destruct (informers c !! gvk). Qed.
End confined.

(** Follow a program: binds, returns and case distinctions. *)
#[export] Hint Resolve confined_ret confined_get confined_put confined_Now confined_gcQueue_call
  confined_inform : confined.
Ltac confine :=
  repeat match goal with
  | |- confined _ (_ ≫= _) => apply confined_bind; [|intros ?]
  | |- confined _ (match ?x with _ => _ end) => destruct x
  | |- confined _ (let '_ := ?x in _) => destruct x
  | |- confined _ (if ?x then _ else _) => destruct x
  | |- confined _ (go_panic _) => by intros ? ? ?
  | |- confined _ go_out_of_fuel => by intros ? ? ?
  | |- confined _ (go_for _ _ _) => apply confined_for; intros ? ?
  | |- confined _ _ => solve [auto with confined]
  end.

(** ** The operations *)
Section operations.
Context {H HS : Type} {E : Env} {Hhandler : InformEventHandler H HS}.
Implicit Types c : cache H HS.

Lemma confined_beforeUpdate rg rg' old obj : confined (H := H) (HS := HS) rg (beforeUpdate rg' old obj).
Proof. unfold beforeUpdate. confine. Qed.
Lemma confined_afterUpdate rg rg' old obj : confined (H := H) (HS := HS) rg (afterUpdate rg' old obj).
Proof. unfold afterUpdate, informDelete, informUpdate. confine. Qed.
#[local] Hint Resolve confined_beforeUpdate confined_afterUpdate : confined.

Lemma confined_updateOwners rg t old new ref :
  confined (H := H) (HS := HS) rg (updateTrackerOwnerReferences t old new ref).
Proof. unfold updateTrackerOwnerReferences. confine. Qed.
#[local] Hint Resolve confined_updateOwners : confined.

Lemma confined_store rg obj replace : confined (H := H) (HS := HS) rg (store rg obj replace).
Proof.
  unfold store, storeLocked, beforeCreate, afterCreate, informCreate. confine.
Qed.

Lemma confined_Get rg key obj : confined (H := H) (HS := HS) rg (Get rg key obj).
Proof. unfold Get. confine. Qed.
Lemma confined_List rg l opts : confined (H := H) (HS := HS) rg (List_ rg l opts).
Proof. unfold List_. confine. Qed.
#[local] Hint Resolve confined_store confined_Get : confined.

Lemma confined_Patch rg obj patch : confined (H := H) (HS := HS) rg (Patch_ rg obj patch).
Proof. unfold Patch_. confine. Qed.

Lemma confined_markOrRemove rg t gvk key obj :
  confined (H := H) (HS := HS) rg (markOrRemove rg t gvk key obj).
Proof. unfold markOrRemove, beforeDelete, afterDelete. confine. Qed.
#[local] Hint Resolve confined_markOrRemove : confined.

Lemma confined_doTryDelete fuel rg : ∀ t gvk key,
  confined (H := H) (HS := HS) rg (doTryDeleteLocked fuel rg t gvk key).
Proof. induction fuel as [|fuel IH]; intros t gvk key; cbn [doTryDeleteLocked]; confine. Qed.
#[local] Hint Resolve confined_doTryDelete : confined.

Lemma confined_tryDelete fuel rg gvk key : confined (H := H) (HS := HS) rg (tryDelete fuel rg gvk key).
Proof. unfold tryDelete. confine. Qed.
#[local] Hint Resolve confined_tryDelete : confined.

Lemma confined_Delete fuel rg obj : confined (H := H) (HS := HS) rg (Delete fuel rg obj).
Proof. unfold Delete. confine. Qed.
End operations.

#[export] Hint Resolve confined_store confined_Get confined_List confined_Patch confined_Delete : confined.
