(* ===== verification/ApiServer.v ===== *)
(** * The fake API server: internal/server/api (handler.go, const.go, debug.go)

    The routes, and the handlers that translate HTTP requests into calls of the client
    of a resource group.  The router and the response writer of go-restful are
    parameters; whatever router conforms to the route table selects the same handler
    ([ApiFacts.v]). *)

From stdpp Require Import prelude gmap strings list.
From Stdlib Require Import ZArith Lia.
From S2P Require Import Prelude GoStd GoTime Api Runtime Cache EventSource Controller.
Local Open Scope Z_scope.

(** ** const.go: the discovery documents *)
Record APIResource := mkAPIResource {
  ar_Name : string;
  ar_SingularName : string;
  ar_Namespaced : bool;
  ar_Kind : string;
  ar_Verbs : list string;
  ar_ShortNames : list string;
  ar_StorageVersionHash : string }.
Record APIResourceList := mkAPIResourceList {
  arl_GroupVersion : string; arl_APIResources : list APIResource }.
Record GroupVersionForDiscovery := mkGroupVersionForDiscovery {
  gvd_GroupVersion : string; gvd_Version : string }.
Record APIGroup := mkAPIGroup {
  ag_Name : string;
  ag_Versions : list GroupVersionForDiscovery;
  ag_PreferredVersion : GroupVersionForDiscovery }.

Definition apiVersions : list string := ["v1"].

Definition all_verbs : list string :=
  ["create"; "delete"; "deletecollection"; "get"; "list"; "patch"; "update"; "watch"].

Definition corev1APIResourceList : APIResourceList :=
  mkAPIResourceList "v1"
    [mkAPIResource "nodes" "" false "Node" ["get"; "list"; "watch"] ["no"] "";
     mkAPIResource "pods" "" true "Pod" all_verbs ["po"] "";
     mkAPIResource "configmaps" "" true "ConfigMap" all_verbs ["cm"] "";
     mkAPIResource "secrets" "" true "Secret" all_verbs [] ""].

Definition apiGroupList : list APIGroup :=
  let v1 := mkGroupVersionForDiscovery "rbac.authorization.k8s.io/v1" "v1" in
  [mkAPIGroup "rbac.authorization.k8s.io" [v1] v1].

Definition rbacv1APIResourceList : APIResourceList :=
  mkAPIResourceList "rbac.authorization.k8s.io/v1"
    [mkAPIResource "clusterrolebindings" "" false "ClusterRoleBinding" all_verbs [] "";
     mkAPIResource "clusterroles" "" false "ClusterRole" all_verbs [] "";
     mkAPIResource "rolebindings" "" true "RoleBinding" all_verbs [] "";
     mkAPIResource "roles" "" true "Role" all_verbs [] ""].

(** ** Requests and responses *)
(** A request, as the handlers read it: the segments of the path, the Host, the
    Content-Type and the Accept headers, and what ReadAll returns of the body (whose
    error is ignored). *)
Record HTTPRequest := mkHTTPRequest {
  rq_Method : string;
  rq_Path : list string;
  rq_Host : string;
  rq_ContentType : string;
  rq_Accept : string;
  rq_Body : string }.

Abbreviation PathParameters := (gmap string string).
Definition PathParameter (ps : PathParameters) (name : string) : string := default "" (ps !! name).

(** The errors of the handlers, before they are rendered. *)
Inductive HandlerError :=
| HostUnresolved (msg : string)
| NoAPIResourceList (ps : PathParameters)
| ResourceNotDefined (resource : string) (ps : PathParameters)
| DiscoveryNotDefined (group version : string)
| LibraryError (msg : string)
| CloudError (e : APIError).

(** What is written as an entity. *)
Inductive Entity :=
| EObject (o : Object)
| EList (l : ObjectList)
| EAPIVersions (vs : list string)
| EAPIResourceList (l : APIResourceList)
| EAPIGroupList (l : list APIGroup)
| EStatus (e : APIError)
| EListeners (l : gmap string string).

(** The writes to a response, in order; a connection that is upgraded is handed to the
    stream handler of a pod, which dials [target]. *)
Inductive Written :=
| WroteHeader (code : Z)
| WroteEntity (code : Z) (e : Entity)
| WroteErrorString (code : Z) (e : HandlerError)
| Upgraded (podNamespace podName target : string).

Definition StatusOK : Z := 200.
Definition StatusInternalServerError : Z := 500.

(** The status code a client sees: the first that is written, or 200. *)
Definition response_code (ws : list Written) : Z :=
  match ws with
  | WroteHeader code :: _ | WroteEntity code _ :: _ | WroteErrorString code _ :: _ => code
  | Upgraded _ _ _ :: _ => 101
  | [] => StatusOK
  end.

(** ** Routes *)
Inductive Segment := Lit (s : string) | Par (name : string).
Inductive Handler :=
| Healthz
| ApiDiscovery
| ApiV1Discovery
| ApisDiscovery
| ApiV1Create
| ApiV1List
| ApiV1Get
| ApiV1Update
| ApiV1Patch
| ApiV1Delete
| ApiV1PortForward.
(** A route of a server whose handlers are [Hd]. *)
Record Route (Hd : Type) := mkRoute {
  rt_Method : string; rt_Path : list Segment; rt_Consumes : list string; rt_Handler : Hd }.
Arguments mkRoute {Hd}.
Arguments rt_Method {Hd}.
Arguments rt_Path {Hd}.
Arguments rt_Consumes {Hd}.
Arguments rt_Handler {Hd}.

#[export] Instance Segment_eq_dec : EqDecision Segment.
Proof. solve_decision. Defined.
#[export] Instance Handler_eq_dec : EqDecision Handler.
Proof. solve_decision. Defined.
#[export] Instance Route_eq_dec {Hd} `{EqDecision Hd} : EqDecision (Route Hd).
Proof. solve_decision. Defined.

Definition ContentTypeJSON : string := "application/json".
Definition ContentTypeProtobuf : string := "application/vnd.kubernetes.protobuf".

(** A route without Consumes takes that of the web service. *)
Definition GET (path : list Segment) (h : Handler) : Route Handler := mkRoute "GET" path [ContentTypeJSON] h.

(** The six routes of the resources under a path. *)
Definition crudRoutes (prefix : list Segment) : list (Route Handler) :=
  let resource := prefix ++ [Par "resource"] in
  let name := resource ++ [Par "name"] in
  [mkRoute "POST" resource [ContentTypeProtobuf] ApiV1Create;
   GET resource ApiV1List;
   GET name ApiV1Get;
   mkRoute "PUT" name [ContentTypeProtobuf] ApiV1Update;
   mkRoute "PATCH" name [MergePatchType; StrategicMergePatchType] ApiV1Patch;
   mkRoute "DELETE" name [ContentTypeProtobuf] ApiV1Delete].

(** NewAPIServerHandler: the routes it installs. *)
Definition apiRoutes : list (Route Handler) :=
  let v1 := [Lit "api"; Lit "v1"] in
  let gv := [Lit "apis"; Par "group"; Par "version"] in
  let ns := [Lit "namespaces"; Par "namespace"] in
  let portforward := v1 ++ ns ++ [Lit "pods"; Par "name"; Lit "portforward"] in
  [GET [] Healthz;
   GET [Lit "api"] ApiDiscovery;
   GET [Lit "api"; Lit "v1"] ApiV1Discovery;
   GET [Lit "apis"] ApisDiscovery;
   GET gv ApisDiscovery]
  ++ crudRoutes v1 ++ crudRoutes gv ++ crudRoutes (v1 ++ ns) ++ crudRoutes (gv ++ ns)
  ++ [GET portforward ApiV1PortForward;
      mkRoute "POST" portforward ["*/*"] ApiV1PortForward].

(** ** What is used of go-restful, of the scheme and of SPDY *)
(** A path that a template describes: a parameter stands for one segment. *)
Fixpoint match_path (t : list Segment) (p : list string) : option PathParameters :=
  match t, p with
  | [], [] => Some ∅
  | Lit s :: t, s' :: p => if decide (s = s') then match_path t p else None
  | Par name :: t, s :: p => <[name := s]> <$> match_path t p
  | _, _ => None
  end.

Class Restful := {
  (** the route of a request with the parameters of its path, or an error status *)
  restful_SelectRoute : ∀ {Hd : Type}, list (Route Hd) → HTTPRequest → (Route Hd * PathParameters) + Z;
  (** Response.WriteHeaderAndEntity: what it writes, and its error *)
  restful_WriteHeaderAndEntity : HTTPRequest → Z → Entity → list Written * option string;
  (** scheme.New *)
  scheme_New : GroupVersionKind → Object + string;
  (** httpstream.Handshake, and whether UpgradeResponse returns a connection *)
  httpstream_Handshake : HTTPRequest → option string;
  spdy_UpgradeResponse : HTTPRequest → bool }.

Section handlers.
Context {E : Env} {R : Restful}.
Implicit Types (req : HTTPRequest) (ps : PathParameters).

(** The struct apiServerHandler; its manager is the state. *)
Variable resourceGroupResolver : string → string + string.

Definition errorString (e : HandlerError) : list Written := [WroteErrorString StatusInternalServerError e].

(** WriteHeaderAndEntity, or WriteEntity with status 200, and the error string if it fails. *)
Definition writeEntity req (e : Entity) : list Written :=
  match restful_WriteHeaderAndEntity req StatusOK e with
  | (ws, None) => ws
  | (ws, Some err) => ws ++ errorString (LibraryError err)
  end.

(** ** Discovery *)
Definition healthz : list Written := [WroteHeader StatusOK].
Definition apiDiscovery req : list Written := writeEntity req (EAPIVersions apiVersions).
Definition apiV1Discovery req : list Written := writeEntity req (EAPIResourceList corev1APIResourceList).
Definition apisDiscovery req ps : list Written :=
  let group := PathParameter ps "group" in
  let version := PathParameter ps "version" in
  if negb (bool_decide (group = "")) then
    if bool_decide (group = "rbac.authorization.k8s.io") && bool_decide (version = "v1")
    then writeEntity req (EAPIResourceList rbacv1APIResourceList)
    else errorString (DiscoveryNotDefined group version)
  else writeEntity req (EAPIGroupList apiGroupList).

(** ** requestToGVK *)
Definition getAPIResourceList ps : option APIResourceList :=
  let group := PathParameter ps "group" in
  if negb (bool_decide (group = "")) then
    if bool_decide (group = "rbac.authorization.k8s.io") && bool_decide (PathParameter ps "version" = "v1")
    then Some rbacv1APIResourceList
    else None
  else Some corev1APIResourceList.

Definition requestToGVK ps : Go ccache (GroupVersionKind + HandlerError) :=
  match getAPIResourceList ps with
  | None => mret (inr (NoAPIResourceList ps))
  | Some resourceList =>
  match ParseGroupVersion (arl_GroupVersion resourceList) with
  | None => go_panic "invalid group version in APIResourceList"
  | Some (group, version) =>
      let resource := PathParameter ps "resource" in
      match List.find (λ r, bool_decide (ar_Name r = resource)) (arl_APIResources resourceList) with
      | Some r => mret (inl (GVK group version (ar_Kind r)))
      | None => mret (inr (ResourceNotDefined resource ps))
      end
  end end.

(** What the CRUD handlers start with: the client of the resource group and the kind
    the request is about. *)
Definition withTarget req ps (k : cachedClient → GroupVersionKind → Go ccache (list Written))
  : Go ccache (list Written) :=
  match resourceGroupResolver (rq_Host req) with
  | inr err => mret (errorString (HostUnresolved err))
  | inl resourceGroup =>
      let cloudClient := GetResourceGroup resourceGroup in
      gvk ← requestToGVK ps;
      match gvk with
      | inr err => mret (errorString err)
      | inl gvk => k cloudClient gvk
      end
  end.

(** schema.GroupVersion.String, and the type meta an unstructured object has after
    SetAPIVersion and SetKind. *)
Definition GroupVersion_String (gvk : GroupVersionKind) : string :=
  if decide (gvk_Group gvk = "") then gvk_Version gvk else gvk_Group gvk +:+ "/" +:+ gvk_Version gvk.
Definition unstructured_gvk (apiVersion kind : string) : GroupVersionKind :=
  match ParseGroupVersion apiVersion with
  | Some (group, version) => GVK group version kind
  | None => GVK "" "" ""
  end.
Definition requested_object (gvk : GroupVersionKind) ps : Object :=
  mkObject (unstructured_gvk (GroupVersion_String gvk) (gvk_Kind gvk))
    (named_meta (PathParameter ps "namespace") (PathParameter ps "name")) (Unstructured "").

(** ** CRUD *)
(** The object a request carries, in the namespace of its path. *)
Definition sent_object req ps (gvk : GroupVersionKind) : Object + HandlerError :=
  match scheme_New gvk with
  | inr err => inr (LibraryError err)
  | inl newObj =>
  match scheme_DecodeInto (rq_Body req) newObj with
  | inr err => inr (LibraryError err)
  | inl obj => inl (SetNamespace (PathParameter ps "namespace") obj)
  end end.

(** The end of Create and Update: the object as the client leaves it. *)
Definition respond_stored req (r : option Object * option APIError) : list Written :=
  match r with
  | (_, Some err) => errorString (CloudError err)
  | (Some obj, None) => writeEntity req (EObject obj)
  | (None, None) => []
  end.

Definition apiV1Create req ps : Go ccache (list Written) :=
  withTarget req ps (λ cloudClient gvk,
    match sent_object req ps gvk with
    | inr err => mret (errorString err)
    | inl obj => r ← cachedClient_Create cloudClient (Some obj); mret (respond_stored req r)
    end).

Definition apiV1Update req ps : Go ccache (list Written) :=
  withTarget req ps (λ cloudClient gvk,
    match sent_object req ps gvk with
    | inr err => mret (errorString err)
    | inl obj => r ← cachedClient_Update cloudClient (Some obj); mret (respond_stored req r)
    end).

Definition apiV1List req ps : Go ccache (list Written) :=
  withTarget req ps (λ cloudClient gvk,
    let l := mkObjectList (unstructured_gvk (GroupVersion_String gvk) (gvk_Kind gvk +:+ "List"))
               UnstructuredList [] in
    let listOpts :=
      if negb (bool_decide (PathParameter ps "namespace" = ""))
      then [InNamespace (PathParameter ps "namespace")] else [] in
    r ← cachedClient_List cloudClient (Some l) listOpts;
    match r with
    | (_, Some err) => mret (errorString (CloudError err))
    | (Some l, None) => mret (writeEntity req (EList l))
    | (None, None) => mret []
    end).

(** The HTTP code of an API error (metav1.Status). *)
Definition Status_Code (e : APIError) : Z :=
  match e with
  | BadRequest _ => 400
  | NotFound _ _ => 404
  | AlreadyExists _ _ => 409
  | Conflict _ _ => 409
  | InternalError _ => 500
  end.

Definition apiV1Get req ps : Go ccache (list Written) :=
  withTarget req ps (λ cloudClient gvk,
    let obj := requested_object gvk ps in
    r ← cachedClient_Get cloudClient (ObjectKeyFromObject obj) (Some obj);
    match r with
    | (_, Some err) => mret (restful_WriteHeaderAndEntity req (Status_Code err) (EStatus err)).1
    | (Some obj, None) => mret (writeEntity req (EObject obj))
    | (None, None) => mret []
    end).

Definition apiV1Patch req ps : Go ccache (list Written) :=
  withTarget req ps (λ cloudClient gvk,
    let patch := RawPatch (rq_ContentType req) (rq_Body req) in
    let obj := requested_object gvk ps in
    err ← cachedClient_Patch cloudClient (Some obj) patch;
    match err with
    | Some err => mret (errorString (CloudError err))
    | None => mret (writeEntity req (EObject obj))
    end).

(** [fuel] bounds the recursion of the deletion. *)
Definition apiV1Delete (fuel : nat) req ps : Go ccache (list Written) :=
  withTarget req ps (λ cloudClient gvk,
    let obj := requested_object gvk ps in
    r ← cachedClient_Delete fuel cloudClient (Some obj);
    match r with
    | (_, Some err) => mret (errorString (CloudError err))
    | (_, None) => mret []
    end).

(** ** Port forward: the upgrade of the connection *)
Definition apiV1PortForward req ps : list Written :=
  match httpstream_Handshake req with
  | Some err => errorString (LibraryError err)
  | None =>
      if spdy_UpgradeResponse req
      then [Upgraded (PathParameter ps "namespace") (PathParameter ps "name") (rq_Host req)]
      else errorString (LibraryError "failed to get upgraded connection")
  end.

(** ** ServeHTTP *)
Definition run_handler (fuel : nat) (h : Handler) req ps : Go ccache (list Written) :=
  match h with
  | Healthz => mret healthz
  | ApiDiscovery => mret (apiDiscovery req)
  | ApiV1Discovery => mret (apiV1Discovery req)
  | ApisDiscovery => mret (apisDiscovery req ps)
  | ApiV1Create => apiV1Create req ps
  | ApiV1List => apiV1List req ps
  | ApiV1Get => apiV1Get req ps
  | ApiV1Update => apiV1Update req ps
  | ApiV1Patch => apiV1Patch req ps
  | ApiV1Delete => apiV1Delete fuel req ps
  | ApiV1PortForward => mret (apiV1PortForward req ps)
  end.

Definition ServeHTTP (fuel : nat) req : Go ccache (list Written) :=
  match restful_SelectRoute apiRoutes req with
  | inr code => mret [WroteHeader code]
  | inl (route, ps) => run_handler fuel (rt_Handler route) req ps
  end.

(** ** debug.go: the debug server, with what its provider answers *)
Definition listenersList req (listeners : gmap string string) : list Written :=
  writeEntity req (EListeners listeners).

Inductive DebugHandler := ListenersList.
(** NewDebugHandler: a web service without Consumes takes any content type. *)
Definition debugRoutes : list (Route DebugHandler) :=
  [mkRoute "GET" [Lit "listeners"] ["*/*"] ListenersList].
Definition debug_ServeHTTP req (listeners : gmap string string) : list Written :=
  match restful_SelectRoute debugRoutes req with
  | inr code => [WroteHeader code]
  | inl (route, ps) => match rt_Handler route with ListenersList => listenersList req listeners end
  end.
End handlers.
