(* ===== verification/ApiFacts.v ===== *)
(** * Properties of the fake API server

    The route table determines the handler; discovery and the handlers agree on the
    resources; a request touches only the resource group of its host; what is created
    over HTTP is read back; which errors reach the client, and as what; what the debug
    server lists. *)

From stdpp Require Import prelude gmap strings list.
From Stdlib Require Import ZArith Lia.
From S2P Require Import Prelude GoStd GoTime Api Runtime Cache CacheFacts CacheStore CacheIsolation TestEnv EventSource Controller Mux MuxFacts ApiServer.
Local Open Scope Z_scope.

(** ** The routes *)
(** Two templates that describe a path in common. *)
Fixpoint overlap (t1 t2 : list Segment) : bool :=
  match t1, t2 with
  | [], [] => true
  | Lit s1 :: t1, Lit s2 :: t2 => bool_decide (s1 = s2) && overlap t1 t2
  | _ :: t1, _ :: t2 => overlap t1 t2
  | _, _ => false
  end.

Lemma match_overlap t1 : ∀ t2 p ps1 ps2,
  match_path t1 p = Some ps1 → match_path t2 p = Some ps2 → overlap t1 t2 = true.
Proof.
  induction t1 as [|[s1|n1] t1 IH]; intros [|[s2|n2] t2] [|s p] ps1 ps2; cbn; try done;
    repeat case_decide; try done; subst; intros He1 He2;
    try (apply fmap_Some in He1 as (? & ? & _)); try (apply fmap_Some in He2 as (? & ? & _));
    rewrite ?bool_decide_eq_true_2 by done; by eapply IH.
Qed.

(** No two routes of the table fit the same request. *)
Definition distinguished (r1 r2 : Route Handler) : bool :=
  bool_decide (r1 = r2) || negb (bool_decide (rt_Method r1 = rt_Method r2)) ||
    negb (overlap (rt_Path r1) (rt_Path r2)).

Lemma apiRoutes_distinguished r1 r2 : r1 ∈ apiRoutes → r2 ∈ apiRoutes → distinguished r1 r2 = true.
Proof.
  assert (Hall : forallb (λ r1, forallb (distinguished r1) apiRoutes) apiRoutes = true)
    by (vm_compute; reflexivity).
  intros H1%list_elem_of_In H2%list_elem_of_In. rewrite forallb_forall in Hall.
  specialize (Hall _ H1). rewrite forallb_forall in Hall. by apply Hall.
Qed.

Lemma apiRoutes_unambiguous r1 r2 p ps1 ps2 :
  r1 ∈ apiRoutes → r2 ∈ apiRoutes → rt_Method r1 = rt_Method r2 →
  match_path (rt_Path r1) p = Some ps1 → match_path (rt_Path r2) p = Some ps2 → r1 = r2.
Proof.
  intros H1 H2 Hm Hp1 Hp2. assert (Hd := apiRoutes_distinguished r1 r2 H1 H2). unfold distinguished in Hd.
  rewrite (match_overlap _ _ _ _ _ Hp1 Hp2), (bool_decide_eq_true_2 _ Hm), !orb_false_r in Hd.
  by apply bool_decide_eq_true in Hd.
Qed.

(** What go-restful documents: the route selected is one of the server's table that fits the
    method and the path, with the parameters of the path; one is selected when it
    consumes the content type; JSON is written when JSON is asked for.  The group
    versions of the tables parse. *)
Definition fits_in {Hd} (routes : list (Route Hd)) (r : Route Hd) (req : HTTPRequest) (ps : PathParameters) : Prop :=
  r ∈ routes ∧ rt_Method r = rq_Method req ∧ match_path (rt_Path r) (rq_Path req) = Some ps.
Abbreviation fits := (fits_in apiRoutes).
Definition consumed {Hd} (r : Route Hd) (req : HTTPRequest) : Prop :=
  rq_ContentType req ∈ rt_Consumes r ∨ "*/*" ∈ rt_Consumes r.

Class ApiLaws (E : Env) (R : Restful) : Prop := {
  route_sound : ∀ Hd (routes : list (Route Hd)) req r ps,
    restful_SelectRoute routes req = inl (r, ps) → fits_in routes r req ps;
  route_complete : ∀ Hd (routes : list (Route Hd)) req r ps,
    fits_in routes r req ps → consumed r req → rq_Accept req = ContentTypeJSON →
    ∃ r' ps', restful_SelectRoute routes req = inl (r', ps');
  write_json : ∀ req code e, rq_Accept req = ContentTypeJSON →
    restful_WriteHeaderAndEntity req code e = ([WroteEntity code e], None);
  parse_core : ParseGroupVersion "v1" = Some ("", "v1");
  parse_rbac : ParseGroupVersion "rbac.authorization.k8s.io/v1" = Some ("rbac.authorization.k8s.io", "v1");
  (** an unstructured object has the kind its type meta says *)
  unstructured_kind : ∀ content g, gvk_Kind g ≠ "" → scheme_GVKForObject (Unstructured content) g = inl g;
  (** Convert copies the metadata; a conversion to an unstructured object rounds times to
      the seconds that JSON shows, so that this is exact up to what clients can see *)
  convert_meta : ∀ src dst out, scheme_Convert src dst = inl out → obj_meta out = obj_meta src }.

Section routing.
Context {E : Env} {R : Restful} {AL : ApiLaws E R}.

Lemma route_selected req r ps :
  fits r req ps → consumed r req → rq_Accept req = ContentTypeJSON →
  restful_SelectRoute apiRoutes req = inl (r, ps).
Proof.
  intros Hfits Hc Ha. destruct (route_complete _ _ req r ps Hfits Hc Ha) as (r' & ps' & Hsel).
  destruct (route_sound _ _ _ _ _ Hsel) as (Hin' & Hm' & Hp'), Hfits as (Hin & Hm & Hp).
  assert (r' = r) as -> by (eapply apiRoutes_unambiguous; eauto; congruence). congruence.
Qed.
End routing.

(** ** Resources *)
(** The kind of a resource of an API, which "" and any version name for the core API. *)
Definition api_list (group version : string) : option APIResourceList :=
  if negb (bool_decide (group = "")) then
    if bool_decide (group = "rbac.authorization.k8s.io") && bool_decide (version = "v1")
    then Some rbacv1APIResourceList else None
  else Some corev1APIResourceList.
Definition api_kind (group version resource : string) : option GroupVersionKind :=
  l ← api_list group version;
  r ← List.find (λ r, bool_decide (ar_Name r = resource)) (arl_APIResources l);
  Some (GVK group "v1" (ar_Kind r)).

Section resources.
Context {E : Env} {R : Restful} {AL : ApiLaws E R}.
Implicit Types (req : HTTPRequest) (ps : PathParameters) (c : ccache).

Lemma api_list_Some group version l :
  api_list group version = Some l →
  ParseGroupVersion (arl_GroupVersion l) = Some (group, "v1") ∧
  ∀ kind, GroupVersion_String (GVK group "v1" kind) = arl_GroupVersion l.
Proof.
  unfold api_list. destruct (bool_decide_reflect (group = "")) as [->|Hg]; cbn [negb].
  - intros [= <-]. by split; [apply parse_core|].
  - destruct (bool_decide_reflect (group = "rbac.authorization.k8s.io")) as [->|]; cbn [andb]; [|done].
    case_bool_decide; [|done]. intros [= <-]. by split; [apply parse_rbac|].
Qed.

Lemma api_kind_Some group version resource gvk :
  api_kind group version resource = Some gvk →
  ∃ l r, api_list group version = Some l ∧
    List.find (λ r, bool_decide (ar_Name r = resource)) (arl_APIResources l) = Some r ∧
    gvk = GVK group "v1" (ar_Kind r).
Proof.
  unfold api_kind. destruct (api_list group version) as [l|]; [|done]. cbn.
  destruct (List.find _ _) as [r|] eqn:Hr; [|done]. intros [= <-]. by exists l, r.
Qed.

Lemma api_kind_nonempty group version resource gvk :
  api_kind group version resource = Some gvk → gvk_Kind gvk ≠ "".
Proof.
  intros (l & r & Hl & [Hr _]%List.find_some & ->)%api_kind_Some. cbn [gvk_Kind].
  assert (l = corev1APIResourceList ∨ l = rbacv1APIResourceList) as Hor.
  { unfold api_list in Hl. destruct (negb _); [destruct (_ && _)|]; naive_solver. }
  assert (Forall (λ r, ar_Kind r ≠ "") (arl_APIResources l)) as Hall by (destruct Hor as [-> | ->]; vm_decide).
  rewrite list.Forall_forall in Hall. apply Hall. by apply list_elem_of_In.
Qed.

(** requestToGVK is api_kind on the parameters. *)
Lemma requestToGVK_eq ps c :
  ∃ e, requestToGVK ps c = Done
    (match api_kind (PathParameter ps "group") (PathParameter ps "version") (PathParameter ps "resource") with
     | Some gvk => inl gvk
     | None => inr e
     end) c.
Proof.
  exists (match api_list (PathParameter ps "group") (PathParameter ps "version") with
    | None => NoAPIResourceList ps
    | Some _ => ResourceNotDefined (PathParameter ps "resource") ps
    end).
  unfold requestToGVK, api_kind.
  change (getAPIResourceList ps) with (api_list (PathParameter ps "group") (PathParameter ps "version")).
  destruct (api_list _ _) as [l|] eqn:Hl; [|done].
  destruct (api_list_Some _ _ _ Hl) as [-> _]. cbn. by destruct (List.find _ _).
Qed.

(** The object a handler asks for has the kind of the request. *)
Lemma requested_object_gvk ps gvk :
  api_kind (PathParameter ps "group") (PathParameter ps "version") (PathParameter ps "resource") = Some gvk →
  obj_gvk (requested_object gvk ps) = gvk.
Proof.
  intros (l & r & Hl & _ & ->)%api_kind_Some. destruct (api_list_Some _ _ _ Hl) as [Hparse Hstr].
  cbn [requested_object obj_gvk]. unfold unstructured_gvk. by rewrite Hstr, Hparse.
Qed.

(** Discovery and the handlers agree: a request is understood as one about a kind
    exactly when the discovery document of its API lists the resource, with that kind
    and group version; any other is an error.  No path makes the lookup panic. *)
Theorem resources_are_those_discovered req ps c :
  let group := PathParameter ps "group" in
  let discovery := if decide (group = "") then apiV1Discovery req else apisDiscovery req ps in
  ∃ out, requestToGVK ps c = Done out c ∧
    match api_list group (PathParameter ps "version") with
    | None => discovery = errorString (DiscoveryNotDefined group (PathParameter ps "version")) ∧
        ∃ e, out = inr e
    | Some l => discovery = writeEntity req (EAPIResourceList l) ∧
        match out with
        | inl gvk => ∃ r, r ∈ arl_APIResources l ∧ ar_Name r = PathParameter ps "resource" ∧
            gvk_Kind gvk = ar_Kind r ∧ GroupVersion_String gvk = arl_GroupVersion l
        | inr _ => ∀ r, r ∈ arl_APIResources l → ar_Name r ≠ PathParameter ps "resource"
        end
    end.
Proof.
  intros group discovery. destruct (requestToGVK_eq ps c) as [e Hrun].
  eexists. split; [exact Hrun|]. unfold api_kind. fold group.
  assert (Hdisc : discovery = match api_list group (PathParameter ps "version") with
    | None => errorString (DiscoveryNotDefined group (PathParameter ps "version"))
    | Some l => writeEntity req (EAPIResourceList l) end).
  { unfold discovery, api_list, apisDiscovery. fold group. case_decide as Hg.
    - by rewrite bool_decide_eq_true_2.
    - rewrite bool_decide_eq_false_2 by done. cbn. by destruct (_ && _). }
  rewrite Hdisc. destruct (api_list group _) as [l|] eqn:Hl; cbn; [|by eauto].
  split; [done|]. destruct (List.find _ _) as [r|] eqn:Hfind; cbn.
  - apply List.find_some in Hfind as [Hin Hname%bool_decide_eq_true]. exists r.
    split; [by apply list_elem_of_In|]. split; [done|]. split; [done|]. by apply (api_list_Some _ _ _ Hl).
  - intros r Hin%list_elem_of_In Hname. apply (List.find_none _ _ Hfind) in Hin.
    by apply bool_decide_eq_false in Hin.
Qed.

(** The route table decides alone: two routes of it that fit a request are the
    same, so any router that keeps to the table gives a request the same handler. *)
Theorem routes_are_unambiguous req r1 r2 ps1 ps2 :
  fits r1 req ps1 → fits r2 req ps2 → r1 = r2 ∧ ps1 = ps2.
Proof.
  intros (H1 & Hm1 & Hp1) (H2 & Hm2 & Hp2).
  assert (r1 = r2) as -> by (eapply apiRoutes_unambiguous; eauto; congruence). split; [done|congruence].
Qed.
End resources.

(** ** Isolation *)
Section isolation.
Context {E : Env} {R : Restful}.
Implicit Types (req : HTTPRequest) (ps : PathParameters) (c : ccache).

Lemma confined_requestToGVK rg ps : confined rg (requestToGVK ps).
Proof. unfold requestToGVK. confine. Qed.

Lemma confined_withTarget resolver rg req ps k :
  (∀ n, resolver (rq_Host req) = inl n → n = rg) →
  (∀ gvk, confined rg (k (GetResourceGroup rg) gvk)) → confined rg (withTarget resolver req ps k).
Proof.
  intros Hres Hk. unfold withTarget. destruct (resolver (rq_Host req)) as [n|err]; [|apply confined_ret].
  rewrite (Hres n eq_refl). apply confined_bind; [apply confined_requestToGVK|].
  intros [gvk|e]; [apply Hk|apply confined_ret].
Qed.

Lemma confined_handler resolver rg fuel h req ps :
  (∀ n, resolver (rq_Host req) = inl n → n = rg) → confined rg (run_handler resolver fuel h req ps).
Proof.
  intros Hres. destruct h; cbn [run_handler]; try apply confined_ret; apply confined_withTarget; try done;
    intros gvk; unfold cachedClient_Create, cachedClient_Update, cachedClient_List, cachedClient_Get,
      cachedClient_Patch, cachedClient_Delete, Create, Update; cbn [GetResourceGroup cc_resourceGroup]; confine.
Qed.
End isolation.

Section mux.
Context {E : Env} {N : Net} {R : Restful}.

(** C18: requests are isolated: behind a mux, a request can change the resource group
    of no cluster but the one whose listener has the address it was sent to; at an
    address that is no listener's, it changes nothing. *)
Theorem requests_are_isolated host m fuel req (c : ccache) ws c' rg :
  mux_reachable host m →
  (∀ w, workloadClusterListeners m !! rg = Some w → HostPort w ≠ rq_Host req) →
  ServeHTTP (resourceGroupResolver m) fuel req c = Done ws c' →
  resourceGroups c' !! rg = resourceGroups c !! rg.
Proof.
  intros Hreach Hother Hrun. destruct (mux_reachable_fresh _ _ Hreach) as [[_ _ Hbyhost _] _ _ _ _ _].
  unfold ServeHTTP in Hrun. destruct (restful_SelectRoute _ _) as [[route ps]|code].
  2: { by injection Hrun as <- <-. }
  destruct (workloadClusterNameByHost m !! rq_Host req) as [n|] eqn:Hn.
  - assert (rg ≠ n) as Hne.
    { intros ->. apply Hbyhost in Hn as (w & Hw & Hh). by apply (Hother w). }
    refine (confined_handler _ n _ _ _ _ _ _ _ _ Hrun rg Hne).
    intros n'. unfold resourceGroupResolver. rewrite Hn. by intros [= <-].
  - refine (confined_handler _ (rg +:+ "0") _ _ _ _ _ _ _ _ Hrun rg _).
    + intros n'. unfold resourceGroupResolver. by rewrite Hn.
    + intros Heq. apply (f_equal String.length) in Heq. rewrite string_length_app in Heq. cbn in Heq. lia.
Qed.
End mux.

(** ** What clients see *)
Section clients.
Context {E : Env} {L : EnvLaws E} {R : Restful} {AL : ApiLaws E R}.
Implicit Types (req : HTTPRequest) (ps : PathParameters) (c : ccache).
Variable resolver : string → string + string.

(** A request, with its path parameters, about a kind in a resource group, from a
    client that asks for JSON. *)
Record targets req ps (rg : string) (gvk : GroupVersionKind) : Prop := {
  tg_host : resolver (rq_Host req) = inl rg;
  tg_kind : api_kind (PathParameter ps "group") (PathParameter ps "version")
    (PathParameter ps "resource") = Some gvk;
  tg_json : rq_Accept req = ContentTypeJSON }.

Lemma withTarget_eq req ps rg gvk k c :
  targets req ps rg gvk → withTarget resolver req ps k c = k (GetResourceGroup rg) gvk c.
Proof.
  intros [Hh Hk _]. unfold withTarget. rewrite Hh, go_bind_eq.
  destruct (requestToGVK_eq ps c) as [e ->]. by rewrite Hk.
Qed.

Lemma writeEntity_json req e : rq_Accept req = ContentTypeJSON → writeEntity req e = [WroteEntity StatusOK e].
Proof. intros Hj. unfold writeEntity. by rewrite write_json. Qed.

(** The key a request names. *)
Definition requested_key ps : NamespacedName := NN (PathParameter ps "namespace") (PathParameter ps "name").

(** Get answers with the conversion of a tracked object. *)
Lemma apiV1Get_tracked req ps rg gvk t o out c :
  targets req ps rg gvk → rg ≠ "" → PathParameter ps "name" ≠ "" →
  resourceGroups c !! rg = Some t → tracked t gvk (requested_key ps) = Some o → obj_gvk o = gvk →
  scheme_Convert o (requested_object gvk ps) = inl out →
  apiV1Get resolver req ps c = Done [WroteEntity StatusOK (EObject (SetGroupVersionKind gvk out))] c.
Proof.
  intros Htg Hrg Hname Ht Ho Hgvk Hconv. unfold apiV1Get.
  rewrite (withTarget_eq _ _ _ _ _ _ Htg), go_bind_eq. unfold cachedClient_Get.
  assert (Hg := requested_object_gvk ps gvk (tg_kind _ _ _ _ Htg)).
  assert (Hset : SetGroupVersionKind gvk (requested_object gvk ps) = requested_object gvk ps).
  { unfold SetGroupVersionKind. rewrite <- Hg at 1. by destruct (requested_object gvk ps). }
  rewrite (Get_tracked rg t gvk (requested_key ps) o (requested_object gvk ps) out c); try done.
  - rewrite Hgvk. by rewrite writeEntity_json by apply Htg.
  - rewrite Hg. eapply unstructured_kind, api_kind_nonempty, (tg_kind _ _ _ _ Htg).
  - by rewrite Hset.
Qed.

(** Get answers 404 when nothing is tracked. *)
Lemma apiV1Get_missing req ps rg gvk t key c :
  targets req ps rg gvk → rg ≠ "" → PathParameter ps "name" ≠ "" → requested_key ps = key →
  resourceGroups c !! rg = Some t → tracked t gvk key = None →
  apiV1Get resolver req ps c = Done [WroteEntity 404 (EStatus (notFound gvk key))] c.
Proof.
  intros Htg Hrg Hname <- Ht Ho. unfold apiV1Get.
  rewrite (withTarget_eq _ _ _ _ _ _ Htg), go_bind_eq. unfold cachedClient_Get.
  assert (Hg := requested_object_gvk ps gvk (tg_kind _ _ _ _ Htg)).
  rewrite (Get_untracked rg t gvk (requested_key ps) (requested_object gvk ps) c); try done.
  - cbn. by rewrite write_json by apply Htg.
  - rewrite Hg. eapply unstructured_kind, api_kind_nonempty, (tg_kind _ _ _ _ Htg).
Qed.

(** ** Requests for a resource *)
(** The path of a resource, or of one object: group "" is the core API, and namespace
    "" is no namespace. *)
Definition prefix_path (group namespace : string) : list string :=
  (if decide (group = "") then ["api"; "v1"] else ["apis"; group; "v1"]) ++
  (if decide (namespace = "") then [] else ["namespaces"; namespace]).
Definition prefix_template (group namespace : string) : list Segment :=
  (if decide (group = "") then [Lit "api"; Lit "v1"] else [Lit "apis"; Par "group"; Par "version"]) ++
  (if decide (namespace = "") then [] else [Lit "namespaces"; Par "namespace"]).

Definition json_request (method contentType host body : string) (path : list string) : HTTPRequest :=
  mkHTTPRequest method path host contentType ContentTypeJSON body.
Definition create_request (host group namespace resource body : string) : HTTPRequest :=
  json_request "POST" ContentTypeProtobuf host body (prefix_path group namespace ++ [resource]).
Definition get_request (host group namespace resource name : string) : HTTPRequest :=
  json_request "GET" ContentTypeJSON host "" (prefix_path group namespace ++ [resource; name]).
Definition delete_request (host group namespace resource name : string) : HTTPRequest :=
  json_request "DELETE" ContentTypeProtobuf host "" (prefix_path group namespace ++ [resource; name]).

(** The parameters of such a path. *)
Record names ps (group namespace resource name : string) : Prop := {
  nm_api : PathParameter ps "group" = group ∧ (group ≠ "" → PathParameter ps "version" = "v1");
  nm_namespace : PathParameter ps "namespace" = namespace;
  nm_resource : PathParameter ps "resource" = resource;
  nm_name : PathParameter ps "name" = name }.

Lemma api_kind_version group version resource :
  (group ≠ "" → version = "v1") → api_kind group version resource = api_kind group "v1" resource.
Proof.
  intros Hv. unfold api_kind, api_list. case_bool_decide as Hg; [done|]. by rewrite (Hv Hg).
Qed.

Lemma crud_in group namespace r : r ∈ crudRoutes (prefix_template group namespace) → r ∈ apiRoutes.
Proof.
  unfold prefix_template, apiRoutes. cbv zeta. rewrite !elem_of_app.
  repeat case_decide; cbn [app]; intros Hr; auto 10.
Qed.

(** The collection, and an object of it. *)
Lemma collection_match group namespace resource :
  ∃ ps, match_path (prefix_template group namespace ++ [Par "resource"])
      (prefix_path group namespace ++ [resource]) = Some ps ∧ names ps group namespace resource "".
Proof.
  unfold prefix_template, prefix_path. repeat case_decide; subst; cbn; eexists; (split; [reflexivity|]);
    by split.
Qed.
Lemma object_match group namespace resource name :
  ∃ ps, match_path (prefix_template group namespace ++ [Par "resource"; Par "name"])
      (prefix_path group namespace ++ [resource; name]) = Some ps ∧ names ps group namespace resource name.
Proof.
  unfold prefix_template, prefix_path. repeat case_decide; subst; cbn; eexists; (split; [reflexivity|]);
    by split.
Qed.

(** A request that fits a route is served by its handler. *)
Lemma ServeHTTP_fits fuel req r ps c :
  fits r req ps → consumed r req → rq_Accept req = ContentTypeJSON →
  ServeHTTP resolver fuel req c = run_handler resolver fuel (rt_Handler r) req ps c.
Proof. intros Hf Hc Hj. unfold ServeHTTP. by rewrite (route_selected req r ps Hf Hc Hj). Qed.

Lemma targets_names req ps rg group namespace resource name gvk :
  names ps group namespace resource name → resolver (rq_Host req) = inl rg →
  api_kind group "v1" resource = Some gvk → rq_Accept req = ContentTypeJSON → targets req ps rg gvk.
Proof.
  intros [[Hg Hv] _ Hr _] Hh Hk Hj. split; [done| |done]. by rewrite Hg, Hr, api_kind_version.
Qed.


Lemma serve_create fuel host group namespace resource body rg gvk c :
  resolver host = inl rg → api_kind group "v1" resource = Some gvk →
  let req := create_request host group namespace resource body in
  ∃ ps, names ps group namespace resource "" ∧ targets req ps rg gvk ∧
    ServeHTTP resolver fuel req c = apiV1Create resolver req ps c.
Proof.
  intros Hh Hk req. destruct (collection_match group namespace resource) as (ps & Hm & Hn).
  exists ps. split; [done|]. split; [by eapply targets_names|].
  rewrite (ServeHTTP_fits fuel req (mkRoute "POST" (prefix_template group namespace ++ [Par "resource"])
    [ContentTypeProtobuf] ApiV1Create) ps); [done| |by left; apply list_elem_of_singleton|done].
  split; [|by split]. apply (crud_in group namespace). unfold crudRoutes. apply list_elem_of_here.
Qed.

Lemma serve_get fuel host group namespace resource name rg gvk c :
  resolver host = inl rg → api_kind group "v1" resource = Some gvk →
  let req := get_request host group namespace resource name in
  ∃ ps, names ps group namespace resource name ∧ targets req ps rg gvk ∧
    ServeHTTP resolver fuel req c = apiV1Get resolver req ps c.
Proof.
  intros Hh Hk req. destruct (object_match group namespace resource name) as (ps & Hm & Hn).
  exists ps. split; [done|]. split; [by eapply targets_names|].
  rewrite (ServeHTTP_fits fuel req (GET (prefix_template group namespace ++ [Par "resource"; Par "name"])
    ApiV1Get) ps); [done| |by left; apply list_elem_of_singleton|done].
  split; [|by split]. apply (crud_in group namespace). unfold crudRoutes. rewrite <- !app_assoc. set_solver.
Qed.

Lemma serve_delete fuel host group namespace resource name rg gvk c :
  resolver host = inl rg → api_kind group "v1" resource = Some gvk →
  let req := delete_request host group namespace resource name in
  ∃ ps, names ps group namespace resource name ∧ targets req ps rg gvk ∧
    ServeHTTP resolver fuel req c = apiV1Delete resolver fuel req ps c.
Proof.
  intros Hh Hk req. destruct (object_match group namespace resource name) as (ps & Hm & Hn).
  exists ps. split; [done|]. split; [by eapply targets_names|].
  rewrite (ServeHTTP_fits fuel req (mkRoute "DELETE" (prefix_template group namespace ++
    [Par "resource"; Par "name"]) [ContentTypeProtobuf] ApiV1Delete) ps);
    [done| |by left; apply list_elem_of_singleton|done].
  split; [|by split]. apply (crud_in group namespace). unfold crudRoutes. rewrite <- !app_assoc. set_solver.
Qed.

(** C17: an object created over HTTP is read back over HTTP: Create answers 200 with
    the object as it is stored, at version "v1" in the namespace of the path, and a
    Get of its path then answers 200 with its kind and its metadata. *)
Theorem http_create_then_get fuel host group namespace resource body rg gvk t blank decoded c :
  let name := GetName decoded in
  let stored := created_object (time_Now (ticks c)) (SetGroupVersionKind gvk (SetNamespace namespace decoded)) in
  resolver host = inl rg → api_kind group "v1" resource = Some gvk →
  scheme_New gvk = inl blank → scheme_DecodeInto body blank = inl decoded →
  scheme_GVKForObject (obj_body decoded) (obj_gvk decoded) = inl gvk →
  rg ≠ "" → name ≠ "" → resourceGroups c !! rg = Some t → wf_tracker t →
  tracked t gvk (NN namespace name) = None → validateOwners t namespace (GetOwnerReferences decoded) = None →
  (∀ dst, ∃ out, scheme_Convert stored dst = inl out) →
  ∃ c' shown,
    ServeHTTP resolver fuel (create_request host group namespace resource body) c =
      Done [WroteEntity StatusOK (EObject stored)] c' ∧
    ServeHTTP resolver fuel (get_request host group namespace resource name) c' =
      Done [WroteEntity StatusOK (EObject shown)] c' ∧
    obj_gvk shown = gvk ∧ obj_meta shown = obj_meta stored ∧
    GetResourceVersion shown = "v1" ∧ GetNamespace shown = namespace.
Proof.
  intros name stored Hh Hk Hnew Hdec Hscheme Hrg Hname Ht Hwf Hfree Hv Hconv.
  set (obj := SetNamespace namespace decoded).
  destruct (Create_new rg t gvk obj c Hwf) as (t' & k & Hrun & Hset); [by split|done|done|].
  fold stored in Hrun, Hset. set (c' := after_store rg t' (NotifyCreate stored) k c) in Hrun.
  destruct (serve_create fuel host group namespace resource body rg gvk c Hh Hk) as (ps & Hn & Htg & Hserve).
  destruct (serve_get fuel host group namespace resource name rg gvk c' Hh Hk) as (ps' & Hn' & Htg' & Hserve').
  destruct (Hconv (requested_object gvk ps')) as [out Hout].
  exists c', (SetGroupVersionKind gvk out). split.
  { rewrite Hserve. unfold apiV1Create. rewrite (withTarget_eq _ _ _ _ _ _ Htg).
    unfold sent_object. cbn [rq_Body create_request json_request]. rewrite Hnew, Hdec.
    rewrite (nm_namespace _ _ _ _ _ Hn), go_bind_eq. unfold cachedClient_Create.
    cbn [GetResourceGroup cc_resourceGroup]. fold obj. rewrite Hrun. cbn. by rewrite writeEntity_json. }
  split.
  { rewrite Hserve'. apply (apiV1Get_tracked _ _ rg gvk t' stored); try done.
    - by rewrite (nm_name _ _ _ _ _ Hn').
    - apply lookup_insert_eq.
    - unfold requested_key. rewrite (nm_name _ _ _ _ _ Hn'), (nm_namespace _ _ _ _ _ Hn').
      rewrite (set_objects _ _ _ _ _ _ Hset). by apply decide_True. }
  apply convert_meta in Hout. unfold GetResourceVersion, GetNamespace.
  change (obj_meta (SetGroupVersionKind gvk out)) with (obj_meta out). by rewrite Hout.
Qed.

(** Deleting what has neither finalizers nor dependents. *)
Lemma Delete_removes fuel rg t gvk obj o c :
  rg ≠ "" → GetName obj ≠ "" → scheme_GVKForObject (obj_body obj) (obj_gvk obj) = inl gvk →
  resourceGroups c !! rg = Some t → tracked t gvk (ObjectKeyFromObject obj) = Some o →
  GetFinalizers o = [] → ownedObjects t !! OwnRef gvk (ObjectKeyFromObject obj) = None →
  ∃ c', Delete (S fuel) rg (Some obj) c = Done (Some (SetGroupVersionKind gvk obj), None) c' ∧
    resourceGroups c' !! rg = Some (untrack gvk (ObjectKeyFromObject obj) t).
Proof.
  intros Hrg Hname Hgvk Ht Ho Hfin Howned. unfold Delete. rewrite !decide_False by done.
  unfold gvkGetAndSet. rewrite Hgvk, go_bind_eq. unfold tryDelete. rewrite go_bind_eq. cbn [go_get].
  unfold get_tracker. rewrite Ht, go_bind_eq. cbn [doTryDeleteLocked].
  change (ObjectKeyFromObject (SetGroupVersionKind gvk obj)) with (ObjectKeyFromObject obj).
  rewrite Ho, go_bind_eq, Howned. cbn beta iota. unfold markOrRemove. rewrite Hfin.
  eexists. split; [reflexivity|]. cbn. apply lookup_insert_eq.
Qed.

(** What is deleted over HTTP is gone: Delete of an object without finalizers and
    dependents answers 200, and a Get of its path then answers 404 with the status
    NotFound. *)
Theorem http_delete_then_get fuel host group namespace resource name rg gvk t o c :
  resolver host = inl rg → api_kind group "v1" resource = Some gvk → rg ≠ "" → name ≠ "" →
  resourceGroups c !! rg = Some t → tracked t gvk (NN namespace name) = Some o →
  GetFinalizers o = [] → ownedObjects t !! OwnRef gvk (NN namespace name) = None →
  ∃ c' ws, ServeHTTP resolver (S fuel) (delete_request host group namespace resource name) c = Done ws c' ∧
    response_code ws = 200 ∧
    ServeHTTP resolver fuel (get_request host group namespace resource name) c' =
      Done [WroteEntity 404 (EStatus (notFound gvk (NN namespace name)))] c'.
Proof.
  intros Hh Hk Hrg Hname Ht Ho Hfin Howned.
  destruct (serve_delete (S fuel) host group namespace resource name rg gvk c Hh Hk) as (ps & Hn & Htg & Hserve).
  assert (Hkey : ObjectKeyFromObject (requested_object gvk ps) = NN namespace name).
  { unfold ObjectKeyFromObject, GetName, GetNamespace. cbn.
    by rewrite (nm_name _ _ _ _ _ Hn), (nm_namespace _ _ _ _ _ Hn). }
  destruct (Delete_removes fuel rg t gvk (requested_object gvk ps) o c) as (c' & Hrun & Ht');
    rewrite ?Hkey; try done.
  { change (GetName (requested_object gvk ps)) with (PathParameter ps "name"). by rewrite (nm_name _ _ _ _ _ Hn). }
  { rewrite (requested_object_gvk ps gvk (tg_kind _ _ _ _ Htg)). eapply unstructured_kind, api_kind_nonempty, (tg_kind _ _ _ _ Htg). }
  rewrite Hkey in Ht'.
  destruct (serve_get fuel host group namespace resource name rg gvk c' Hh Hk) as (ps' & Hn' & Htg' & Hserve').
  exists c', []. split; [|split; [done|]].
  { rewrite Hserve. unfold apiV1Delete. rewrite (withTarget_eq _ _ _ _ _ _ Htg), go_bind_eq.
    unfold cachedClient_Delete. cbn [GetResourceGroup cc_resourceGroup]. by rewrite Hrun. }
  rewrite Hserve'. apply (apiV1Get_missing _ _ rg gvk (untrack gvk (NN namespace name) t)); try done.
  - by rewrite (nm_name _ _ _ _ _ Hn').
  - unfold requested_key. by rewrite (nm_name _ _ _ _ _ Hn'), (nm_namespace _ _ _ _ _ Hn').
  - rewrite tracked_untrack. by rewrite decide_True.
Qed.

(** ** Errors *)
(** A request that carries an object of its kind. *)
Record sends req ps (gvk : GroupVersionKind) (obj : Object) : Prop := {
  sn_object : sent_object req ps gvk = inl obj;
  sn_kind : scheme_GVKForObject (obj_body obj) (obj_gvk obj) = inl gvk;
  sn_name : GetName obj ≠ "" }.

(** The conflicts of writers - an object that exists already, a version that is not
    the tracked one - are answered with status 500 and a plain message, so that clients
    cannot tell them from failures, and change nothing. *)
Theorem conflicts_are_500 req ps rg gvk t obj old c :
  targets req ps rg gvk → sends req ps gvk obj → rg ≠ "" → wf_cache c → resourceGroups c !! rg = Some t →
  validateOwners t (GetNamespace obj) (GetOwnerReferences obj) = None →
  let key := ObjectKeyFromObject obj in
  tracked t gvk key = Some old →
  (∃ c', apiV1Create resolver req ps c = Done [WroteErrorString 500
     (CloudError (AlreadyExists (unsafeGuessGroupResource gvk) (NamespacedName_String key)))] c' ∧ cache_eqv c c') ∧
  (GetResourceVersion old ≠ GetResourceVersion obj →
   ∃ c', apiV1Update resolver req ps c = Done [WroteErrorString 500
     (CloudError (Conflict (unsafeGuessGroupResource gvk) (NamespacedName_String key)))] c' ∧ cache_eqv c c').
Proof.
  intros Htg [Hsent Hscheme Hname] Hrg Hwf Ht Hv key Hold. split.
  - assert (Hacc : store_accepts rg obj false gvk t c) by by split.
    destruct (store_refines rg t gvk obj false c (Hwf _ _ Ht) Hacc) as (t' & o' & e & n & k & Hrun & Hspec).
    change (tracked t gvk (ObjectKeyFromObject (SetGroupVersionKind gvk obj)) = Some old) in Hold.
    change (validateOwners t (GetNamespace (SetGroupVersionKind gvk obj))
      (GetOwnerReferences (SetGroupVersionKind gvk obj)) = None) in Hv.
    inversion Hspec; subst; try congruence.
    eexists. split; [|by eapply after_store_silent].
    unfold apiV1Create. rewrite (withTarget_eq _ _ _ _ _ _ Htg), Hsent, go_bind_eq.
    unfold cachedClient_Create, Create. cbn [GetResourceGroup cc_resourceGroup]. by rewrite Hrun.
  - intros Hrv. assert (Hacc : store_accepts rg obj true gvk t c) by by split.
    destruct (update_conflict rg gvk t obj old c Hwf Hacc Hold Hrv Hv) as (c' & Hrun & Heqv).
    exists c'. split; [|done]. unfold apiV1Update. rewrite (withTarget_eq _ _ _ _ _ _ Htg), Hsent, go_bind_eq.
    unfold cachedClient_Update. cbn [GetResourceGroup cc_resourceGroup]. by rewrite Hrun.
Qed.

(** The answer to a successful Patch is the bare request - kind, namespace and name -
    and says nothing of the object that was patched: it has no resource version,
    labels or finalizers, whatever was stored. *)
Theorem patch_answers_bare_request req ps rg gvk c ws c' :
  targets req ps rg gvk → apiV1Patch resolver req ps c = Done ws c' → response_code ws = 200 →
  ∃ o, ws = [WroteEntity 200 (EObject o)] ∧ obj_gvk o = gvk ∧ ObjectKeyFromObject o = requested_key ps ∧
    GetResourceVersion o = "" ∧ GetLabels o = None ∧ GetAnnotations o = None ∧ GetFinalizers o = [] ∧
    cachedClient_Patch (GetResourceGroup rg) (Some o) (RawPatch (rq_ContentType req) (rq_Body req)) c = Done None c'.
Proof.
  intros Htg Hrun Hcode. unfold apiV1Patch in Hrun. rewrite (withTarget_eq _ _ _ _ _ _ Htg) in Hrun.
  apply go_bind_Done_inv in Hrun as (err & c1 & Hpatch & Hrun).
  destruct err as [err|]; injection Hrun as <- <-; [done|].
  exists (requested_object gvk ps). rewrite writeEntity_json by apply Htg.
  split; [done|]. split; [by apply requested_object_gvk, Htg|]. done.
Qed.
End clients.

(** ** The debug server *)
Section debug.
Context {E : Env} {N : Net} {R : Restful} {AL : ApiLaws E R}.

(** The debug server of a mux lists every workload cluster, with an address that the
    API server resolves to it, and nothing else. *)
Theorem debug_lists_resolvable host m req :
  mux_reachable host m →
  rq_Method req = "GET" → rq_Path req = ["listeners"] → rq_Accept req = ContentTypeJSON →
  ∃ l, debug_ServeHTTP req (ListListeners m) = [WroteEntity StatusOK (EListeners l)] ∧
    ∀ n a, l !! n = Some a ↔ ∃ hp, a = "https://" +:+ hp ∧ resourceGroupResolver m hp = inl n.
Proof.
  intros Hreach Hm Hp Ha. destruct (mux_reachable_fresh _ _ Hreach) as [[_ _ Hby _] _ _ _ _ _].
  exists (ListListeners m). split.
  - unfold debug_ServeHTTP.
    destruct (route_complete _ debugRoutes req (mkRoute "GET" [Lit "listeners"] ["*/*"] ListenersList) ∅)
      as (r & ps & Hsel); [|right; by left|done|].
    { split; [by left|]. split; [done|]. rewrite Hp. done. }
    rewrite Hsel. destruct (rt_Handler r). by apply writeEntity_json.
  - intros n a. unfold ListListeners, resourceGroupResolver. rewrite lookup_fmap_Some. split.
    + intros (w & <- & Hw). exists (HostPort w). split; [done|]. by rewrite (proj2 (Hby (HostPort w) n)); [|exists w].
    + intros (hp & -> & Hn). destruct (workloadClusterNameByHost m !! hp) as [n'|] eqn:Hh; [|done].
      injection Hn as ->. apply Hby in Hh as (w & Hw & <-). by exists w.
Qed.
End debug.

(** ** Witnesses *)
(** A router that takes the first route that fits and consumes the content type, and a
    writer that always writes. *)
Definition route_fits {Hd} (req : HTTPRequest) (r : Route Hd) : bool :=
  bool_decide (rt_Method r = rq_Method req) && bool_decide (is_Some (match_path (rt_Path r) (rq_Path req))) &&
  bool_decide (rq_ContentType req ∈ rt_Consumes r ∨ "*/*" ∈ rt_Consumes r).
Definition blank_object (gvk : GroupVersionKind) : Object + string :=
  let new body := inl (mkObject (GVK "" "" "") (named_meta "" "") body) in
  match gvk_Kind gvk with
  | "Node" => new (Node "" [])
  | "Pod" => new (Pod "" [])
  | "ConfigMap" => new ConfigMap
  | kind => inr ("no kind " +:+ kind)
  end.
#[export] Instance test_restful : Restful := {|
  restful_SelectRoute Hd routes req :=
    match List.find (route_fits req) routes with
    | Some r => inl (r, default ∅ (match_path (rt_Path r) (rq_Path req)))
    | None => inr 404
    end;
  restful_WriteHeaderAndEntity _ code e := ([WroteEntity code e], None);
  scheme_New := blank_object;
  httpstream_Handshake _ := None;
  spdy_UpgradeResponse _ := true
|}.

#[export] Instance test_api_laws : ApiLaws test_env test_restful.
Proof.
  split; try done.
  - intros Hd routes req r ps. unfold restful_SelectRoute, test_restful.
    destruct (List.find (route_fits req) routes) as [r'|] eqn:Hf; [|done]. intros [= <- <-].
    apply List.find_some in Hf as [Hin Hfit]. unfold route_fits in Hfit.
    rewrite !andb_true_iff, !bool_decide_eq_true in Hfit. destruct Hfit as [[Hm [ps Hps]] _].
    split; [by apply list_elem_of_In|]. split; [done|]. by rewrite Hps.
  - intros Hd routes req r ps (Hin & Hm & Hp) Hc _. unfold restful_SelectRoute, test_restful.
    destruct (List.find (route_fits req) routes) as [r'|] eqn:Hf; [by do 2 eexists|].
    apply list_elem_of_In in Hin. apply (List.find_none _ _ Hf) in Hin. unfold route_fits in Hin.
    rewrite !bool_decide_eq_true_2 in Hin; [done|done|by eexists|done].
  - intros src dst out. cbn. unfold test_Convert. by destruct (obj_body dst); intros [= <-].
Qed.

Lemma routes_are_unambiguous_witness :
  ∃ req r ps, fits r req ps ∧ rt_Handler r = ApiV1Get ∧ ∀ r' ps', fits r' req ps' → r' = r ∧ ps' = ps.
Proof.
  set (req := get_request "h" "" "kube-system" "pods" "p").
  assert (Hsel : ∃ r ps, restful_SelectRoute apiRoutes req = inl (r, ps) ∧ rt_Handler r = ApiV1Get)
    by (do 2 eexists; split; [vm_compute; reflexivity|reflexivity]).
  destruct Hsel as (r & ps & Hsel%route_sound & Hh). exists req, r, ps. split; [exact Hsel|]. split; [exact Hh|].
  intros r' ps' Hf. apply (routes_are_unambiguous req r' r ps' ps Hf Hsel).
Defined.

(** The group "a" behind test_mux3, with the config map "m" of the body "m". *)
Definition api_cache : ccache := exec (AddResourceGroup "a")
  (exec (Start false true true true) (NewCache ∅)).
Definition api_server : string → string + string := resourceGroupResolver test_mux3.
Definition api_path (name : string) : HTTPRequest := get_request "10.0.0.1:20000" "" "ns" "configmaps" name.
Definition api_create : HTTPRequest := create_request "10.0.0.1:20000" "" "ns" "configmaps" "m".
Definition api_cache1 : ccache := exec (ServeHTTP api_server 9 api_create) api_cache.
Definition api_tracker (c : ccache) : resourceGroupTracker := default (mkTracker ∅ ∅) (resourceGroups c !! "a").
Definition map_gvk : GroupVersionKind := corev1_gvk "ConfigMap".
Definition map_key : NamespacedName := NN "ns" "m".

Lemma api_cache_wf : wf_cache api_cache.
Proof.
  intros rg t Ht. assert (Hg : resourceGroups api_cache = {["a" := mkTracker ∅ ∅]}) by vm_decide.
  rewrite Hg in Ht. apply lookup_singleton_Some in Ht as [_ <-].
  split; [by intros gvk key obj Htr|by intros r s Hs].
Qed.

Lemma api_resolves : api_server "10.0.0.1:20000" = inl "a".
Proof. vm_compute. reflexivity. Qed.

Lemma resources_are_those_discovered_witness :
  ∃ gvk, requestToGVK {["resource" := "configmaps"]} api_cache = Done (inl gvk) api_cache ∧ gvk_Kind gvk = "ConfigMap".
Proof.
  destruct (resources_are_those_discovered api_create {["resource" := "configmaps"]} api_cache) as (out & Hrun & Hout).
  destruct Hout as [_ Hout]. destruct out as [gvk|e].
  - exists gvk. split; [exact Hrun|]. destruct Hout as (r & Hr & Hname & -> & _).
    apply list_elem_of_In in Hr. cbn in Hr, Hname.
    destruct Hr as [<-|[<-|[<-|[<-|[]]]]]; try discriminate Hname. reflexivity.
  - exfalso. revert Hrun. vm_compute. discriminate.
Defined.

Lemma requests_are_isolated_witness :
  ∃ ws c', ServeHTTP api_server 9 api_create api_cache = Done ws c' ∧
    resourceGroups c' !! "b" = resourceGroups api_cache !! "b".
Proof.
  destruct (ServeHTTP api_server 9 api_create api_cache) as [ws c'| |] eqn:Hrun;
    [|exfalso; revert Hrun; vm_compute; discriminate..].
  exists ws, c'. split; [reflexivity|].
  apply (requests_are_isolated "10.0.0.1" test_mux3 9 api_create api_cache ws c').
  - exact test_mux_reachable.
  - intros w Hw Hh.
    assert (Hport : option_map HostPort (workloadClusterListeners test_mux3 !! "b") = Some "10.0.0.1:20001")
      by vm_decide.
    rewrite Hw in Hport. injection Hport as Hport. rewrite Hport in Hh. discriminate Hh.
  - exact Hrun.
Defined.


Lemma http_create_then_get_witness :
  ∃ c' stored shown,
    ServeHTTP api_server 9 api_create api_cache = Done [WroteEntity 200 (EObject stored)] c' ∧
    ServeHTTP api_server 9 (api_path "m") c' = Done [WroteEntity 200 (EObject shown)] c' ∧
    GetResourceVersion shown = "v1".
Proof.
  destruct (http_create_then_get api_server 9 "10.0.0.1:20000" "" "ns" "configmaps" "m" "a" map_gvk
    (mkTracker ∅ ∅) (mkObject (GVK "" "" "") (named_meta "" "") ConfigMap)
    (SetLabels (Some {["patched" := "m"]}) (mkObject (GVK "" "" "") (named_meta "" "m") ConfigMap)) api_cache)
    as (c' & shown & Hc & Hg & _ & _ & Hv & _).
  - exact api_resolves.
  - reflexivity.
  - reflexivity.
  - reflexivity.
  - reflexivity.
  - done.
  - done.
  - vm_decide.
  - apply (api_cache_wf "a"). vm_decide.
  - reflexivity.
  - reflexivity.
  - intros dst. cbn. unfold test_Convert. destruct (obj_body dst); by eexists.
  - eexists c', _, shown. split; [exact Hc|]. split; [exact Hg|exact Hv].
Defined.

Lemma api_tracked1 : is_Some (tracked (api_tracker api_cache1) map_gvk map_key).
Proof. vm_decide. Qed.
Lemma api_group1 : resourceGroups api_cache1 !! "a" = Some (api_tracker api_cache1).
Proof. vm_decide. Qed.

Lemma http_delete_then_get_witness :
  ∃ c' ws, ServeHTTP api_server 2 (delete_request "10.0.0.1:20000" "" "ns" "configmaps" "m") api_cache1 = Done ws c' ∧
    response_code ws = 200.
Proof.
  destruct (tracked (api_tracker api_cache1) map_gvk map_key) as [o|] eqn:Ho.
  2: { exfalso. destruct api_tracked1 as [o Ho']. rewrite Ho in Ho'. discriminate. }
  destruct (http_delete_then_get api_server 1 "10.0.0.1:20000" "" "ns" "configmaps" "m" "a" map_gvk
    (api_tracker api_cache1) o api_cache1) as (c' & ws & Hd & Hcode & _).
  - exact api_resolves.
  - reflexivity.
  - done.
  - done.
  - exact api_group1.
  - exact Ho.
  - assert (Hf : option_map GetFinalizers (tracked (api_tracker api_cache1) map_gvk map_key) = Some [])
      by vm_decide.
    rewrite Ho in Hf. injection Hf as Hf. exact Hf.
  - vm_decide.
  - exists c', ws. split; [exact Hd|exact Hcode].
Defined.

Definition create_params : PathParameters := {["resource" := "configmaps"; "namespace" := "ns"]}.
Definition object_params : PathParameters :=
  {["resource" := "configmaps"; "namespace" := "ns"; "name" := "m"]}.

(** The object of the request, and the cache with it. *)
Definition api_object : Object := SetNamespace "ns" (SetLabels (Some {["patched" := "m"]})
  (mkObject (GVK "" "" "") (named_meta "" "m") ConfigMap)).
Definition api_cache2 : ccache := exec (Create "a" (Some api_object)) api_cache.

Lemma api_cache2_wf : wf_cache api_cache2.
Proof.
  destruct (store_wf "a" (Some api_object) false api_cache api_cache_wf) as (r & c' & Hrun & Hwf).
  unfold api_cache2, exec, Create. by rewrite Hrun.
Qed.

Lemma conflicts_are_500_witness :
  ∃ e c', apiV1Create api_server api_create create_params api_cache2 =
    Done [WroteErrorString 500 (CloudError e)] c' ∧ IsAlreadyExists e = true.
Proof.
  destruct (tracked (api_tracker api_cache2) map_gvk map_key) as [old|] eqn:Hold.
  2: { exfalso. assert (Hs : is_Some (tracked (api_tracker api_cache2) map_gvk map_key)) by vm_decide.
       destruct Hs as [o Ho']. rewrite Hold in Ho'. discriminate. }
  destruct (conflicts_are_500 api_server api_create create_params "a" map_gvk (api_tracker api_cache2)
    api_object old api_cache2) as [(c' & Hrun & _) _].
  - split; [exact api_resolves|vm_compute; reflexivity|reflexivity].
  - split; [vm_compute; reflexivity|reflexivity|done].
  - done.
  - exact api_cache2_wf.
  - vm_decide.
  - reflexivity.
  - exact Hold.
  - eexists _, c'. split; [exact Hrun|reflexivity].
Defined.

(** A merge patch of the config map. *)
Definition api_patch : HTTPRequest :=
  json_request "PATCH" MergePatchType "10.0.0.1:20000" "p" (prefix_path "" "ns" ++ ["configmaps"; "m"]).

Lemma patch_answers_bare_request_witness :
  ∃ o c', apiV1Patch api_server api_patch object_params api_cache1 = Done [WroteEntity 200 (EObject o)] c' ∧
    GetResourceVersion o = "".
Proof.
  destruct (apiV1Patch api_server api_patch object_params api_cache1) as [ws c'| |] eqn:Hrun;
    [|exfalso; revert Hrun; vm_compute; discriminate..].
  assert (Hcode : response_code ws = 200).
  { assert (Hc : match apiV1Patch api_server api_patch object_params api_cache1 with
      | Done ws _ => response_code ws = 200 | _ => False end) by (vm_compute; reflexivity).
    rewrite Hrun in Hc. exact Hc. }
  destruct (patch_answers_bare_request api_server api_patch object_params "a" map_gvk api_cache1 ws c')
    as (o & Hws & _ & _ & Hv & _).
  - split; [exact api_resolves|vm_compute; reflexivity|reflexivity].
  - exact Hrun.
  - exact Hcode.
  - exists o, c'. rewrite Hws. split; [reflexivity|exact Hv].
Defined.
