(* ===== verification/PortForward.v ===== *)
(** * Port forwarding: internal/server/api/portforward/httpstreams.go

    One connection carries many port forward operations; each has an error and a data
    stream with the same request id.  The main loop ([Run]), the monitor of each pair
    and the forwarding of each pair are goroutines: [act] is one step of one of them,
    up to the next lock or channel, and a run is any interleaving of such steps.  The
    streams themselves, their bytes and the clock are the environment's. *)

From stdpp Require Import prelude gmap strings list.
From Stdlib Require Import ZArith Lia.
From S2P Require Import Prelude GoStd.
Local Open Scope Z_scope.

(** ** Data *)
(** corev1: the names of the headers and the types of streams. *)
Definition StreamType : string := "streamType".
Definition PortHeader : string := "port".
Definition PortForwardRequestIDHeader : string := "requestID".
Definition StreamTypeError : string := "error".
Definition StreamTypeData : string := "data".

(** httpstream.Stream: its number in the connection and its headers. *)
Record Stream := mkStream { st_Identifier : Z; st_Headers : gmap string string }.
#[export] Instance Stream_eq_dec : EqDecision Stream.
Proof. solve_decision. Defined.
(** stream.Headers().Get(key), "" when there is none. *)
Definition Headers_Get (s : Stream) (key : string) : string := default "" (st_Headers s !! key).

Record httpStreamPair := mkPair {
  pr_requestID : string;
  pr_dataStream : option Stream;
  pr_errorStream : option Stream;
  (** whether the channel complete is closed *)
  pr_complete : bool }.

(** The messages written to error streams and the errors, before they are rendered. *)
Inductive PFError :=
| StreamTypeRequired
| StreamTypeInvalid (streamType : string)
| ErrorStreamAssigned
| DataStreamAssigned.
Inductive PFMessage :=
| ProcessingFailed (requestID : string) (e : PFError)
| TimedOut (requestID : string)
| ForwardingFailed (port podNamespace podName : string) (err : string).

(** What is done to the streams, to the connection and to the forwarder. *)
Inductive PFEffect :=
| Printed (s : Stream) (msg : PFMessage)
| RemovedStreams (dataStream errorStream : option Stream)
| Forwarded (p : nat) (podName podNamespace port : string) (dataStream : Stream)
| ClosedStream (s : Stream).

(** ** State: httpStreamHandler, its goroutines and the heap of pairs *)
Inductive RunState :=
| RunWaiting
| RunGotPair (s : Stream) (p : nat)
| RunPrinting (p : nat) (msg : PFMessage)
| RunStopped.
Inductive MonitorState := MonitorWaiting | MonitorTimedOut | MonitorRemoving.
Inductive ForwardState := ForwardStarting | ForwardRunning.

Record httpStreamHandler := mkHandler {
  h_podName : string;
  h_podNamespace : string;
  h_streamChan : list Stream;
  h_streamPairs : gmap string nat;
  h_pairs : gmap nat httpStreamPair;
  h_nextPair : nat;
  h_run : RunState;
  h_monitors : gmap nat MonitorState;
  h_forwards : gmap nat ForwardState;
  h_connClosed : bool;
  (** the streams the client opened, and the effects, the first one first *)
  h_received : list Stream;
  h_effects : list PFEffect }.

Definition NewHTTPStreamHandler (podName podNamespace : string) : httpStreamHandler :=
  mkHandler podName podNamespace [] ∅ ∅ 0 RunWaiting ∅ ∅ false [] [].

Implicit Types h : httpStreamHandler.
Definition h_set_streamChan v h := mkHandler (h_podName h) (h_podNamespace h) v (h_streamPairs h)
  (h_pairs h) (h_nextPair h) (h_run h) (h_monitors h) (h_forwards h) (h_connClosed h) (h_received h) (h_effects h).
Definition h_set_streamPairs v h := mkHandler (h_podName h) (h_podNamespace h) (h_streamChan h) v
  (h_pairs h) (h_nextPair h) (h_run h) (h_monitors h) (h_forwards h) (h_connClosed h) (h_received h) (h_effects h).
Definition h_set_pairs v h := mkHandler (h_podName h) (h_podNamespace h) (h_streamChan h) (h_streamPairs h)
  v (h_nextPair h) (h_run h) (h_monitors h) (h_forwards h) (h_connClosed h) (h_received h) (h_effects h).
Definition h_set_nextPair v h := mkHandler (h_podName h) (h_podNamespace h) (h_streamChan h) (h_streamPairs h)
  (h_pairs h) v (h_run h) (h_monitors h) (h_forwards h) (h_connClosed h) (h_received h) (h_effects h).
Definition h_set_run v h := mkHandler (h_podName h) (h_podNamespace h) (h_streamChan h) (h_streamPairs h)
  (h_pairs h) (h_nextPair h) v (h_monitors h) (h_forwards h) (h_connClosed h) (h_received h) (h_effects h).
Definition h_set_monitors v h := mkHandler (h_podName h) (h_podNamespace h) (h_streamChan h) (h_streamPairs h)
  (h_pairs h) (h_nextPair h) (h_run h) v (h_forwards h) (h_connClosed h) (h_received h) (h_effects h).
Definition h_set_forwards v h := mkHandler (h_podName h) (h_podNamespace h) (h_streamChan h) (h_streamPairs h)
  (h_pairs h) (h_nextPair h) (h_run h) (h_monitors h) v (h_connClosed h) (h_received h) (h_effects h).
Definition h_set_connClosed v h := mkHandler (h_podName h) (h_podNamespace h) (h_streamChan h) (h_streamPairs h)
  (h_pairs h) (h_nextPair h) (h_run h) (h_monitors h) (h_forwards h) v (h_received h) (h_effects h).
Definition h_set_received v h := mkHandler (h_podName h) (h_podNamespace h) (h_streamChan h) (h_streamPairs h)
  (h_pairs h) (h_nextPair h) (h_run h) (h_monitors h) (h_forwards h) (h_connClosed h) v (h_effects h).
Definition h_set_effects v h := mkHandler (h_podName h) (h_podNamespace h) (h_streamChan h) (h_streamPairs h)
  (h_pairs h) (h_nextPair h) (h_run h) (h_monitors h) (h_forwards h) (h_connClosed h) (h_received h) v.

Abbreviation PF A := (Go httpStreamHandler A).
Definition emit (e : PFEffect) : PF () := go_modify (λ h, h_set_effects (h_effects h ++ [e]) h).
(** The pair a pointer points to. *)
Definition deref (p : nat) : PF httpStreamPair :=
  h ← go_get;
  match h_pairs h !! p with
  | Some pr => mret pr
  | None => go_panic "nil pointer dereference: httpStreamPair"
  end.
Definition assign (p : nat) (pr : httpStreamPair) : PF () :=
  go_modify (λ h, h_set_pairs (<[p := pr]> (h_pairs h)) h).

(** ** Operations *)
(** HTTPStreamReceived: a stream goes to the channel, or is refused. *)
Definition HTTPStreamReceived (s : Stream) : PF (option PFError) :=
  let streamType := Headers_Get s StreamType in
  if decide (streamType = "") then mret (Some StreamTypeRequired) else
  if negb (bool_decide (streamType = StreamTypeError)) && negb (bool_decide (streamType = StreamTypeData))
  then mret (Some (StreamTypeInvalid streamType))
  else
    _ ← go_modify (λ h, h_set_streamChan (h_streamChan h ++ [s]) h);
    mret None.

(** requestID: the id of the header, or for old clients one made of the number. *)
Definition requestID (s : Stream) : string :=
  let id := Headers_Get s PortForwardRequestIDHeader in
  if decide (id = "") then
    let streamType := Headers_Get s StreamType in
    if decide (streamType = StreamTypeError) then Itoa (st_Identifier s)
    else if decide (streamType = StreamTypeData) then Itoa (wrap_int (st_Identifier s - 2))
    else ""
  else id.

Definition newPortForwardPair (requestID : string) : httpStreamPair := mkPair requestID None None false.

Definition getStreamPair (requestID : string) : PF (nat * bool) :=
  h ← go_get;
  match h_streamPairs h !! requestID with
  | Some p => mret (p, false)
  | None =>
      let p := h_nextPair h in
      _ ← go_put (h_set_nextPair (S p) h);
      _ ← assign p (newPortForwardPair requestID);
      _ ← go_modify (λ h, h_set_streamPairs (<[requestID := p]> (h_streamPairs h)) h);
      mret (p, true)
  end.

(** add: the switch on the type of the stream, and the whole; the result is whether the
    pair is complete, or the error. *)
Definition assign_stream (pr : httpStreamPair) (s : Stream) : httpStreamPair + PFError :=
  let streamType := Headers_Get s StreamType in
  if decide (streamType = StreamTypeError) then
    match pr_errorStream pr with
    | Some _ => inr ErrorStreamAssigned
    | None => inl (mkPair (pr_requestID pr) (pr_dataStream pr) (Some s) (pr_complete pr))
    end
  else if decide (streamType = StreamTypeData) then
    match pr_dataStream pr with
    | Some _ => inr DataStreamAssigned
    | None => inl (mkPair (pr_requestID pr) (Some s) (pr_errorStream pr) (pr_complete pr))
    end
  else inl pr.
Definition both_streams (pr : httpStreamPair) : bool :=
  bool_decide (is_Some (pr_errorStream pr)) && bool_decide (is_Some (pr_dataStream pr)).
Definition close_complete (pr : httpStreamPair) : httpStreamPair :=
  mkPair (pr_requestID pr) (pr_dataStream pr) (pr_errorStream pr) true.
Definition pair_add (p : nat) (s : Stream) : PF (bool * option PFError) :=
  pr ← deref p;
  match assign_stream pr s with
  | inr err => mret (false, Some err)
  | inl pr =>
      if both_streams pr then
        if pr_complete pr then go_panic "close of closed channel"
        else
          _ ← assign p (close_complete pr);
          mret (true, None)
      else
        _ ← assign p pr;
        mret (false, None)
  end.

(** printError writes to the error stream, if it has been set. *)
Definition printError (p : nat) (msg : PFMessage) : PF () :=
  pr ← deref p;
  match pr_errorStream pr with
  | Some s => emit (Printed s msg)
  | None => mret ()
  end.

(** removeStreamPair; the connection of a handler is never nil. *)
Definition removeStreamPair (requestID : string) : PF () :=
  h ← go_get;
  match h_streamPairs h !! requestID with
  | None => go_panic "nil pointer dereference: httpStreamPair"
  | Some p =>
      pr ← deref p;
      _ ← emit (RemovedStreams (pr_dataStream pr) (pr_errorStream pr));
      go_modify (λ h, h_set_streamPairs (delete requestID (h_streamPairs h)) h)
  end.

(** portForward, up to the call of the forwarder, and from its return. *)
Definition portForward_start (p : nat) : PF () :=
  pr ← deref p;
  match pr_dataStream pr with
  | None => go_panic "nil pointer dereference: dataStream"
  | Some s =>
      h ← go_get;
      emit (Forwarded p (h_podName h) (h_podNamespace h) (Headers_Get s PortHeader) s)
  end.
Definition portForward_end (p : nat) (err : option string) : PF () :=
  pr ← deref p;
  match pr_dataStream pr, pr_errorStream pr with
  | Some d, Some e =>
      h ← go_get;
      _ ← match err with
          | Some err => emit (Printed e (ForwardingFailed (Headers_Get d PortHeader)
              (h_podNamespace h) (h_podName h) err))
          | None => mret ()
          end;
      _ ← emit (ClosedStream e);
      emit (ClosedStream d)
  | _, _ => go_panic "nil pointer dereference: stream"
  end.

(** ** The goroutines *)
Inductive Action :=
| Receive (s : Stream)
| CloseConnection
| RunTake
| RunAdd
| RunPrint
| RunStop
| MonitorTimeout (p : nat)
| MonitorPrint (p : nat)
| MonitorComplete (p : nat)
| MonitorRemove (p : nat)
| ForwardStart (p : nat)
| ForwardEnd (p : nat) (err : option string).

Definition run_to (r : RunState) : PF () := go_modify (h_set_run r).
Definition monitor_to (p : nat) (m : MonitorState) : PF () :=
  go_modify (λ h, h_set_monitors (<[p := m]> (h_monitors h)) h).

(** An action that its goroutine cannot take now does nothing. *)
Definition act (a : Action) : PF () :=
  h ← go_get;
  match a, h_run h with
  | Receive s, _ =>
      (* the channel has room for one stream; the connection numbers its streams *)
      if h_connClosed h || bool_decide (h_streamChan h ≠ []) ||
         bool_decide (st_Identifier s ∈ st_Identifier <$> h_received h)
      then mret ()
      else
        _ ← go_modify (h_set_received (h_received h ++ [s]));
        _ ← HTTPStreamReceived s;
        mret ()
  | CloseConnection, _ => go_modify (h_set_connClosed true)
  | RunTake, RunWaiting =>
      match h_streamChan h with
      | [] => mret ()
      | s :: ss =>
          _ ← go_modify (h_set_streamChan ss);
          r ← getStreamPair (requestID s);
          let '(p, created) := r in
          _ ← (if created : bool then monitor_to p MonitorWaiting else mret ());
          run_to (RunGotPair s p)
      end
  | RunAdd, RunGotPair s p =>
      r ← pair_add p s;
      match r with
      | (_, Some err) => run_to (RunPrinting p (ProcessingFailed (requestID s) err))
      | (true, None) =>
          _ ← go_modify (λ h, h_set_forwards (<[p := ForwardStarting]> (h_forwards h)) h);
          run_to RunWaiting
      | (false, None) => run_to RunWaiting
      end
  | RunPrint, RunPrinting p msg => _ ← printError p msg; run_to RunWaiting
  | RunStop, RunWaiting => if h_connClosed h then run_to RunStopped else mret ()
  | MonitorTimeout p, _ =>
      match h_monitors h !! p with
      | Some MonitorWaiting => monitor_to p MonitorTimedOut
      | _ => mret ()
      end
  | MonitorPrint p, _ =>
      match h_monitors h !! p with
      | Some MonitorTimedOut =>
          pr ← deref p;
          _ ← printError p (TimedOut (pr_requestID pr));
          monitor_to p MonitorRemoving
      | _ => mret ()
      end
  | MonitorComplete p, _ =>
      match h_monitors h !! p with
      | Some MonitorWaiting =>
          pr ← deref p;
          if pr_complete pr then monitor_to p MonitorRemoving else mret ()
      | _ => mret ()
      end
  | MonitorRemove p, _ =>
      match h_monitors h !! p with
      | Some MonitorRemoving =>
          pr ← deref p;
          _ ← removeStreamPair (pr_requestID pr);
          go_modify (λ h, h_set_monitors (delete p (h_monitors h)) h)
      | _ => mret ()
      end
  | ForwardStart p, _ =>
      match h_forwards h !! p with
      | Some ForwardStarting =>
          _ ← portForward_start p;
          go_modify (λ h, h_set_forwards (<[p := ForwardRunning]> (h_forwards h)) h)
      | _ => mret ()
      end
  | ForwardEnd p err, _ =>
      match h_forwards h !! p with
      | Some ForwardRunning =>
          _ ← portForward_end p err;
          go_modify (λ h, h_set_forwards (delete p (h_forwards h)) h)
      | _ => mret ()
      end
  | _, _ => mret ()
  end.

(** ** HTTPStreamTunnel *)
(** What its selects receive: the end of one of the two copies, with its error, or the
    end of the context, with the error of the context.  The result is [None] while it
    waits for more. *)
Inductive TunnelEvent :=
| CopyDone (err : option string)
| ContextDone (ctxErr : string).
Definition Canceled : string := "context canceled".
(** The error of a context that has ended. *)
Definition contextError (ctxErr : string) : option string :=
  if decide (ctxErr = Canceled) then None else Some ctxErr.
Definition HTTPStreamTunnel (events : list TunnelEvent) : option (option string) :=
  match events with
  | ContextDone ctxErr :: _ => Some (contextError ctxErr)
  | CopyDone err1 :: ContextDone ctxErr :: _ =>
      match err1 with
      | Some err1 => Some (Some err1)
      | None => Some (contextError ctxErr)
      end
  | CopyDone err1 :: CopyDone err2 :: _ =>
      match err1 with
      | Some err1 => Some (Some err1)
      | None => Some err2
      end
  | _ => None
  end.

(** ** doPortForward (handler.go) *)
(** The forwarder of the API server: it dials the host of the request, whatever the pod
    and the port, and tunnels; [dial] is the error of the dial.  The errors are those
    before they are rendered. *)
Inductive ForwardError :=
| FailedToDial (address err : string)
| TunnelFailed (err : string).
Definition doPortForward (address : string) (dial : option string) (events : list TunnelEvent)
  : option (option ForwardError) :=
  match dial with
  | Some err => Some (Some (FailedToDial address err))
  | None => option_map (option_map TunnelFailed) (HTTPStreamTunnel events)
  end.
