(* ===== verification/PortForwardFacts.v ===== *)
(** * Properties of port forwarding

    [next] describes the steps of the goroutines as a relation; [act_next] shows that
    the code takes these steps and never panics while [pf_inv] holds, which [next]
    keeps.  Each operation is forwarded once, when both its streams have come, and the
    forwarded pairs are those of an abstract matcher of streams. *)

From stdpp Require Import prelude gmap strings list relations.
From Stdlib Require Import ZArith Lia.
From S2P Require Import Prelude GoStd PortForward.
Local Open Scope Z_scope.

(** ** Steps *)
Definition valid_type (s : Stream) : Prop :=
  Headers_Get s StreamType = StreamTypeError ∨ Headers_Get s StreamType = StreamTypeData.
#[export] Instance valid_type_dec s : Decision (valid_type s).
Proof. unfold valid_type. apply _. Defined.

Definition emitted (es : list PFEffect) h := h_set_effects (h_effects h ++ es) h.
Definition set_pair p pr h := h_set_pairs (<[p := pr]> (h_pairs h)) h.
Definition set_monitor p m h := h_set_monitors (<[p := m]> (h_monitors h)) h.
Definition printed (pr : httpStreamPair) (msg : PFMessage) : list PFEffect :=
  match pr_errorStream pr with Some s => [Printed s msg] | None => [] end.
(** A new pair, with its monitor. *)
Definition with_new_pair (rid : string) h :=
  let p := h_nextPair h in
  set_monitor p MonitorWaiting
    (h_set_streamPairs (<[rid := p]> (h_streamPairs h))
      (set_pair p (newPortForwardPair rid) (h_set_nextPair (S p) h))).

Inductive next h : Action → httpStreamHandler → Prop :=
| next_receive s :
    st_Identifier s ∉ st_Identifier <$> h_received h → valid_type s → h_streamChan h = [] →
    next h (Receive s) (h_set_streamChan [s] (h_set_received (h_received h ++ [s]) h))
| next_refuse s :
    st_Identifier s ∉ st_Identifier <$> h_received h → ¬ valid_type s →
    next h (Receive s) (h_set_received (h_received h ++ [s]) h)
| next_close : next h CloseConnection (h_set_connClosed true h)
| next_take s ss p :
    h_run h = RunWaiting → h_streamChan h = s :: ss → h_streamPairs h !! requestID s = Some p →
    next h RunTake (h_set_run (RunGotPair s p) (h_set_streamChan ss h))
| next_take_new s ss :
    h_run h = RunWaiting → h_streamChan h = s :: ss → h_streamPairs h !! requestID s = None →
    next h RunTake (h_set_run (RunGotPair s (h_nextPair h)) (with_new_pair (requestID s) (h_set_streamChan ss h)))
| next_add s p pr pr' :
    h_run h = RunGotPair s p → h_pairs h !! p = Some pr → assign_stream pr s = inl pr' →
    both_streams pr' = false →
    next h RunAdd (h_set_run RunWaiting (set_pair p pr' h))
| next_complete s p pr pr' :
    h_run h = RunGotPair s p → h_pairs h !! p = Some pr → assign_stream pr s = inl pr' →
    both_streams pr' = true → pr_complete pr' = false →
    next h RunAdd (h_set_run RunWaiting (h_set_forwards (<[p := ForwardStarting]> (h_forwards h))
      (set_pair p (close_complete pr') h)))
| next_reject s p pr err :
    h_run h = RunGotPair s p → h_pairs h !! p = Some pr → assign_stream pr s = inr err →
    next h RunAdd (h_set_run (RunPrinting p (ProcessingFailed (requestID s) err)) h)
| next_print p pr msg :
    h_run h = RunPrinting p msg → h_pairs h !! p = Some pr →
    next h RunPrint (h_set_run RunWaiting (emitted (printed pr msg) h))
| next_stop : h_run h = RunWaiting → h_connClosed h = true → next h RunStop (h_set_run RunStopped h)
| next_timeout p : h_monitors h !! p = Some MonitorWaiting → next h (MonitorTimeout p) (set_monitor p MonitorTimedOut h)
| next_timeout_print p pr :
    h_monitors h !! p = Some MonitorTimedOut → h_pairs h !! p = Some pr →
    next h (MonitorPrint p) (set_monitor p MonitorRemoving (emitted (printed pr (TimedOut (pr_requestID pr))) h))
| next_monitor_complete p pr :
    h_monitors h !! p = Some MonitorWaiting → h_pairs h !! p = Some pr → pr_complete pr = true →
    next h (MonitorComplete p) (set_monitor p MonitorRemoving h)
| next_remove p pr :
    h_monitors h !! p = Some MonitorRemoving → h_pairs h !! p = Some pr →
    h_streamPairs h !! pr_requestID pr = Some p →
    next h (MonitorRemove p) (h_set_monitors (delete p (h_monitors h))
      (h_set_streamPairs (delete (pr_requestID pr) (h_streamPairs h))
        (emitted [RemovedStreams (pr_dataStream pr) (pr_errorStream pr)] h)))
| next_forward p pr d :
    h_forwards h !! p = Some ForwardStarting → h_pairs h !! p = Some pr → pr_dataStream pr = Some d →
    next h (ForwardStart p) (h_set_forwards (<[p := ForwardRunning]> (h_forwards h))
      (emitted [Forwarded p (h_podName h) (h_podNamespace h) (Headers_Get d PortHeader) d] h))
| next_forward_end p pr d e err es :
    h_forwards h !! p = Some ForwardRunning → h_pairs h !! p = Some pr →
    pr_dataStream pr = Some d → pr_errorStream pr = Some e →
    es = [ClosedStream e; ClosedStream d] ∨ (∃ msg, es = [Printed e msg; ClosedStream e; ClosedStream d]) →
    next h (ForwardEnd p err) (h_set_forwards (delete p (h_forwards h)) (emitted es h)).

(** ** The invariant *)
(** The streams of a pair have its id and their type, and the channel complete is
    closed when both are there. *)
Record pair_ok (pr : httpStreamPair) : Prop := {
  po_data : ∀ s, pr_dataStream pr = Some s →
    Headers_Get s StreamType = StreamTypeData ∧ requestID s = pr_requestID pr;
  po_error : ∀ s, pr_errorStream pr = Some s →
    Headers_Get s StreamType = StreamTypeError ∧ requestID s = pr_requestID pr;
  po_complete : pr_complete pr = both_streams pr }.

Definition is_forwarded (p : nat) (e : PFEffect) : Prop :=
  match e with Forwarded p' _ _ _ _ => p' = p | _ => False end.
#[export] Instance is_forwarded_dec p e : Decision (is_forwarded p e).
Proof. destruct e; cbn; apply _. Defined.
(** How often a pair was given to the forwarder, and how often it will be. *)
Definition forwarded_times (p : nat) h : nat := length (filter (is_forwarded p) (h_effects h)).
Definition pending (p : nat) h : nat :=
  match h_forwards h !! p with Some ForwardStarting => 1 | _ => 0 end.

Record pf_inv h : Prop := {
  i_fresh : ∀ p, is_Some (h_pairs h !! p) → (p < h_nextPair h)%nat;
  i_map : ∀ rid p, h_streamPairs h !! rid = Some p →
    is_Some (h_monitors h !! p) ∧ ∃ pr, h_pairs h !! p = Some pr ∧ pr_requestID pr = rid;
  i_monitor : ∀ p, is_Some (h_monitors h !! p) →
    ∃ pr, h_pairs h !! p = Some pr ∧ h_streamPairs h !! pr_requestID pr = Some p;
  i_pair : ∀ p pr, h_pairs h !! p = Some pr → pair_ok pr;
  i_forward : ∀ p, is_Some (h_forwards h !! p) →
    ∃ pr, h_pairs h !! p = Some pr ∧ pr_complete pr = true;
  i_run : match h_run h with
    | RunGotPair s p => valid_type s ∧ ∃ pr, h_pairs h !! p = Some pr ∧ pr_requestID pr = requestID s
    | RunPrinting p _ => is_Some (h_pairs h !! p)
    | _ => True
    end;
  i_chan : Forall valid_type (h_streamChan h) }.

(** ** The code takes these steps *)
Lemma both_streams_true pr :
  both_streams pr = true ↔ is_Some (pr_errorStream pr) ∧ is_Some (pr_dataStream pr).
Proof. unfold both_streams. by rewrite andb_true_iff, !bool_decide_eq_true. Qed.

(** A stream that finds its place: the pair was not complete, and has one stream more. *)
Lemma assign_stream_inl pr s pr' :
  pair_ok pr → valid_type s → pr_requestID pr = requestID s → assign_stream pr s = inl pr' →
  pr_requestID pr' = pr_requestID pr ∧ pr_complete pr = false ∧ pr_complete pr' = false ∧
  (∀ d, pr_dataStream pr' = Some d → Headers_Get d StreamType = StreamTypeData ∧ requestID d = pr_requestID pr) ∧
  (∀ e, pr_errorStream pr' = Some e → Headers_Get e StreamType = StreamTypeError ∧ requestID e = pr_requestID pr) ∧
  ((Headers_Get s StreamType = StreamTypeError ∧ pr_errorStream pr = None ∧
      pr_errorStream pr' = Some s ∧ pr_dataStream pr' = pr_dataStream pr) ∨
   (Headers_Get s StreamType = StreamTypeData ∧ pr_dataStream pr = None ∧
      pr_dataStream pr' = Some s ∧ pr_errorStream pr' = pr_errorStream pr)).
Proof.
  intros [Hd He Hc] Hv Hr. unfold assign_stream, both_streams in *.
  destruct Hv as [Ht|Ht]; rewrite Ht; cbn.
  - rewrite decide_True by done. destruct (pr_errorStream pr) eqn:Hs; [done|]. intros [= <-].
    cbn in Hc. rewrite Hc. cbn. split; [done|]. split; [done|]. split; [done|]. split; [done|]. split; [|by left].
    intros e [= <-]. by rewrite Hr.
  - rewrite decide_False, decide_True by done. destruct (pr_dataStream pr) eqn:Hs; [done|]. intros [= <-].
    rewrite (bool_decide_eq_false_2 (is_Some None)), andb_false_r in Hc by (by intros []).
    rewrite Hc. cbn. split; [done|]. split; [done|]. split; [done|]. split; [|split; [done|by right]].
    intros d [= <-]. by rewrite Hr.
Qed.

Lemma deref_eq p pr h : h_pairs h !! p = Some pr → deref p h = Done pr h.
Proof. intros Hp. unfold deref. rewrite go_bind_eq. cbn [go_get]. by rewrite Hp. Qed.

Lemma printError_eq p pr msg h :
  h_pairs h !! p = Some pr → printError p msg h = Done () (emitted (printed pr msg) h).
Proof.
  intros Hp. unfold printError, printed. rewrite go_bind_eq, (deref_eq _ _ _ Hp).
  destruct (pr_errorStream pr); [done|]. unfold emitted. rewrite app_nil_r. by destruct h.
Qed.

(** Whether the main loop, or the start of a forward, can go on. *)
Definition enabled (a : Action) h : Prop :=
  match a with
  | RunTake => h_run h = RunWaiting ∧ h_streamChan h ≠ []
  | RunAdd => ∃ s p, h_run h = RunGotPair s p
  | RunPrint => ∃ p msg, h_run h = RunPrinting p msg
  | ForwardStart p => h_forwards h !! p = Some ForwardStarting
  | _ => False
  end.
(** What an action does, in the terms of [next]: nothing only when it cannot go on. *)
Definition steps_to (m : PF ()) (a : Action) h : Prop :=
  ∃ h', m h = Done () h' ∧ ((h' = h ∧ ¬ enabled a h) ∨ next h a h').

Lemma steps_ret a h : ¬ enabled a h → steps_to (mret ()) a h.
Proof. intros Ha. exists h. split; [done|by left]. Qed.
Ltac disabled :=
  apply steps_ret; cbn; intros Hen;
  repeat match goal with H : _ ∧ _ |- _ => destruct H | H : ∃ _, _ |- _ => destruct H end;
  (contradiction || congruence).
Lemma receive_steps s h : steps_to (act (Receive s)) (Receive s) h.
Proof.
  unfold act, steps_to. rewrite go_bind_eq. cbn [go_get].
  destruct (h_connClosed h); [disabled|]. cbn [orb].
  destruct (bool_decide_reflect (h_streamChan h ≠ [])) as [|Hchan]; [disabled|]. cbn [orb].
  case_bool_decide as Hid; [disabled|].
  assert (h_streamChan h = []) as Hempty by (destruct (h_streamChan h); [done|by destruct Hchan]).
  rewrite go_bind_eq. cbn [go_modify]. rewrite go_bind_eq. unfold HTTPStreamReceived.
  assert (Hrefuse : ¬ valid_type s → next h (Receive s) (h_set_received (h_received h ++ [s]) h)) by by apply next_refuse.
  unfold valid_type in Hrefuse.
  destruct (decide (Headers_Get s StreamType = "")) as [Hn|Hn].
  { eexists. split; [done|]. right. apply Hrefuse. rewrite Hn. by intros [?|?]. }
  destruct (bool_decide_reflect (Headers_Get s StreamType = StreamTypeError)) as [He|He]; cbn [negb andb].
  2: destruct (bool_decide_reflect (Headers_Get s StreamType = StreamTypeData)) as [Hd|Hd]; cbn [negb].
  3: { eexists. split; [done|]. right. apply Hrefuse. by intros [?|?]. }
  all: eexists; split; [reflexivity|right].
  all: cbn; rewrite Hempty; apply next_receive; [done| |done]; unfold valid_type; auto.
Qed.

Lemma take_steps h : steps_to (act RunTake) RunTake h.
Proof.
  unfold act, steps_to. rewrite go_bind_eq. cbn [go_get].
  destruct (h_run h) eqn:Hrun; try disabled.
  destruct (h_streamChan h) as [|s ss] eqn:Hchan; [disabled|].
  rewrite go_bind_eq. cbn [go_modify]. rewrite go_bind_eq. unfold getStreamPair. rewrite go_bind_eq.
  cbn [go_get]. change (h_streamPairs (h_set_streamChan ss h)) with (h_streamPairs h).
  destruct (h_streamPairs h !! requestID s) as [p|] eqn:Hp.
  - eexists; split; [done|right]. by apply (next_take h s ss p).
  - eexists; split; [done|right]. by apply (next_take_new h s ss).
Qed.

Lemma add_steps h : pf_inv h → steps_to (act RunAdd) RunAdd h.
Proof.
  intros Hi. unfold act, steps_to. rewrite go_bind_eq. cbn [go_get].
  destruct (h_run h) as [|s p| |] eqn:Hrun; try disabled.
  assert (Hir := i_run _ Hi). rewrite Hrun in Hir. destruct Hir as (Hv & pr & Hp & Hid).
  rewrite go_bind_eq. unfold pair_add. rewrite go_bind_eq, (deref_eq _ _ _ Hp).
  destruct (assign_stream pr s) as [pr'|err] eqn:Has.
  2: { eexists; split; [done|right]. by apply (next_reject h s p pr err). }
  destruct (assign_stream_inl pr s pr' (i_pair _ Hi _ _ Hp) Hv Hid Has) as (_ & _ & Hc' & _).
  destruct (both_streams pr') eqn:Hboth.
  - rewrite Hc'. eexists; split; [done|right]. by apply (next_complete h s p pr pr').
  - eexists; split; [done|right]. by apply (next_add h s p pr pr').
Qed.

Lemma monitor_pair h p m :
  pf_inv h → h_monitors h !! p = Some m →
  ∃ pr, h_pairs h !! p = Some pr ∧ h_streamPairs h !! pr_requestID pr = Some p.
Proof. intros Hi Hm. apply (i_monitor _ Hi). by rewrite Hm. Qed.

Lemma monitor_steps a p h :
  pf_inv h → a ∈ [MonitorTimeout p; MonitorPrint p; MonitorComplete p; MonitorRemove p] → steps_to (act a) a h.
Proof.
  intros Hi. rewrite !elem_of_cons, elem_of_nil.
  destruct (h_monitors h !! p) as [m|] eqn:Hm.
  2: { intros [->|[->|[->|[->|[]]]]]; unfold act, steps_to; rewrite go_bind_eq; cbn [go_get]; rewrite Hm;
       disabled. }
  destruct (monitor_pair h p m Hi Hm) as (pr & Hp & Hmap).
  intros [->|[->|[->|[->|[]]]]]; unfold act, steps_to; rewrite go_bind_eq; cbn [go_get]; rewrite Hm;
    destruct m; try disabled.
  - eexists; split; [done|right]. by apply (next_timeout h p).
  - rewrite go_bind_eq, (deref_eq _ _ _ Hp), go_bind_eq, (printError_eq _ _ _ _ Hp).
    eexists; split; [done|right]. by apply (next_timeout_print h p pr).
  - rewrite go_bind_eq, (deref_eq _ _ _ Hp). destruct (pr_complete pr) eqn:Hc; [|disabled].
    eexists; split; [done|right]. by apply (next_monitor_complete h p pr).
  - rewrite go_bind_eq, (deref_eq _ _ _ Hp), go_bind_eq. unfold removeStreamPair. rewrite go_bind_eq.
    cbn [go_get]. rewrite Hmap, go_bind_eq, (deref_eq _ _ _ Hp).
    eexists; split; [done|right]. by apply (next_remove h p pr).
Qed.

Lemma forward_steps p h :
  pf_inv h → steps_to (act (ForwardStart p)) (ForwardStart p) h ∧ ∀ err, steps_to (act (ForwardEnd p err)) (ForwardEnd p err) h.
Proof.
  intros Hi. unfold act, steps_to. setoid_rewrite go_bind_eq. cbn [go_get].
  destruct (h_forwards h !! p) as [f|] eqn:Hf; [|split; [|intros err]; disabled].
  destruct (i_forward _ Hi p) as (pr & Hp & Hc); [by rewrite Hf|].
  rewrite (po_complete _ (i_pair _ Hi _ _ Hp)), both_streams_true in Hc. destruct Hc as [[e He] [d Hd]].
  destruct f; split; try intros err; try disabled.
  - rewrite go_bind_eq. unfold portForward_start. rewrite go_bind_eq, (deref_eq _ _ _ Hp), Hd.
    eexists; split; [done|right]. by apply (next_forward h p pr d).
  - rewrite go_bind_eq. unfold portForward_end. rewrite go_bind_eq, (deref_eq _ _ _ Hp), Hd, He.
    rewrite go_bind_eq. cbn [go_get].
    assert (Hend : ∀ es, es = [ClosedStream e; ClosedStream d] ∨
      (∃ msg, es = [Printed e msg; ClosedStream e; ClosedStream d]) →
      ∀ err0, next h (ForwardEnd p err0) (h_set_forwards (delete p (h_forwards h)) (emitted es h))).
    { intros es Hes err0. by apply (next_forward_end h p pr d e). }
    set (ended es := h_set_forwards (delete p (h_forwards h)) (emitted es h)).
    destruct err as [err|].
    + exists (ended [Printed e (ForwardingFailed (Headers_Get d PortHeader) (h_podNamespace h) (h_podName h) err);
        ClosedStream e; ClosedStream d]).
      split; [|right; apply Hend; right; by eexists].
      unfold ended, emitted, emit, go_modify. repeat (rewrite go_bind_eq; cbn). by rewrite <- ?app_assoc.
    + exists (ended [ClosedStream e; ClosedStream d]). split; [|right; apply Hend; by left].
      unfold ended, emitted, emit, go_modify. repeat (rewrite go_bind_eq; cbn). by rewrite <- ?app_assoc.
Qed.

Lemma act_next a h : pf_inv h → steps_to (act a) a h.
Proof.
  intros Hi. destruct a as [s| | | | | |p|p|p|p|p|p err]; try (by apply (monitor_steps _ p); [|set_solver]).
  - apply receive_steps.
  - eexists. split; [done|]. right. apply next_close.
  - apply take_steps.
  - by apply add_steps.
  - unfold act, steps_to. rewrite go_bind_eq. cbn [go_get].
    destruct (h_run h) as [| |p msg|] eqn:Hrun; try disabled.
    assert (Hir := i_run _ Hi). rewrite Hrun in Hir. destruct Hir as [pr Hp].
    rewrite go_bind_eq, (printError_eq _ _ _ _ Hp). eexists. split; [done|right].
    by apply (next_print h p pr msg).
  - unfold act, steps_to. rewrite go_bind_eq. cbn [go_get].
    destruct (h_run h) eqn:Hrun; try disabled.
    destruct (h_connClosed h) eqn:Hc; [|disabled]. eexists. split; [done|right]. by apply next_stop.
  - by apply forward_steps.
  - by apply forward_steps.
Qed.

(** ** The steps keep the invariant *)
Lemma pf_inv_initial podName podNamespace : pf_inv (NewHTTPStreamHandler podName podNamespace).
Proof. split; cbn; try done; intros *; rewrite lookup_empty; (done || by intros []). Qed.

(** Changing a pair without changing its id. *)
Lemma pairs_set p pr pr' q (m : gmap nat httpStreamPair) rid :
  m !! p = Some pr → pr_requestID pr' = pr_requestID pr →
  (∃ x, m !! q = Some x ∧ pr_requestID x = rid) → ∃ x, <[p := pr']> m !! q = Some x ∧ pr_requestID x = rid.
Proof.
  intros Hp Hid (x & Hx & <-). destruct (decide (p = q)) as [<-|Hne].
  - exists pr'. rewrite lookup_insert_eq. split; [done|]. congruence.
  - exists x. by rewrite lookup_insert_ne.
Qed.

Lemma set_pair_inv p pr pr' h :
  pf_inv h → h_pairs h !! p = Some pr → pr_requestID pr' = pr_requestID pr → pair_ok pr' →
  (pr_complete pr = true → pr_complete pr' = true) → pf_inv (set_pair p pr' h).
Proof.
  intros [If Im Imo Ip Ifw Ir Ic] Hp Hid Hok Hcomp. split; cbn; try done.
  - intros q [x [[<- _]|[_ Hx]]%lookup_insert_Some]; apply If; by eexists.
  - intros rid q Hq. destruct (Im rid q Hq) as [Hmon Hpr]. split; [done|]. by apply (pairs_set p pr).
  - intros q Hq. destruct (Imo q Hq) as (x & Hx & Hm).
    destruct (pairs_set p pr pr' q (h_pairs h) (pr_requestID x) Hp Hid) as (y & Hy & Hyid); [by eexists|].
    exists y. by rewrite Hyid.
  - intros q x [[<- <-]|[_ Hx]]%lookup_insert_Some; [done|by eapply Ip].
  - intros q Hq. destruct (Ifw q Hq) as (x & Hx & Hc). destruct (decide (p = q)) as [<-|Hne].
    + exists pr'. rewrite lookup_insert_eq. split; [done|]. apply Hcomp. congruence.
    + exists x. by rewrite lookup_insert_ne.
  - destruct (h_run h) as [|s q|q msg|]; try done.
    + destruct Ir as [Hv Hpr]. split; [done|]. by apply (pairs_set p pr).
    + destruct (decide (p = q)) as [<-|]; [by rewrite lookup_insert_eq|by rewrite lookup_insert_ne].
Qed.

(** Changes that the invariant does not depend on, or that touch one component. *)
Lemma emitted_inv es h : pf_inv h → pf_inv (emitted es h).
Proof. by intros [? ? ? ? ? ? ?]. Qed.
Lemma set_run_inv r h :
  pf_inv h → match r with
    | RunGotPair s p => valid_type s ∧ ∃ pr, h_pairs h !! p = Some pr ∧ pr_requestID pr = requestID s
    | RunPrinting p _ => is_Some (h_pairs h !! p)
    | _ => True
    end → pf_inv (h_set_run r h).
Proof. by intros [? ? ? ? ? ? ?]. Qed.
Lemma set_chan_inv ss h : pf_inv h → Forall valid_type ss → pf_inv (h_set_streamChan ss h).
Proof. by intros [? ? ? ? ? ? ?]. Qed.
Lemma set_received_inv ss h : pf_inv h → pf_inv (h_set_received ss h).
Proof. by intros [? ? ? ? ? ? ?]. Qed.
Lemma set_forwards_inv v h :
  pf_inv h → (∀ p, is_Some (v !! p) → ∃ pr, h_pairs h !! p = Some pr ∧ pr_complete pr = true) →
  pf_inv (h_set_forwards v h).
Proof. by intros [? ? ? ? ? ? ?]. Qed.
Lemma set_monitor_inv p m h : pf_inv h → is_Some (h_monitors h !! p) → pf_inv (set_monitor p m h).
Proof.
  intros [If Im Imo Ip Ifw Ir Ic] Hm. split; cbn; try done.
  - intros rid q Hq. destruct (Im rid q Hq) as [Hmon Hpr]. split; [|done].
    destruct (decide (p = q)) as [<-|]; [by rewrite lookup_insert_eq|by rewrite lookup_insert_ne].
  - intros q [x [[<- _]|[_ Hx]]%lookup_insert_Some]; [by apply Imo|]. apply Imo. by eexists.
Qed.

Lemma new_pair_inv rid h : pf_inv h → h_streamPairs h !! rid = None → pf_inv (with_new_pair rid h).
Proof.
  intros [If Im Imo Ip Ifw Ir Ic] Hno. set (p := h_nextPair h).
  assert (Hfresh : h_pairs h !! p = None).
  { destruct (h_pairs h !! p) eqn:Hp; [|done]. specialize (If p). rewrite Hp in If.
    specialize (If ltac:(by eexists)). unfold p in If. lia. }
  assert (Hold : ∀ q, is_Some (h_pairs h !! q) → q ≠ p) by (intros q [x Hx] ->; congruence).
  assert (Hkeep : ∀ q x, h_pairs h !! q = Some x → <[p := newPortForwardPair rid]> (h_pairs h) !! q = Some x).
  { intros q x Hx. rewrite lookup_insert_ne; [done|]. symmetry. apply Hold. by eexists. }
  split; cbn; try done.
  - intros q [x [[<- _]|[_ Hx]]%lookup_insert_Some]; [unfold p; lia|].
    specialize (If q ltac:(by eexists)). lia.
  - intros r q [[<- <-]|[_ Hq]]%lookup_insert_Some.
    + fold p. rewrite lookup_insert_eq. split; [by eexists|]. eexists. by rewrite lookup_insert_eq.
    + destruct (Im r q Hq) as (Hmon & x & Hx & Hid). split; [|exists x; split; [by apply Hkeep|done]].
      fold p. rewrite lookup_insert_ne; [done|]. symmetry. apply Hold. by eexists.
  - fold p. intros q [m [[<- _]|[Hne Hm]]%lookup_insert_Some].
    + eexists. rewrite lookup_insert_eq. split; [done|]. cbn. by rewrite lookup_insert_eq.
    + destruct (Imo q) as (x & Hx & Hmap); [by eexists|]. exists x. split; [by apply Hkeep|].
      rewrite lookup_insert_ne; [done|]. intros Heq. rewrite Heq in Hno. congruence.
  - intros q x [[<- <-]|[_ Hx]]%lookup_insert_Some; [|by eapply Ip]. by split.
  - intros q Hq. destruct (Ifw q Hq) as (x & Hx & Hc). exists x. split; [by apply Hkeep|done].
  - destruct (h_run h) as [|s q|q msg|]; try done.
    + destruct Ir as (Hv & x & Hx & Hid). split; [done|]. exists x. split; [by apply Hkeep|done].
    + destruct Ir as [x Hx]. exists x. by apply Hkeep.
Qed.

(** A monitor ends and its pair leaves the map; no other pair has its id there. *)
Lemma remove_inv p pr es h :
  pf_inv h → h_pairs h !! p = Some pr → h_streamPairs h !! pr_requestID pr = Some p →
  pf_inv (h_set_monitors (delete p (h_monitors h))
    (h_set_streamPairs (delete (pr_requestID pr) (h_streamPairs h)) (emitted es h))).
Proof.
  intros [If Im Imo Ip Ifw Ir Ic] Hp Hmap. split; cbn; try done.
  - intros rid q [Hne Hq]%lookup_delete_Some. destruct (Im rid q Hq) as (Hmon & x & Hx & Hid).
    split; [|by exists x]. rewrite lookup_delete_ne; [done|]. intros <-. congruence.
  - intros q [m [Hne Hm]%lookup_delete_Some]. destruct (Imo q) as (x & Hx & Hq); [by eexists|].
    exists x. split; [done|]. rewrite lookup_delete_ne; [done|]. intros Heq. rewrite Heq in Hmap. congruence.
Qed.

Lemma assign_stream_ok pr s pr' :
  pair_ok pr → valid_type s → pr_requestID pr = requestID s → assign_stream pr s = inl pr' →
  (both_streams pr' = false → pair_ok pr') ∧ pair_ok (close_complete pr') ∨ both_streams pr' = false ∧ pair_ok pr'.
Proof.
  intros Hok Hv Hid Has. destruct (assign_stream_inl pr s pr' Hok Hv Hid Has) as (Hid' & _ & Hc' & Hd & He & _).
  destruct (both_streams pr') eqn:Hb.
  - left. split; [done|]. split; cbn; [intros d Hd'; rewrite Hid'; by apply Hd|
      intros e He'; rewrite Hid'; by apply He|symmetry; exact Hb].
  - right. split; [done|]. split; rewrite ?Hid'; [done|done|by rewrite Hc', Hb].
Qed.

Lemma next_inv h a h' : pf_inv h → next h a h' → pf_inv h'.
Proof.
  intros Hi Hn. destruct Hn as [s Hs Hv Hc|s Hs Hv| |s ss p Hr Hc Hm|s ss Hr Hc Hm|s p pr pr' Hr Hp Ha Hb
    |s p pr pr' Hr Hp Ha Hb Hc|s p pr err Hr Hp Ha|p pr msg Hr Hp|Hr Hc|p Hm|p pr Hm Hp|p pr Hm Hp Hc
    |p pr Hm Hp Hmap|p pr d Hf Hp Hd|p pr d e err es Hf Hp Hd He Hes].
  - apply set_chan_inv; [by apply set_received_inv|by apply Forall_singleton].
  - by apply set_received_inv.
  - by destruct Hi.
  - assert (Hch := i_chan _ Hi). rewrite Hc in Hch. apply Forall_cons in Hch as [Hv Hss].
    apply set_run_inv; [by apply set_chan_inv|]. split; [done|]. by apply (i_map _ Hi).
  - assert (Hch := i_chan _ Hi). rewrite Hc in Hch. apply Forall_cons in Hch as [Hv Hss].
    apply set_run_inv; [by apply new_pair_inv; [apply set_chan_inv|]|]. split; [done|].
    eexists. cbn. by rewrite lookup_insert_eq.
  - assert (Hir := i_run _ Hi). rewrite Hr in Hir. destruct Hir as (Hv & x & Hx & Hid). simplify_eq.
    destruct (assign_stream_inl _ _ _ (i_pair _ Hi _ _ Hp) Hv Hid Ha) as (Hid' & Hc & _).
    apply set_run_inv; [|done]. apply (set_pair_inv p pr); [done..| |congruence].
    destruct (assign_stream_ok _ _ _ (i_pair _ Hi _ _ Hp) Hv Hid Ha) as [[Hok _]|[_ Hok]]; auto.
  - assert (Hir := i_run _ Hi). rewrite Hr in Hir. destruct Hir as (Hv & x & Hx & Hid). simplify_eq.
    destruct (assign_stream_inl _ _ _ (i_pair _ Hi _ _ Hp) Hv Hid Ha) as (Hid' & Hcp & _).
    apply set_run_inv; [|done]. apply set_forwards_inv.
    + apply (set_pair_inv p pr); [done..| |done].
      destruct (assign_stream_ok _ _ _ (i_pair _ Hi _ _ Hp) Hv Hid Ha) as [[_ Hok]|[? _]]; [done|congruence].
    + cbn. intros q [f [[<- _]|[Hne Hf]]%lookup_insert_Some].
      * eexists. by rewrite lookup_insert_eq.
      * destruct (i_forward _ Hi q) as (y & Hy & Hcy); [by eexists|]. exists y. by rewrite lookup_insert_ne.
  - apply set_run_inv; [done|]. by eexists.
  - apply set_run_inv; [by apply emitted_inv|done].
  - by apply set_run_inv.
  - apply set_monitor_inv; [done|by eexists].
  - apply set_monitor_inv; [by apply emitted_inv|by eexists].
  - apply set_monitor_inv; [done|by eexists].
  - by apply remove_inv.
  - apply set_forwards_inv; [by apply emitted_inv|]. cbn.
    intros q [f [[<- _]|[Hne Hq]]%lookup_insert_Some]; apply (i_forward _ Hi); by eexists.
  - apply set_forwards_inv; [by apply emitted_inv|]. cbn.
    intros q [f [Hne Hq]%lookup_delete_Some]. apply (i_forward _ Hi). by eexists.
Qed.

(** ** Reachable states *)
(** A run takes actions of a set; a prompt run is one where no monitor times out. *)
Definition pf_step (allowed : Action → Prop) h h' : Prop := ∃ a, allowed a ∧ act a h = Done () h'.
Definition pf_run (allowed : Action → Prop) (podName podNamespace : string) h : Prop :=
  rtc (pf_step allowed) (NewHTTPStreamHandler podName podNamespace) h.
Definition any_action (_ : Action) : Prop := True.
Definition prompt (a : Action) : Prop := match a with MonitorTimeout _ => False | _ => True end.
Abbreviation pf_reachable := (pf_run any_action).

(** Induction on runs, in the terms of [next]. *)
Lemma pf_run_ind allowed (P : httpStreamHandler → Prop) podName podNamespace h :
  P (NewHTTPStreamHandler podName podNamespace) →
  (∀ h a h', allowed a → pf_inv h → P h → next h a h' → P h') →
  pf_run allowed podName podNamespace h → pf_inv h ∧ P h.
Proof.
  intros H0 Hstep Hr. unfold pf_run in Hr.
  assert (Hgen : ∀ h0, rtc (pf_step allowed) h0 h → pf_inv h0 ∧ P h0 → pf_inv h ∧ P h).
  { clear Hr. intros h0 Hr. induction Hr as [x|x y z (a & Hok & Ha) _ IH]; [done|]. intros [Hi Hp]. apply IH.
    destruct (act_next a x Hi) as (y' & Hy & [[-> _]|Hn]); rewrite Ha in Hy; injection Hy as ->; [done|].
    split; [by eapply next_inv|by eapply Hstep]. }
  apply (Hgen _ Hr). split; [apply pf_inv_initial|done].
Qed.

Lemma pf_run_inv allowed podName podNamespace h : pf_run allowed podName podNamespace h → pf_inv h.
Proof. intros Hr. by destruct (pf_run_ind allowed (λ _, True) podName podNamespace h). Qed.

(** ** Where streams are *)
Definition in_pair (p : nat) (s : Stream) h : Prop :=
  ∃ pr, h_pairs h !! p = Some pr ∧ (pr_dataStream pr = Some s ∨ pr_errorStream pr = Some s).
Definition in_hand (s : Stream) h : Prop :=
  s ∈ h_streamChan h ∨ ∃ p, h_run h = RunGotPair s p.

(** Each stream the client opened is waiting, or in at most one pair. *)
Record located h : Prop := {
  lo_hand : ∀ s, in_hand s h → s ∈ h_received h ∧ ∀ p, ¬ in_pair p s h;
  lo_pair : ∀ p s, in_pair p s h → s ∈ h_received h;
  lo_chan : ∀ s p, h_run h = RunGotPair s p → s ∉ h_streamChan h;
  lo_one : (length (h_streamChan h) <= 1)%nat;
  lo_unique : ∀ p q s, in_pair p s h → in_pair q s h → p = q }.

Lemma located_initial podName podNamespace : located (NewHTTPStreamHandler podName podNamespace).
Proof.
  split; unfold in_hand, in_pair; cbn; [|..|lia|].
  - intros s [?%elem_of_nil|[p Hp]]; done.
  - by intros p s (pr & Hp & _).
  - done.
  - by intros p q s (pr & Hp & _).
Qed.

(** Changes that leave the streams where they are. *)
Lemma located_same h h' :
  located h → h_streamChan h' = h_streamChan h → h_received h' = h_received h → h_pairs h' = h_pairs h →
  (∀ s p, h_run h' = RunGotPair s p → h_run h = RunGotPair s p) → located h'.
Proof.
  intros [Hh Hp Hc Ho Hu] Ec Er Ep Erun. unfold in_hand, in_pair in *.
  split; unfold in_hand, in_pair; rewrite ?Ec, ?Er, ?Ep; [|done|eauto|done|done].
  intros s [Hs|[p Hr]]; apply Hh; [by left|right; eauto].
Qed.

(** Putting the stream in hand into its pair. *)
Lemma in_pair_set p pr pr' s h :
  h_pairs h !! p = Some pr →
  (∀ d, pr_dataStream pr' = Some d ∨ pr_errorStream pr' = Some d →
     d = s ∨ pr_dataStream pr = Some d ∨ pr_errorStream pr = Some d) →
  ∀ q x h', h_pairs h' = <[p := pr']> (h_pairs h) → in_pair q x h' → (q = p ∧ x = s) ∨ in_pair q x h.
Proof.
  intros Hp Hsub q x h' Heq (y & Hy & Hx). rewrite Heq in Hy.
  apply lookup_insert_Some in Hy as [[<- <-]|[_ Hy]]; [|right; by exists y].
  apply Hsub in Hx as [->|Hx]; [by left|right; by exists pr].
Qed.

Lemma located_add s p pr pr' h h' :
  located h → h_run h = RunGotPair s p → h_pairs h !! p = Some pr →
  (∀ d, pr_dataStream pr' = Some d ∨ pr_errorStream pr' = Some d →
     d = s ∨ pr_dataStream pr = Some d ∨ pr_errorStream pr = Some d) →
  h_streamChan h' = h_streamChan h → h_received h' = h_received h → h_run h' = RunWaiting →
  h_pairs h' = <[p := pr']> (h_pairs h) → located h'.
Proof.
  intros [Hh Hp Hc Ho Hu] Hr Hpr Hsub Ec Er Erun Ep.
  assert (Hin := in_pair_set p pr pr' s h Hpr Hsub).
  assert (Hs : in_hand s h) by (right; by eexists). destruct (Hh s Hs) as [Hrec Hno].
  split.
  - intros x [Hx|[q Hq]]; [|congruence]. rewrite Ec in Hx. destruct (Hh x) as [Hxr Hxn]; [by left|].
    rewrite Er. split; [done|]. intros q [[-> ->]|Hq]%(Hin _ _ h' Ep); [|by eapply Hxn].
    by apply (Hc s p Hr).
  - intros q x [[-> ->]|Hq]%(Hin _ _ h' Ep); rewrite Er; [done|by eapply Hp].
  - congruence.
  - by rewrite Ec.
  - intros q1 q2 x [[-> ->]|H1]%(Hin _ _ h' Ep) [[-> E]|H2]%(Hin _ _ h' Ep); subst; try done.
    + by apply Hno in H2.
    + by apply Hno in H1.
    + by eapply Hu.
Qed.

Lemma assign_stream_sub pr s pr' :
  assign_stream pr s = inl pr' → ∀ d, pr_dataStream pr' = Some d ∨ pr_errorStream pr' = Some d →
  d = s ∨ pr_dataStream pr = Some d ∨ pr_errorStream pr = Some d.
Proof.
  unfold assign_stream. intros Has d Hd. destruct (decide _).
  - destruct (pr_errorStream pr); [done|]. injection Has as <-. cbn in Hd. naive_solver.
  - destruct (decide _); [|injection Has as <-; by right].
    destruct (pr_dataStream pr); [done|]. injection Has as <-. cbn in Hd. naive_solver.
Qed.

Lemma next_located h a h' : pf_inv h → located h → next h a h' → located h'.
Proof.
  intros Hi Hl Hn. destruct Hn as [s Hs Hv Hc|s Hs Hv| |s ss p Hr Hc Hm|s ss Hr Hc Hm|s p pr pr' Hr Hp Ha Hb
    |s p pr pr' Hr Hp Ha Hb Hc|s p pr err Hr Hp Ha|p pr msg Hr Hp|Hr Hc|p Hm|p pr Hm Hp|p pr Hm Hp Hc
    |p pr Hm Hp Hmap|p pr d Hf Hp Hd|p pr d e err es Hf Hp Hd He Hes];
    try (by apply (located_same h); [..|intros ? ?; cbn; congruence]).
  - assert (Hnew : s ∉ h_received h) by (intros Hin; apply Hs, list_elem_of_fmap; by exists s).
    destruct Hl as [Hh Hp Hcc Ho Hu]. split; cbn; [..|lia|done].
    + intros x [Hx|[p Hx]].
      * apply list_elem_of_singleton in Hx as ->. split; [set_solver|]. intros p Hin. by apply Hp in Hin.
      * destruct (Hh x) as [Hxr Hxn]; [right; by exists p|]. split; [set_solver|done].
    + intros p x Hx. apply elem_of_app. left. by eapply Hp.
    + intros x p Hx Hin%list_elem_of_singleton. subst. apply Hnew. apply Hh. right. by exists p.
  - destruct Hl as [Hh Hp Hcc Ho Hu]. split; try done; cbn.
    + intros x Hx. destruct (Hh x Hx). split; [set_solver|done].
    + intros p x Hx. apply elem_of_app. left. by eapply Hp.
  - destruct Hl as [Hh Hp Hcc Ho Hu]. rewrite Hc in Ho. destruct ss; [|cbn in Ho; lia].
    split; cbn; try done; [|intros; apply not_elem_of_nil|lia].
    intros x [Hx%elem_of_nil|[q [= <- <-]]]; [done|]. apply Hh. left. rewrite Hc. apply list_elem_of_here.
  - destruct Hl as [Hh Hp Hcc Ho Hu]. rewrite Hc in Ho. destruct ss; [|cbn in Ho; lia].
    assert (Hin : ∀ q x, in_pair q x (h_set_run (RunGotPair s (h_nextPair h))
      (with_new_pair (requestID s) (h_set_streamChan [] h))) → in_pair q x h).
    { intros q x (y & Hy & Hx). cbn in Hy.
      apply lookup_insert_Some in Hy as [[_ <-]|[_ Hy]]; [by destruct Hx|]. by exists y. }
    split; [|eauto|intros; apply not_elem_of_nil|cbn; lia|eauto].
    intros x [Hx%elem_of_nil|[q [= <- _]]]; [done|].
    destruct (Hh s) as [Hsr Hsn]; [left; rewrite Hc; apply list_elem_of_here|].
    split; [done|]. intros r Hq%Hin. by eapply Hsn.
  - apply (located_add s p pr pr' h); try done. by eapply assign_stream_sub.
  - apply (located_add s p pr (close_complete pr') h); try done. cbn. by eapply assign_stream_sub.
Qed.

Lemma pf_run_located allowed podName podNamespace h : pf_run allowed podName podNamespace h → located h.
Proof.
  apply pf_run_ind; [apply located_initial|]. intros x a y _ Hi Hl Hn. by eapply next_located.
Qed.

(** ** What is forwarded *)
Definition pair_complete (p : nat) h : bool :=
  match h_pairs h !! p with Some pr => pr_complete pr | None => false end.

(** A pair is given to the forwarder once, when it is complete. *)
Definition counted h : Prop :=
  ∀ p, (forwarded_times p h + pending p h)%nat = if pair_complete p h then 1%nat else 0%nat.
(** What was given to the forwarder belongs to the pair. *)
Definition effects_ok h : Prop :=
  ∀ p podName podNamespace port s, Forwarded p podName podNamespace port s ∈ h_effects h →
  podName = h_podName h ∧ podNamespace = h_podNamespace h ∧ port = Headers_Get s PortHeader ∧
  ∃ pr, h_pairs h !! p = Some pr ∧ pr_complete pr = true ∧ pr_dataStream pr = Some s.

(** Effects other than those of the forwarder do not count. *)
Lemma forwarded_times_app p es h :
  forwarded_times p (emitted es h) = (forwarded_times p h + length (filter (is_forwarded p) es))%nat.
Proof. unfold forwarded_times, emitted. cbn. by rewrite filter_app, length_app. Qed.
Lemma forwarded_times_other es h :
  (∀ p, Forall (λ e, ¬ is_forwarded p e) es) → ∀ p, forwarded_times p (emitted es h) = forwarded_times p h.
Proof.
  intros Hes p. rewrite forwarded_times_app.
  assert (Hnil : filter (is_forwarded p) es = []); [|rewrite Hnil; cbn; lia].
  specialize (Hes p). induction Hes as [|e l He _ IH]; [done|]. by rewrite filter_cons_False.
Qed.

Lemma counted_same h h' :
  counted h → (∀ p, forwarded_times p h' = forwarded_times p h) →
  (∀ p, pending p h' = pending p h) → (∀ p, pair_complete p h' = pair_complete p h) → counted h'.
Proof. intros Hc Hf Hp Hpc p. rewrite Hf, Hp, Hpc. apply Hc. Qed.

Lemma fresh_pair h : pf_inv h → h_pairs h !! h_nextPair h = None.
Proof.
  intros Hi. destruct (h_pairs h !! h_nextPair h) as [pr|] eqn:Hp; [|done].
  assert (h_nextPair h < h_nextPair h)%nat; [|lia]. apply (i_fresh _ Hi). by rewrite Hp.
Qed.
Lemma not_complete_no_forward p pr h :
  pf_inv h → h_pairs h !! p = Some pr → pr_complete pr = false → h_forwards h !! p = None.
Proof.
  intros Hi Hp Hc. destruct (h_forwards h !! p) eqn:Hf; [|done].
  destruct (i_forward _ Hi p) as (x & Hx & Hcx); [by rewrite Hf|]. congruence.
Qed.
Lemma in_hand_pair s p h pr pr' :
  pf_inv h → h_run h = RunGotPair s p → h_pairs h !! p = Some pr → assign_stream pr s = inl pr' →
  valid_type s ∧ pr_requestID pr = requestID s ∧ pr_complete pr = false ∧ pr_complete pr' = false.
Proof.
  intros Hi Hr Hp Ha. assert (Hir := i_run _ Hi). rewrite Hr in Hir. destruct Hir as (Hv & x & Hx & Hid).
  simplify_eq. by destruct (assign_stream_inl _ _ _ (i_pair _ Hi _ _ Hp) Hv Hid Ha) as (_ & Hc & Hc' & _).
Qed.
Lemma printed_other pr msg p : Forall (λ e, ¬ is_forwarded p e) (printed pr msg).
Proof. unfold printed. destruct (pr_errorStream pr); repeat constructor. by intros []. Qed.
Lemma closed_other p d e es :
  es = [ClosedStream e; ClosedStream d] ∨ (∃ msg, es = [Printed e msg; ClosedStream e; ClosedStream d]) →
  Forall (λ e, ¬ is_forwarded p e) es.
Proof. by intros [->|[msg ->]]; repeat constructor; intros []. Qed.

Lemma next_counted h a h' : pf_inv h → counted h → next h a h' → counted h'.
Proof.
  intros Hi Hct Hn. destruct Hn as [s Hs Hv Hc|s Hs Hv| |s ss p Hr Hc Hm|s ss Hr Hc Hm|s p pr pr' Hr Hp Ha Hb
    |s p pr pr' Hr Hp Ha Hb Hc|s p pr err Hr Hp Ha|p pr msg Hr Hp|Hr Hc|p Hm|p pr Hm Hp|p pr Hm Hp Hc
    |p pr Hm Hp Hmap|p pr d Hf Hp Hd|p pr d e err es Hf Hp Hd He Hes];
    try (by apply (counted_same h)).
  - apply (counted_same h); [done..|]. intros q. unfold pair_complete. cbn.
    destruct (decide (h_nextPair h = q)) as [<-|]; [|by rewrite lookup_insert_ne].
    by rewrite lookup_insert_eq, fresh_pair.
  - apply (counted_same h); [done..|]. intros q. unfold pair_complete. cbn.
    destruct (in_hand_pair _ _ _ _ _ Hi Hr Hp Ha) as (_ & _ & Hcp & Hcp').
    destruct (decide (p = q)) as [<-|]; [|by rewrite lookup_insert_ne]. by rewrite lookup_insert_eq, Hp, Hcp, Hcp'.
  - destruct (in_hand_pair _ _ _ _ _ Hi Hr Hp Ha) as (_ & _ & Hcp & Hcp').
    assert (Hnf := not_complete_no_forward _ _ _ Hi Hp Hcp).
    intros q. specialize (Hct q). unfold forwarded_times, pending, pair_complete in *. cbn in *.
    destruct (decide (p = q)) as [<-|]; [|by rewrite !lookup_insert_ne].
    rewrite !lookup_insert_eq. rewrite Hnf, Hp, Hcp in Hct. cbn. lia.
  - apply (counted_same h); [done| |done..]. apply (forwarded_times_other _ h). intros q. apply printed_other.
  - apply (counted_same h); [done| |done..]. apply (forwarded_times_other _ h). intros q. apply printed_other.
  - apply (counted_same h); [done| |done..]. apply (forwarded_times_other _ h). intros q.
    repeat constructor. by intros [].
  - intros q. specialize (Hct q).
    change (forwarded_times q (h_set_forwards (<[p:=ForwardRunning]> (h_forwards h)) (emitted _ h)))
      with (forwarded_times q (emitted [Forwarded p (h_podName h) (h_podNamespace h) (Headers_Get d PortHeader) d] h)).
    rewrite forwarded_times_app. unfold pending, pair_complete in *. cbn.
    destruct (decide (p = q)) as [<-|Hne].
    + rewrite Hf in Hct. rewrite lookup_insert_eq. cbn. lia.
    + rewrite lookup_insert_ne by done. cbn. lia.
  - apply (counted_same h); [done| | |done]; intros q.
    + apply (forwarded_times_other es h). intros x. by eapply closed_other.
    + unfold pending. cbn. destruct (decide (p = q)) as [<-|].
      * by rewrite lookup_delete_eq, Hf.
      * by rewrite lookup_delete_ne.
Qed.

(** Only the start of a forward gives something to the forwarder. *)
Lemma next_effects h a h' :
  next h a h' →
  (∃ p pr d, h_forwards h !! p = Some ForwardStarting ∧ h_pairs h !! p = Some pr ∧ pr_dataStream pr = Some d ∧
     h' = h_set_forwards (<[p := ForwardRunning]> (h_forwards h))
       (emitted [Forwarded p (h_podName h) (h_podNamespace h) (Headers_Get d PortHeader) d] h)) ∨
  (∃ es, h_effects h' = h_effects h ++ es ∧ ∀ p, Forall (λ e, ¬ is_forwarded p e) es).
Proof.
  intros Hn. destruct Hn as [s Hs Hv Hc|s Hs Hv| |s ss p Hr Hc Hm|s ss Hr Hc Hm|s p pr pr' Hr Hp Ha Hb
    |s p pr pr' Hr Hp Ha Hb Hc|s p pr err Hr Hp Ha|p pr msg Hr Hp|Hr Hc|p Hm|p pr Hm Hp|p pr Hm Hp Hc
    |p pr Hm Hp Hmap|p pr d Hf Hp Hd|p pr d e err es Hf Hp Hd He Hes];
    try (right; exists []; rewrite app_nil_r; by split; [|constructor]).
  - right. eexists. split; [done|]. intros q. apply printed_other.
  - right. eexists. split; [done|]. intros q. apply printed_other.
  - right. eexists. split; [done|]. intros q. repeat constructor. by intros [].
  - left. by exists p, pr, d.
  - right. exists es. split; [done|]. intros q. by eapply closed_other.
Qed.
Lemma next_names h a h' : next h a h' → h_podName h' = h_podName h ∧ h_podNamespace h' = h_podNamespace h.
Proof. by intros []. Qed.

(** A complete pair does not change any more. *)
Lemma complete_pair_stays h a h' p pr :
  pf_inv h → next h a h' → h_pairs h !! p = Some pr → pr_complete pr = true → h_pairs h' !! p = Some pr.
Proof.
  intros Hi Hn Hp Hc.
  assert (Hset : ∀ q x x', h_pairs h !! q = Some x → pr_complete x = false → <[q := x']> (h_pairs h) !! p = Some pr).
  { intros q x x' Hx Hcx. rewrite lookup_insert_ne; [done|]. intros ->. congruence. }
  destruct Hn; try done; cbn.
  - rewrite lookup_insert_ne; [done|]. intros Heq. rewrite <- Heq, fresh_pair in Hp; done.
  - eapply Hset; [done|]. by edestruct in_hand_pair as (_ & _ & ? & _).
  - eapply Hset; [done|]. by edestruct in_hand_pair as (_ & _ & ? & _).
Qed.

Lemma forwarding_pair p h :
  pf_inv h → is_Some (h_forwards h !! p) → ∃ pr d e, h_pairs h !! p = Some pr ∧ pr_complete pr = true ∧
    pr_dataStream pr = Some d ∧ pr_errorStream pr = Some e.
Proof.
  intros Hi Hf. destruct (i_forward _ Hi p Hf) as (pr & Hp & Hc).
  assert (Hb := po_complete _ (i_pair _ Hi _ _ Hp)). rewrite Hc in Hb. symmetry in Hb.
  apply both_streams_true in Hb as [[e He] [d Hd]]. by exists pr, d, e.
Qed.

Lemma other_effects es p n ns port s :
  (∀ q, Forall (λ e, ¬ is_forwarded q e) es) → Forwarded p n ns port s ∉ es.
Proof. intros Hes Hin. eapply Forall_forall in Hin; [|apply (Hes p)]. by apply Hin. Qed.

Lemma next_effects_ok h a h' : pf_inv h → effects_ok h → next h a h' → effects_ok h'.
Proof.
  intros Hi Hok Hn. intros p n ns port s Hin. destruct (next_names _ _ _ Hn) as [-> ->].
  assert (Hold : Forwarded p n ns port s ∈ h_effects h → n = h_podName h ∧ ns = h_podNamespace h ∧
    port = Headers_Get s PortHeader ∧
    ∃ pr, h_pairs h' !! p = Some pr ∧ pr_complete pr = true ∧ pr_dataStream pr = Some s).
  { intros Hs. destruct (Hok _ _ _ _ _ Hs) as (-> & -> & -> & pr & Hp & Hc & Hd).
    do 3 (split; [done|]). exists pr. by rewrite (complete_pair_stays h a h' p pr). }
  destruct (next_effects _ _ _ Hn) as [(q & pr & d & Hf & Hp & Hd & ->)|(es & He & Hes)].
  - cbn in Hin. apply elem_of_app in Hin as [Hin|Hin%list_elem_of_singleton]; [by apply Hold|].
    injection Hin as -> -> -> -> ->. do 3 (split; [done|]). exists pr.
    destruct (forwarding_pair q h Hi) as (x & _ & _ & Hx & Hc & _); [by rewrite Hf|]. cbn. by simplify_eq.
  - rewrite He in Hin. apply elem_of_app in Hin as [Hin|Hin]; [by apply Hold|].
    exfalso. by apply (other_effects es p n ns port s Hes) in Hin.
Qed.

(** All that is known of a reachable state. *)
Record known (podName podNamespace : string) h : Prop := {
  k_inv : pf_inv h;
  k_located : located h;
  k_counted : counted h;
  k_effects : effects_ok h;
  k_podName : h_podName h = podName;
  k_podNamespace : h_podNamespace h = podNamespace }.

Lemma pf_run_known allowed podName podNamespace h :
  pf_run allowed podName podNamespace h → known podName podNamespace h.
Proof.
  intros Hr.
  destruct (pf_run_ind allowed (λ h, located h ∧ counted h ∧ effects_ok h ∧ h_podName h = podName ∧
    h_podNamespace h = podNamespace) podName podNamespace h) as (Hi & ? & ? & ? & ? & ?); [| |done|by split].
  - split; [apply located_initial|]. split; [done|]. split; [|done]. by intros p n ns port s Hin%elem_of_nil.
  - intros x a y _ Hi (Hl & Hc & He & Hn & Hns) Hnx. destruct (next_names _ _ _ Hnx) as [-> ->].
    split; [by eapply next_located|]. split; [by eapply next_counted|]. split; [by eapply next_effects_ok|done].
Qed.

(** C25: No action of any goroutine panics in a state the goroutines can reach: the
    channel of a pair is closed at most once, the pair a monitor removes is in the map,
    and a forward starts and ends with both its streams. *)
Theorem port_forward_never_panics podName podNamespace h a :
  pf_reachable podName podNamespace h → ∃ h', act a h = Done () h'.
Proof.
  intros Hr. destruct (act_next a h) as (h' & Ha & _); [by eapply pf_run_inv|]. by exists h'.
Qed.

(** C6: An operation is given to the forwarder once, when both its streams have come,
    and never before: every pair has been or is about to be forwarded exactly once if it
    is complete and not at all otherwise.  What the forwarder gets is the pod of the
    handler, the data stream of the pair and the port of that stream, and the error
    stream of the pair has the same request id. *)
Theorem forwarded_exactly_once podName podNamespace h :
  pf_reachable podName podNamespace h →
  (∀ p, (forwarded_times p h + pending p h)%nat = if pair_complete p h then 1%nat else 0%nat) ∧
  ∀ p n ns port d, Forwarded p n ns port d ∈ h_effects h →
    n = podName ∧ ns = podNamespace ∧ port = Headers_Get d PortHeader ∧
    ∃ pr e, h_pairs h !! p = Some pr ∧ pr_dataStream pr = Some d ∧ pr_errorStream pr = Some e ∧
      Headers_Get d StreamType = StreamTypeData ∧ Headers_Get e StreamType = StreamTypeError ∧
      requestID d = requestID e.
Proof.
  intros Hr. destruct (pf_run_known _ _ _ _ Hr) as [Hi Hl Hc He Hn Hns]. split; [done|].
  intros p n ns port d Hin. destruct (He _ _ _ _ _ Hin) as (-> & -> & -> & pr & Hp & Hcp & Hd).
  do 3 (split; [done|]).
  assert (Hok := i_pair _ Hi _ _ Hp). destruct (po_data _ Hok d Hd) as [Htd Hid].
  rewrite (po_complete _ Hok) in Hcp. apply both_streams_true in Hcp as [[e Hes] _].
  destruct (po_error _ Hok e Hes) as [Hte Hie]. exists pr, e. by rewrite Hid, Hie.
Qed.

(** ** The abstract matcher *)
(** What port forwarding promises: of the streams a client opens, a data stream and an
    error stream with the same request id make a tunnel, and no stream is in two. *)
Record matcher := mkMatcher {
  m_streams : list Stream;
  m_tunnels : list (Stream * Stream) }.
Inductive matcher_step (m : matcher) : matcher → Prop :=
| match_open s :
    valid_type s → s ∉ m_streams m →
    matcher_step m (mkMatcher (m_streams m ++ [s]) (m_tunnels m))
| match_tunnel d e :
    d ∈ m_streams m → e ∈ m_streams m →
    Headers_Get d StreamType = StreamTypeData → Headers_Get e StreamType = StreamTypeError →
    requestID d = requestID e → d ∉ (m_tunnels m).*1 → e ∉ (m_tunnels m).*2 →
    matcher_step m (mkMatcher (m_streams m) (m_tunnels m ++ [(d, e)])).

Definition tunnel_of h (eff : PFEffect) : option (Stream * Stream) :=
  match eff with
  | Forwarded p _ _ _ d => pr ← h_pairs h !! p; e ← pr_errorStream pr; Some (d, e)
  | _ => None
  end.
Definition abs_matcher h : matcher :=
  mkMatcher (filter valid_type (h_received h)) (omap (tunnel_of h) (h_effects h)).

Lemma tunnels_stay h a h' :
  pf_inv h → effects_ok h → next h a h' → omap (tunnel_of h') (h_effects h) = omap (tunnel_of h) (h_effects h).
Proof.
  intros Hi Hok Hn. apply omap_ext_elem. intros [| |p n ns port d|]; try done. intros Hin. cbn.
  destruct (Hok _ _ _ _ _ Hin) as (_ & _ & _ & pr & Hp & Hc & _).
  by rewrite Hp, (complete_pair_stays h a h' p pr).
Qed.
Lemma other_no_tunnel h es : (∀ p, Forall (λ e, ¬ is_forwarded p e) es) → omap (tunnel_of h) es = [].
Proof.
  intros Hes. induction es as [|e es IH]; [done|]. cbn.
  assert (tunnel_of h e = None) as ->.
  { destruct e as [| |p n ns port d|]; try done. specialize (Hes p). apply Forall_cons in Hes as [Hes _]. by destruct Hes. }
  apply IH. intros p. specialize (Hes p). by apply Forall_cons in Hes as [_ Hes].
Qed.

(** The streams of the tunnels are those of pairs that were forwarded. *)
Lemma tunnel_in h d e :
  effects_ok h → (d, e) ∈ omap (tunnel_of h) (h_effects h) →
  ∃ p, (0 < forwarded_times p h)%nat ∧ in_pair p d h ∧ in_pair p e h.
Proof.
  intros Hok Hin. apply list_elem_of_omap in Hin as ([| |p n ns port x|] & Hin & Ht); try done. exists p.
  destruct (Hok _ _ _ _ _ Hin) as (_ & _ & _ & pr & Hp & Hc & Hd). cbn in Ht. rewrite Hp in Ht. cbn in Ht.
  destruct (pr_errorStream pr) as [y|] eqn:Hy; [|done]. injection Ht as -> ->.
  split; [|split; exists pr; eauto]. unfold forwarded_times.
  assert (Forwarded p n ns port d ∈ filter (is_forwarded p) (h_effects h)) as Hf by by apply list_elem_of_filter.
  destruct (filter _ _); [by apply elem_of_nil in Hf|cbn; lia].
Qed.

Lemma received_same h a h' :
  next h a h' → h_received h' = h_received h ∨
  ∃ s, a = Receive s ∧ h_received h' = h_received h ++ [s] ∧ st_Identifier s ∉ st_Identifier <$> h_received h.
Proof. intros []; eauto. Qed.

Lemma next_matcher podName podNamespace h a h' :
  known podName podNamespace h → next h a h' →
  abs_matcher h' = abs_matcher h ∨ matcher_step (abs_matcher h) (abs_matcher h').
Proof.
  intros [Hi Hl Hc Hok _ _] Hn. unfold abs_matcher at 1 4.
  destruct (next_effects _ _ _ Hn) as [(p & pr & d & Hf & Hp & Hd & ->)|(es & He & Hes)].
  - right. assert (Hst := tunnels_stay _ _ _ Hi Hok Hn). revert Hst. cbn. intros Hst.
    rewrite omap_app. rewrite Hst. cbn. rewrite Hp. cbn.
    destruct (forwarding_pair p h Hi) as (x & d' & e & Hx & _ & Hd' & He); [by rewrite Hf|]. simplify_eq.
    rewrite He. cbn. destruct (i_pair _ Hi _ _ Hp) as [Hpd Hpe _].
    destruct (Hpd d Hd) as [Htd Hid], (Hpe e He) as [Hte Hie].
    assert (Hin : in_pair p d h ∧ in_pair p e h) by (split; exists pr; eauto). destruct Hin as [Hdp Hep].
    assert (Hzero : forwarded_times p h = 0%nat).
    { specialize (Hc p). unfold pending in Hc. rewrite Hf in Hc. destruct (pair_complete p h); lia. }
    assert (Hnot : ∀ x, in_pair p x h → ∀ q, (0 < forwarded_times q h)%nat → ¬ in_pair q x h).
    { intros x Hpx q Hq Hqx. rewrite (lo_unique _ Hl _ _ _ Hqx Hpx) in Hq. lia. }
    change (omap (tunnel_of h) (h_effects h)) with (m_tunnels (abs_matcher h)).
    apply (match_tunnel (abs_matcher h)); [..|congruence| |]; try done; cbn.
    + apply list_elem_of_filter. split; [by right|]. by apply (lo_pair _ Hl p).
    + apply list_elem_of_filter. split; [by left|]. by apply (lo_pair _ Hl p).
    + intros ([y z] & -> & Hyz)%list_elem_of_fmap. destruct (tunnel_in h _ _ Hok Hyz) as (q & Hq & Hqd & _).
      by apply (Hnot _ Hdp q).
    + intros ([y z] & -> & Hyz)%list_elem_of_fmap. destruct (tunnel_in h _ _ Hok Hyz) as (q & Hq & _ & Hqe).
      by apply (Hnot _ Hep q).
  - rewrite He, omap_app, (other_no_tunnel h' es Hes), app_nil_r, (tunnels_stay _ _ _ Hi Hok Hn).
    destruct (received_same _ _ _ Hn) as [->|(s & -> & -> & Hs)]; [by left|].
    rewrite filter_app. destruct (decide (valid_type s)) as [Hv|Hv].
    + right. rewrite filter_cons_True by done. cbn. apply (match_open (abs_matcher h)); [done|]. cbn.
      intros [_ Hin]%list_elem_of_filter. apply Hs, list_elem_of_fmap. by exists s.
    + left. rewrite filter_cons_False by done. cbn. by rewrite app_nil_r.
Qed.

(** C16: The goroutines implement the matcher: each step of theirs is a step of the
    matcher or changes nothing of it, so what is forwarded in a run are tunnels of one
    data and one error stream with the same request id, no stream in two of them. *)
Theorem port_forward_refines_matcher podName podNamespace h :
  pf_reachable podName podNamespace h →
  rtc matcher_step (mkMatcher [] []) (abs_matcher h) ∧
  ∀ h', pf_step any_action h h' → abs_matcher h' = abs_matcher h ∨ matcher_step (abs_matcher h) (abs_matcher h').
Proof.
  intros Hr. split.
  - unfold pf_run in Hr.
    assert (Hgen : ∀ x, pf_run any_action podName podNamespace x → rtc (pf_step any_action) x h →
      rtc matcher_step (mkMatcher [] []) (abs_matcher x) → rtc matcher_step (mkMatcher [] []) (abs_matcher h)).
    { clear Hr. intros x Hx Hr. induction Hr as [x|x y z (a & Hok & Ha) _ IH]; [done|]. intros Hm.
      assert (Hk := pf_run_known _ _ _ _ Hx). apply IH.
      { eapply rtc_r; [exact Hx|]. by exists a. }
      destruct (act_next a x (k_inv _ _ _ Hk)) as (y' & Hy & Hn). rewrite Ha in Hy. injection Hy as <-.
      destruct Hn as [[-> _]|Hn]; [done|].
      destruct (next_matcher _ _ _ _ _ Hk Hn) as [->|Hs]; [done|]. by eapply rtc_r. }
    apply (Hgen _ (rtc_refl _ _) Hr). done.
  - intros h' (a & _ & Ha). assert (Hk := pf_run_known _ _ _ _ Hr).
    destruct (act_next a h (k_inv _ _ _ Hk)) as (y & Hy & Hn). rewrite Ha in Hy. injection Hy as <-.
    destruct Hn as [[-> _]|Hn]; [by left|]. by eapply next_matcher.
Qed.

(** ** Progress of prompt runs *)
(** The place of another stream of the same operation and type was taken first. *)
Definition rivalled (s : Stream) h : Prop :=
  ∃ p s', in_pair p s' h ∧ s' ≠ s ∧ requestID s' = requestID s ∧ Headers_Get s' StreamType = Headers_Get s StreamType.
Definition placed (s : Stream) h : Prop := in_hand s h ∨ (∃ p, in_pair p s h) ∨ rivalled s h.
Record prompt_inv h : Prop := {
  q_waiting : ∀ p pr, h_pairs h !! p = Some pr → pr_complete pr = false → h_monitors h !! p = Some MonitorWaiting;
  q_placed : ∀ s, s ∈ h_received h → valid_type s → placed s h }.

Lemma assign_stream_keeps pr s pr' d :
  assign_stream pr s = inl pr' → pr_dataStream pr = Some d ∨ pr_errorStream pr = Some d →
  pr_dataStream pr' = Some d ∨ pr_errorStream pr' = Some d.
Proof.
  unfold assign_stream. intros Has Hd. destruct (decide _).
  - destruct (pr_errorStream pr) eqn:He; [done|]. injection Has as <-. cbn. naive_solver.
  - destruct (decide _); [|injection Has as <-; done].
    destruct (pr_dataStream pr) eqn:He; [done|]. injection Has as <-. cbn. naive_solver.
Qed.
Lemma assign_stream_err pr s err :
  assign_stream pr s = inr err → ∃ s', (pr_errorStream pr = Some s' ∧ Headers_Get s StreamType = StreamTypeError) ∨
    (pr_dataStream pr = Some s' ∧ Headers_Get s StreamType = StreamTypeData).
Proof.
  unfold assign_stream. destruct (decide _) as [He|]; [|destruct (decide _) as [Hd|]; [|done]].
  - destruct (pr_errorStream pr) as [s'|]; [|done]. intros _. exists s'. by left.
  - destruct (pr_dataStream pr) as [s'|]; [|done]. intros _. exists s'. by right.
Qed.

Lemma next_in_pair h a h' p s : pf_inv h → next h a h' → in_pair p s h → in_pair p s h'.
Proof.
  intros Hi Hn (pr & Hp & Hs). unfold in_pair.
  assert (Hset : ∀ q x x', h_pairs h !! q = Some x →
    (∀ d, pr_dataStream x = Some d ∨ pr_errorStream x = Some d → pr_dataStream x' = Some d ∨ pr_errorStream x' = Some d) →
    ∃ y, <[q := x']> (h_pairs h) !! p = Some y ∧ (pr_dataStream y = Some s ∨ pr_errorStream y = Some s)).
  { intros q x x' Hx Hk. destruct (decide (q = p)) as [->|].
    - rewrite lookup_insert_eq. simplify_eq. eauto.
    - rewrite lookup_insert_ne by done. eauto. }
  destruct Hn; try (by exists pr); cbn.
  - exists pr. rewrite lookup_insert_ne; [done|]. intros Heq. rewrite <- Heq, fresh_pair in Hp; done.
  - eapply Hset; [done|]. intros d. by eapply assign_stream_keeps.
  - eapply Hset; [done|]. intros d Hd. cbn. by eapply assign_stream_keeps.
Qed.

(** Streams keep their places while those in hand do. *)
Lemma placed_keep h a h' :
  pf_inv h → next h a h' → h_received h' = h_received h →
  (∀ s, in_hand s h → placed s h') →
  (∀ s, s ∈ h_received h → valid_type s → placed s h) →
  ∀ s, s ∈ h_received h' → valid_type s → placed s h'.
Proof.
  intros Hi Hn Hr Hhand Hpl s Hs Hv. rewrite Hr in Hs.
  destruct (Hpl s Hs Hv) as [Hh|[(p & Hp)|(p & s' & Hp & Hrest)]]; [by apply Hhand| |].
  - right; left. exists p. by eapply next_in_pair.
  - right; right. exists p, s'. split; [by eapply next_in_pair|done].
Qed.

Lemma rejected_rivalled h s p pr err :
  pf_inv h → located h → h_run h = RunGotPair s p → h_pairs h !! p = Some pr → assign_stream pr s = inr err →
  rivalled s h.
Proof.
  intros Hi Hl Hr Hp Ha. assert (Hir := i_run _ Hi). rewrite Hr in Hir. destruct Hir as (_ & x & Hx & Hid).
  simplify_eq. destruct (assign_stream_err _ _ _ Ha) as [s' Hs'].
  assert (Hin : in_pair p s' h) by (exists pr; naive_solver). exists p, s'. split; [done|].
  split.
  { intros ->. destruct (lo_hand _ Hl s) as [_ Hno]; [right; by exists p|]. by apply (Hno p). }
  destruct (i_pair _ Hi _ _ Hp) as [Hd He _].
  destruct Hs' as [[Hs' Ht]|[Hs' Ht]]; [destruct (He _ Hs') as [Ht' Hid']|destruct (Hd _ Hs') as [Ht' Hid']];
    split; congruence.
Qed.

Lemma next_placed h a h' :
  pf_inv h → located h → prompt_inv h → next h a h' → ∀ s, s ∈ h_received h' → valid_type s → placed s h'.
Proof.
  intros Hi Hl [_ Hpl] Hn. assert (Hkeep := placed_keep _ _ _ Hi Hn).
  assert (Hpair := λ p s, next_in_pair _ _ _ p s Hi Hn).
  destruct Hn as [s Hs Hv Hc|s Hs Hv| |s ss p Hr Hc Hm|s ss Hr Hc Hm|s p pr pr' Hr Hp Ha Hb
    |s p pr pr' Hr Hp Ha Hb Hc|s p pr err Hr Hp Ha|p pr msg Hr Hp|Hr Hc|p Hm|p pr Hm Hp|p pr Hm Hp Hc
    |p pr Hm Hp Hmap|p pr d Hf Hp Hd|p pr d e err es Hf Hp Hd He Hes];
    try (apply Hkeep; [done| |done]; intros x Hx; by left).
  - cbn. intros x [Hx|Hx%list_elem_of_singleton]%elem_of_app Hvx; [|subst x].
    + destruct (Hpl x Hx Hvx) as [[Hh|[p Hrun]]|[[p Hin]|Hriv]].
      * rewrite Hc in Hh. by apply elem_of_nil in Hh.
      * left. right. by exists p.
      * right; left. by exists p.
      * right; by right.
    + left. left. apply list_elem_of_here.
  - cbn. intros x [Hx|Hx%list_elem_of_singleton]%elem_of_app Hvx; [|subst x]; [|done].
    destruct (Hpl x Hx Hvx) as [Hh|[[p Hin]|Hriv]]; [by left|right; left; by exists p|right; by right].
  - apply Hkeep; [done| |done]. intros x [Hx|[q Hq]]; [|congruence]. rewrite Hc in Hx.
    apply elem_of_cons in Hx as [->|Hx]; left; [right; by exists p|by left].
  - apply Hkeep; [done| |done]. intros x [Hx|[q Hq]]; [|congruence]. rewrite Hc in Hx.
    apply elem_of_cons in Hx as [->|Hx]; left; [right; by eexists|by left].
  - apply Hkeep; [done| |done]. intros x [Hx|[q Hq]]; [left; by left|]. rewrite Hr in Hq. injection Hq as <- <-.
    right; left. exists p, pr'. cbn. rewrite lookup_insert_eq. split; [done|].
    destruct (in_hand_pair _ _ _ _ _ Hi Hr Hp Ha) as (Hv & Hid & _).
    destruct (assign_stream_inl _ _ _ (i_pair _ Hi _ _ Hp) Hv Hid Ha) as (_ & _ & _ & _ & _ & Hor). naive_solver.
  - apply Hkeep; [done| |done]. intros x [Hx|[q Hq]]; [left; by left|]. rewrite Hr in Hq. injection Hq as <- <-.
    right; left. exists p, (close_complete pr'). cbn. rewrite lookup_insert_eq. split; [done|]. cbn.
    destruct (in_hand_pair _ _ _ _ _ Hi Hr Hp Ha) as (Hv & Hid & _).
    destruct (assign_stream_inl _ _ _ (i_pair _ Hi _ _ Hp) Hv Hid Ha) as (_ & _ & _ & _ & _ & Hor). naive_solver.
  - apply Hkeep; [done| |done]. intros x [Hx|[q Hq]]; [left; by left|]. rewrite Hr in Hq. injection Hq as <- <-.
    right; right. by apply (rejected_rivalled h s p pr err).
  - apply Hkeep; [done| |done]. intros x [Hx|[q Hq]]; [left; by left|]. congruence.
  - apply Hkeep; [done| |done]. intros x [Hx|[q Hq]]; [left; by left|]. congruence.
Qed.

Lemma next_waiting h a h' :
  pf_inv h → prompt a → prompt_inv h → next h a h' →
  ∀ p pr, h_pairs h' !! p = Some pr → pr_complete pr = false → h_monitors h' !! p = Some MonitorWaiting.
Proof.
  intros Hi Ha [Hw _] Hn.
  assert (Hother : ∀ q pr0 m, h_pairs h !! q = Some pr0 → pr_complete pr0 = true ∨ m ≠ MonitorWaiting →
    h_monitors h !! q = Some m → ∀ p pr, h_pairs h !! p = Some pr → pr_complete pr = false → q ≠ p).
  { intros q x m Hx Hc Hm p pr Hp Hcp ->. specialize (Hw _ _ Hp Hcp). destruct Hc; congruence. }
  destruct Hn as [s Hs Hv Hc|s Hs Hv| |s ss p Hr Hc Hm|s ss Hr Hc Hm|s p pr pr' Hr Hp Has Hb
    |s p pr pr' Hr Hp Has Hb Hc|s p pr err Hr Hp Has|p pr msg Hr Hp|Hr Hc|p Hm|p pr Hm Hp|p pr Hm Hp Hc
    |p pr Hm Hp Hmap|p pr d Hf Hp Hd|p pr d e err es Hf Hp Hd He Hes]; try done; intros q x Hq Hcq; cbn in *.
  - apply lookup_insert_Some in Hq as [[-> _]|[Hne Hq]]; [by rewrite lookup_insert_eq|].
    rewrite lookup_insert_ne by done. by eapply Hw.
  - destruct (in_hand_pair _ _ _ _ _ Hi Hr Hp Has) as (_ & _ & Hcp & _).
    apply lookup_insert_Some in Hq as [[<- _]|[Hne Hq]]; by eapply Hw.
  - apply lookup_insert_Some in Hq as [[<- <-]|[Hne Hq]]; [done|by eapply Hw].
  - rewrite lookup_insert_ne; [by eapply Hw|]. eapply (Hother p _ MonitorTimedOut); [done|by right|done..].
  - rewrite lookup_insert_ne; [by eapply Hw|]. eapply (Hother p _ MonitorWaiting); [done|by left|done..].
  - rewrite lookup_delete_ne; [by eapply Hw|]. eapply (Hother p _ MonitorRemoving); [done|by right|done..].
Qed.

Lemma prompt_run_inv podName podNamespace h : pf_run prompt podName podNamespace h → prompt_inv h.
Proof.
  intros Hr. destruct (pf_run_ind prompt (λ h, located h ∧ prompt_inv h) podName podNamespace h) as (_ & _ & ?);
    [| |done..].
  - split; [apply located_initial|]. split; cbn; [by intros p pr|]. by intros s Hs%elem_of_nil.
  - intros x a y Ha Hi [Hl Hq] Hn. split; [by eapply next_located|].
    split; [by eapply next_waiting|by eapply next_placed].
Qed.

(** What can go on does. *)
Lemma go_on a h : pf_inv h → prompt a → enabled a h → ∃ h', pf_step prompt h h' ∧ next h a h' ∧ pf_inv h'.
Proof.
  intros Hi Hp Ha. destruct (act_next a h Hi) as (h' & Hact & [[_ Hno]|Hn]); [done|]. exists h'.
  split; [by exists a|]. split; [done|by eapply next_inv].
Qed.

Definition settled h h' : Prop :=
  rtc (pf_step prompt) h h' ∧ pf_inv h' ∧ h_run h' = RunWaiting ∧
  h_streamChan h' = h_streamChan h ∧ h_received h' = h_received h.
(** The main loop comes back to its select, *)
Lemma run_settles h : pf_inv h → h_run h ≠ RunStopped → ∃ h', settled h h'.
Proof.
  intros Hi Hns.
  assert (Hprint : ∀ x, pf_inv x → (∃ p msg, h_run x = RunPrinting p msg) → ∃ h', settled x h').
  { intros x Hix Hx. destruct (go_on RunPrint x) as (h' & Hst & Hn & Hi'); [done..|]. exists h'.
    split; [by apply rtc_once|]. by inversion Hn; subst. }
  destruct (h_run h) as [|s p|p msg|] eqn:Hr; [|..|done].
  - exists h. by split.
  - destruct (go_on RunAdd h) as (h' & Hst & Hn & Hi'); [done..|by exists s, p|].
    destruct (h_run h') as [| |p' msg|] eqn:Hr'; [|by inversion Hn; subst|..|by inversion Hn; subst].
    + exists h'. split; [by apply rtc_once|]. do 2 (split; [done|]). by inversion Hn; subst.
    + destruct (Hprint h') as (x & Hrt & Hix & Hw & Hc & Hrec); [done|by exists p', msg|]. exists x.
      split; [by eapply rtc_l|]. do 2 (split; [done|]). rewrite Hc, Hrec. by inversion Hn; subst.
  - apply Hprint; [done|]. by exists p, msg.
Qed.
(** and takes the stream that waits. *)
Lemma run_drains h :
  pf_inv h → h_run h ≠ RunStopped → (length (h_streamChan h) <= 1)%nat →
  ∃ h', rtc (pf_step prompt) h h' ∧ h_run h' = RunWaiting ∧ h_streamChan h' = [] ∧ h_received h' = h_received h.
Proof.
  intros Hi Hns Hlen. destruct (run_settles h Hi Hns) as (h1 & Hst1 & Hi1 & Hw1 & Hc1 & Hr1).
  destruct (h_streamChan h) as [|s ss] eqn:Hc; [by exists h1|].
  destruct ss as [|]; [|cbn in Hlen; lia].
  destruct (go_on RunTake h1) as (h2 & Hst2 & Hn2 & Hi2); [done|done|by split; [|rewrite Hc1]|].
  assert (Hh2 : h_run h2 ≠ RunStopped ∧ h_streamChan h2 = [] ∧ h_received h2 = h_received h1).
  { inversion Hn2; subst; cbn; (split; [done|split; [congruence|done]]). }
  destruct Hh2 as (Hns2 & Hc2 & Hr2).
  destruct (run_settles h2 Hi2 Hns2) as (h3 & Hst3 & Hi3 & Hw3 & Hc3 & Hr3). exists h3.
  split; [|by rewrite Hc3, Hr3, Hr2].
  etrans; [done|]. by eapply rtc_l.
Qed.

(** At rest, the streams of an operation are in one complete pair. *)
Lemma streams_are_paired podName podNamespace h d e :
  known podName podNamespace h → prompt_inv h → h_run h = RunWaiting → h_streamChan h = [] →
  d ∈ h_received h → e ∈ h_received h →
  Headers_Get d StreamType = StreamTypeData → Headers_Get e StreamType = StreamTypeError →
  requestID e = requestID d →
  (∀ s, s ∈ h_received h → valid_type s → requestID s = requestID d → s = d ∨ s = e) →
  ∃ p pr, h_pairs h !! p = Some pr ∧ pr_complete pr = true ∧ pr_dataStream pr = Some d.
Proof.
  assert (Hdiff : StreamTypeData ≠ StreamTypeError) by done.
  intros [Hi Hl _ _ _ _] [Hw Hpl] Hrun Hchan Hd He Htd Hte Hid Honly.
  assert (Hin : ∀ s, s = d ∨ s = e → ∃ p, in_pair p s h).
  { intros s Hs. assert (Hsr : s ∈ h_received h ∧ valid_type s ∧ requestID s = requestID d).
    { destruct Hs as [->| ->]; (split; [done|]); (split; [|done]); [by right|by left]. }
    destruct Hsr as (Hr & Hv & Hids).
    destruct (Hpl s Hr Hv) as [[Hc|[p Hp]]|[?|(p & s' & Hp & Hne & Hi' & Ht)]]; [| |done|].
    - rewrite Hchan in Hc. by apply elem_of_nil in Hc.
    - congruence.
    - destruct (Honly s') as [->| ->].
      + by eapply lo_pair.
      + unfold valid_type in *. by rewrite Ht.
      + congruence.
      + destruct Hs as [->| ->]; [done|]. congruence.
      + destruct Hs as [->| ->]; [|done]. congruence. }
  destruct (Hin d) as (p & pr & Hp & Hpd); [by left|]. destruct (Hin e) as (q & qr & Hq & Hqe); [by right|].
  destruct (i_pair _ Hi _ _ Hp) as [Hpod Hpoe Hpc], (i_pair _ Hi _ _ Hq) as [Hqod Hqoe Hqc].
  destruct Hpd as [Hpd|Hpd]; [|apply Hpoe in Hpd as []; congruence].
  destruct Hqe as [Hqe|Hqe]; [apply Hqod in Hqe as []; congruence|].
  exists p, pr. split; [done|]. split; [|done].
  destruct (pr_complete pr) eqn:Hc; [done|]. exfalso.
  destruct (Hpod d Hpd) as [_ Hpid], (Hqoe e Hqe) as [_ Hqid].
  assert (p = q) as <-.
  { destruct (pr_complete qr) eqn:Hcq.
    - symmetry in Hqc. apply both_streams_true in Hqc as [_ [x Hx]]. destruct (Hqod x Hx) as [Htx Hidx].
      destruct (Honly x) as [->| ->]; [eapply (lo_pair _ Hl q); exists qr; eauto|by right|congruence| |congruence].
      apply (lo_unique _ Hl p q d); [exists pr|exists qr]; eauto.
    - assert (Hm1 := Hw _ _ Hp Hc). assert (Hm2 := Hw _ _ Hq Hcq).
      destruct (monitor_pair _ _ _ Hi Hm1) as (x & Hx & Hmx), (monitor_pair _ _ _ Hi Hm2) as (y & Hy & Hmy).
      simplify_eq. rewrite <- Hpid, <- Hid, Hqid, Hmy in Hmx. by injection Hmx. }
  simplify_eq. assert (both_streams pr = true); [|congruence]. apply both_streams_true. eauto.
Qed.

(** From there it is a step to the forwarder, if it was not taken before. *)
Lemma streams_get_forwarded podName podNamespace h d e :
  pf_run prompt podName podNamespace h → h_run h ≠ RunStopped →
  d ∈ h_received h → e ∈ h_received h →
  Headers_Get d StreamType = StreamTypeData → Headers_Get e StreamType = StreamTypeError →
  requestID e = requestID d →
  (∀ s, s ∈ h_received h → valid_type s → requestID s = requestID d → s = d ∨ s = e) →
  ∃ h' p, rtc (pf_step prompt) h h' ∧ h_received h' = h_received h ∧
    Forwarded p podName podNamespace (Headers_Get d PortHeader) d ∈ h_effects h'.
Proof.
  intros Hr Hns Hd He Htd Hte Hid Honly. assert (Hk := pf_run_known _ _ _ _ Hr).
  destruct (run_drains h (k_inv _ _ _ Hk) Hns (lo_one _ (k_located _ _ _ Hk))) as (h1 & Hst & Hw & Hc & Hrec).
  assert (Hr1 : pf_run prompt podName podNamespace h1) by (unfold pf_run in *; by etrans).
  assert (Hk1 := pf_run_known _ _ _ _ Hr1). rewrite <- Hrec in Hd, He, Honly.
  destruct (streams_are_paired podName podNamespace h1 d e) as (p & pr & Hp & Hcp & Hpd);
    [done|by eapply prompt_run_inv|done..|].
  destruct Hk1 as [Hi Hl Hct Heff Hn Hnns]. specialize (Hct p). unfold pair_complete in Hct. rewrite Hp, Hcp in Hct.
  assert (Hor : h_forwards h1 !! p = Some ForwardStarting ∨ forwarded_times p h1 = 1%nat).
  { unfold pending in Hct. destruct (h_forwards h1 !! p) as [[]|]; [by left|right; lia..]. }
  destruct Hor as [Hf|Hone].
  - destruct (go_on (ForwardStart p) h1) as (h2 & Hst2 & Hn2 & _); [done..|]. exists h2, p.
    split; [by eapply rtc_r|]. inversion Hn2; subst; cbn. split; [done|].
    apply elem_of_app. right. apply list_elem_of_singleton. congruence.
  - exists h1, p. split; [done|]. split; [done|].
    unfold forwarded_times in Hone. destruct (filter (is_forwarded p) (h_effects h1)) as [|eff l] eqn:Hfl; [done|].
    assert (Hin : eff ∈ filter (is_forwarded p) (h_effects h1)) by (rewrite Hfl; apply list_elem_of_here).
    apply list_elem_of_filter in Hin as [His Hin]. destruct eff as [| |p' n ns port s|]; try done. cbn in His. subst p'.
    destruct (Heff _ _ _ _ _ Hin) as (-> & -> & -> & x & Hx & _ & Hxd). by simplify_eq.
Qed.

(** C7: While no monitor times out and the main loop runs, an operation of which the
    client has opened both streams, and no third one, is forwarded: from every state the
    goroutines can reach, the goroutines alone lead to a state where its data stream has
    been given to the forwarder with the port of its header. *)
Theorem prompt_streams_are_forwarded podName podNamespace h d e :
  pf_run prompt podName podNamespace h → h_run h ≠ RunStopped →
  d ∈ h_received h → e ∈ h_received h →
  Headers_Get d StreamType = StreamTypeData → Headers_Get e StreamType = StreamTypeError →
  requestID e = requestID d →
  (∀ s, s ∈ h_received h → valid_type s → requestID s = requestID d → s = d ∨ s = e) →
  ∃ h' p, rtc (pf_step prompt) h h' ∧ h_received h' = h_received h ∧
    Forwarded p podName podNamespace (Headers_Get d PortHeader) d ∈ h_effects h'.
Proof.
  intros Hr Hns Hd He Htd Hte Hid Honly. by apply (streams_get_forwarded podName podNamespace h d e).
Qed.

(** Clients that do not send request ids: an error and a data stream without the
    header are of the same operation exactly when the number of the data stream is that
    of the error stream plus two; numbers are 32-bit, so the subtraction does not wrap. *)
Theorem old_clients_are_paired e d :
  0 ≤ st_Identifier e < 2 ^ 32 → 0 ≤ st_Identifier d < 2 ^ 32 →
  Headers_Get e PortForwardRequestIDHeader = "" → Headers_Get d PortForwardRequestIDHeader = "" →
  Headers_Get e StreamType = StreamTypeError → Headers_Get d StreamType = StreamTypeData →
  requestID e = requestID d ↔ st_Identifier d = st_Identifier e + 2.
Proof.
  intros He Hd Hhe Hhd Hte Htd. unfold requestID. rewrite Hhe, Hhd, Hte, Htd, !decide_True by done.
  rewrite decide_False by done. rewrite wrap_int_id by (unfold is_int, int_min, int_max; lia).
  split; [|intros ->; f_equal; lia]. intros Heq%Itoa_inj; lia.
Qed.

(** ** A concrete run *)
Fixpoint after (actions : list Action) h : httpStreamHandler :=
  match actions with
  | [] => h
  | a :: actions => after actions (match act a h with Done _ h' => h' | _ => h end)
  end.
Lemma after_run allowed actions podName podNamespace h :
  Forall allowed actions → pf_run allowed podName podNamespace h → pf_run allowed podName podNamespace (after actions h).
Proof.
  intros Hall. revert h. induction Hall as [|a l Ha _ IH]; [done|]. intros h Hr. cbn. apply IH.
  destruct (act a h) as [[] h'| |] eqn:Hact; [|done..]. eapply rtc_r; [exact Hr|]. by exists a.
Qed.

Definition test_headers (streamType : string) : gmap string string :=
  {[StreamType := streamType; PortHeader := "2379"; PortForwardRequestIDHeader := "0"]}.
Definition test_errorStream : Stream := mkStream 1 (test_headers StreamTypeError).
Definition test_dataStream : Stream := mkStream 3 (test_headers StreamTypeData).
Definition test_opened : list Action :=
  [Receive test_errorStream; RunTake; RunAdd; Receive test_dataStream; RunTake; RunAdd].
Definition test_handler (actions : list Action) : httpStreamHandler := after actions (NewHTTPStreamHandler "etcd-m" "kube-system").
Lemma test_run actions : pf_run any_action "etcd-m" "kube-system" (test_handler actions).
Proof. apply after_run; [by apply Forall_true|apply rtc_refl]. Qed.
Lemma test_prompt_run : pf_run prompt "etcd-m" "kube-system" (test_handler test_opened).
Proof. apply after_run; [by repeat constructor|apply rtc_refl]. Qed.

Lemma port_forward_never_panics_witness :
  ∃ h', act (MonitorRemove 0) (test_handler (test_opened ++ [MonitorTimeout 0; MonitorPrint 0])) = Done () h' ∧
    h_monitors (test_handler (test_opened ++ [MonitorTimeout 0; MonitorPrint 0])) !! 0%nat = Some MonitorRemoving.
Proof.
  destruct (port_forward_never_panics "etcd-m" "kube-system" _ (MonitorRemove 0)
    (test_run (test_opened ++ [MonitorTimeout 0; MonitorPrint 0]))) as [h' Hh'].
  exists h'. split; [exact Hh'|vm_compute; reflexivity].
Defined.

Lemma forwarded_exactly_once_witness :
  (forwarded_times 0 (test_handler (test_opened ++ [ForwardStart 0])) +
   pending 0 (test_handler (test_opened ++ [ForwardStart 0])) = 1)%nat.
Proof.
  rewrite (proj1 (forwarded_exactly_once "etcd-m" "kube-system" _ (test_run (test_opened ++ [ForwardStart 0]))) 0%nat).
  vm_compute. reflexivity.
Defined.

Lemma port_forward_refines_matcher_witness :
  rtc matcher_step (mkMatcher [] []) (abs_matcher (test_handler (test_opened ++ [ForwardStart 0]))) ∧
  m_tunnels (abs_matcher (test_handler (test_opened ++ [ForwardStart 0]))) = [(test_dataStream, test_errorStream)].
Proof.
  split; [|vm_decide].
  apply (proj1 (port_forward_refines_matcher "etcd-m" "kube-system" _ (test_run (test_opened ++ [ForwardStart 0])))).
Defined.

Lemma test_received : h_received (test_handler test_opened) = [test_errorStream; test_dataStream].
Proof. vm_decide. Qed.
Lemma prompt_streams_are_forwarded_witness :
  ∃ h' p, rtc (pf_step prompt) (test_handler test_opened) h' ∧
    Forwarded p "etcd-m" "kube-system" "2379" test_dataStream ∈ h_effects h'.
Proof.
  destruct (prompt_streams_are_forwarded "etcd-m" "kube-system" (test_handler test_opened)
    test_dataStream test_errorStream) as (h' & p & Hst & _ & Hin).
  - exact test_prompt_run.
  - vm_compute. discriminate.
  - rewrite test_received. apply list_elem_of_further, list_elem_of_here.
  - rewrite test_received. apply list_elem_of_here.
  - vm_compute. reflexivity.
  - vm_compute. reflexivity.
  - vm_compute. reflexivity.
  - intros s. rewrite test_received. intros [->|[->|[]%elem_of_nil]%elem_of_cons]%elem_of_cons _ _; [by right|by left].
  - exists h', p. split; [exact Hst|]. exact Hin.
Defined.

Lemma old_clients_are_paired_witness :
  requestID (mkStream 5 {[StreamType := StreamTypeError]}) = requestID (mkStream 7 {[StreamType := StreamTypeData]}).
Proof.
  apply (old_clients_are_paired (mkStream 5 {[StreamType := StreamTypeError]})
    (mkStream 7 {[StreamType := StreamTypeData]})); vm_compute; try split; (reflexivity || discriminate).
Defined.
