(* ===== verification/Proxy.v ===== *)
(** * Port-forwarded connections: internal/server/proxy

    The client side of port forwarding: a [Dialer] opens a connection to the port forward
    of a pod, creates an error and a data stream on it, and hands out the data stream as
    a net.Conn.  The clientset, the transport and the streams are third-party code: the
    outcomes of their calls, and the numbers of streams, are the environment's. *)

From stdpp Require Import prelude gmap strings list.
From Stdlib Require Import ZArith Lia.
From S2P Require Import Prelude GoStd GoTime PortForward.
Local Open Scope Z_scope.

(** ** Data *)
Record Proxy := mkProxy {
  px_Kind : string;
  px_Namespace : string;
  px_ResourceName : string;
  (** a pointer: which of the configurations of the process, or nil *)
  px_KubeConfig : option nat;
  px_KeepAlive : option Duration;
  px_Port : Z }.

(** The third-party fields of the dialer only pass what [NewDialer] made to the calls. *)
Record Dialer := mkDialer { d_proxy : Proxy; d_timeout : Duration }.
Definition defaultTimeout : Duration := 10 * Second.
Definition scheme : string := "proxy".
(** portforward.PortForwardProtocolV1Name *)
Definition PortForwardProtocolV1Name : string := "portforward.k8s.io".

Record Conn := mkConn {
  c_connection : nat;
  c_stream : Stream;
  c_readDeadline : Time;
  c_writeDeadline : Time }.

Record Addr := mkAddr { a_port : string; a_identifier : Z }.

Inductive DialError :=
| PlainError (msg : string)
| Aggregate (errs : list string).

(** An httpstream.Connection: whose port forward it is of, the streams created on it,
    the streams closed, and whether Close was called.  A stream has the headers that
    were sent when it was created. *)
Record Connection := mkConnection {
  co_target : string * string * string;
  co_streams : list Stream;
  co_closedStreams : list Z;
  co_closed : bool }.

(** The process: the Timeout of each rest.Config, and the connections. *)
Record process := mkProcess {
  ps_calls : nat;
  ps_timeouts : gmap nat Duration;
  ps_conns : gmap nat Connection;
  ps_nextConn : nat }.
Definition ps_set_timeouts v w := mkProcess (ps_calls w) v (ps_conns w) (ps_nextConn w).
Definition ps_set_conns v w := mkProcess (ps_calls w) (ps_timeouts w) v (ps_nextConn w).
Abbreviation DP A := (Go process A).

(** kerrors.NewAggregate drops the nil errors; nil if there are no others. *)
Definition NewAggregate (errs : list (option string)) : option DialError :=
  match omap id errs with [] => None | errs => Some (Aggregate errs) end.
(** errors.Wrap *)
Definition Wrap (err msg : string) : string := msg +:+ ": " +:+ err.

Section proxy.
(** The error of the n-th call to third-party code, and the number that the n-th call
    gives to the stream it creates. *)
Context (outcome : nat → option string) (identifier : nat → Z).

Definition call : DP (option string) := λ w,
  Done (outcome (ps_calls w)) (mkProcess (S (ps_calls w)) (ps_timeouts w) (ps_conns w) (ps_nextConn w)).

(** ** dial.go *)
Definition setTimeout (duration : Duration) (d : Dialer) : Dialer * option string :=
  (mkDialer (d_proxy d) duration, None).
Definition DialTimeout (duration : Duration) : Dialer → Dialer * option string := setTimeout duration.

Fixpoint apply_options (options : list (Dialer → Dialer * option string)) (d : Dialer) : Dialer * option string :=
  match options with
  | [] => (d, None)
  | option :: options =>
      let '(d, err) := option d in
      match err with Some err => (d, Some err) | None => apply_options options d end
  end.

Definition NewDialer (p : Proxy) (options : list (Dialer → Dialer * option string)) : DP (option Dialer * option string) :=
  if decide (px_Port p = 0) then mret (None, Some "port required") else
  let '(dialer, err) := apply_options options (mkDialer p 0) in
  match err with
  | Some err => mret (None, Some err)
  | None =>
      let dialer := if decide (d_timeout dialer = 0) then mkDialer (d_proxy dialer) defaultTimeout else dialer in
      match px_KubeConfig p with
      | None => go_panic "nil pointer dereference: KubeConfig"
      | Some config =>
          _ ← go_modify (λ w, ps_set_timeouts (<[config := d_timeout dialer]> (ps_timeouts w)) w);
          err ← call;
          match err with
          | Some err => mret (None, Some err)
          | None =>
              err ← call;
              match err with
              | Some err => mret (None, Some err)
              | None => mret (Some dialer, None)
              end
          end
      end
  end.

(** dialer.Dial: a new connection, or an error. *)
Definition Dial (target : string * string * string) : DP (option nat * option string) :=
  err ← call;
  match err with
  | Some err => mret (None, Some err)
  | None =>
      w ← go_get;
      let c := ps_nextConn w in
      _ ← go_put (mkProcess (ps_calls w) (ps_timeouts w)
            (<[c := mkConnection target [] [] false]> (ps_conns w)) (S c));
      mret (Some c, None)
  end.
Definition update_conn (c : nat) (f : Connection → Connection) : DP () :=
  go_modify (λ w, ps_set_conns (alter f c (ps_conns w)) w).
Definition CreateStream (c : nat) (headers : gmap string string) : DP (option Stream * option string) :=
  w ← go_get;
  err ← call;
  match err with
  | Some err => mret (None, Some err)
  | None =>
      let s := mkStream (identifier (ps_calls w)) headers in
      _ ← update_conn c (λ co, mkConnection (co_target co) (co_streams co ++ [s]) (co_closedStreams co) (co_closed co));
      mret (Some s, None)
  end.
Definition Stream_Close (c : nat) (s : Stream) : DP (option string) :=
  err ← call;
  _ ← update_conn c (λ co, mkConnection (co_target co) (co_streams co) (co_closedStreams co ++ [st_Identifier s]) (co_closed co));
  mret err.
Definition Connection_Close (c : nat) : DP (option string) :=
  err ← call;
  _ ← update_conn c (λ co, mkConnection (co_target co) (co_streams co) (co_closedStreams co) true);
  mret err.

Definition NewConn (c : nat) (s : Stream) : Conn := mkConn c s 0 0.

Definition DialContext (d : Dialer) (addr : string) : DP (option Conn * option DialError) :=
  r ← Dial (px_Kind (d_proxy d), px_Namespace (d_proxy d), addr);
  match r with
  | (_, Some err) => mret (None, Some (PlainError (Wrap err "error upgrading connection")))
  | (None, None) => go_panic "nil pointer dereference: connection"
  | (Some connection, None) =>
      let headers := <[PortHeader := Itoa (px_Port (d_proxy d))]> (∅ : gmap string string) in
      let headers := <[PortForwardRequestIDHeader := "0"]> headers in
      let headers := <[StreamType := StreamTypeError]> headers in
      r ← CreateStream connection headers;
      match r with
      | (_, Some err) => cerr ← Connection_Close connection; mret (None, NewAggregate [Some err; cerr])
      | (None, None) => go_panic "nil pointer dereference: errorStream"
      | (Some errorStream, None) =>
          err ← Stream_Close connection errorStream;
          match err with
          | Some err => cerr ← Connection_Close connection; mret (None, NewAggregate [Some err; cerr])
          | None =>
              let headers := <[StreamType := StreamTypeData]> headers in
              r ← CreateStream connection headers;
              match r with
              | (_, Some err) =>
                  cerr ← Connection_Close connection;
                  mret (None, NewAggregate [Some (Wrap err "error creating forwarding stream"); cerr])
              | (None, None) => go_panic "nil pointer dereference: dataStream"
              | (Some dataStream, None) => mret (Some (NewConn connection dataStream), None)
              end
          end
      end
  end.
Definition DialContextWithAddr (d : Dialer) (addr : string) : DP (option Conn * option DialError) := DialContext d addr.

(** ** conn.go; Read and Write are those of the stream *)
Definition Conn_Close (c : Conn) : DP (option DialError) :=
  serr ← Stream_Close (c_connection c) (c_stream c);
  cerr ← Connection_Close (c_connection c);
  mret (NewAggregate [serr; cerr]).
Definition SetDeadline (t : Time) (c : Conn) : Conn := mkConn (c_connection c) (c_stream c) t t.
Definition SetWriteDeadline (t : Time) (c : Conn) : Conn := mkConn (c_connection c) (c_stream c) (c_readDeadline c) t.
Definition SetReadDeadline (t : Time) (c : Conn) : Conn := mkConn (c_connection c) (c_stream c) t (c_writeDeadline c).
End proxy.

(** ** addr.go *)
Definition NewAddrFromConn (c : Conn) : Addr :=
  mkAddr (Headers_Get (c_stream c) PortHeader) (st_Identifier (c_stream c)).
Definition LocalAddr (c : Conn) : Addr := NewAddrFromConn c.
Definition RemoteAddr (c : Conn) : Addr := NewAddrFromConn c.
Definition Addr_Network (a : Addr) : string := PortForwardProtocolV1Name.
Definition Addr_String (a : Addr) : string :=
  scheme +:+ "://" +:+ Itoa (a_identifier a) +:+ "." +:+ PortForwardProtocolV1Name +:+ ".local:" +:+ a_port a.
