(* ===== verification/ProxyFacts.v ===== *)
(** * Properties of port-forwarded connections

    A dial does not leak connections, and the connection it hands out is given, by the
    port forwarding of [PortForward.v], to the forwarder, with the port of the proxy. *)

From stdpp Require Import prelude gmap strings list relations.
From Stdlib Require Import ZArith Lia.
From S2P Require Import Prelude GoStd GoTime PortForward PortForwardFacts Proxy.
Local Open Scope Z_scope.

Section facts.
Context (outcome : nat → option string) (identifier : nat → Z).
Implicit Types w : process.

(** The headers of the streams of a dial. *)
Definition dial_headers (p : Proxy) (streamType : string) : gmap string string :=
  <[StreamType := streamType]> (<[PortForwardRequestIDHeader := "0"]> (<[PortHeader := Itoa (px_Port p)]> ∅)).
Lemma dial_headers_get p streamType n :
  Headers_Get (mkStream n (dial_headers p streamType)) StreamType = streamType ∧
  Headers_Get (mkStream n (dial_headers p streamType)) PortForwardRequestIDHeader = "0" ∧
  Headers_Get (mkStream n (dial_headers p streamType)) PortHeader = Itoa (px_Port p).
Proof. done. Qed.

(** How a dial ends: with the connection closed, or with both streams on it. *)
Definition dialed (d : Dialer) (addr : string) (others : gmap nat Connection) (c : nat)
    (r : option Conn * option DialError) (conns : gmap nat Connection) : Prop :=
  (∃ err, r = (None, Some err) ∧
     (conns = others ∨ ∃ co, conns = <[c := co]> others ∧ co_closed co = true)) ∨
  (∃ n m, let e := mkStream n (dial_headers (d_proxy d) StreamTypeError) in
     let s := mkStream m (dial_headers (d_proxy d) StreamTypeData) in
     r = (Some (NewConn c s), None) ∧
     conns = <[c := mkConnection (px_Kind (d_proxy d), px_Namespace (d_proxy d), addr) [e; s] [n] false]> others).

Lemma DialContext_dialed d addr w :
  ∃ r w', DialContext outcome identifier d addr w = Done r w' ∧
    dialed d addr (ps_conns w) (ps_nextConn w) r (ps_conns w').
Proof.
  unfold DialContext, Dial, CreateStream, Stream_Close, Connection_Close, call, update_conn.
  go_unfold.
  repeat (case_match; go_unfold; simplify_eq); do 2 eexists; (split; [reflexivity|]); cbn;
    rewrite ?alter_insert_eq; cbn.
  all: first [left; eexists; split; [reflexivity|]; by left
    | left; eexists; split; [reflexivity|]; right; by eexists
    | right; do 2 eexists; split; reflexivity].
Qed.

(** The last of the timeouts that were given. *)
Lemma apply_timeouts ds d :
  apply_options (DialTimeout <$> ds) d = (mkDialer (d_proxy d) (List.last ds (d_timeout d)), None).
Proof.
  revert d. induction ds as [|t ds IH]; intros d; [by destruct d|].
  change (apply_options (DialTimeout <$> t :: ds) d) with (apply_options (DialTimeout <$> ds) (mkDialer (d_proxy d) t)).
  rewrite IH. cbn. destruct ds as [|u ds]; [done|]. do 2 f_equal.
  clear. revert u. induction ds as [|v ds IH]; intros u; [done|apply (IH v)].
Qed.

(** C26: DialContext always returns, and an early return does not leak the connection: it
    gives an error after it has closed the connection that it may have opened.  If it
    succeeds the connection is open and has two streams, an error stream that is closed
    and the data stream that the net.Conn has; both have the request id 0 and the port of
    the proxy.  Other connections are left as they are. *)
Theorem dial_never_leaks d addr w :
  ∃ conn err w', DialContext outcome identifier d addr w = Done (conn, err) w' ∧
    (∀ c, c ≠ ps_nextConn w → ps_conns w' !! c = ps_conns w !! c) ∧
    match conn with
    | None => is_Some err ∧ (ps_conns w' = ps_conns w ∨
        ∃ co, ps_conns w' !! ps_nextConn w = Some co ∧ co_closed co = true)
    | Some c => err = None ∧ c_connection c = ps_nextConn w ∧ a_port (LocalAddr c) = Itoa (px_Port (d_proxy d)) ∧
        ∃ e, ps_conns w' !! c_connection c = Some (mkConnection
            (px_Kind (d_proxy d), px_Namespace (d_proxy d), addr) [e; c_stream c] [st_Identifier e] false) ∧
          Headers_Get e StreamType = StreamTypeError ∧ Headers_Get (c_stream c) StreamType = StreamTypeData ∧
          requestID e = "0" ∧ requestID (c_stream c) = "0"
    end.
Proof.
  destruct (DialContext_dialed d addr w) as ([conn err] & w' & Hd & Hcases). exists conn, err, w'. split; [done|].
  destruct Hcases as [(e & [= -> ->] & [Hc|(co & Hc & Hcl)])|(n & m & [= -> ->] & Hc)]; rewrite Hc.
  - split; [done|]. split; [done|by left].
  - split; [intros c Hne; by rewrite lookup_insert_ne|]. split; [done|]. right. exists co. by rewrite lookup_insert_eq.
  - split; [intros c Hne; by rewrite lookup_insert_ne|]. do 2 (split; [done|]).
    split; [done|]. exists (mkStream n (dial_headers (d_proxy d) StreamTypeError)). cbn. by rewrite lookup_insert_eq.
Qed.

(** C27: A dialed connection is given to the forwarder of the server once its streams
    arrive: when the port forwarding of the server has received exactly the streams of
    the connection, has not been stopped and runs without a timeout, the goroutines lead
    to a state where the forwarder was called with the data stream of the net.Conn and
    with the port of the proxy.  (What it does with the port is its own matter: the
    forwarder of the API server ignores it and dials the host of the request.) *)
Theorem dialed_port_is_forwarded d addr w conn w' co podName podNamespace h :
  DialContext outcome identifier d addr w = Done (Some conn, None) w' →
  ps_conns w' !! c_connection conn = Some co →
  pf_run prompt podName podNamespace h → h_run h ≠ RunStopped → h_received h = co_streams co →
  ∃ h' p, rtc (pf_step prompt) h h' ∧
    Forwarded p podName podNamespace (Itoa (px_Port (d_proxy d))) (c_stream conn) ∈ h_effects h'.
Proof.
  intros Hd Hco Hr Hns Hrec. destruct (DialContext_dialed d addr w) as (r & w1 & Hd1 & Hcases).
  rewrite Hd in Hd1. injection Hd1 as <- <-.
  destruct Hcases as [(e & [= ] & _)|(n & m & [= ->] & Hc)].
  rewrite Hc in Hco. cbn in Hco. rewrite lookup_insert_eq in Hco. injection Hco as <-. cbn in Hrec.
  set (e := mkStream n _) in *. set (s := mkStream m _) in *.
  destruct (streams_get_forwarded podName podNamespace h s e) as (h' & p & Hst & _ & Hin); [done..| | |done|done|done| |].
  - rewrite Hrec. apply list_elem_of_further, list_elem_of_here.
  - rewrite Hrec. apply list_elem_of_here.
  - intros x. rewrite Hrec. intros [->|[->|[]%elem_of_nil]%elem_of_cons]%elem_of_cons _ _; [by right|by left].
  - exists h', p. split; [done|]. exact Hin.
Qed.

(** The timeout of a dialer is the last that its options give, or ten seconds, and
    it is written into the configuration that the proxy points to, which the caller
    shares: also when the dialer then cannot be made. *)
Theorem dialer_timeout_is_shared p config (ds : list Duration) w :
  px_Port p ≠ 0 → px_KubeConfig p = Some config →
  let timeout := if decide (List.last ds 0 = 0) then defaultTimeout else List.last ds 0 in
  ∃ dialer err w', NewDialer outcome p (DialTimeout <$> ds) w = Done (dialer, err) w' ∧
    ps_timeouts w' = <[config := timeout]> (ps_timeouts w) ∧ ps_conns w' = ps_conns w ∧
    (err = None ↔ dialer = Some (mkDialer p timeout)) ∧
    (err = None ↔ outcome (ps_calls w) = None ∧ outcome (S (ps_calls w)) = None).
Proof using outcome.
  clear identifier.
  intros Hport Hconfig timeout. unfold NewDialer. rewrite decide_False by done.
  rewrite apply_timeouts, Hconfig. cbn [d_timeout d_proxy].
  assert (Ht : (if decide (List.last ds 0 = 0) then mkDialer p defaultTimeout
    else mkDialer p (List.last ds 0)) = mkDialer p timeout)
    by (unfold timeout; by destruct (decide (List.last ds 0 = 0))).
  rewrite Ht.
  unfold call. go_unfold. destruct (outcome (ps_calls w)) eqn:H1; go_unfold.
  { do 3 eexists. split; [reflexivity|]. do 2 (split; [done|]). split; split; naive_solver. }
  destruct (outcome (S (ps_calls w))) eqn:H2; go_unfold.
  { do 3 eexists. split; [reflexivity|]. do 2 (split; [done|]). split; split; naive_solver. }
  do 3 eexists. split; [reflexivity|]. do 2 (split; [done|]). split; split; naive_solver.
Qed.
End facts.

(** ** A concrete dial *)
Definition test_proxy : Proxy := mkProxy "pods" "kube-system" "etcd-m" (Some 0%nat) None 2379.
Definition test_process : process := mkProcess 0 ∅ ∅ 0.
Definition test_dial : res process (option Conn * option DialError) :=
  DialContext (λ _, None) Z.of_nat (mkDialer test_proxy defaultTimeout) "etcd-m" test_process.
Definition test_dialed : process := match test_dial with Done _ w => w | _ => test_process end.
Definition test_conn : Conn :=
  match test_dial with
  | Done (Some conn, _) _ => conn
  | _ => mkConn 0 test_dataStream 0 0
  end.
Lemma test_dial_eq : test_dial = Done (Some test_conn, None) test_dialed.
Proof. vm_compute. reflexivity. Qed.
Lemma test_dial_streams :
  co_streams <$> ps_conns test_dialed !! c_connection test_conn = Some [test_errorStream; test_dataStream].
Proof. vm_decide. Qed.

Lemma dialed_port_is_forwarded_witness :
  ∃ h' p, rtc (pf_step prompt) (test_handler test_opened) h' ∧
    Forwarded p "etcd-m" "kube-system" "2379" (c_stream test_conn) ∈ h_effects h'.
Proof.
  assert (Hs := test_dial_streams).
  destruct (ps_conns test_dialed !! c_connection test_conn) as [co|] eqn:Hco; [|discriminate Hs].
  injection Hs as Hs.
  destruct (dialed_port_is_forwarded (λ _, None) Z.of_nat (mkDialer test_proxy defaultTimeout) "etcd-m" test_process
    test_conn test_dialed co "etcd-m" "kube-system" (test_handler test_opened)) as (h' & p & Hst & Hin).
  - exact test_dial_eq.
  - exact Hco.
  - exact test_prompt_run.
  - vm_compute. discriminate.
  - rewrite Hs. exact test_received.
  - exists h', p. split; [exact Hst|exact Hin].
Defined.

Lemma dialer_timeout_is_shared_witness :
  ∃ dialer err w', NewDialer (λ _, None) test_proxy (DialTimeout <$> [Second; 2 * Second]) test_process = Done (dialer, err) w' ∧
    ps_timeouts w' = {[0%nat := 2 * Second]}.
Proof.
  destruct (dialer_timeout_is_shared (λ _, None) test_proxy 0 [Second; 2 * Second] test_process)
    as (dialer & err & w' & Hd & Ht & _).
  - discriminate.
  - reflexivity.
  - exists dialer, err, w'. split; [exact Hd|exact Ht].
Defined.
