(* ===== verification/EndToEnd.v ===== *)
(** * From the management cluster to the clients of a workload cluster

    The controllers, the mux, the cache and the API server together: what the two
    reconcilers make of a cluster and of its machines can be read over HTTP at the
    endpoint that the reconciliation reported, from the first control plane machine on,
    which starts the listener of the cluster. *)

From stdpp Require Import prelude gmap strings list relations.
From Stdlib Require Import ZArith Lia.
From S2P Require Import Prelude GoStd GoTime Api Runtime Cache CacheFacts CacheStore TestEnv EventSource Controller Mux MuxFacts MuxRestart Management ClusterController MachineController MachineFacts ApiServer ApiFacts.
Local Open Scope Z_scope.

(** Any object can be converted into an unstructured one. *)
Class ToUnstructured (E : Env) : Prop :=
  convert_unstructured : ∀ src dst content, obj_body dst = Unstructured content → ∃ out, scheme_Convert src dst = inl out.
#[export] Instance test_to_unstructured : ToUnstructured test_env.
Proof. intros src dst content Hd. cbn. unfold test_Convert. rewrite Hd. by eexists. Qed.

Section facts.
Context {E : Env} {L : EnvLaws E} {CS : CloudScheme E} {TU : ToUnstructured E}.
Context {R : Restful} {AL : ApiLaws E R} {N : Net} {M : Management N}.
Implicit Types w : world.

(** The mux listens at an address: it started a listener there. *)
Definition listening w (addr : string) : Prop := ∃ n wcl,
  workloadClusterListeners (w_APIServerMux w) !! n = Some wcl ∧ HostPort wcl = addr ∧ serving wcl.

(** The mux listens at an address, and a Get of the path of an object that is sent there
    is answered with the object. *)
Definition shows w (addr group namespace resource name : string) (gvk : GroupVersionKind) : Prop :=
  listening w addr ∧
  ∃ shown, ServeHTTP (resourceGroupResolver (w_APIServerMux w)) 0
      (get_request addr group namespace resource name) (w_cache w) =
      Done [WroteEntity StatusOK (EObject shown)] (w_cache w) ∧
    obj_gvk shown = gvk ∧ ObjectKeyFromObject shown = NN namespace name.

Lemma present_shows w rg addr group namespace resource name gvk :
  group_ok rg (w_cache w) → resourceGroupResolver (w_APIServerMux w) addr = inl rg → listening w addr →
  api_kind group "v1" resource = Some gvk → name ≠ "" →
  present (w_cache w) rg gvk (NN namespace name) → shows w addr group namespace resource name gvk.
Proof.
  intros (Hrg & Hwf & _) Hres Hlisten Hk Hname (o & t & Ht & Ho). split; [done|].
  destruct (serve_get (resourceGroupResolver (w_APIServerMux w)) 0 addr group namespace resource name rg gvk
    (w_cache w) Hres Hk) as (ps & Hn & Htg & Hserve).
  destruct (Hwf _ _ Ht) as [Hobjs _]. destruct (Hobjs _ _ _ Ho) as [Hgvk Hkey _ _ _].
  assert (Hreq : requested_key ps = NN namespace name).
  { unfold requested_key. by rewrite (nm_name _ _ _ _ _ Hn), (nm_namespace _ _ _ _ _ Hn). }
  destruct (convert_unstructured o (requested_object gvk ps) "" eq_refl) as [out Hout].
  exists (SetGroupVersionKind gvk out). split; [|split; [done|]].
  - rewrite Hserve. apply (apiV1Get_tracked _ _ ps rg gvk t o); try done.
    + by rewrite (nm_name _ _ _ _ _ Hn).
    + by rewrite Hreq.
  - apply convert_meta in Hout. rewrite <- Hkey. unfold ObjectKeyFromObject, GetName, GetNamespace.
    change (obj_meta (SetGroupVersionKind gvk out)) with (obj_meta out). by rewrite Hout.
Qed.

(** The endpoint of a cluster keeps resolving to it while machines are provisioned. *)
Lemma resolver_later host rg wcl w w' :
  mux_reachable host (w_APIServerMux w) → workloadClusterListeners (w_APIServerMux w) !! rg = Some wcl →
  later w w' → resourceGroupResolver (w_APIServerMux w') (HostPort wcl) = inl rg.
Proof.
  intros Hreach Hl [_ Hlater]. destruct (ml_address _ _ Hlater rg wcl Hl) as (wcl' & Hl' & Hh & Hp).
  apply (ml_reachable _ _ Hlater) in Hreach. destruct (mux_reachable_fresh _ _ Hreach) as [[_ _ Hb _] _ _ _ _ _].
  assert (Haddr : HostPort wcl' = HostPort wcl) by (unfold HostPort; by rewrite Hh, Hp).
  unfold resourceGroupResolver. by rewrite (proj2 (Hb _ rg) (ex_intro _ wcl' (conj Hl' Haddr))).
Qed.

Lemma AddResourceGroup_wf rg (c c' : ccache) :
  AddResourceGroup rg c = Done () c' → wf_cache c → wf_cache c'.
Proof.
  unfold AddResourceGroup. rewrite go_bind_eq. cbn [go_get]. intros Hrun Hwf.
  destruct (resourceGroups c !! rg) as [t|]; injection Hrun as <-; [done|].
  intros rg' u. cbn. intros [[_ <-]|[_ Hu]]%lookup_insert_Some; [|by eapply Hwf].
  split; [by intros gvk key obj Htr|by intros r s Hs].
Qed.

Lemma cluster_reconcileNormal_wf cluster c w r w' :
  cluster_reconcileNormal cluster c w = Done r w' → wf_cache (w_cache w) → wf_cache (w_cache w').
Proof.
  unfold cluster_reconcileNormal. intros Hrun Hwf.
  destruct (om_Annotations (gc_Meta c)) as [annotations|]; [|done].
  destruct (AddResourceGroup_is_Some (KObj_String (cl_Meta cluster)) (w_cache w)) as (c' & Hadd & _).
  change (on_manager (Manager_AddResourceGroup ?rg)) with (on_cloud (AddResourceGroup rg)) in Hrun.
  rewrite go_bind_eq, (on_cloud_Done _ w () c' Hadd), go_bind_eq in Hrun.
  assert (Hwf' := AddResourceGroup_wf _ _ _ Hadd Hwf).
  unfold on_mux, on_part in Hrun. case_hyp Hrun; [|done..]. case_hyp Hrun; injection Hrun as _ <-; done.
Qed.

(** Nobody listens at the address of a cluster whose listener was not started. *)
Lemma idle_not_listening host rg wcl w :
  mux_reachable host (w_APIServerMux w) → workloadClusterListeners (w_APIServerMux w) !! rg = Some wcl →
  wcl_listener wcl = None → ¬ listening w (HostPort wcl).
Proof.
  intros Hreach Hl Hnone (n & v & Hv & Haddr & (l & i & j & Hs & _)).
  destruct (mux_reachable_fresh _ _ Hreach) as [[_ _ Hb _] _ _ _ _ _].
  assert (Hn : workloadClusterNameByHost (w_APIServerMux w) !! HostPort wcl = Some rg) by (apply Hb; eauto).
  assert (Hn' : workloadClusterNameByHost (w_APIServerMux w) !! HostPort wcl = Some n) by (apply Hb; eauto).
  assert (n = rg) as -> by congruence. congruence.
Qed.

(** ** The machines of a cluster, one after the other *)
Fixpoint machine_reconcileAll (cluster : Cluster) (l : list (Machine * GoofyMachine))
  : Go world (list (GoofyMachine * (Result * option GoError))) :=
  match l with
  | [] => mret []
  | (machine, gm) :: l =>
      r ← machine_reconcileNormal cluster machine gm;
      rs ← machine_reconcileAll cluster l;
      mret (r :: rs)
  end.

Definition node_of_machine rg w (p : Machine * GoofyMachine) : Prop :=
  present (w_cache w) rg (corev1_gvk "Node") (NN "" (om_Name (gm_Meta p.2))).

Lemma workers_reconciled cluster l : ∀ w,
  let rg := KObj_String (cl_Meta cluster) in
  (∀ p, p ∈ l → can_provision cluster p.1 ∧ util_IsControlPlaneMachine p.1 = false) → group_ok rg (w_cache w) →
  ∃ w', machine_reconcileAll cluster l w = Done ((λ p, (provisioned_machine p.2, (zeroResult, None))) <$> l) w' ∧
    group_ok rg (w_cache w') ∧ keeps_objects (w_cache w) (w_cache w') ∧
    w_APIServerMux w' = w_APIServerMux w ∧ ∀ p, p ∈ l → node_of_machine rg w' p.
Proof.
  induction l as [|[machine gm] l IH]; intros w rg Hall Hok.
  { exists w. do 2 (split; [done|]). split; [done|]. split; [done|]. by intros p ?%elem_of_nil. }
  destruct (Hall (machine, gm)) as [Hcan Hworker]; [by left|]. cbn [fst] in Hcan, Hworker.
  destruct (machine_reconcileNormal_eq cluster machine gm w Hcan Hok) as (c1 & Hok1 & Hk & [_ Hp] & _ & Hrun).
  rewrite Hworker in Hrun. cbn [negb] in Hrun.
  destruct (IH (with_cache c1 w)) as (w' & Hrun' & Hok' & Hk' & Hm & Hn); [by intros; apply Hall; right|done|].
  exists w'. cbn [machine_reconcileAll]. rewrite go_bind_eq, Hrun, go_bind_eq, Hrun'. split; [done|].
  split; [done|]. split; [etrans; [exact Hk|exact Hk']|]. split; [done|].
  intros p [->|Hp']%elem_of_cons; [|by apply Hn]. by eapply present_keeps.
Qed.

(** What a new cluster and its machines become over HTTP, in a world that has a mux
    with a port left and a well-formed cache. *)
Definition serves w : Prop := ∀ cluster c annotations workers machine gm,
  let rg := KObj_String (cl_Meta cluster) in
  let name := om_Name (gm_Meta gm) in
  let rbac := "rbac.authorization.k8s.io" in
  workloadClusterListeners (w_APIServerMux w) !! rg = None →
  om_Annotations (gc_Meta c) = Some annotations → hr_host c = "" → rg ≠ "" →
  (∀ p, p ∈ (machine, gm) :: workers → can_provision cluster p.1 ∧ om_Name (gm_Meta p.2) ≠ "") →
  (∀ p, p ∈ workers → util_IsControlPlaneMachine p.1 = false) → util_IsControlPlaneMachine machine = true →
  ∃ c' w1 w2,
    cluster_reconcileNormal cluster c w = Done (c', (zeroResult, None)) w1 ∧
    machine_reconcileAll cluster workers w1 =
      Done ((λ p, (provisioned_machine p.2, (zeroResult, None))) <$> workers) w2 ∧
    let addr := HostPort_of (hr_host c') (hr_port c') in
    ¬ listening w2 addr ∧
    ((∃ err w3, machine_reconcileNormal cluster machine gm w2 = Done (provisioned_machine gm, (zeroResult, err)) w3 ∧
       (err = None →
        (∀ p, p ∈ (machine, gm) :: workers →
           shows w3 addr "" "" "nodes" (om_Name (gm_Meta p.2)) (corev1_gvk "Node")) ∧
        (∀ pod, pod ∈ ["etcd-"; "kube-apiserver-"; "kube-scheduler-"; "kube-controller-manager-"] →
           shows w3 addr "" NamespaceSystem "pods" (pod +:+ name) (corev1_gvk "Pod")) ∧
        shows w3 addr rbac "" "clusterroles" "kubeadm:get-nodes" (rbacv1_gvk "ClusterRole") ∧
        shows w3 addr rbac "" "clusterrolebindings" "kubeadm:get-nodes" (rbacv1_gvk "ClusterRoleBinding") ∧
        shows w3 addr "" NamespaceSystem "configmaps" "kubeadm-config" (corev1_gvk "ConfigMap"))) ∨
     ((∃ msg, machine_reconcileNormal cluster machine gm w2 = Panicked msg) ∧ not_rsa cluster)).

(** A control plane machine that was provisioned without an error has started the
    listener of its cluster, if it was not. *)
Lemma control_plane_listens cluster machine gm w r w' :
  let rg := KObj_String (cl_Meta cluster) in
  machine_reconcileNormal cluster machine gm w = Done (r, (zeroResult, None)) w' →
  can_provision cluster machine → util_IsControlPlaneMachine machine = true → group_ok rg (w_cache w) →
  idle rg (w_APIServerMux w) → up rg (w_APIServerMux w').
Proof.
  intros rg Hrun Hcan Hcp Hok Hidle.
  destruct (machine_reconcileNormal_eq cluster machine gm w Hcan Hok) as (c1 & _ & _ & _ & _ & Heq).
  rewrite Heq, Hcp in Hrun. cbn [negb] in Hrun. apply go_bind_Done_inv in Hrun as (err & w1 & Hp & [= _ -> ->]).
  by eapply provisionControlPlane_up.
Qed.

Lemma world_serves host w :
  mux_reachable host (w_APIServerMux w) → wf_cache (w_cache w) →
  mx_portIndex (w_APIServerMux w) <= maxPort → serves w.
Proof.
  intros Hreach Hwf Hport cluster c annotations workers machine gm rg name rbac Hfresh Ha Hnew Hrg Hall Hworkers Hcp.
  destruct (cluster_reconcileNormal_new host cluster c annotations w Hreach Ha Hnew Hport)
    as (c' & w1 & wcl & Hrun & Hc' & Hgroup & _ & _ & Hreach1 & Hl & Hwh & _ & _ & Hidle & _).
  fold rg in Hgroup, Hl, Hidle. destruct (Hidle Hfresh) as [Hnone Hapi].
  assert (Hok1 : group_ok rg (w_cache w1)) by (split; [done|split; [by eapply cluster_reconcileNormal_wf|done]]).
  destruct (workers_reconciled cluster workers w1) as (w2 & Hrun2 & Hok2 & _ & Hm2 & Hnodes);
    [intros p Hp; split; [by apply Hall; right|by apply Hworkers]|exact Hok1|]. fold rg in Hok2, Hnodes.
  rewrite <- Hm2 in Hreach1, Hl. exists c', w1, w2. split; [exact Hrun|]. split; [exact Hrun2|]. intros addr.
  assert (Heq : addr = HostPort wcl) by (unfold addr, hr_host, hr_port, HostPort; by rewrite Hc', Hwh).
  clearbody addr. subst addr. split; [by eapply idle_not_listening|].
  destruct (Hall (machine, gm)) as [Hcan Hname]; [by left|]. cbn [fst snd] in Hcan, Hname.
  destruct (control_plane_outcome cluster machine gm w2 Hcan Hcp Hok2)
    as [(err & w3 & Hrun3 & Hok3 & Hlater & [_ Hnode] & Hprov)|Hpanic]; [left|by right].
  fold rg name in Hok3, Hnode, Hprov. exists err, w3. split; [exact Hrun3|]. intros ->.
  assert (Hres : resourceGroupResolver (w_APIServerMux w3) (HostPort wcl) = inl rg) by (by eapply resolver_later).
  assert (Hlisten : listening w3 (HostPort wcl)).
  { destruct (control_plane_listens _ _ _ _ _ _ Hrun3 Hcan Hcp Hok2) as (wcl3 & Hl3 & Hs); [by exists wcl|].
    destruct (ml_address _ _ (la_mux _ _ Hlater) rg wcl Hl) as (v & Hv & Hh & Hp).
    assert (v = wcl3) as -> by (fold rg in Hl3; congruence). exists rg, wcl3. split; [done|]. split; [|done].
    unfold HostPort. by rewrite Hh, Hp. }
  assert (Hshow := λ group namespace resource n gvk,
    present_shows w3 rg (HostPort wcl) group namespace resource n gvk Hok3 Hres Hlisten).
  destruct (Hprov eq_refl) as (_ & _ & H1 & H2 & H3 & H4 & H5 & H6 & H7). split; [|split; [|split; [|split]]].
  - intros p Hp. destruct (Hall p Hp) as [_ Hn]. apply elem_of_cons in Hp as [->|Hp]; apply Hshow; try done.
    eapply present_later; [exact Hlater|]. by apply Hnodes.
  - intros pod. rewrite !elem_of_cons, elem_of_nil.
    intros [->|[->|[->|[->|[]]]]]; by apply Hshow.
  - by apply Hshow.
  - by apply Hshow.
  - by apply Hshow.
Qed.

(** C9: From the management cluster to HTTP: when a new cluster, which has a map of
    annotations and no endpoint, is reconciled, on a mux with a port left that has no
    listener for it and with a well-formed cache, then any number of worker machines of
    it and then a control plane machine, where the cluster has its infrastructure, the
    machines have their bootstrap data, and no name is empty, then nobody listens at the endpoint in the reconciled GoofyCluster before the control
    plane machine; and if that machine is provisioned without an error, a listener was
    started there, and it answers over HTTP for the nodes of all these machines, the
    pods of the control plane machine, the kubeadm role and its binding, and the
    kubeadm config map.  The reconciliation of the control plane machine returns, unless
    the key of a CA of the cluster is decoded to a key other than RSA. *)
Theorem reconciled_machine_is_served host cluster c annotations workers machine gm w :
  let rg := KObj_String (cl_Meta cluster) in
  let name := om_Name (gm_Meta gm) in
  let rbac := "rbac.authorization.k8s.io" in
  mux_reachable host (w_APIServerMux w) → wf_cache (w_cache w) →
  mx_portIndex (w_APIServerMux w) <= maxPort →
  workloadClusterListeners (w_APIServerMux w) !! rg = None →
  om_Annotations (gc_Meta c) = Some annotations → hr_host c = "" → rg ≠ "" →
  (∀ p, p ∈ (machine, gm) :: workers → can_provision cluster p.1 ∧ om_Name (gm_Meta p.2) ≠ "") →
  (∀ p, p ∈ workers → util_IsControlPlaneMachine p.1 = false) → util_IsControlPlaneMachine machine = true →
  ∃ c' w1 w2,
    cluster_reconcileNormal cluster c w = Done (c', (zeroResult, None)) w1 ∧
    machine_reconcileAll cluster workers w1 =
      Done ((λ p, (provisioned_machine p.2, (zeroResult, None))) <$> workers) w2 ∧
    let addr := HostPort_of (hr_host c') (hr_port c') in
    ¬ listening w2 addr ∧
    ((∃ err w3, machine_reconcileNormal cluster machine gm w2 = Done (provisioned_machine gm, (zeroResult, err)) w3 ∧
       (err = None →
        (∀ p, p ∈ (machine, gm) :: workers →
           shows w3 addr "" "" "nodes" (om_Name (gm_Meta p.2)) (corev1_gvk "Node")) ∧
        (∀ pod, pod ∈ ["etcd-"; "kube-apiserver-"; "kube-scheduler-"; "kube-controller-manager-"] →
           shows w3 addr "" NamespaceSystem "pods" (pod +:+ name) (corev1_gvk "Pod")) ∧
        shows w3 addr rbac "" "clusterroles" "kubeadm:get-nodes" (rbacv1_gvk "ClusterRole") ∧
        shows w3 addr rbac "" "clusterrolebindings" "kubeadm:get-nodes" (rbacv1_gvk "ClusterRoleBinding") ∧
        shows w3 addr "" NamespaceSystem "configmaps" "kubeadm-config" (corev1_gvk "ConfigMap"))) ∨
     ((∃ msg, machine_reconcileNormal cluster machine gm w2 = Panicked msg) ∧ not_rsa cluster)).
Proof.
  intros rg name rbac Hreach Hwf Hport. by apply (world_serves host).
Qed.
End facts.

(** ** A management cluster with machines of both kinds: the one named "cp" is of the
    control plane *)
Section witness.
Let N : Net := test_net.
Local Existing Instance N.
Definition mixed_management : Management test_net :=
  let T := test_management [] [] true in {|
    client_Get_GoofyCluster := client_Get_GoofyCluster;
    client_Get_GoofyMachine := client_Get_GoofyMachine;
    client_List_GoofyClusters := client_List_GoofyClusters;
    client_List_Machines := client_List_Machines;
    util_GetOwnerCluster := util_GetOwnerCluster;
    util_GetOwnerMachine := util_GetOwnerMachine;
    util_GetClusterFromMetadata := util_GetClusterFromMetadata;
    util_IsControlPlaneMachine m := bool_decide (om_Name (ma_Meta m) = "cp");
    conditions_IsTrue := conditions_IsTrue;
    annotations_IsPaused := annotations_IsPaused;
    clog_AddOwners := clog_AddOwners;
    patch_NewHelper := patch_NewHelper;
    patch_Patch := patch_Patch;
    ContainsFinalizer := ContainsFinalizer;
    AddFinalizer := AddFinalizer;
    RemoveFinalizer := RemoveFinalizer;
    secret_Get := secret_Get;
    DecodeCertPEM := DecodeCertPEM;
    DecodePrivateKeyPEM := DecodePrivateKeyPEM;
    rand_Uint32 := rand_Uint32;
    local_offset := local_offset |}.
Local Existing Instance mixed_management.

Lemma mixed_not_rsa cluster : ¬ not_rsa cluster.
Proof. intros (n & purpose & data & pem & _ & _ & _ & Hkey). discriminate Hkey. Qed.

Definition test_pair (name : string) : Machine * GoofyMachine := (test_owner_machine name, test_machine name).

Lemma reconciled_machine_is_served_witness :
  ∃ addr w3, shows w3 addr "" "" "nodes" "cp" (corev1_gvk "Node") ∧
    shows w3 addr "" "" "nodes" "worker" (corev1_gvk "Node") ∧
    shows w3 addr "" NamespaceSystem "pods" "etcd-cp" (corev1_gvk "Pod").
Proof.
  assert (Hok : match cluster_reconcileNormal (unreconciled "c").1 (unreconciled "c").2 (test_world test_mux3) with
    | Done _ w1 =>
        match machine_reconcileAll (unreconciled "c").1 [test_pair "worker"] w1 with
        | Done _ w2 =>
            match machine_reconcileNormal (unreconciled "c").1 (test_owner_machine "cp") (test_machine "cp") w2 with
            | Done (_, (_, None)) _ => true
            | _ => false
            end
        | _ => false
        end
    | _ => false
    end = true) by (by vm_compute).
  destruct (reconciled_machine_is_served "10.0.0.1" (unreconciled "c").1 (unreconciled "c").2 ∅ [test_pair "worker"]
    (test_owner_machine "cp") (test_machine "cp") (test_world test_mux3))
    as (c' & w1 & w2 & Hrun1 & Hrun2 & _ & [(err & w3 & Hrun3 & Hserved)|[_ Hkey]]).
  - exact test_mux_reachable.
  - intros rg t Ht. discriminate Ht.
  - exact test_mux_port.
  - vm_decide.
  - reflexivity.
  - reflexivity.
  - discriminate.
  - intros p. rewrite !elem_of_cons, elem_of_nil. intros [->|[->|[]]];
      (split; [split; [reflexivity|by eexists]|discriminate]).
  - intros p ->%list_elem_of_singleton. reflexivity.
  - reflexivity.
  - rewrite Hrun1, Hrun2, Hrun3 in Hok. destruct err as [err|]; [discriminate Hok|].
    destruct (Hserved eq_refl) as (Hnodes & Hpods & _). eexists. exists w3.
    split; [apply (Hnodes (test_owner_machine "cp", test_machine "cp")); left|].
    split; [apply (Hnodes (test_pair "worker")); right; left|].
    apply (Hpods "etcd-"). apply list_elem_of_here.
  - exact (False_ind _ (mixed_not_rsa _ Hkey)).
Defined.
End witness.
