(* ===== verification/Startup.v ===== *)
(** * The start of the program: main.go

    Flags, schemes, the set-up of the managers, the reconcilers and the webhooks, up to
    the start of the manager of controller-runtime.  The calls of the libraries are
    inputs: the class [Platform] says which of them fail.  Calls that configure the
    manager are recorded in order. *)

From stdpp Require Import prelude gmap strings list relations.
From Stdlib Require Import ZArith QArith_base Lia.
From S2P Require Import Prelude GoStd GoTime Api Runtime Cache CacheFacts CacheStore TestEnv EventSource Controller Mux.
From S2P Require Import MuxFacts MuxRestart Management ClusterController MachineController MachineFacts ApiServer ApiFacts EndToEnd.
Local Open Scope Z_scope.

(** ** Flags: the variables and InitFlags with their defaults *)
Record Flags := mkFlags {
  fl_metricsBindAddr : string;
  fl_enableLeaderElection : bool;
  fl_leaderElectionLeaseDuration : Duration;
  fl_leaderElectionRenewDeadline : Duration;
  fl_leaderElectionRetryPeriod : Duration;
  fl_watchNamespace : string;
  fl_watchFilterValue : string;
  fl_profilerAddress : string;
  fl_clusterConcurrency : Z;
  fl_machineConcurrency : Z;
  fl_syncPeriod : Duration;
  fl_restConfigQPS : Q;
  fl_restConfigBurst : Z;
  fl_webhookPort : Z;
  fl_webhookCertDir : string;
  fl_healthAddr : string }.
Definition InitFlags : Flags := {|
  fl_metricsBindAddr := "localhost:8080";
  fl_enableLeaderElection := false;
  fl_leaderElectionLeaseDuration := 15 * Second;
  fl_leaderElectionRenewDeadline := 10 * Second;
  fl_leaderElectionRetryPeriod := 2 * Second;
  fl_watchNamespace := "";
  fl_watchFilterValue := "";
  fl_profilerAddress := "";
  fl_clusterConcurrency := 10;
  fl_machineConcurrency := 10;
  fl_syncPeriod := 10 * Minute;
  fl_restConfigQPS := 20 # 1;
  fl_restConfigBurst := 30;
  fl_webhookPort := 9443;
  fl_webhookCertDir := "/tmp/k8s-webhook-server/serving-certs/";
  fl_healthAddr := ":9440" |}.

(** ** Schemes: the kinds that init adds to the two schemes; those of the libraries are
    given *)
Definition add_kinds (group version : string) (kinds : list string) (s : list GroupVersionKind) : list GroupVersionKind :=
  s ++ (GVK group version <$> kinds).
Definition infrav1_AddToScheme : list GroupVersionKind → list GroupVersionKind :=
  add_kinds "infrastructure.cluster.x-k8s.io" "v1alpha1"
    ["GoofyCluster"; "GoofyClusterList"; "GoofyMachine"; "GoofyMachineList"; "GoofyMachineTemplate"; "GoofyMachineTemplateList"].
Definition cloudv1_AddToScheme : list GroupVersionKind → list GroupVersionKind :=
  add_kinds "virtual.cluster.x-k8s.io" "v1alpha1" ["CloudMachine"; "CloudMachineList"].
Definition init (clientgo clusterv1 corev1 rbacv1 : list GroupVersionKind) : list GroupVersionKind * list GroupVersionKind :=
  (infrav1_AddToScheme (clientgo ++ clusterv1), cloudv1_AddToScheme [] ++ corev1 ++ rbacv1).

(** ** The configuration of controller-runtime *)
Record restConfig := mkRestConfig { rest_QPS : Q; rest_Burst : Z }.
Record ManagerOptions := mkManagerOptions {
  mo_MetricsBindAddress : string;
  mo_LeaderElection : bool;
  mo_LeaderElectionID : string;
  mo_LeaseDuration : Duration;
  mo_RenewDeadline : Duration;
  mo_RetryPeriod : Duration;
  mo_HealthProbeBindAddress : string;
  mo_PprofBindAddress : string;
  mo_CacheNamespaces : goslice string;
  mo_CacheSyncPeriod : Duration;
  mo_CacheDisableFor : list string;
  mo_WebhookPort : Z;
  mo_WebhookCertDir : string }.

(** How an object that is watched is mapped to requests. *)
Inductive MapFunc :=
| ClusterToInfrastructureMapFunc (kind : string)
| MachineToInfrastructureMapFunc (kind : string)
| GoofyClusterToGoofyMachinesFunc
| ClusterToObjectsFunc (list_kind : string).
Record WatchSetup := mkWatchSetup { ws_object : string; ws_map : MapFunc; ws_predicates : list string }.
(** ctrl.NewControllerManagedBy(mgr) and its methods; the event filter of
    ResourceNotPausedAndHasFilterLabel has the label value. *)
Record ControllerSetup := mkControllerSetup {
  cs_For : string; cs_MaxConcurrentReconciles : Z; cs_WatchFilterValue : string; cs_Watches : list WatchSetup }.

(** The outcomes of library calls: [None] is success. *)
Class Platform (N : Net) := {
  POD_IP : string;
  (** net.Listen for the debug server of the mux *)
  debug_Listen : string → NetListener + string;
  ValidateAndApply_err : option string;
  GetConfig_err : option string;
  GetTLSOptionOverrideFuncs_err : option string;
  NewManager_err : restConfig → ManagerOptions → option string;
  AddReadyzCheck_err : option string;
  AddHealthzCheck_err : option string;
  ClusterToObjectsMapper_err : option string;
  Complete_err : ControllerSetup → option string;
  WebhookComplete_err : string → option string;
  (** mgr.Start, when it ends *)
  Start_err : option string;
  (** the workers of the cloud manager come up in time *)
  gcWorkers_up : bool; syncLoop_up : bool; syncWorkers_up : bool }.

Section startup.
Context {E : Env} {N : Net} {M : Management N} {P : Platform N}.

Inductive Event :=
| ManagerCreated (c : restConfig) (o : ManagerOptions)
| ReadyzCheckAdded (name : string)
| HealthzCheckAdded (name : string)
| ControllerAdded (c : ControllerSetup)
| WebhookAdded (kind : string)
| ManagerStarted.
(** [pr_panics] is the number of events before a goroutine was started that panics. *)
Record process := mkProcess {
  pr_events : list Event; pr_world : option world; pr_panics : option nat }.

(** A step of the start: it goes on, or logs a message and exits with status 1. *)
Definition Setup (A : Type) : Type := process → (A + string) * process.
Definition setup_ret {A} (a : A) : Setup A := λ p, (inl a, p).
Definition setup_bind {A B} (m : Setup A) (k : A → Setup B) : Setup B := λ p,
  match m p with (inl a, p) => k a p | (inr msg, p) => (inr msg, p) end.
Definition exit_on (err : option string) (msg : string) : Setup () := λ p,
  match err with None => (inl (), p) | Some _ => (inr msg, p) end.
Definition record_event (e : Event) : Setup () := λ p, (inl (), mkProcess (pr_events p ++ [e]) (pr_world p) (pr_panics p)).
Local Notation "m ;;; k" := (setup_bind m (λ _, k)) (at level 100, right associativity).

Definition setupChecks : Setup () :=
  exit_on AddReadyzCheck_err "unable to create ready check";;;
  record_event (ReadyzCheckAdded "webhook");;;
  exit_on AddHealthzCheck_err "unable to create health check";;;
  record_event (HealthzCheckAdded "webhook").
Definition setupIndexes : Setup () := setup_ret ().

Definition concurrency (c : Z) : Z := c.

(** The two SetupWithManager of internal/controllers, which those of controllers/alias.go
    forward to: an error of Complete is wrapped. *)
Definition add_controller (c : ControllerSetup) : process → option string * process := λ p,
  match Complete_err c with
  | Some err => (Some ("failed setting up with a controller manager: " +:+ err), p)
  | None => (None, mkProcess (pr_events p ++ [ControllerAdded c]) (pr_world p) (pr_panics p))
  end.
Definition cluster_SetupWithManager (WatchFilterValue : string) (options : Z)
  : process → option string * process :=
  add_controller (mkControllerSetup "GoofyCluster" options WatchFilterValue
    [mkWatchSetup "Cluster" (ClusterToInfrastructureMapFunc "GoofyCluster") ["ClusterUnpaused"]]).
Definition machine_SetupWithManager (WatchFilterValue : string) (options : Z)
  : process → option string * process := λ p,
  match ClusterToObjectsMapper_err with
  | Some err => (Some err, p)
  | None =>
      add_controller (mkControllerSetup "GoofyMachine" options WatchFilterValue
        [mkWatchSetup "Machine" (MachineToInfrastructureMapFunc "GoofyMachine") [];
         mkWatchSetup "GoofyCluster" GoofyClusterToGoofyMachinesFunc [];
         mkWatchSetup "Cluster" (ClusterToObjectsFunc "GoofyMachineList") ["ClusterUnpausedAndInfrastructureReady"]]) p
  end.
Definition alias_cluster_SetupWithManager := cluster_SetupWithManager.
Definition alias_machine_SetupWithManager := machine_SetupWithManager.

(** if err := ...SetupWithManager(...); err != nil { log; exit } *)
Definition exit_on_setup (m : process → option string * process) (msg : string) : Setup () := λ p,
  match m p with (err, p) => exit_on err msg p end.

Definition setupReconcilers (f : Flags) : Setup () :=
  setup_bind (λ p,
    match Manager_Start false gcWorkers_up syncLoop_up syncWorkers_up (λ _, true) Manager_New with
    | Done None cloudMgr => (inl cloudMgr, p)
    | Done (Some _) _ => (inr "unable to start a cloud manager", p)
    | Panicked msg => (inr msg, p)
    | OutOfFuel => (inr "", p)
    end) (λ cloudMgr,
  (λ p, (inl (), mkProcess (pr_events p)
    (Some (mkWorld cloudMgr (NewWorkloadClustersMux POD_IP) false [] 0))
    (match debugServer_Serve (debug_Listen (HostPort_of POD_IP debugPort)) with
     | None => pr_panics p
     | Some _ => Some (length (pr_events p))
     end)));;;
  exit_on_setup (alias_cluster_SetupWithManager (fl_watchFilterValue f) (concurrency (fl_clusterConcurrency f)))
    "unable to create controller GoofyCluster";;;
  exit_on_setup (alias_machine_SetupWithManager (fl_watchFilterValue f) (concurrency (fl_machineConcurrency f)))
    "unable to create controller GoofyMachine").

(** SetupWebhookWithManager of the three types. *)
Definition SetupWebhookWithManager (kind : string) : process → option string * process := λ p,
  match WebhookComplete_err kind with
  | Some err => (Some err, p)
  | None => (None, mkProcess (pr_events p ++ [WebhookAdded kind]) (pr_world p) (pr_panics p))
  end.
Definition setupWebhooks : Setup () :=
  exit_on_setup (SetupWebhookWithManager "GoofyCluster") "unable to create webhook GoofyCluster";;;
  exit_on_setup (SetupWebhookWithManager "GoofyMachine") "unable to create webhook GoofyMachine";;;
  exit_on_setup (SetupWebhookWithManager "GoofyMachineTemplate") "unable to create webhook GoofyMachineTemplate".

Definition ctrlOptions (f : Flags) : ManagerOptions := {|
  mo_MetricsBindAddress := fl_metricsBindAddr f;
  mo_LeaderElection := fl_enableLeaderElection f;
  mo_LeaderElectionID := "goofy-controller-leader-election-capi";
  mo_LeaseDuration := fl_leaderElectionLeaseDuration f;
  mo_RenewDeadline := fl_leaderElectionRenewDeadline f;
  mo_RetryPeriod := fl_leaderElectionRetryPeriod f;
  mo_HealthProbeBindAddress := fl_healthAddr f;
  mo_PprofBindAddress := fl_profilerAddress f;
  mo_CacheNamespaces := if decide (fl_watchNamespace f = "") then None else Some [fl_watchNamespace f];
  mo_CacheSyncPeriod := fl_syncPeriod f;
  mo_CacheDisableFor := ["ConfigMap"; "Secret"];
  mo_WebhookPort := fl_webhookPort f;
  mo_WebhookCertDir := fl_webhookCertDir f |}.

(** main, after the flags have been parsed. *)
Definition main (f : Flags) : Setup () :=
  exit_on ValidateAndApply_err "unable to start manager";;;
  let config := mkRestConfig (fl_restConfigQPS f) (fl_restConfigBurst f) in
  exit_on GetConfig_err "unable to get kubeconfig";;;
  exit_on GetTLSOptionOverrideFuncs_err "unable to add TLS settings to the webhook server";;;
  exit_on (NewManager_err config (ctrlOptions f)) "unable to start manager";;;
  record_event (ManagerCreated config (ctrlOptions f));;;
  setupChecks;;;
  setupIndexes;;;
  setupReconcilers f;;;
  setupWebhooks;;;
  record_event ManagerStarted;;;
  exit_on Start_err "problem running manager".
Definition new_process : process := mkProcess [] None None.

(** How the program can end, and what it has done by then: as main does, or, when a
    goroutine was started that panics, at any point from then on. *)
Inductive Ending := Returned | Exited (msg : string) | Crashed.
Inductive ends (f : Flags) : Ending → list Event → option world → Prop :=
| ends_returned p : main f new_process = (inl (), p) → ends f Returned (pr_events p) (pr_world p)
| ends_exited msg p : main f new_process = (inr msg, p) → ends f (Exited msg) (pr_events p) (pr_world p)
| ends_crashed r p n k : main f new_process = (r, p) → pr_panics p = Some n → (n <= k)%nat →
    ends f Crashed (take k (pr_events p)) (pr_world p).
End startup.

(** ** Properties *)
Section facts.
Context {E : Env} {L : EnvLaws E} {CS : CloudScheme E} {TU : ToUnstructured E}.
Context {R : Restful} {AL : ApiLaws E R} {N : Net} {M : Management N} {P : Platform N}.

(** What the manager has when it is started. *)
Definition all_set_up (f : Flags) : list Event := [
  ManagerCreated (mkRestConfig (fl_restConfigQPS f) (fl_restConfigBurst f)) (ctrlOptions f);
  ReadyzCheckAdded "webhook"; HealthzCheckAdded "webhook";
  ControllerAdded (mkControllerSetup "GoofyCluster" (fl_clusterConcurrency f) (fl_watchFilterValue f)
    [mkWatchSetup "Cluster" (ClusterToInfrastructureMapFunc "GoofyCluster") ["ClusterUnpaused"]]);
  ControllerAdded (mkControllerSetup "GoofyMachine" (fl_machineConcurrency f) (fl_watchFilterValue f)
    [mkWatchSetup "Machine" (MachineToInfrastructureMapFunc "GoofyMachine") [];
     mkWatchSetup "GoofyCluster" GoofyClusterToGoofyMachinesFunc [];
     mkWatchSetup "Cluster" (ClusterToObjectsFunc "GoofyMachineList") ["ClusterUnpausedAndInfrastructureReady"]]);
  WebhookAdded "GoofyCluster"; WebhookAdded "GoofyMachine"; WebhookAdded "GoofyMachineTemplate";
  ManagerStarted].

(** The cloud manager that was started. *)
Definition started_cloud : runtime :=
  match Manager_Start false true true true (λ _, true) Manager_New with Done _ r => r | _ => Manager_New end.
Definition started_world : world := mkWorld started_cloud (NewWorkloadClustersMux POD_IP) false [] 0.

Lemma Manager_Start_outcome gc loop sync :
  (∃ err r, Manager_Start false gc loop sync (λ _, true) Manager_New = Done (Some err) r) ∨
  Manager_Start false gc loop sync (λ _, true) Manager_New = Done None started_cloud.
Proof. destruct gc, loop, sync; try (by right); left; by do 2 eexists. Qed.

(** A program that has not started the manager exits with a message. *)
Definition debug_fails : Prop := ∃ err, debug_Listen (HostPort_of POD_IP debugPort) = inr err.
Definition panics_after (n : nat) (p : process) : Prop :=
  ∀ k, pr_panics p = Some k → k = n ∧ (n <= length (pr_events p))%nat ∧ debug_fails.
Definition gave_up f (r : () + string) (p : process) : Prop :=
  ManagerStarted ∉ pr_events p ∧ (∃ msg, r = inr msg) ∧ pr_events p `prefix_of` all_set_up f ∧ panics_after 3 p.
Lemma debug_panics events w : (3 <= length events)%nat → panics_after 3 (mkProcess events w
  match debugServer_Serve (debug_Listen (HostPort_of POD_IP debugPort)) with None => None | Some _ => Some 3%nat end).
Proof.
  intros Hlen k. unfold debug_fails. cbn. destruct (debug_Listen _) as [l|err]; [done|]. intros [= <-].
  split; [done|]. split; [done|by exists err].
Qed.
Ltac gives_up :=
  left; split; [cbn; rewrite ?not_elem_of_cons; repeat split; try done; apply not_elem_of_nil|];
  split; [by eexists|]; split; [eexists; reflexivity|]; first [done|apply debug_panics; cbn; lia].
Ltac on_outcome x := destruct x as [?|] eqn:?; [gives_up|].

Lemma main_outcome f :
  (let (r, p) := main f new_process in gave_up f r p) ∨
  ∃ crash, main f new_process = (match Start_err with None => inl () | Some _ => inr "problem running manager" end,
    mkProcess (all_set_up f) (Some started_world) crash) ∧
    panics_after 3 (mkProcess (all_set_up f) (Some started_world) crash).
Proof.
  unfold main, setup_bind, exit_on, record_event, new_process.
  on_outcome ValidateAndApply_err. on_outcome GetConfig_err.
  on_outcome GetTLSOptionOverrideFuncs_err.
  on_outcome (NewManager_err (mkRestConfig (fl_restConfigQPS f) (fl_restConfigBurst f)) (ctrlOptions f)).
  unfold setupChecks, setup_bind, exit_on, record_event.
  on_outcome AddReadyzCheck_err. on_outcome AddHealthzCheck_err.
  unfold setupIndexes, setup_ret, setupReconcilers, setup_bind.
  destruct (Manager_Start_outcome gcWorkers_up syncLoop_up syncWorkers_up) as [(err & rt & ->)| ->]; [gives_up|].
  unfold exit_on_setup, exit_on, alias_cluster_SetupWithManager, alias_machine_SetupWithManager,
    cluster_SetupWithManager, machine_SetupWithManager, add_controller, concurrency.
  match goal with |- context [Complete_err ?c] => on_outcome (Complete_err c) end.
  on_outcome ClusterToObjectsMapper_err.
  match goal with |- context [Complete_err ?c] => on_outcome (Complete_err c) end.
  unfold setupWebhooks, setup_bind, exit_on_setup, exit_on, SetupWebhookWithManager.
  on_outcome (WebhookComplete_err "GoofyCluster"). on_outcome (WebhookComplete_err "GoofyMachine").
  on_outcome (WebhookComplete_err "GoofyMachineTemplate").
  right. eexists. split; [by destruct Start_err|]. apply debug_panics. cbn. lia.
Qed.

(** The manager is started last. *)
Lemma started_is_last f l : l `prefix_of` all_set_up f → ManagerStarted ∈ l → l = all_set_up f.
Proof.
  intros [l' Hl] Hin. change (all_set_up f) with (take 8 (all_set_up f) ++ [ManagerStarted]) in Hl |- *.
  destruct l' as [|e l' _] using rev_ind; [by rewrite app_nil_r in Hl|].
  rewrite app_assoc in Hl. apply app_inj_tail in Hl as [Hl _]. exfalso.
  assert (Hno : ManagerStarted ∉ take 8 (all_set_up f))
    by (cbn; rewrite ?not_elem_of_cons; repeat split; try done; apply not_elem_of_nil).
  apply Hno. rewrite Hl. apply elem_of_app. by left.
Qed.

Lemma elem_of_take_subset {A} (l : list A) k x : x ∈ take k l → x ∈ l.
Proof. intros Hx. rewrite <- (take_drop k l). apply elem_of_app. by left. Qed.

Lemma started_world_ok : ∃ w', Some started_world = Some w' ∧
  w_APIServerMux w' = NewWorkloadClustersMux POD_IP ∧ w_hotRestartDone w' = false ∧
  rt_started (w_CloudManager w') = true ∧ started (w_cache w') = true ∧ resourceGroups (w_cache w') = ∅ ∧
  is_Some (garbageCollectorQueue (w_cache w')) ∧ is_Some (syncQueue (w_cache w')).
Proof. exists started_world. split_and!; try done; by eexists. Qed.

(** C37: all or nothing.  Whichever library calls fail, the program either starts the
    manager after everything was set up, in order: the cloud manager, whose cache is empty
    with its garbage collector and syncer running, the two controllers with the concurrency
    and the filter of the flags, and the webhooks of the three types; or it exits with a
    message, having done the first steps in that order, and the manager is never started.
    Only if net.Listen fails for the debug server of the mux, an error the code ignores,
    the program can also end without a message, by the panic of the goroutine of that
    server: at any point after the checks were added, and as far as it got, the steps
    were done in that order. *)
Theorem manager_starts_last f o events w :
  ends f o events w →
  events `prefix_of` all_set_up f ∧
  match o with
  | Exited msg =>
      (ManagerStarted ∉ events ∨ events = all_set_up f ∧ msg = "problem running manager")
  | Returned => events = all_set_up f
  | Crashed => (3 <= length events)%nat ∧ debug_fails
  end ∧
  (ManagerStarted ∈ events → events = all_set_up f ∧
   ∃ w', w = Some w' ∧ w_APIServerMux w' = NewWorkloadClustersMux POD_IP ∧ w_hotRestartDone w' = false ∧
     rt_started (w_CloudManager w') = true ∧ started (w_cache w') = true ∧ resourceGroups (w_cache w') = ∅ ∧
     is_Some (garbageCollectorQueue (w_cache w')) ∧ is_Some (syncQueue (w_cache w'))).
Proof.
  intros [p Hrun|msg p Hrun|r p n k Hrun Hn Hk];
    (destruct (main_outcome f) as [H|(crash & H & Hcrash)]; rewrite Hrun in H;
      [destruct H as (Hnot & [m Hm] & Hpre & Hcrash)|]).
  - done.
  - injection H as _ ->. split; [done|]. split; [done|]. intros _. split; [done|apply started_world_ok].
  - split; [done|]. split; [by left|done].
  - injection H as Hr ->. split; [done|]. split; [|intros _; split; [done|apply started_world_ok]].
    right. split; [done|]. destruct Start_err; [by injection Hr|done].
  - destruct (Hcrash n Hn) as (-> & Hlen & Hfails). split; [etrans; [apply prefix_take|exact Hpre]|].
    split; [rewrite length_take; split; [lia|done]|]. intros Hin. exfalso. by apply Hnot, (elem_of_take_subset _ k).
  - injection H as _ ->. destruct (Hcrash n Hn) as (-> & Hlen & Hfails). cbn [pr_events pr_world] in *.
    assert (Hpre : take k (all_set_up f) `prefix_of` all_set_up f) by apply prefix_take.
    split; [done|]. split; [rewrite length_take; split; [lia|done]|]. intros Hin.
    split; [by apply started_is_last|apply started_world_ok].
Qed.

(** C36: from the start to the clients.  From the state in which main has started the
    manager, a new cluster and its machines come to be served, as long as the program
    runs: when the cluster, which has a map of annotations and no endpoint, any number of
    worker machines of it and then a control plane machine are reconciled, where the
    cluster has its infrastructure, the machines have their bootstrap data, and no name is
    empty, nobody listens at the
    endpoint reported for the cluster before the last; and if that one is provisioned
    without an error, a listener was started there, and it answers over HTTP for the
    nodes of these machines, the pods of the control plane machine, the kubeadm role and
    binding, and the kubeadm config map.  It returns unless the key of a CA of the
    cluster is decoded to a key other than RSA. *)
Theorem started_program_serves f r p w :
  main f new_process = (r, p) → ManagerStarted ∈ pr_events p → pr_world p = Some w → serves w.
Proof.
  intros Hmain Hstarted Hw. destruct (main_outcome f) as [H|(crash & H & _)]; rewrite Hmain in H; [by destruct H as [H _]|].
  injection H as _ ->. injection Hw as <-.
  apply (world_serves POD_IP); [apply rtc_refl|intros rg t Ht; discriminate Ht|done].
Qed.
End facts.

(** ** A platform on which everything succeeds *)
Section witness.
Let N : Net := test_net.
Let M : Management test_net := test_management [] [] true.
Local Existing Instance M.
#[local] Instance test_platform : Platform test_net := {|
  POD_IP := "10.0.0.1"; debug_Listen _ := inr "address already in use";
  ValidateAndApply_err := None; GetConfig_err := None; GetTLSOptionOverrideFuncs_err := None;
  NewManager_err _ _ := None; AddReadyzCheck_err := None; AddHealthzCheck_err := None;
  ClusterToObjectsMapper_err := None; Complete_err _ := None; WebhookComplete_err _ := None; Start_err := None;
  gcWorkers_up := true; syncLoop_up := true; syncWorkers_up := true |}.

(** The program can come up, and it can also end by the panic of the debug server. *)
Lemma manager_starts_last_witness :
  (∃ w, pr_world (main InitFlags new_process).2 = Some w ∧ started (w_cache w) = true) ∧ debug_fails.
Proof.
  destruct (main InitFlags new_process) as [r p] eqn:Hrun.
  assert (Hr : r = inl ()) by (change r with (r, p).1; rewrite <- Hrun; reflexivity).
  assert (Hp : pr_panics p = Some 3%nat) by (change p with (r, p).2; rewrite <- Hrun; reflexivity). subst r. split.
  - destruct (manager_starts_last _ _ _ _ (ends_returned _ _ Hrun)) as (_ & Hall & Hw). rewrite Hall in Hw.
    destruct Hw as (_ & w & Hw & _ & _ & _ & Hs & _); [cbn; do 8 apply list_elem_of_further; apply list_elem_of_here|].
    by exists w.
  - destruct (manager_starts_last _ _ _ _ (ends_crashed _ _ _ 3 5 Hrun Hp ltac:(lia))) as (_ & [_ Hfails] & _).
    exact Hfails.
Defined.

Lemma started_program_serves_witness : ∃ w, serves w.
Proof.
  exists started_world.
  apply (started_program_serves InitFlags (main InitFlags new_process).1 (main InitFlags new_process).2 _
    (surjective_pairing _)); [|reflexivity].
  cbn. do 8 apply list_elem_of_further. apply list_elem_of_here.
Defined.
End witness.
